(** * LedgerDesk Mobile: the storage core, embedded and checked

    A shallow embedding of the TypeScript services of the mobile
    bookkeeping application:

    - [Path]        : [mobile/lib/path.ts]
    - [Settings]    : [mobile/lib/settings.ts]
    - [FilterQuery] : [mobile/lib/filter-query.ts]
    - [Paths]       : [mobile/services/paths.service.ts]
    - [Database]    : [mobile/services/database.service.ts]
    - [Backup]      : [mobile/services/backup.service.ts]
    - [Media]       : [mobile/services/media.service.ts]
    - [Bridge]      : [mobile/bridge/bookkeeping-api.ts]
    - [ReceiptCarousel], [PerformanceMode] : [renderer/lib]

    JavaScript strings are [string]s (sequences of 8-bit code units),
    integer amounts are [Z], arrays are [list]s, objects used as
    dictionaries are [gmap]s or, where the iteration order is observable,
    association lists in insertion order.  Code that can throw returns an
    outcome that still carries the state reached when the exception was
    raised, since JavaScript does not undo effects. *)

From Stdlib Require Import ZArith QArith Qabs Qround String Ascii List Lia Bool.
From Stdlib Require Import DecimalString Lqa Sorted.
From stdpp Require Import gmap strings list fin_maps.

Import ListNotations.
Local Open Scope string_scope.
Local Open Scope list_scope.

(** ** JavaScript string primitives *)

Module Js.

Definition slash : ascii := "/"%char.
Definition backslash : ascii := "\"%char.

(** [s.startsWith(p)] *)
Definition startsWith (p s : string) : bool := String.prefix p s.

(** [s.includes(sub)] *)
Fixpoint includes (sub s : string) : bool :=
  String.prefix sub s ||
  match s with
  | EmptyString => false
  | String _ s' => includes sub s'
  end.

Fixpoint rev_string (s : string) : string :=
  match s with
  | EmptyString => EmptyString
  | String c s' => String.append (rev_string s') (String c EmptyString)
  end.

(** [s.endsWith(p)] *)
Definition endsWith (p s : string) : bool :=
  String.prefix (rev_string p) (rev_string s).

(** [s.split(sep)] for a one-character separator: the pieces between
    the separators, empty pieces included. *)
Fixpoint split_aux (sep : ascii) (cur : string) (s : string) : list string :=
  match s with
  | EmptyString => [rev_string cur]
  | String c s' =>
      if Ascii.eqb c sep then rev_string cur :: split_aux sep EmptyString s'
      else split_aux sep (String c cur) s'
  end.

Definition split (sep : ascii) (s : string) : list string :=
  split_aux sep EmptyString s.

(** [parts.join(sep)] *)
Definition join (sep : string) (parts : list string) : string :=
  String.concat sep parts.

(** [s.replace(/c/g, d)] for single characters *)
Fixpoint replaceAll (c d : ascii) (s : string) : string :=
  match s with
  | EmptyString => EmptyString
  | String x s' => String (if Ascii.eqb x c then d else x) (replaceAll c d s')
  end.

(** [s.replace(/^c+/, '')] *)
Fixpoint dropLeading (c : ascii) (s : string) : string :=
  match s with
  | EmptyString => EmptyString
  | String x s' => if Ascii.eqb x c then dropLeading c s' else s
  end.

(** [s.replace(/c+$/, '')] *)
Definition dropTrailing (c : ascii) (s : string) : string :=
  rev_string (dropLeading c (rev_string s)).

(** White space removed by [String.prototype.trim], on 8-bit code units. *)
Definition isSpace (c : ascii) : bool :=
  let n := nat_of_ascii c in
  (Nat.eqb n 32 || Nat.eqb n 9 || Nat.eqb n 10 || Nat.eqb n 11
   || Nat.eqb n 12 || Nat.eqb n 13 || Nat.eqb n 160)%bool.

Fixpoint trimStart (s : string) : string :=
  match s with
  | EmptyString => EmptyString
  | String x s' => if isSpace x then trimStart s' else s
  end.

Definition trim (s : string) : string :=
  rev_string (trimStart (rev_string (trimStart s))).

(** [s.lastIndexOf(c)], [None] for -1 *)
Fixpoint lastIndexOf_aux (c : ascii) (i : nat) (acc : option nat) (s : string)
  : option nat :=
  match s with
  | EmptyString => acc
  | String x s' =>
      lastIndexOf_aux c (S i) (if Ascii.eqb x c then Some i else acc) s'
  end.

Definition lastIndexOf (c : ascii) (s : string) : option nat :=
  lastIndexOf_aux c 0 None s.

(** [s.slice(0, n)] *)
Definition sliceTo (n : nat) (s : string) : string := String.substring 0 n s.

(** [s.slice(n)] *)
Definition sliceFrom (n : nat) (s : string) : string :=
  String.substring n (String.length s - n) s.

(** [s.indexOf(c)], [None] for -1 *)
Fixpoint indexOf_aux (c : ascii) (i : nat) (s : string) : option nat :=
  match s with
  | EmptyString => None
  | String x s' => if Ascii.eqb x c then Some i else indexOf_aux c (S i) s'
  end.

Definition indexOf (c : ascii) (s : string) : option nat := indexOf_aux c 0 s.

(** ASCII lower-casing, for the [i] flag of a regular expression. *)
Definition lowerChar (c : ascii) : ascii :=
  let n := nat_of_ascii c in
  if (Nat.leb 65 n && Nat.leb n 90)%bool then ascii_of_nat (n + 32) else c.

Fixpoint toLower (s : string) : string :=
  match s with
  | EmptyString => EmptyString
  | String x s' => String (lowerChar x) (toLower s')
  end.

(** [/needle/i.test(s)] for a literal, lower-case needle. *)
Definition testIgnoreCase (needle s : string) : bool :=
  includes needle (toLower s).

(** [String(n)] for an integer. *)
Definition ofZ (z : Z) : string :=
  NilZero.string_of_int (Z.to_int z).

(** Truthiness of a string: the empty string is falsy. *)
Definition truthy (s : string) : bool :=
  match s with EmptyString => false | _ => true end.

End Js.

(** ** [mobile/lib/path.ts] *)

Module Path.

(** [trimSlashes]: [value.replace(/^\/+|\/+$/g, '')] *)
Definition trimSlashes (value : string) : string :=
  Js.dropTrailing Js.slash (Js.dropLeading Js.slash value).

(** [joinPath(...parts)].  A [null] or [undefined] part is [None]. *)
Definition joinPath (parts : list (option string)) : string :=
  let filtered :=
    List.map trimSlashes
      (List.flat_map
         (fun part =>
            match part with
            | Some p =>
                if (Js.truthy p && (0 <? String.length (Js.trim p))%nat)%bool
                then [p] else []
            | None => []
            end) parts) in
  Js.join "/" filtered.

(** The loop of [normalizePath] over the non-empty segments, [output]
    kept in reverse (its last element first). *)
Fixpoint normalizeSegments (segments : list string) (output : list string)
  : list string :=
  match segments with
  | [] => List.rev output
  | segment :: rest =>
      if String.eqb segment "." then normalizeSegments rest output
      else if String.eqb segment ".." then
        match output with
        | [] => normalizeSegments rest output
        | _ :: popped => normalizeSegments rest popped
        end
      else normalizeSegments rest (segment :: output)
  end.

Definition normalizePath (input : string) : string :=
  let absolute := Js.startsWith "/" input in
  let segments :=
    List.filter (fun segment => (0 <? String.length segment)%nat)
      (Js.split Js.slash input) in
  let built := Js.join "/" (normalizeSegments segments []) in
  if absolute then String.append "/" built else built.

Definition dirname (input : string) : string :=
  let normalized := normalizePath input in
  match Js.lastIndexOf Js.slash normalized with
  | None => ""
  | Some 0 => ""
  | Some index => Js.sliceTo index normalized
  end.

Definition isUnsafeRelativePath (input : string) : bool :=
  let normalized := normalizePath (Js.replaceAll Js.backslash Js.slash input) in
  (Js.startsWith "/" normalized || Js.includes "../" normalized
   || String.eqb normalized "..")%bool.

Definition ensureTrailingSlash (input : string) : string :=
  if Js.endsWith "/" input then input else String.append input "/".

(** A name as the services make them up for a file or a directory: not
    blank, without a slash, and neither [.] nor [..].  (Not a function
    of [path.ts]: the names on which its functions do what their names
    say.) *)
Definition plainName (name : string) : bool :=
  negb (Js.includes "/" name) && negb (String.eqb (Js.trim name) "")
  && negb (String.eqb name ".") && negb (String.eqb name "..").

End Path.


(** ** Effects: state and exceptions

    A computation runs from a state to either a value or a thrown error,
    and in both cases to the state reached: an exception does not roll
    back what was done before it. *)

Record JsError := mkError { code : option string; message : string }.

Definition Error (msg : string) : JsError := {| code := None; message := msg |}.

Inductive Outcome (S A : Type) : Type :=
| Ok (a : A) (s : S)
| Throw (e : JsError) (s : S).

Arguments Ok {S A} a s.
Arguments Throw {S A} e s.

Definition M (S A : Type) : Type := S -> Outcome S A.

#[global] Instance M_ret {S} : MRet (M S) := fun A a s => Ok a s.

#[global] Instance M_bind {S} : MBind (M S) :=
  fun A B k m s => match m s with
                   | Ok a s' => k a s'
                   | Throw e s' => Throw e s'
                   end.

Definition throw {S A} (e : JsError) : M S A := fun s => Throw e s.

(** [try { m } catch (e) { h e }] *)
Definition tryCatch {S A} (m : M S A) (h : JsError -> M S A) : M S A :=
  fun s => match m s with
           | Ok a s' => Ok a s'
           | Throw e s' => h e s'
           end.

Definition gets {S A} (f : S -> A) : M S A := fun s => Ok (f s) s.
Definition modify {S} (f : S -> S) : M S unit := fun s => Ok tt (f s).

(** [for (const x of xs) { body x }] *)
Fixpoint forOf {S A} (xs : list A) (body : A -> M S unit) : M S unit :=
  match xs with
  | [] => mret tt
  | x :: rest => body x;; forOf rest body
  end.

Definition state_of {S A} (o : Outcome S A) : S :=
  match o with Ok _ s => s | Throw _ s => s end.

Definition is_ok {S A} (o : Outcome S A) : bool :=
  match o with Ok _ _ => true | Throw _ _ => false end.

(** [Uint8Array]: a byte sequence. *)
Definition Uint8Array : Type := string.

(** ** Data model *)

(** A value bound to a statement or stored in a column. *)
Inductive SqlValue :=
| VNull
| VInt (z : Z)
| VText (s : string).

(** A JavaScript value read out of parsed JSON where the code does not
    know its type. *)
Inductive JsVal :=
| JUndefined
| JNull
| JNum (z : Z)
| JStr (s : string).

(** [String(v)], as a template literal renders it. *)
Definition JsVal_toString (v : JsVal) : string :=
  match v with
  | JUndefined => "undefined"
  | JNull => "null"
  | JNum z => Js.ofZ z
  | JStr s => s
  end.

(** A row as the engine hands it out: column names in order, with values. *)
Definition Row : Type := list (string * SqlValue).

Record PurchaseCoreRow := {
  p_id : string;
  p_name : string;
  p_amount_cents : Z;
  p_currency : string;
  p_purchase_date : string;
  p_vendor : option string;
  p_notes : option string;
  p_category_id : option string;
  p_created_at : string;
  p_updated_at : string;
}.

Record TagRow := {
  t_id : string;
  t_name : string;
  t_color_hex : string;
  t_created_at : string;
}.

Record ImageRow := {
  i_id : string;
  i_purchase_id : string;
  i_relative_path : string;
  i_original_name : string;
  i_mime_type : string;
  i_size_bytes : Z;
  i_width : option Z;
  i_height : option Z;
  i_created_at : string;
}.

Record BudgetRow := {
  b_id : string;
  b_category_id : string;
  b_year : Z;
  b_month : Z;
  b_budget_cents : Z;
  b_created_at : string;
  b_updated_at : string;
}.

(** The in-memory database image: the tables the modelled statements
    read and write.  [app_settings] has [key] as primary key. *)
Record Tables := {
  purchases : list PurchaseCoreRow;
  purchase_images : list ImageRow;
  tags : list TagRow;
  purchase_tags : list (string * string);
  monthly_budgets : list BudgetRow;
  app_settings : gmap string string;
}.

Definition emptyTables : Tables :=
  {| purchases := []; purchase_images := []; tags := []; purchase_tags := [];
     monthly_budgets := []; app_settings := ∅ |}.

Definition set_app_settings (f : gmap string string -> gmap string string)
  (t : Tables) : Tables :=
  {| purchases := purchases t; purchase_images := purchase_images t;
     tags := tags t; purchase_tags := purchase_tags t;
     monthly_budgets := monthly_budgets t;
     app_settings := f (app_settings t) |}.

(** [SnapshotMeta] of [paths.service.ts] *)
Record SnapshotMeta := {
  id : string;
  label : string;
  createdAt : string;
  sourceZip : option string;
  isActive : bool;
}.

Definition set_isActive (b : bool) (s : SnapshotMeta) : SnapshotMeta :=
  {| id := id s; label := label s; createdAt := createdAt s;
     sourceZip := sourceZip s; isActive := b |}.

(** [PurchaseFilterInput]: every constraint is optional; [None] is
    [undefined]. *)
Record PurchaseFilterInput := {
  fromDate : option string;
  toDate : option string;
  categoryIds : option (list string);
  vendor : option string;
  minAmountCents : option Z;
  maxAmountCents : option Z;
  tagIds : option (list string);
  query : option string;
  limit : Z;
  offset : Z;
}.

(** [AppSettings] *)
Record AppSettings := {
  theme : string;
  baseCurrency : string;
  overallMonthlyBudgetCents : Z;
  performanceMode : string;
  previewImages : bool;
  lastFilters : PurchaseFilterInput;
}.

(** An own property of an object literal passed as a partial update:
    absent, or present with a value. *)
Inductive Key (A : Type) : Type :=
| Absent
| Present (v : A).

Arguments Absent {A}.
Arguments Present {A} v.

(** [{ ...{k: prior}, ...{k?: update} }.k] *)
Definition spread {A} (prior : A) (update : Key A) : A :=
  match update with
  | Absent => prior
  | Present v => v
  end.

(** The object passed as [input.lastFilters]: which keys it carries. *)
Record FilterPatch := {
  fp_fromDate : Key (option string);
  fp_toDate : Key (option string);
  fp_categoryIds : Key (option (list string));
  fp_vendor : Key (option string);
  fp_minAmountCents : Key (option Z);
  fp_maxAmountCents : Key (option Z);
  fp_tagIds : Key (option (list string));
  fp_query : Key (option string);
  fp_limit : Key Z;
  fp_offset : Key Z;
}.

(** [Partial<AppSettings>] *)
Record SettingsPatch := {
  sp_theme : Key string;
  sp_baseCurrency : Key string;
  sp_overallMonthlyBudgetCents : Key Z;
  sp_performanceMode : Key string;
  sp_previewImages : Key bool;
  sp_lastFilters : option FilterPatch;
}.

(** The archive manifest written by export. *)
Record Manifest := {
  schemaVersion : Z;
  appVersion : string;
  m_createdAt : string;
  datasetId : string;
}.

(** What [JSON.parse] of an archive's manifest yields, as far as the
    code looks at it. *)
Record ManifestValue := {
  mv_schemaVersion : JsVal;
  mv_text : string;
}.

(** A JSZip entry and archive.  [zip.files] keeps insertion order. *)
Record ZipObject := { zdir : bool; zdata : Uint8Array }.

Definition Zip : Type := list (string * ZipObject).

(** The application's directory on the device. *)
Record Fs := { files : gmap string string; dirs : gset string }.

Inductive FtsOutcome :=
| FtsAvailable
| FtsNoSuchModule
| FtsFailure (e : JsError).

(** What parsing the JSON of one table of an archive gives: a syntax
    error, a value that is not an array of row objects, or the rows. *)
Inductive RowsPayload :=
| RowsSyntaxError (e : JsError)
| RowsMisshapen (e : JsError)
| RowsArray (rows : list Row).

(** [dayjs(anchorDate)] as far as the dashboard uses it. *)
Record MonthAnchor := {
  currentMonthStart : string;
  currentMonthEnd : string;
  prevMonthStart : string;
  prevMonthEnd : string;
  anchorYear : Z;
  anchorMonth : Z;
}.

(** [DashboardSummary] *)
Record DashboardSummary := {
  currentMonthSpendCents : Z;
  previousMonthSpendCents : Z;
  monthOverMonthDeltaPercent : Q;
  budgetUsedPercent : Q;
  recentPurchasesCount : Z;
}.

Record ImportValidationResult := {
  valid : bool;
  errors : list string;
  warnings : list string;
  manifest : option ManifestValue;
}.

(** The order in which the plan of a statement hands the rows it
    selects to [ORDER BY].  SQL leaves the order of rows with equal keys
    to the engine; all that is known of it is that no row is dropped and
    none repeated. *)
Record Scan (A : Type) := {
  visit : list A -> list A;
  visit_permutation : forall l : list A, Permutation (visit l) l;
}.

Arguments visit {A} _ _.
Arguments visit_permutation {A} _ _.

(** ** The host

    Everything the services call but the repository does not define:
    the Capacitor file-system plugin (with the calls that reject),
    [nanoid] and the clock, [btoa]/[atob], the SHA-256 digest, sql.js,
    JSZip, [JSON] and dayjs.  The zod schemas of the shared package are
    not among the sources either; each is taken as a validator that
    hands back the value it accepts and throws on the others. *)

Class Host := {
  (** [Filesystem.writeFile], [readFile], [mkdir]: when the promise
      rejects although the path is fine *)
  writeFault : string -> string -> Fs -> option JsError;
  readFault : string -> Fs -> option JsError;
  mkdirFault : string -> Fs -> option JsError;
  (** what [mkdir] rejects with on a directory that exists, if the
      platform rejects that at all, and [readFile] on a file that does
      not exist *)
  existsError : option JsError;
  missingError : JsError;
  (** [nanoid(12)], [new Date().toISOString()] and
      [new Date().toLocaleString()] at the n-th call *)
  nanoid : nat -> string;
  isoNow : nat -> string;
  localeNow : nat -> string;
  (** [btoa], [atob] *)
  btoa : string -> string;
  atob : string -> option string;
  (** [crypto.subtle.digest('SHA-256', bytes)] in hexadecimal *)
  sha256 : Uint8Array -> string;
  (** sql.js: [db.export()], [new SQL.Database(bytes)], whether the
      FTS5 script runs, and the statements whose text is assembled at
      run time by the backup service *)
  db_export : Tables -> Uint8Array;
  db_import : Uint8Array -> option Tables;
  fts5 : FtsOutcome;
  sql_all : string -> list SqlValue -> Tables -> JsError + list Row;
  sql_run : string -> list SqlValue -> Tables -> JsError + Tables;
  (** the [LIKE] operator: pattern, then subject *)
  sql_like : string -> string -> bool;
  (** the order in which the plans of the statements on purchases, on
      pictures and on tags hand their rows to [ORDER BY] *)
  scan_purchases : Scan PurchaseCoreRow;
  scan_images : Scan ImageRow;
  scan_tags : Scan TagRow;
  (** JSZip: [loadAsync] and [generateAsync({type: 'base64'})] *)
  zip_load : Uint8Array -> option Zip;
  zip_generate : Zip -> string;
  (** [JSON.stringify(x, null, 2)] and [JSON.parse] at the types the
      services use them.  [parse_meta] gives the [snapshots] array of
      the parsed object (the empty list when it has none) and [None]
      when parsing throws; [parse_manifest] gives [None] when parsing
      throws or yields [null]. *)
  json_meta : list SnapshotMeta -> string;
  parse_meta : string -> option (list SnapshotMeta);
  json_settings : AppSettings -> string;
  parse_settings : string -> option AppSettings;
  json_manifest : Manifest -> string;
  parse_manifest : string -> option ManifestValue;
  json_checksums : gmap string string -> string;
  parse_checksums : string -> JsError + list (string * string);
  json_rows : list Row -> string;
  parse_rows : string -> RowsPayload;
  (** the schemas of the shared package *)
  appSettings_accepts : AppSettings -> bool;
  purchaseFilter_accepts : PurchaseFilterInput -> bool;
  importValidationResult_accepts : ImportValidationResult -> bool;
  dashboardSummary_accepts : DashboardSummary -> bool;
  zodError : JsError;
  (** [dayjs(anchorDate)], or [dayjs()] at the n-th call *)
  dayjs_anchor : option string -> nat -> MonthAnchor;
}.

(** ** The services' state *)

Record SqliteWasmService := { db : option Tables; dbPath : string }.

Record World := {
  fs : Fs;
  calls : nat;
  store : option SqliteWasmService;
  activeDatasetId : string;
  pickedFiles : gmap string Uint8Array;
  (** [PRAGMA foreign_keys] of the connection that sql.js holds for the
      open database *)
  foreignKeys : bool;
}.

Definition set_fs (f : Fs -> Fs) (w : World) : World :=
  {| fs := f (fs w); calls := calls w; store := store w;
     activeDatasetId := activeDatasetId w; pickedFiles := pickedFiles w;
     foreignKeys := foreignKeys w |}.

Definition set_calls (n : nat) (w : World) : World :=
  {| fs := fs w; calls := n; store := store w;
     activeDatasetId := activeDatasetId w; pickedFiles := pickedFiles w;
     foreignKeys := foreignKeys w |}.

Definition set_store (s : option SqliteWasmService) (w : World) : World :=
  {| fs := fs w; calls := calls w; store := s;
     activeDatasetId := activeDatasetId w; pickedFiles := pickedFiles w;
     foreignKeys := foreignKeys w |}.

Definition set_activeDatasetId (i : string) (w : World) : World :=
  {| fs := fs w; calls := calls w; store := store w;
     activeDatasetId := i; pickedFiles := pickedFiles w;
     foreignKeys := foreignKeys w |}.

Definition set_foreignKeys (on : bool) (w : World) : World :=
  {| fs := fs w; calls := calls w; store := store w;
     activeDatasetId := activeDatasetId w; pickedFiles := pickedFiles w;
     foreignKeys := on |}.

Abbreviation Async := (M World).

(** The empty statement. *)
Definition skip : Async unit := mret tt.

Section Services.

Context `{Host}.

(** *** [@capacitor/filesystem] on [Directory.Data] *)

Definition Filesystem_writeFile (path data : string) : Async unit :=
  fun w =>
    match writeFault path data (fs w) with
    | Some e => Throw e w
    | None =>
        Ok tt (set_fs (fun f => {| files := <[path := data]> (files f);
                                   dirs := dirs f |}) w)
    end.

Definition Filesystem_readFile (path : string) : Async string :=
  fun w =>
    match readFault path (fs w) with
    | Some e => Throw e w
    | None =>
        match files (fs w) !! path with
        | Some data => Ok data w
        | None => Throw missingError w
        end
    end.

(** [mkdir] with [recursive: true] *)
Definition Filesystem_mkdir (path : string) : Async unit :=
  fun w =>
    match mkdirFault path (fs w) with
    | Some e => Throw e w
    | None =>
        if decide (path ∈ dirs (fs w)) then
          match existsError with
          | Some e => Throw e w
          | None => Ok tt w
          end
        else Ok tt (set_fs (fun f => {| files := files f;
                                        dirs := {[path]} ∪ dirs f |}) w)
    end.

Definition Filesystem_stat (path : string) : Async unit :=
  fun w =>
    if decide (is_Some (files (fs w) !! path) \/ path ∈ dirs (fs w))
    then Ok tt w else Throw missingError w.

(** [ensureDir], the same in the three services *)
Definition ensureDir (path : string) : Async unit :=
  tryCatch (Filesystem_mkdir path)
    (fun error =>
       if (match code error with
           | Some c => String.eqb c "OS-PLUG-FILE-0010"
           | None => false
           end
           || Js.testIgnoreCase "already exists" (message error))%bool
       then mret tt
       else throw error).

(** [exists] of [paths.service.ts], [fileExists] of
    [sqlite-wasm.service.ts] *)
Definition exists_ (path : string) : Async bool :=
  tryCatch (Filesystem_stat path;; mret true) (fun _ => mret false).

(** One more call to [nanoid] or to the clock. *)
Definition tick : Async nat :=
  fun w => Ok (calls w) (set_calls (S (calls w)) w).

End Services.

(** ** More of the platform

    What the remaining code calls besides: the schema of the timeline
    query, [Number] applied to a string, [Filesystem.deleteFile], and the
    size of a picture as the browser decodes it. *)

(** [PurchaseTimelineQuery] *)
Record PurchaseTimelineQuery := {
  tq_fromDate : option string;
  tq_toDate : option string;
  tq_limit : Z;
}.

(** A JavaScript number that is a rational, or [NaN]. *)
Definition JsNumber : Type := option Q.

Class Platform := {
  purchaseTimelineQuery_accepts : PurchaseTimelineQuery -> bool;
  (** [Number(s)] *)
  numberOfText : string -> JsNumber;
  (** [Filesystem.deleteFile]: when the promise rejects although the
      file is there *)
  deleteFault : string -> Fs -> option JsError;
  (** [getImageDimensions]: the width and the height the browser finds
      for the picture, [null] for both when it cannot decode it *)
  imageDimensions : string -> string -> option Z * option Z;
}.

Section MoreServices.

Context `{Host} `{Platform}.

Definition Filesystem_deleteFile (path : string) : Async unit :=
  fun w =>
    match deleteFault path (fs w) with
    | Some e => Throw e w
    | None =>
        match files (fs w) !! path with
        | Some _ =>
            Ok tt (set_fs (fun f => {| files := delete path (files f);
                                       dirs := dirs f |}) w)
        | None => Throw missingError w
        end
    end.

End MoreServices.

(** ** Numbers

    Amounts are integers.  A quotient of amounts is an exact rational
    here, where the code computes with IEEE-754 doubles: each of its
    operations is off by at most one part in [2^53] of the result, which
    is enough to move a figure rounded to two decimals to the next
    hundredth (23 / 160 * 100 is 14.375, which rounds to 14.38; in
    doubles it is 14.374999999999998, which rounds to 14.37).  What is
    stated about such figures therefore leaves room for that error, and
    speaks of integers that a double holds exactly. *)

Module Num.

(** [Number.isSafeInteger(n)] *)
Definition isSafeInteger (n : Z) : bool := (Z.abs n <=? 2 ^ 53 - 1)%Z.

(** How far [Number(x.toFixed(2))] is from the exact value [x] of a
    quotient of two safe integers times 100, at most: half a hundredth
    for the two decimals, and the error of the division and of the
    multiplication in doubles, which stays below [|x| / 2^50]. *)
Definition toFixed2Margin (x : Q) : Q :=
  ((1 # 200) + Qabs x * (1 # 2 ^ 50))%Q.

(** [Number(x.toFixed(2))]: the nearest multiple of 1/100, the larger
    in magnitude of two equally near ones. *)
Definition toFixed2 (x : Q) : Q :=
  let n := Qfloor (Qabs x * 100 + (1 # 2))%Q in
  (if Qle_bool 0 x then inject_Z n / 100 else - (inject_Z n / 100))%Q.

Definition min (a b : Q) : Q := if Qle_bool a b then a else b.



End Num.

(** ** [mobile/lib/settings.ts] *)

Module Settings.

Section WithHost.

Context `{Host}.

(** [appSettingsSchema.parse] *)
Definition appSettingsSchema_parse {S} (settings : AppSettings)
  : M S AppSettings :=
  if appSettings_accepts settings then mret settings else throw zodError.

Definition serializeSettings {S} (settings : AppSettings) : M S string :=
  parsed ← appSettingsSchema_parse settings;
  mret (json_settings parsed).

Definition deserializeSettings {S} (raw : string) : M S AppSettings :=
  match parse_settings raw with
  | Some value => appSettingsSchema_parse value
  | None => throw (Error "Unexpected token in JSON")
  end.

End WithHost.

Record BudgetVariance := {
  varianceCents : Z;
  utilizationPercent : Q;
}.

Definition calculateBudgetVariance (budgetCents actualCents : Z)
  : BudgetVariance :=
  {| varianceCents := (budgetCents - actualCents)%Z;
     utilizationPercent :=
       if (budgetCents =? 0)%Z then 0%Q
       else Num.toFixed2
              ((inject_Z actualCents / inject_Z budgetCents) * 100)%Q |}.

Definition defaultSettings : AppSettings :=
  {| theme := "dark";
     baseCurrency := "USD";
     overallMonthlyBudgetCents := 0%Z;
     performanceMode := "off";
     previewImages := true;
     lastFilters :=
       {| fromDate := None; toDate := None; categoryIds := None;
          vendor := None; minAmountCents := None; maxAmountCents := None;
          tagIds := None; query := None; limit := 100%Z; offset := 0%Z |} |}.

End Settings.

(** ** [mobile/lib/filter-query.ts]

    The text of each condition is kept next to its syntax, so that the
    statements of [listPurchases] can be given a meaning. *)

Module FilterQuery.

Inductive Condition :=
| DateFrom
| DateTo
| CategoryIn (placeholders : nat)
| VendorLike
| AmountMin
| AmountMax
| TagsAll (placeholders : nat) (count : nat)
| QueryLike.

(** [xs.map(() => '?').join(',')] *)
Definition placeholderList (n : nat) : string :=
  Js.join "," (List.repeat "?" n).

Definition conditionSql (c : Condition) : string :=
  match c with
  | DateFrom => "p.purchase_date >= ?"
  | DateTo => "p.purchase_date <= ?"
  | CategoryIn n => "p.category_id IN (" +:+ placeholderList n +:+ ")"
  | VendorLike => "lower(coalesce(p.vendor, '')) LIKE lower(?)"
  | AmountMin => "p.amount_cents >= ?"
  | AmountMax => "p.amount_cents <= ?"
  | TagsAll n k =>
      "p.id IN (SELECT purchase_id FROM purchase_tags WHERE tag_id IN ("
      +:+ placeholderList n
      +:+ ") GROUP BY purchase_id HAVING count(DISTINCT tag_id) = "
      +:+ Js.ofZ (Z.of_nat k) +:+ ")"
  | QueryLike =>
      "(lower(p.name) LIKE lower(?) OR lower(coalesce(p.vendor, '')) LIKE lower(?) OR lower(coalesce(p.notes, '')) LIKE lower(?))"
  end.

Record BuiltFilterQuery := {
  conditions : list Condition;
  values : list SqlValue;
}.

(** [whereSql] *)
Definition whereSql (b : BuiltFilterQuery) : string :=
  match conditions b with
  | [] => ""
  | cs => "WHERE " +:+ Js.join " AND " (List.map conditionSql cs)
  end.

(** [if (x)] on an optional string *)
Definition truthyStr (x : option string) : option string :=
  match x with
  | Some s => if Js.truthy s then Some s else None
  | None => None
  end.

(** [if (xs && xs.length > 0)] *)
Definition nonEmpty (x : option (list string)) : option (list string) :=
  match x with
  | Some ((_ :: _) as l) => Some l
  | _ => None
  end.

(** One [if] block of [buildPurchaseFilterSql]: push onto
    [conditions] and [values] when the guard holds. *)
Definition push {A} (guard : option A) (c : A -> Condition)
  (vs : A -> list SqlValue) (b : BuiltFilterQuery) : BuiltFilterQuery :=
  match guard with
  | Some a => {| conditions := conditions b ++ [c a];
                 values := values b ++ vs a |}
  | None => b
  end.

Definition buildPurchaseFilterSql (filters : PurchaseFilterInput)
  : BuiltFilterQuery :=
  let b0 := {| conditions := []; values := [] |} in
  let b1 := push (truthyStr (fromDate filters))
              (fun _ => DateFrom) (fun d => [VText d]) b0 in
  let b2 := push (truthyStr (toDate filters))
              (fun _ => DateTo) (fun d => [VText d]) b1 in
  let b3 := push (nonEmpty (categoryIds filters))
              (fun ids => CategoryIn (length ids))
              (fun ids => List.map VText ids) b2 in
  let b4 := push (truthyStr (vendor filters))
              (fun _ => VendorLike)
              (fun v => [VText ("%" +:+ v +:+ "%")]) b3 in
  let b5 := push (minAmountCents filters)
              (fun _ => AmountMin) (fun a => [VInt a]) b4 in
  let b6 := push (maxAmountCents filters)
              (fun _ => AmountMax) (fun a => [VInt a]) b5 in
  let b7 := push (nonEmpty (tagIds filters))
              (fun ids => TagsAll (length ids) (length ids))
              (fun ids => List.map VText ids) b6 in
  let b8 := push (truthyStr (query filters))
              (fun _ => QueryLike)
              (fun q =>
                 let queryLike := "%" +:+ Js.trim q +:+ "%" in
                 [VText queryLike; VText queryLike; VText queryLike]) b7 in
  b8.

(** A filter that constrains the tags only. *)
Definition onlyTags (ids : list string) (pageLimit pageOffset : Z)
  : PurchaseFilterInput :=
  {| fromDate := None; toDate := None; categoryIds := None; vendor := None;
     minAmountCents := None; maxAmountCents := None; tagIds := Some ids;
     query := None; limit := pageLimit; offset := pageOffset |}.

(** The same constraints with another page. *)
Definition repage (filters : PurchaseFilterInput) (pageLimit pageOffset : Z)
  : PurchaseFilterInput :=
  {| fromDate := fromDate filters; toDate := toDate filters;
     categoryIds := categoryIds filters; vendor := vendor filters;
     minAmountCents := minAmountCents filters;
     maxAmountCents := maxAmountCents filters;
     tagIds := tagIds filters; query := query filters;
     limit := pageLimit; offset := pageOffset |}.

(** The same filter without its tag constraint. *)
Definition withoutTags (filters : PurchaseFilterInput) : PurchaseFilterInput :=
  {| fromDate := fromDate filters; toDate := toDate filters;
     categoryIds := categoryIds filters; vendor := vendor filters;
     minAmountCents := minAmountCents filters;
     maxAmountCents := maxAmountCents filters;
     tagIds := None; query := query filters;
     limit := limit filters; offset := offset filters |}.

End FilterQuery.

(** ** [mobile/services/paths.service.ts] *)

Module Paths.

Definition baseDir : string := "BookkeepingApp".
Definition dataDir : string := Path.joinPath [Some baseDir; Some "data"].
Definition exportsDir : string := Path.joinPath [Some baseDir; Some "exports"].
Definition tempDir : string := Path.joinPath [Some baseDir; Some "temp"].
Definition snapshotsMetaPath : string :=
  Path.joinPath [Some dataDir; Some "snapshots.json"].

Definition getDatasetDir (datasetId : string) : string :=
  Path.joinPath [Some dataDir; Some datasetId].

Definition getDatabasePath (datasetId : string) : string :=
  Path.joinPath [Some (getDatasetDir datasetId); Some "bookkeeping.db"].

Definition getMediaDir (datasetId : string) : string :=
  Path.joinPath [Some (getDatasetDir datasetId); Some "media"].

(** The [map] of [activateSnapshot], with the flag it sets on the way. *)
Fixpoint activateAll (snapshotId : string) (snapshots : list SnapshotMeta)
  : bool * list SnapshotMeta :=
  match snapshots with
  | [] => (false, [])
  | snapshot :: rest =>
      let (found, mapped) := activateAll snapshotId rest in
      if String.eqb (id snapshot) snapshotId
      then (true, set_isActive true snapshot :: mapped)
      else (found, set_isActive false snapshot :: mapped)
  end.

(** The list [addSnapshot] writes. *)
Definition withAdded (input : SnapshotMeta) (setActive : bool)
  (snapshots : list SnapshotMeta) : list SnapshotMeta :=
  List.map (fun item =>
              set_isActive (if setActive then false else isActive item) item)
    snapshots
  ++ [set_isActive setActive input].

(** The snapshot [ensureActiveSnapshot] creates. *)
Definition defaultSnapshot (newId now : string) : SnapshotMeta :=
  {| id := newId; label := "Default Dataset"; createdAt := now;
     sourceZip := None; isActive := true |}.

Section WithHost.

Context `{Host}.

Definition writeSnapshotMeta (payload : list SnapshotMeta) : Async unit :=
  ensureDir (Path.dirname snapshotsMetaPath);;
  Filesystem_writeFile snapshotsMetaPath (json_meta payload).

Definition ensureBaseLayout : Async unit :=
  ensureDir dataDir;;
  ensureDir exportsDir;;
  ensureDir tempDir;;
  present ← exists_ snapshotsMetaPath;
  if (present : bool) then skip else writeSnapshotMeta [].

Definition readSnapshotMeta : Async (list SnapshotMeta) :=
  ensureBaseLayout;;
  tryCatch
    (raw ← Filesystem_readFile snapshotsMetaPath;
     match parse_meta raw with
     | Some snapshots => mret snapshots
     | None => throw (Error "Unexpected token in JSON")
     end)
    (fun _ => mret []).

Definition ensureDatasetLayout (datasetId : string) : Async unit :=
  ensureDir (getDatasetDir datasetId);;
  ensureDir (getMediaDir datasetId).

Definition ensureActiveSnapshot : Async SnapshotMeta :=
  meta ← readSnapshotMeta;
  match List.find isActive meta with
  | Some active =>
      ensureDatasetLayout (id active);;
      mret active
  | None =>
      n ← tick;
      t ← tick;
      let created := defaultSnapshot (nanoid n) (isoNow t) in
      writeSnapshotMeta [created];;
      ensureDatasetLayout (id created);;
      mret created
  end.

Definition getSnapshotList : Async (list SnapshotMeta) :=
  readSnapshotMeta.

Definition activateSnapshot (snapshotId : string) : Async unit :=
  meta ← readSnapshotMeta;
  let (found, snapshots) := activateAll snapshotId meta in
  if negb found
  then throw (Error ("Snapshot " +:+ snapshotId +:+ " does not exist."))
  else
    writeSnapshotMeta snapshots;;
    ensureDatasetLayout snapshotId.

(** [input] carries the fields other than [isActive]. *)
Definition addSnapshot (input : SnapshotMeta) (setActive : bool)
  : Async SnapshotMeta :=
  meta ← readSnapshotMeta;
  let snapshots := withAdded input setActive meta in
  let snapshot := set_isActive setActive input in
  writeSnapshotMeta snapshots;;
  ensureDatasetLayout (id snapshot);;
  mret snapshot.

End WithHost.

(** The metadata record kept in [snapshots.json], as
    [readSnapshotMeta] would hand it out. *)
Definition storedSnapshots `{Host} (w : World) : list SnapshotMeta :=
  match files (fs w) !! snapshotsMetaPath with
  | Some raw =>
      match parse_meta raw with
      | Some snapshots => snapshots
      | None => []
      end
  | None => []
  end.

Definition activeCount (meta : list SnapshotMeta) : nat :=
  length (List.filter isActive meta).

(** Distinct ids, and exactly one snapshot active. *)
Definition WellFormed (meta : list SnapshotMeta) : Prop :=
  List.NoDup (List.map id meta) /\ activeCount meta = 1.

(** A call of one of the three operations that write the record. *)
Inductive Call :=
| EnsureActiveSnapshot
| ActivateSnapshot (snapshotId : string)
| AddSnapshot (input : SnapshotMeta) (setActive : bool).

Definition perform `{Host} (call : Call) : Async unit :=
  match call with
  | EnsureActiveSnapshot => ensureActiveSnapshot;; skip
  | ActivateSnapshot snapshotId => activateSnapshot snapshotId
  | AddSnapshot input setActive => addSnapshot input setActive;; skip
  end.

(** The device after a sequence of calls, each of which may return or
    throw: the next call finds what the one before it left. *)
Fixpoint after `{Host} (calls : list Call) (w : World) : World :=
  match calls with
  | [] => w
  | call :: rest => after rest (state_of (perform call w))
  end.

(** Every snapshot added comes with an id that the record does not hold
    when it is added (as [nanoid] is meant to give). *)
Fixpoint freshCalls `{Host} (calls : list Call) (w : World) : Prop :=
  match calls with
  | [] => True
  | call :: rest =>
      match call with
      | AddSnapshot input _ =>
          ~ In (id input) (List.map id (storedSnapshots w))
      | _ => True
      end
      /\ freshCalls rest (state_of (perform call w))
  end.

End Paths.

(** ** [mobile/lib/base64.ts] *)

Module Base64.

Section WithHost.

Context `{Host}.

Definition bytesToBase64 (bytes : Uint8Array) : string := btoa bytes.

Definition base64ToBytes {S} (base64 : string) : M S Uint8Array :=
  match atob base64 with
  | Some binary => mret binary
  | None => throw (Error "The string to be decoded is not correctly encoded.")
  end.

End WithHost.

Definition normalizeBase64 (input : string) : string :=
  match Js.indexOf ","%char input with
  | Some commaIndex => Js.sliceFrom (commaIndex + 1) input
  | None => input
  end.

End Base64.

(** ** The meaning of the statements of [listPurchases]

    The rows a statement selects, for the [WHERE] clauses that
    [buildPurchaseFilterSql] can produce.  A row is selected when every
    condition is true of it; a comparison with [NULL] is not. *)

Module Sql.

Import FilterQuery.

(** Number of [?] in a condition. *)
Definition arity (c : Condition) : nat :=
  match c with
  | DateFrom | DateTo | VendorLike | AmountMin | AmountMax => 1
  | CategoryIn n => n
  | TagsAll n _ => n
  | QueryLike => 3
  end.

Definition isText (v : SqlValue) : bool :=
  match v with VText _ => true | _ => false end.

Definition textOf (v : SqlValue) : string :=
  match v with VText s => s | _ => "" end.

(** The values bound to a condition have the type its columns are
    compared at. *)
Definition wellBound (c : Condition) (args : list SqlValue) : bool :=
  match c, args with
  | (DateFrom | DateTo | VendorLike), [VText _] => true
  | (AmountMin | AmountMax), [VInt _] => true
  | (CategoryIn n | TagsAll n _), _ =>
      (length args =? n)%nat && forallb isText args
  | QueryLike, [VText _; VText _; VText _] => true
  | _, _ => false
  end.

Definition coalesce (x : option string) : string :=
  match x with Some s => s | None => "" end.

(** [lower(x)], on ASCII letters *)
Definition lower (s : string) : string := Js.toLower s.

Section WithHost.

Context `{Host}.

(** [p.id IN (SELECT purchase_id FROM purchase_tags WHERE tag_id IN
    (ids) GROUP BY purchase_id HAVING count(DISTINCT tag_id) = k)] *)
Definition tagsAllHolds (t : Tables) (ids : list string) (k : nat)
  (p : PurchaseCoreRow) : bool :=
  let group :=
    List.filter
      (fun pt => String.eqb (fst pt) (p_id p)
                 && existsb (String.eqb (snd pt)) ids)
      (purchase_tags t) in
  match group with
  | [] => false
  | _ => (length (List.nodup String.string_dec (List.map snd group)) =? k)%nat
  end.

Definition holds (t : Tables) (c : Condition) (args : list SqlValue)
  (p : PurchaseCoreRow) : bool :=
  match c, args with
  | DateFrom, [VText d] => String.leb d (p_purchase_date p)
  | DateTo, [VText d] => String.leb (p_purchase_date p) d
  | CategoryIn _, _ =>
      match p_category_id p with
      | Some c => existsb (String.eqb c) (List.map textOf args)
      | None => false
      end
  | VendorLike, [VText pat] =>
      sql_like (lower pat) (lower (coalesce (p_vendor p)))
  | AmountMin, [VInt a] => (a <=? p_amount_cents p)%Z
  | AmountMax, [VInt a] => (p_amount_cents p <=? a)%Z
  | TagsAll _ k, _ => tagsAllHolds t (List.map textOf args) k p
  | QueryLike, [VText a; VText b; VText c] =>
      sql_like (lower a) (lower (p_name p))
      || sql_like (lower b) (lower (coalesce (p_vendor p)))
      || sql_like (lower c) (lower (coalesce (p_notes p)))
  | _, _ => false
  end.

End WithHost.

(** A condition with the values bound to its placeholders. *)
Definition Bound : Type := Condition * list SqlValue.

(** Bind the parameters to the placeholders of the [WHERE] clause from
    left to right, and hand back the ones left over. *)
Fixpoint bindWhere (cs : list Condition) (params : list SqlValue)
  : option (list Bound * list SqlValue) :=
  match cs with
  | [] => Some ([], params)
  | c :: cs' =>
      let args := firstn (arity c) params in
      if wellBound c args then
        match bindWhere cs' (skipn (arity c) params) with
        | Some (bound, unbound) => Some ((c, args) :: bound, unbound)
        | None => None
        end
      else None
  end.

Definition bindError : JsError :=
  Error "Wrong number or type of bound values".

Section WithHost.

Context `{Host}.

(** The row passes the [WHERE] clause: the conditions are joined by
    [AND]. *)
Definition selected (t : Tables) (bound : list Bound)
  (p : PurchaseCoreRow) : bool :=
  forallb (fun b => holds t (fst b) (snd b) p) bound.

(** The placeholders of the clause take exactly the values pushed with
    them, whatever follows. *)
Definition Bindable (b : BuiltFilterQuery) (bound : list Bound) : Prop :=
  forall extra,
    bindWhere (conditions b) (values b ++ extra) = Some (bound, extra).

(** What one [if] block of [buildPurchaseFilterSql] contributes. *)
Definition optBound {A} (guard : option A) (c : A -> Condition)
  (vs : A -> list SqlValue) : list Bound :=
  match guard with
  | Some a => [(c a, vs a)]
  | None => []
  end.

(** The conditions of a filter with the values that belong to each. *)
Definition boundOf (filters : PurchaseFilterInput) : list Bound :=
  [] ++ optBound (truthyStr (fromDate filters))
          (fun _ => DateFrom) (fun d => [VText d])
  ++ optBound (truthyStr (toDate filters))
       (fun _ => DateTo) (fun d => [VText d])
  ++ optBound (nonEmpty (categoryIds filters))
       (fun ids => CategoryIn (length ids)) (fun ids => List.map VText ids)
  ++ optBound (truthyStr (vendor filters))
       (fun _ => VendorLike) (fun v => [VText ("%" +:+ v +:+ "%")])
  ++ optBound (minAmountCents filters) (fun _ => AmountMin) (fun a => [VInt a])
  ++ optBound (maxAmountCents filters) (fun _ => AmountMax) (fun a => [VInt a])
  ++ optBound (nonEmpty (tagIds filters))
       (fun ids => TagsAll (length ids) (length ids))
       (fun ids => List.map VText ids)
  ++ optBound (truthyStr (query filters))
       (fun _ => QueryLike)
       (fun q =>
          let queryLike := "%" +:+ Js.trim q +:+ "%" in
          [VText queryLike; VText queryLike; VText queryLike]).

(** The predicate a filter compiles to: the [WHERE] clause of
    [buildPurchaseFilterSql] with its own values bound. *)
Definition matches (t : Tables) (filters : PurchaseFilterInput)
  (p : PurchaseCoreRow) : bool :=
  let built := buildPurchaseFilterSql filters in
  match bindWhere (conditions built) (values built) with
  | Some (bound, []) => selected t bound p
  | _ => false
  end.

(** [SELECT count( * ) AS count FROM purchases p ${whereSql}] *)
Definition countPurchases (cs : list Condition) (params : list SqlValue)
  (t : Tables) : JsError + Z :=
  match bindWhere cs params with
  | Some (bound, []) =>
      inr (Z.of_nat (length (List.filter (selected t bound) (purchases t))))
  | _ => inl bindError
  end.

End WithHost.

Fixpoint insertBy {A} (before : A -> A -> bool) (x : A) (l : list A)
  : list A :=
  match l with
  | [] => [x]
  | y :: l' => if before x y then x :: l else y :: insertBy before x l'
  end.

(** A stable sort, by insertion. *)
Definition sortBy {A} (before : A -> A -> bool) (l : list A) : list A :=
  List.fold_right (insertBy before) [] l.

(** [ORDER BY]: the rows in the order of their keys; rows with equal
    keys stay in the order in which the plan of the statement produced
    them. *)
Definition orderBy {A} (scan : Scan A) (before : A -> A -> bool)
  (l : list A) : list A :=
  sortBy before (visit scan l).

(** [ORDER BY p.purchase_date DESC, p.created_at DESC] *)
Definition newestFirst (a b : PurchaseCoreRow) : bool :=
  String.ltb (p_purchase_date b) (p_purchase_date a)
  || (String.eqb (p_purchase_date a) (p_purchase_date b)
      && String.leb (p_created_at b) (p_created_at a)).

(** [LIMIT l OFFSET o]: a negative limit is no limit, a negative
    offset is none. *)
Definition limitOffset {A} (l o : Z) (rows : list A) : list A :=
  let rest := skipn (Z.to_nat o) rows in
  if (l <? 0)%Z then rest else firstn (Z.to_nat l) rest.

Section WithHost.

Context `{Host}.

(** [SELECT p.* FROM purchases p ${whereSql} ORDER BY p.purchase_date
    DESC, p.created_at DESC LIMIT ? OFFSET ?] *)
Definition pagePurchases (cs : list Condition) (params : list SqlValue)
  (t : Tables) : JsError + list PurchaseCoreRow :=
  match bindWhere cs params with
  | Some (bound, [VInt l; VInt o]) =>
      inr (limitOffset l o
             (orderBy scan_purchases newestFirst
                (List.filter (selected t bound) (purchases t))))
  | _ => inl bindError
  end.

End WithHost.

End Sql.

(** ** [mobile/services/sqlite-wasm.service.ts] and
    [mobile/services/database.service.ts] *)

Module Database.

(** [PurchaseRecord] *)
Record PurchaseRecord := {
  row : PurchaseCoreRow;
  tagsOf : list TagRow;
  imagesOf : list ImageRow;
}.

Record PurchasePage := {
  items : list PurchaseRecord;
  total : Z;
}.

(** [const deltaPercent = ...] of [getDashboardSummary] *)
Definition deltaPercent (current previous : Z) : Q :=
  if (previous =? 0)%Z
  then (if (0 <? current)%Z then 100%Q else 0%Q)
  else ((inject_Z (current - previous) / inject_Z previous) * 100)%Q.

(** The object literal [updateSettings] hands to the schema. *)
Definition mergeFilters (current : PurchaseFilterInput) (patch : FilterPatch)
  : PurchaseFilterInput :=
  {| fromDate := spread (fromDate current) (fp_fromDate patch);
     toDate := spread (toDate current) (fp_toDate patch);
     categoryIds := spread (categoryIds current) (fp_categoryIds patch);
     vendor := spread (vendor current) (fp_vendor patch);
     minAmountCents := spread (minAmountCents current) (fp_minAmountCents patch);
     maxAmountCents := spread (maxAmountCents current) (fp_maxAmountCents patch);
     tagIds := spread (tagIds current) (fp_tagIds patch);
     query := spread (query current) (fp_query patch);
     limit := spread (limit current) (fp_limit patch);
     offset := spread (offset current) (fp_offset patch) |}.

Definition mergeSettings (current : AppSettings) (input : SettingsPatch)
  : AppSettings :=
  {| theme := "dark";
     baseCurrency := spread (baseCurrency current) (sp_baseCurrency input);
     overallMonthlyBudgetCents :=
       spread (overallMonthlyBudgetCents current)
         (sp_overallMonthlyBudgetCents input);
     performanceMode :=
       spread (performanceMode current) (sp_performanceMode input);
     previewImages := spread (previewImages current) (sp_previewImages input);
     lastFilters :=
       match sp_lastFilters input with
       | Some patch => mergeFilters (lastFilters current) patch
       | None => lastFilters current
       end |}.

(** [{ ...parsed, theme: 'dark' }] *)
Definition withDarkTheme (parsed : AppSettings) : AppSettings :=
  {| theme := "dark";
     baseCurrency := baseCurrency parsed;
     overallMonthlyBudgetCents := overallMonthlyBudgetCents parsed;
     performanceMode := performanceMode parsed;
     previewImages := previewImages parsed;
     lastFilters := lastFilters parsed |}.

(** [mapPurchase]: the tags joined to the purchase by name, its
    images by creation time. *)
Definition mapPurchase `{Host} (t : Tables) (r : PurchaseCoreRow)
  : PurchaseRecord :=
  {| row := r;
     tagsOf :=
       Sql.orderBy scan_tags
         (fun a b => String.leb (t_name a) (t_name b))
         (List.flat_map
            (fun tag =>
               List.map (fun _ => tag)
                 (List.filter
                    (fun pt => String.eqb (snd pt) (t_id tag)
                               && String.eqb (fst pt) (p_id r))
                    (purchase_tags t)))
            (tags t));
     imagesOf :=
       Sql.orderBy scan_images
         (fun a b => String.leb (i_created_at a) (i_created_at b))
         (List.filter (fun i => String.eqb (i_purchase_id i) (p_id r))
            (purchase_images t)) |}.

(** [SELECT coalesce(sum(amount_cents), 0) FROM purchases WHERE
    purchase_date >= ? AND purchase_date <= ?] *)
Definition sumAmount (fromDate toDate : string) (t : Tables) : Z :=
  List.fold_right Z.add 0%Z
    (List.map p_amount_cents
       (List.filter
          (fun p => String.leb fromDate (p_purchase_date p)
                    && String.leb (p_purchase_date p) toDate)
          (purchases t))).


Definition liftE {S A} (r : JsError + A) : M S A :=
  match r with
  | inl e => throw e
  | inr a => mret a
  end.

Section WithHost.

Context `{Host}.

Definition ensureStore : Async SqliteWasmService :=
  fun w => match store w with
           | Some s => Ok s w
           | None => Throw (Error "Database store is not initialized.") w
           end.

(** The guard [if (!this.db) throw] of the engine's methods. *)
Definition theDb : Async Tables :=
  s ← ensureStore;
  match db s with
  | Some t => mret t
  | None => throw (Error "Database is not open")
  end.

Definition putDb (t : Tables) : Async unit :=
  modify (fun w =>
            set_store
              (option_map (fun s => {| db := Some t; dbPath := dbPath s |})
                 (store w)) w).

(** [this.exec('PRAGMA foreign_keys = ON;')] *)
Definition pragmaForeignKeys (on : bool) : Async unit :=
  theDb;;
  modify (set_foreignKeys on).

(** [SqliteWasmService.open]: a connection made by [new SQL.Database]
    has its foreign keys switched off until the pragma is run. *)
Definition sqlite_open : Async unit :=
  s ← ensureStore;
  present ← exists_ (dbPath s);
  (if (present : bool) then
     file ← Filesystem_readFile (dbPath s);
     bytes ← Base64.base64ToBytes (Base64.normalizeBase64 file);
     match db_import bytes with
     | Some t => putDb t
     | None => throw (Error "file is not a database")
     end
   else putDb emptyTables);;
  pragmaForeignKeys true;;
  theDb;;
  skip.

(** [SqliteWasmService.close] on [this.store?] *)
Definition sqlite_close : Async unit :=
  modify (fun w =>
            set_store
              (option_map (fun s => {| db := None; dbPath := dbPath s |})
                 (store w)) w).

(** [SqliteWasmService.persist].  [db.export()] of sql.js closes the
    connection and opens it again on the bytes it hands out, which puts
    every pragma back to its default: from then on the foreign keys are
    switched off. *)
Definition persist : Async unit :=
  s ← ensureStore;
  match db s with
  | None => throw (Error "Database is not open")
  | Some t =>
      modify (set_foreignKeys false);;
      Filesystem_writeFile (dbPath s) (Base64.bytesToBase64 (db_export t))
  end.

(** The script begins with [PRAGMA foreign_keys = ON]; its DDL is
    [IF NOT EXISTS] throughout and leaves the rows alone. *)
Definition runMigrations : Async unit :=
  pragmaForeignKeys true;;
  match fts5 with
  | FtsAvailable => skip
  | FtsNoSuchModule => skip
  | FtsFailure error => throw error
  end.

Definition ensureDefaultSettings : Async unit :=
  t ← theDb;
  match app_settings t !! "app" with
  | Some _ => skip
  | None =>
      ensureStore;;
      raw ← Settings.serializeSettings Settings.defaultSettings;
      t' ← theDb;
      putDb (set_app_settings (fun m => <["app" := raw]> m) t');;
      persist
  end.

Definition newStore (datasetId : string) : Async unit :=
  modify (set_store
            (Some {| db := None;
                     dbPath := Paths.getDatabasePath datasetId |})).

Definition init : Async unit :=
  active ← Paths.ensureActiveSnapshot;
  modify (set_activeDatasetId (id active));;
  newStore (id active);;
  sqlite_open;;
  runMigrations;;
  ensureDefaultSettings;;
  persist.

Definition getActiveDatasetId : Async string := gets activeDatasetId.

Definition getActiveMediaRoot : Async string :=
  gets (fun w => Paths.getMediaDir (activeDatasetId w)).

Definition switchSnapshot (snapshotId : string) : Async unit :=
  Paths.activateSnapshot snapshotId;;
  sqlite_close;;
  modify (set_activeDatasetId snapshotId);;
  newStore snapshotId;;
  sqlite_open;;
  runMigrations;;
  ensureDefaultSettings;;
  persist.

Definition getSettings : Async AppSettings :=
  t ← theDb;
  match app_settings t !! "app" with
  | None => mret Settings.defaultSettings
  | Some value_json =>
      tryCatch
        (parsed ← Settings.deserializeSettings value_json;
         mret (withDarkTheme parsed))
        (fun _ => mret Settings.defaultSettings)
  end.

Definition updateSettings (input : SettingsPatch) : Async AppSettings :=
  current ← getSettings;
  next ← Settings.appSettingsSchema_parse (mergeSettings current input);
  ensureStore;;
  raw ← Settings.serializeSettings next;
  t ← theDb;
  putDb (set_app_settings (fun m => <["app" := raw]> m) t);;
  persist;;
  mret next.

Definition addSnapshot (label : string) (sourceZip : option string)
  (setActive : bool) : Async SnapshotMeta :=
  n ← tick;
  now ← tick;
  Paths.addSnapshot
    {| id := nanoid n; label := label; createdAt := isoNow now;
       sourceZip := sourceZip; isActive := setActive |}
    setActive.

(** [purchaseFilterInputSchema.parse] *)
Definition purchaseFilterInputSchema_parse (input : PurchaseFilterInput)
  : Async PurchaseFilterInput :=
  if purchaseFilter_accepts input then mret input else throw zodError.

Definition listPurchases (input : PurchaseFilterInput)
  : Async PurchasePage :=
  filters ← purchaseFilterInputSchema_parse input;
  let built := FilterQuery.buildPurchaseFilterSql filters in
  t ← theDb;
  count ← liftE (Sql.countPurchases (FilterQuery.conditions built)
                   (FilterQuery.values built) t);
  t' ← theDb;
  rows ← liftE (Sql.pagePurchases (FilterQuery.conditions built)
                  (FilterQuery.values built
                   ++ [VInt (limit filters); VInt (offset filters)]) t');
  mret {| items := List.map (mapPurchase t') rows; total := count |}.

Definition sumAmountBetween (fromDate toDate : string) : Async Z :=
  t ← theDb;
  mret (sumAmount fromDate toDate t).

Definition getDashboardSummary (anchorDate : option string)
  : Async DashboardSummary :=
  now ← match FilterQuery.truthyStr anchorDate with
        | Some d => mret (dayjs_anchor (Some d) 0)
        | None => n ← tick; mret (dayjs_anchor None n)
        end;
  current ← sumAmountBetween (currentMonthStart now) (currentMonthEnd now);
  previous ← sumAmountBetween (prevMonthStart now) (prevMonthEnd now);
  let delta := deltaPercent current previous in
  t ← theDb;
  let categoryBudgetTotal :=
    List.fold_right Z.add 0%Z
      (List.map b_budget_cents
         (List.filter
            (fun b => (b_year b =? anchorYear now)%Z
                      && (b_month b =? anchorMonth now)%Z)
            (monthly_budgets t))) in
  settings ← getSettings;
  let effectiveBudgetCents :=
    if (0 <? overallMonthlyBudgetCents settings)%Z
    then overallMonthlyBudgetCents settings
    else categoryBudgetTotal in
  let used :=
    if (effectiveBudgetCents =? 0)%Z then 0%Q
    else Num.min 999
           (Num.toFixed2
              ((inject_Z current / inject_Z effectiveBudgetCents) * 100)%Q) in
  t' ← theDb;
  let recentCount :=
    Z.of_nat
      (length (List.filter
                 (fun p => String.leb (currentMonthStart now)
                             (p_purchase_date p))
                 (purchases t'))) in
  let summary :=
    {| currentMonthSpendCents := current;
       previousMonthSpendCents := previous;
       monthOverMonthDeltaPercent := Num.toFixed2 delta;
       budgetUsedPercent := used;
       recentPurchasesCount := recentCount |} in
  if dashboardSummary_accepts summary then mret summary
  else throw zodError.


Definition rawAll (sql : string) (params : list SqlValue)
  : Async (list Row) :=
  t ← theDb;
  liftE (sql_all sql params t).

Definition rawRun (sql : string) (params : list SqlValue) : Async unit :=
  t ← theDb;
  t' ← liftE (sql_run sql params t);
  putDb t'.

Definition persistRaw : Async unit := persist.

End WithHost.

(** *** The rest of the service *)

Definition with_purchases (rows : list PurchaseCoreRow) (t : Tables) : Tables :=
  {| purchases := rows; purchase_images := purchase_images t;
     tags := tags t; purchase_tags := purchase_tags t;
     monthly_budgets := monthly_budgets t; app_settings := app_settings t |}.

Definition with_purchase_images (rows : list ImageRow) (t : Tables) : Tables :=
  {| purchases := purchases t; purchase_images := rows;
     tags := tags t; purchase_tags := purchase_tags t;
     monthly_budgets := monthly_budgets t; app_settings := app_settings t |}.

Definition with_tags (rows : list TagRow) (t : Tables) : Tables :=
  {| purchases := purchases t; purchase_images := purchase_images t;
     tags := rows; purchase_tags := purchase_tags t;
     monthly_budgets := monthly_budgets t; app_settings := app_settings t |}.

Definition with_purchase_tags (rows : list (string * string)) (t : Tables)
  : Tables :=
  {| purchases := purchases t; purchase_images := purchase_images t;
     tags := tags t; purchase_tags := rows;
     monthly_budgets := monthly_budgets t; app_settings := app_settings t |}.

(** [DELETE FROM purchases WHERE id = ?]: the purchase goes.  With the
    foreign keys switched on, the rows of [purchase_images] and
    [purchase_tags] that refer to it go with it ([ON DELETE CASCADE]);
    with the foreign keys switched off they stay. *)
Definition deletePurchaseRows (enforced : bool) (purchaseId : string)
  (t : Tables) : Tables :=
  {| purchases :=
       List.filter (fun p => negb (String.eqb (p_id p) purchaseId))
         (purchases t);
     purchase_images :=
       if enforced then
         List.filter (fun i => negb (String.eqb (i_purchase_id i) purchaseId))
           (purchase_images t)
       else purchase_images t;
     tags := tags t;
     purchase_tags :=
       if enforced then
         List.filter (fun pt => negb (String.eqb (fst pt) purchaseId))
           (purchase_tags t)
       else purchase_tags t;
     monthly_budgets := monthly_budgets t;
     app_settings := app_settings t |}.

(** [INSERT INTO purchase_images (...) VALUES (...)]: the id is the
    primary key, and with the foreign keys switched on the purchase has
    to exist. *)
Definition insertImage (enforced : bool) (r : ImageRow) (t : Tables)
  : JsError + Tables :=
  if existsb (fun i => String.eqb (i_id i) (i_id r)) (purchase_images t)
  then inl (Error "UNIQUE constraint failed: purchase_images.id")
  else if enforced
          && negb (existsb (fun p => String.eqb (p_id p) (i_purchase_id r))
                     (purchases t))
  then inl (Error "FOREIGN KEY constraint failed")
  else inr (with_purchase_images (purchase_images t ++ [r]) t).

(** [row[key]] *)
Definition field (r : Row) (key : string) : option SqlValue :=
  option_map snd (List.find (fun kv => String.eqb (fst kv) key) r).

(** [String(v)] *)
Definition text (v : option SqlValue) : string :=
  match v with
  | Some (VInt z) => Js.ofZ z
  | Some (VText s) => s
  | Some VNull => "null"
  | None => "undefined"
  end.

(** [v ? ... : ...] *)
Definition truthyValue (v : option SqlValue) : bool :=
  match v with
  | Some (VInt z) => negb (z =? 0)%Z
  | Some (VText s) => Js.truthy s
  | Some VNull | None => false
  end.


(** [CategoryBreakdownPoint] *)
Record CategoryBreakdownPoint := {
  cb_categoryId : option string;
  cb_categoryName : string;
  cb_colorHex : string;
  cb_amountCents : JsNumber;
  cb_percentage : Q;
}.

(** [a + b] on numbers *)
Definition plus (a b : JsNumber) : JsNumber :=
  match a, b with
  | Some x, Some y => Some (x + y)%Q
  | _, _ => None
  end.

Definition categoryBreakdownSql : string :=
  "
      SELECT
        c.id AS category_id,
        coalesce(c.name, 'Uncategorized') AS category_name,
        coalesce(c.color_hex, '#737373') AS color_hex,
        sum(p.amount_cents) AS amount_cents
      FROM purchases p
      LEFT JOIN categories c ON c.id = p.category_id
      WHERE p.purchase_date >= ? AND p.purchase_date <= ?
      GROUP BY c.id, c.name, c.color_hex
      ORDER BY amount_cents DESC
      ".

Section Rest.

Context `{Host} `{Platform}.

(** [DatabaseService.close] *)
Definition close : Async unit :=
  sqlite_close;;
  modify (set_store None).

Definition getActiveDatabasePath : Async string :=
  gets (fun w => Paths.getDatabasePath (activeDatasetId w)).

Definition listSnapshots : Async (list SnapshotMeta) := Paths.getSnapshotList.

(** [SELECT * FROM purchases WHERE id = ? LIMIT 1] *)
Definition getPurchase (purchaseId : string) : Async (option PurchaseRecord) :=
  t ← theDb;
  match List.find (fun p => String.eqb (p_id p) purchaseId) (purchases t) with
  | None => mret None
  | Some r =>
      t' ← theDb;
      mret (Some (mapPurchase t' r))
  end.

Definition getPurchaseOrThrow (purchaseId : string) : Async PurchaseRecord :=
  found ← getPurchase purchaseId;
  match found with
  | None => throw (Error ("Purchase " +:+ purchaseId +:+ " not found"))
  | Some p => mret p
  end.

Definition deletePurchase (purchaseId : string) : Async unit :=
  t ← theDb;
  enforced ← gets foreignKeys;
  putDb (deletePurchaseRows enforced purchaseId t);;
  persist.

(** The [WHERE] clause of [listTimeline], of the same two conditions
    as the first two of [buildPurchaseFilterSql]. *)
Definition inTimeline (parsed : PurchaseTimelineQuery) (p : PurchaseCoreRow)
  : bool :=
  match FilterQuery.truthyStr (tq_fromDate parsed) with
  | Some d => String.leb d (p_purchase_date p)
  | None => true
  end
  && match FilterQuery.truthyStr (tq_toDate parsed) with
     | Some d => String.leb (p_purchase_date p) d
     | None => true
     end.

(** [SELECT * FROM purchases ${whereSql} ORDER BY purchase_date DESC,
    created_at DESC LIMIT ?] *)
Definition listTimeline (query : PurchaseTimelineQuery)
  : Async (list PurchaseRecord) :=
  parsed ← (if purchaseTimelineQuery_accepts query then mret query
            else throw zodError);
  t ← theDb;
  let rows :=
    Sql.limitOffset (tq_limit parsed) 0
      (Sql.orderBy scan_purchases Sql.newestFirst
         (List.filter (inTimeline parsed) (purchases t))) in
  mret (List.map (mapPurchase t) rows).

(** [SELECT * FROM purchase_images WHERE purchase_id = ? ORDER BY
    created_at ASC] *)
Definition listImagesByPurchase (purchaseId : string)
  : Async (list ImageRow) :=
  t ← theDb;
  mret (Sql.orderBy scan_images
          (fun a b => String.leb (i_created_at a) (i_created_at b))
          (List.filter (fun i => String.eqb (i_purchase_id i) purchaseId)
             (purchase_images t))).

(** [record] carries the fields other than [createdAt]. *)
Definition addImageRecord (record : ImageRow) : Async unit :=
  ensureStore;;
  now ← tick;
  t ← theDb;
  enforced ← gets foreignKeys;
  t' ← liftE (insertImage enforced
                {| i_id := i_id record;
                   i_purchase_id := i_purchase_id record;
                   i_relative_path := i_relative_path record;
                   i_original_name := i_original_name record;
                   i_mime_type := i_mime_type record;
                   i_size_bytes := i_size_bytes record;
                   i_width := i_width record;
                   i_height := i_height record;
                   i_created_at := isoNow now |} t);
  putDb t';;
  persist.

Definition removeImageRecord (imageId : string) : Async (option ImageRow) :=
  t ← theDb;
  match List.find (fun i => String.eqb (i_id i) imageId) (purchase_images t) with
  | None => mret None
  | Some r =>
      t' ← theDb;
      putDb (with_purchase_images
               (List.filter (fun i => negb (String.eqb (i_id i) imageId))
                  (purchase_images t')) t');;
      persist;;
      mret (Some r)
  end.

(** [Number(v)] *)
Definition number (v : option SqlValue) : JsNumber :=
  match v with
  | Some (VInt z) => Some (inject_Z z)
  | Some (VText s) => numberOfText s
  | Some VNull => Some 0%Q
  | None => None
  end.



Definition deleteTag (tagId : string) : Async unit :=
  t ← theDb;
  putDb (with_purchase_tags
           (List.filter (fun pt => negb (String.eqb (snd pt) tagId))
              (purchase_tags t)) t);;
  t' ← theDb;
  putDb (with_tags
           (List.filter (fun x => negb (String.eqb (t_id x) tagId)) (tags t'))
           t');;
  persist.

(** [SELECT * FROM tags ORDER BY name ASC] *)
Definition listTags : Async (list TagRow) :=
  t ← theDb;
  mret (Sql.orderBy scan_tags
          (fun a b => String.leb (t_name a) (t_name b)) (tags t)).

(** The total of [getCategoryBreakdown]: [rows.reduce(...)] *)
Definition breakdownTotal (rows : list Row) : JsNumber :=
  List.fold_left (fun sum r => plus sum (number (field r "amount_cents")))
    rows (Some 0%Q).

(** The share of one row: [NaN] cannot be compared, and a total that
    is positive has no [NaN] among its terms. *)
Definition breakdownPoint (total : JsNumber) (r : Row)
  : CategoryBreakdownPoint :=
  {| cb_categoryId :=
       if truthyValue (field r "category_id")
       then Some (text (field r "category_id")) else None;
     cb_categoryName := text (field r "category_name");
     cb_colorHex := text (field r "color_hex");
     cb_amountCents := number (field r "amount_cents");
     cb_percentage :=
       match total, number (field r "amount_cents") with
       | Some sum, Some amount =>
           if negb (Qle_bool sum 0)
           then Num.toFixed2 ((amount / sum) * 100)%Q
           else 0%Q
       | _, _ => 0%Q
       end |}.

Definition getCategoryBreakdown (fromDate toDate : string)
  : Async (list CategoryBreakdownPoint) :=
  rows ← rawAll categoryBreakdownSql [VText fromDate; VText toDate];
  let total := breakdownTotal rows in
  mret (List.map (breakdownPoint total) rows).

End Rest.

End Database.

(** ** [mobile/services/backup.service.ts] *)

Module Backup.

Definition EXPORT_TABLES : list string :=
  ["categories"; "tags"; "purchases"; "purchase_images"; "purchase_tags";
   "monthly_budgets"; "ocr_extractions"; "app_settings";
   "dataset_snapshots"].

Definition IMPORT_TABLES : list string := EXPORT_TABLES.
Definition CSV_TABLES : list string := EXPORT_TABLES.

Definition dquote : ascii := ascii_of_nat 34.

(** The [replace] of [toCsvCell]: every double quote is doubled. *)
Fixpoint doubleQuotes (value : string) : string :=
  match value with
  | EmptyString => EmptyString
  | String c rest =>
      if Ascii.eqb c dquote then String dquote (String dquote (doubleQuotes rest))
      else String c (doubleQuotes rest)
  end.

Definition toCsvCell (value : string) : string :=
  String dquote (doubleQuotes value +:+ String dquote EmptyString).

(** [row[key]] *)
Definition column (r : Row) (key : string) : option SqlValue :=
  option_map snd (List.find (fun kv => String.eqb (fst kv) key) r).

(** [String(row[key] ?? '')] *)
Definition cellText (r : Row) (key : string) : string :=
  match column r key with
  | Some (VInt z) => Js.ofZ z
  | Some (VText s) => s
  | Some VNull | None => ""
  end.

(** [String(row[key])] *)
Definition columnText (r : Row) (key : string) : string :=
  match column r key with
  | Some (VInt z) => Js.ofZ z
  | Some (VText s) => s
  | Some VNull => "null"
  | None => "undefined"
  end.

Definition crlf : string :=
  String (ascii_of_nat 13) (String (ascii_of_nat 10) EmptyString).

Definition toCsv (rows : list Row) : string :=
  match rows with
  | [] => ""
  | first :: _ =>
      let headers := List.map fst first in
      let headerRow := Js.join "," (List.map toCsvCell headers) in
      let body :=
        List.map
          (fun r =>
             Js.join "," (List.map (fun key => toCsvCell (cellText r key))
                            headers))
          rows in
      Js.join crlf (headerRow :: body)
  end.

(** [zip.file(name)]: the entry of that name unless it is a folder. *)
Definition zip_file (name : string) (zip : Zip) : option ZipObject :=
  match List.find (fun e => String.eqb (fst e) name) zip with
  | Some (_, o) => if zdir o then None else Some o
  | None => None
  end.

(** [zip.file(name, data)]: a key that exists keeps its place.  (JSZip
    also records the folders on the way to the file; they carry no data
    and are left out.) *)
Fixpoint zip_put (name : string) (data : Uint8Array) (zip : Zip) : Zip :=
  match zip with
  | [] => [(name, {| zdir := false; zdata := data |})]
  | (n, o) :: rest =>
      if String.eqb n name
      then (n, {| zdir := false; zdata := data |}) :: rest
      else (n, o) :: zip_put name data rest
  end.

(** The archive under construction: [zip] and [checksums]. *)
Definition Archive : Type := Zip * gmap string string.

(** [for (const x of xs)] over local variables kept in [acc]. *)
Fixpoint foldOf {S A B} (xs : list A) (body : B -> A -> M S B) (acc : B)
  : M S B :=
  match xs with
  | [] => mret acc
  | x :: rest => acc' ← body acc x; foldOf rest body acc'
  end.

Record ExportRequest := { destinationPath : option string }.
Record ImportRequest := { zipPath : string; importLabel : option string }.

(** [iso.replace(/[:.]/g, '-')] *)
Definition fileStamp (iso : string) : string :=
  Js.replaceAll "."%char "-"%char (Js.replaceAll ":"%char "-"%char iso).

Section WithHost.

Context `{Host}.

Definition sha256Hex (bytes : Uint8Array) : string := sha256 bytes.

(** [zip.file(path, bytes); checksums[path] = await sha256Hex(bytes)] *)
Definition addEntry (path : string) (bytes : Uint8Array) (a : Archive)
  : Archive :=
  (zip_put path bytes (fst a), <[path := sha256Hex bytes]> (snd a)).

Definition readZipBytes (zipPath : string) : Async Uint8Array :=
  if Js.startsWith "picked://" zipPath then
    picked ← gets (fun w => pickedFiles w !! zipPath);
    match picked with
    | Some file => mret file
    | None => throw (Error "Selected ZIP token no longer exists.")
    end
  else
    raw ← Filesystem_readFile zipPath;
    Base64.base64ToBytes (Base64.normalizeBase64 raw).

Definition loadAsync (bytes : Uint8Array) : Async Zip :=
  match zip_load bytes with
  | Some zip => mret zip
  | None => throw (Error "Can't find end of central directory")
  end.

(** The body of [exportZip] from the manifest to [checksums.json]. *)
Definition assembleArchive : Async Archive :=
  now ← tick;
  datasetId ← Database.getActiveDatasetId;
  let manifest :=
    {| schemaVersion := 1; appVersion := "1.0.0";
       m_createdAt := isoNow now; datasetId := datasetId |} in
  let manifestBytes := json_manifest manifest in
  let a0 := addEntry "manifest.json" manifestBytes ([], ∅) in
  a1 ← foldOf EXPORT_TABLES
         (fun a table =>
            rows ← Database.rawAll ("SELECT * FROM " +:+ table) [];
            mret (addEntry ("json/" +:+ table +:+ ".json") (json_rows rows) a))
         a0;
  a2 ← foldOf CSV_TABLES
         (fun a table =>
            rows ← Database.rawAll ("SELECT * FROM " +:+ table) [];
            mret (addEntry ("csv/" +:+ table +:+ ".csv") (toCsv rows) a))
         a1;
  mediaRows ← Database.rawAll
    "SELECT relative_path FROM purchase_images ORDER BY created_at ASC" [];
  a3 ← foldOf mediaRows
         (fun a r =>
            let relativePath := columnText r "relative_path" in
            root ← Database.getActiveMediaRoot;
            let absolutePath := Path.joinPath [Some root; Some relativePath] in
            mediaFile ← Filesystem_readFile absolutePath;
            mediaBytes ← Base64.base64ToBytes (Base64.normalizeBase64 mediaFile);
            let zipPath :=
              "media/" +:+ Js.replaceAll Js.backslash Js.slash relativePath in
            mret (addEntry zipPath mediaBytes a))
         a2;
  let checksumsBytes := json_checksums (snd a3) in
  mret (zip_put "checksums.json" checksumsBytes (fst a3), snd a3).

Definition exportZip (request : ExportRequest) : Async string :=
  destination ←
    match destinationPath request with
    | Some d => mret d
    | None =>
        now ← tick;
        mret (Path.joinPath
                [Some Paths.exportsDir;
                 Some ("bookkeeping-export-" +:+ fileStamp (isoNow now)
                       +:+ ".zip")])
    end;
  ensureDir (Path.dirname destination);;
  archive ← assembleArchive;
  Filesystem_writeFile destination (zip_generate (fst archive));;
  mret destination.

(** The loop of [validateZip] over the expected digests. *)
Definition checkDigests (zip : Zip) (expected : list (string * string))
  : list string :=
  List.flat_map
    (fun e =>
       match zip_file (fst e) zip with
       | None => ["Missing expected file " +:+ fst e +:+ "."]
       | Some entry =>
           if String.eqb (sha256Hex (zdata entry)) (snd e) then []
           else ["Checksum mismatch for " +:+ fst e +:+ "."]
       end)
    expected.

Definition includesName (name : string) (entries : list string) : bool :=
  existsb (String.eqb name) entries.

Definition isEmpty {A} (l : list A) : bool :=
  match l with [] => true | _ => false end.

Definition validateZip (zipPath : string) : Async ImportValidationResult :=
  read ← tryCatch (bytes ← readZipBytes zipPath; mret (Some bytes))
            (fun _ => mret None);
  match read with
  | None =>
      mret {| valid := false;
              errors := ["ZIP file does not exist or cannot be read."];
              warnings := [];
              manifest := None |}
  | Some bytes =>
      zip ← loadAsync bytes;
      let entries := List.map fst zip in
      let errors1 :=
        if existsb Path.isUnsafeRelativePath entries
        then ["ZIP contains invalid paths."] else [] in
      let errors2 :=
        errors1 ++ (if includesName "manifest.json" entries then []
                    else ["Missing manifest.json"]) in
      let warnings :=
        if includesName "checksums.json" entries then []
        else ["Missing checksums.json; integrity validation limited."] in
      let '(manifest, errors3) :=
        if isEmpty errors2 then
          match zip_file "manifest.json" zip with
          | None => (None, errors2 ++ ["Missing manifest.json"])
          | Some manifestFile =>
              match parse_manifest (zdata manifestFile) with
              | Some m =>
                  (Some m,
                   errors2 ++
                   match mv_schemaVersion m with
                   | JNum 1 => []
                   | v => ["Unsupported schema version "
                           +:+ JsVal_toString v +:+ "."]
                   end)
              | None => (None, errors2 ++ ["manifest.json is not valid JSON."])
              end
          end
        else (None, errors2) in
      errors4 ←
        (if includesName "checksums.json" entries then
           match zip_file "checksums.json" zip with
           | Some checksumsFile =>
               expected ← Database.liftE (parse_checksums (zdata checksumsFile));
               mret (errors3 ++ checkDigests zip expected)
           | None => mret errors3
           end
         else mret errors3);
      let result :=
        {| valid := isEmpty errors4; errors := errors4;
           warnings := warnings; manifest := manifest |} in
      if importValidationResult_accepts result then mret result
      else throw zodError
  end.

(** One turn of the loop of [importZip] over [IMPORT_TABLES]. *)
Definition importTable (zip : Zip) (table : string) : Async unit :=
  match zip_file ("json/" +:+ table +:+ ".json") zip with
  | None => skip
  | Some file =>
      match parse_rows (zdata file) with
      | RowsSyntaxError e => throw e
      | RowsMisshapen e =>
          Database.rawRun ("DELETE FROM " +:+ table) [];;
          throw e
      | RowsArray rows =>
          Database.rawRun ("DELETE FROM " +:+ table) [];;
          match rows with
          | [] => skip
          | first :: _ =>
              let keys := List.map fst first in
              let placeholders :=
                Js.join "," (List.map (fun _ => "?") keys) in
              let insertSql :=
                "INSERT OR REPLACE INTO " +:+ table +:+ " ("
                +:+ Js.join "," keys +:+ ") VALUES (" +:+ placeholders
                +:+ ")" in
              forOf rows
                (fun r =>
                   params ←
                     foldOf keys
                       (fun acc key =>
                          match column r key with
                          | Some v => mret (acc ++ [v])
                          | None =>
                              throw (Error "Wrong API use : tried to bind a value of an unknown type (undefined).")
                          end)
                       [];
                   Database.rawRun insertSql params)
          end
      end
  end.

(** One turn of the loop of [importZip] over the entry names. *)
Definition importMediaEntry (zip : Zip) (entryName : string)
  : Async unit :=
  if negb (Js.startsWith "media/" entryName) || Js.endsWith "/" entryName
  then skip
  else
    let relativeMediaPath := Js.sliceFrom (String.length "media/") entryName in
    if negb (Js.truthy relativeMediaPath)
       || Path.isUnsafeRelativePath relativeMediaPath
    then skip
    else
      match zip_file entryName zip with
      | None => skip
      | Some mediaFile =>
          root ← Database.getActiveMediaRoot;
          let destination :=
            Path.joinPath [Some root; Some relativeMediaPath] in
          ensureDir (Path.dirname destination);;
          Filesystem_writeFile destination
            (Base64.bytesToBase64 (zdata mediaFile))
      end.

Definition importMedia (zip : Zip) : Async unit :=
  forOf (List.map fst zip) (importMediaEntry zip).

(** The names [exportZip] gives to the entries it digests. *)
Definition archiveName (name : string) : bool :=
  String.eqb name "manifest.json" || Js.startsWith "json/" name
  || Js.startsWith "csv/" name || Js.startsWith "media/" name.

Definition names (zip : Zip) : list string := List.map fst zip.

(** Every entry of the archive under construction has its digest in
    [checksums], and [checksums] has nothing else. *)
Definition Consistent (a : Archive) : Prop :=
  List.NoDup (names (fst a))
  /\ (forall name o, In (name, o) (fst a) ->
                     zdir o = false /\ archiveName name = true
                     /\ snd a !! name = Some (sha256Hex (zdata o)))
  /\ (forall name, is_Some (snd a !! name) -> In name (names (fst a))).

(** [importZip] up to the end of the loop over [IMPORT_TABLES]. *)
Definition prepareImport (request : ImportRequest)
  : Async (Zip * SnapshotMeta) :=
  validation ← validateZip (zipPath request);
  if negb (valid validation)
  then throw (Error ("Import validation failed: "
                     +:+ Js.join "; " (errors validation)))
  else
    zipBytes ← readZipBytes (zipPath request);
    zip ← loadAsync zipBytes;
    label ← match importLabel request with
            | Some l => mret l
            | None => now ← tick; mret ("Imported " +:+ localeNow now)
            end;
    snapshot ← Database.addSnapshot label (Some (zipPath request)) false;
    Database.switchSnapshot (id snapshot);;
    forOf IMPORT_TABLES (importTable zip);;
    mret (zip, snapshot).

Definition importZip (request : ImportRequest) : Async SnapshotMeta :=
  prepared ← prepareImport request;
  importMedia (fst prepared);;
  Database.persistRaw;;
  mret (set_isActive true (snd prepared)).

End WithHost.

(** *** The export of chosen columns *)



Definition pageSize : Z := 500.

(** [{ limit: pageSize, offset }] *)
Definition pageInput (pageOffset : Z) : PurchaseFilterInput :=
  {| fromDate := None; toDate := None; categoryIds := None; vendor := None;
     minAmountCents := None; maxAmountCents := None; tagIds := None;
     query := None; limit := pageSize; offset := pageOffset |}.






Section CustomCsv.

Context `{Host} `{Platform}.

(** The loop of [listAllPurchases], for at most [fuel] turns: [None]
    when they are used up before the loop is left. *)
Fixpoint listAllPurchasesFrom (fuel : nat) (pageOffset : Z)
  (items : list Database.PurchaseRecord)
  : Async (option (list Database.PurchaseRecord)) :=
  match fuel with
  | O => mret None
  | S fuel' =>
      page ← Database.listPurchases (pageInput pageOffset);
      let items' := items ++ Database.items page in
      let pageOffset' := (pageOffset + pageSize)%Z in
      if (Database.total page <=? Z.of_nat (length items'))%Z
         || (Z.of_nat (length (Database.items page)) <? pageSize)%Z
      then mret (Some items')
      else listAllPurchasesFrom fuel' pageOffset' items'
  end.

Definition listAllPurchases (fuel : nat)
  : Async (option (list Database.PurchaseRecord)) :=
  listAllPurchasesFrom fuel 0 [].


End CustomCsv.

(** Reading a line of quoted cells back, as a reader of CSV does: a
    quote inside a cell is written twice.  (Not part of the service,
    which only writes; it says what the written lines mean.) *)
Inductive CsvState :=
| Outside
| Inside (cell : string)
| AfterQuote (cell : string).

Fixpoint readCells (state : CsvState) (done : list string) (line : string)
  : option (list string) :=
  match line with
  | EmptyString =>
      match state with
      | Outside => match done with [] => Some [] | _ => None end
      | Inside _ => None
      | AfterQuote cell => Some (done ++ [Js.rev_string cell])
      end
  | String c rest =>
      match state with
      | Outside =>
          if Ascii.eqb c dquote then readCells (Inside EmptyString) done rest
          else None
      | Inside cell =>
          if Ascii.eqb c dquote then readCells (AfterQuote cell) done rest
          else readCells (Inside (String c cell)) done rest
      | AfterQuote cell =>
          if Ascii.eqb c dquote
          then readCells (Inside (String dquote cell)) done rest
          else if Ascii.eqb c ","%char
          then readCells Outside (done ++ [Js.rev_string cell]) rest
          else None
      end
  end.

End Backup.

(** ** [mobile/services/media.service.ts] *)

Module Media.

Definition allowedMimeTypes : list string :=
  ["image/jpeg"; "image/png"; "image/webp"; "image/heic"; "image/heif"].

Definition maxImageBytes : Z := (15 * 1024 * 1024)%Z.

Definition mimeToExtension : list (string * string) :=
  [("image/jpeg", "jpg"); ("image/png", "png"); ("image/webp", "webp");
   ("image/heic", "heic"); ("image/heif", "heif")].

(** [mimeToExtension[mimeType]] *)
Definition extensionOf (mimeType : string) : option string :=
  option_map snd
    (List.find (fun kv => String.eqb (fst kv) mimeType) mimeToExtension).

(** [ImageInput] *)
Record ImageInput := {
  fileName : string;
  mimeType : string;
  base64Data : string;
}.

Definition estimateBase64Size (base64Data : string) : Z :=
  let stripped := Js.dropTrailing "="%char base64Data in
  Qceiling (inject_Z (Z.of_nat (String.length stripped) * 3) / 4).

Section WithHost.

Context `{Host} `{Platform}.

(** One turn of the loop of [addImages]: the record pushed onto
    [created]. *)
Definition addImage (purchaseId : string) (file : ImageInput) : Async ImageRow :=
  if negb (existsb (String.eqb (mimeType file)) allowedMimeTypes)
  then throw (Error ("Unsupported image type: " +:+ mimeType file))
  else
    let sizeBytes := estimateBase64Size (base64Data file) in
    if (maxImageBytes <? sizeBytes)%Z
    then throw (Error ("Image " +:+ fileName file
                       +:+ " exceeds 15MB size limit."))
    else
      let meta := imageDimensions (mimeType file) (base64Data file) in
      n ← tick;
      let imageId := nanoid n in
      let ext := match extensionOf (mimeType file) with
                 | Some e => e
                 | None => "jpg"
                 end in
      let relativePath :=
        Path.joinPath [Some purchaseId; Some (imageId +:+ "." +:+ ext)] in
      root ← Database.getActiveMediaRoot;
      let absolutePath := Path.joinPath [Some root; Some relativePath] in
      let record (createdAt : string) :=
        {| i_id := imageId;
           i_purchase_id := purchaseId;
           i_relative_path := relativePath;
           i_original_name := fileName file;
           i_mime_type := mimeType file;
           i_size_bytes := sizeBytes;
           i_width := fst meta;
           i_height := snd meta;
           i_created_at := createdAt |} in
      ensureDir (Path.dirname absolutePath);;
      Filesystem_writeFile absolutePath (base64Data file);;
      Database.addImageRecord (record "");;
      now ← tick;
      mret (record (isoNow now)).

Definition addImages (purchaseId : string) (files : list ImageInput)
  : Async (list ImageRow) :=
  Backup.foldOf files
    (fun created file =>
       record ← addImage purchaseId file;
       mret (created ++ [record]))
    [].

Definition removeImage (imageId : string) : Async (option ImageRow) :=
  removed ← Database.removeImageRecord imageId;
  match removed with
  | None => mret None
  | Some r =>
      root ← Database.getActiveMediaRoot;
      let absolutePath := Path.joinPath [Some root; Some (i_relative_path r)] in
      tryCatch (Filesystem_deleteFile absolutePath) (fun _ => skip);;
      mret (Some r)
  end.

Definition readImageBase64 (relativePath : string) : Async string :=
  root ← Database.getActiveMediaRoot;
  let absolutePath := Path.joinPath [Some root; Some relativePath] in
  Filesystem_readFile absolutePath.

End WithHost.

End Media.

(** ** [mobile/bridge/bookkeeping-api.ts] and
    [mobile/services/app-services.ts] *)

Module Bridge.

Section WithHost.

Context `{Host} `{Platform}.

(** [AppServices.create]: the constructors of the other services do
    nothing. *)
Definition create : Async unit :=
  Paths.ensureBaseLayout;;
  Database.init.

(** [media.resolvePath] *)
Definition resolvePath (relativePath : string) : Async string :=
  root ← Database.getActiveMediaRoot;
  mret (Path.joinPath [Some root; Some relativePath]).

(** [media.readDataUrl]; [mimeType] is [None] when the payload has
    none or one that is not a string. *)
Definition readDataUrl (relativePath : string) (mimeType : option string)
  : Async string :=
  base64 ← Media.readImageBase64 relativePath;
  let mimeType' :=
    match mimeType with
    | Some m =>
        if (0 <? String.length (Js.trim m))%nat then Js.trim m
        else "application/octet-stream"
    | None => "application/octet-stream"
    end in
  mret ("data:" +:+ mimeType' +:+ ";base64," +:+ base64).

End WithHost.

End Bridge.

(** ** [renderer/lib/receipt-carousel.ts] *)

Module ReceiptCarousel.

Definition clampReceiptIndex (index imageCount : Z) : Z :=
  if (imageCount <=? 0)%Z then 0%Z
  else Z.min (Z.max index 0) (imageCount - 1).

(** [%] is the remainder of the division that rounds towards zero. *)
Definition cycleReceiptIndex (index imageCount direction : Z) : Z :=
  if (imageCount <=? 0)%Z then 0%Z
  else Z.rem (index + direction + imageCount) imageCount.

End ReceiptCarousel.

(** ** [renderer/lib/performance-mode.ts] *)

Module PerformanceMode.

Definition performanceModeOrder : list string :=
  ["off"; "lite"; "aggressive"; "extreme"].

Definition performanceModeRootClasses : list string :=
  ["perf-mode-lite"; "perf-mode-aggressive"; "perf-mode-extreme"].

Definition rootClassForPerformanceMode (mode : string) : option string :=
  if String.eqb mode "lite" then Some "perf-mode-lite"
  else if String.eqb mode "aggressive" then Some "perf-mode-aggressive"
  else if String.eqb mode "extreme" then Some "perf-mode-extreme"
  else None.

Definition disableUiAnimations (mode : string) : bool :=
  negb (String.eqb mode "off").

Definition flattenVisualEffects (mode : string) : bool :=
  String.eqb mode "aggressive" || String.eqb mode "extreme".

Definition useStaticCharts (mode : string) : bool :=
  String.eqb mode "aggressive" || String.eqb mode "extreme".

Definition useLightweightDashboard (mode : string) : bool :=
  String.eqb mode "extreme".

Record AnalyticsProfile := {
  trendBucket : string;
  timelineLimit : Z;
}.

Definition analyticsProfile (mode : string) : AnalyticsProfile :=
  if String.eqb mode "extreme"
  then {| trendBucket := "weekly"; timelineLimit := 300 |}
  else {| trendBucket := "daily"; timelineLimit := 1000 |}.

End PerformanceMode.

(** ** A small host to run the services on

    No call rejects except a write to a path ending in [broken.jpg];
    base64 and the digest are the identity up to a prefix; the database
    engine accepts every run-time statement and returns no rows; JSON
    is a line-oriented stand-in that is exact on the strings used here;
    two archives can be opened. *)

Module Demo.

Definition bar : ascii := "|"%char.
Definition newline : ascii := ascii_of_nat 10.

Definition metaLine (s : SnapshotMeta) : string :=
  Js.join "|"
    [id s; label s; createdAt s;
     match sourceZip s with Some z => z | None => "" end;
     if isActive s then "1" else "0"].

Definition parseMetaLine (line : string) : option SnapshotMeta :=
  match Js.split bar line with
  | [i; l; c; z; a] =>
      Some {| id := i; label := l; createdAt := c;
              sourceZip := if Js.truthy z then Some z else None;
              isActive := String.eqb a "1" |}
  | _ => None
  end.

Fixpoint parseMetaLines (lines : list string) : option (list SnapshotMeta) :=
  match lines with
  | [] => Some []
  | line :: rest =>
      match parseMetaLine line, parseMetaLines rest with
      | Some s, Some l => Some (s :: l)
      | _, _ => None
      end
  end.

Definition settingsLine (s : AppSettings) : string :=
  Js.join "|"
    [theme s; baseCurrency s; Js.ofZ (overallMonthlyBudgetCents s);
     performanceMode s; if previewImages s then "1" else "0"].

Definition parseSettingsLine (raw : string) : option AppSettings :=
  match Js.split bar raw with
  | [t; c; b; m; p] =>
      match NilZero.int_of_string b with
      | Some n =>
          Some {| theme := t; baseCurrency := c;
                  overallMonthlyBudgetCents := Z.of_int n;
                  performanceMode := m;
                  previewImages := String.eqb p "1";
                  lastFilters := lastFilters Settings.defaultSettings |}
      | None => None
      end
  | _ => None
  end.

(** SQLite takes the purchases of a listing from the index on the
    purchase date, walked backwards: purchases of the same date and
    creation time come out with the one inserted last first. *)
Definition backwards {A} : Scan A :=
  {| visit := @List.rev A;
     visit_permutation l := Permutation_sym (Permutation_rev l) |}.

Definition inTableOrder {A} : Scan A :=
  {| visit l := l; visit_permutation l := Permutation_refl l |}.

Definition file (data : Uint8Array) : ZipObject :=
  {| zdir := false; zdata := data |}.

(** An archive with an entry stored under the name
    [media/../../etc/passwd], which climbs out of [media/].
    [JSZip.loadAsync] resolves the names it reads and hands this entry
    out as [etc/passwd]. *)
Definition traversalZip : Zip :=
  [("manifest.json", file "manifest v1");
   ("etc/passwd", file "root:x:0:0")].

(** An archive with two pictures; the first cannot be written. *)
Definition picturesZip : Zip :=
  [("manifest.json", file "manifest v1");
   ("media/p1/broken.jpg", file "first");
   ("media/p1/fine.jpg", file "second")].

#[local] Instance host : Host := {|
  writeFault path _ _ :=
    if Js.endsWith "broken.jpg" path then Some (Error "No space left on device")
    else None;
  readFault _ _ := None;
  mkdirFault _ _ := None;
  existsError := Some {| code := Some "OS-PLUG-FILE-0010";
                    message := "Directory already exists" |};
  missingError := Error "File does not exist";
  nanoid n := "ds" +:+ Js.ofZ (Z.of_nat n);
  isoNow n := "t" +:+ Js.ofZ (Z.of_nat n);
  localeNow n := "t" +:+ Js.ofZ (Z.of_nat n);
  btoa s := s;
  atob s := Some s;
  sha256 bytes := "sha256:" +:+ bytes;
  db_export _ := "image";
  db_import _ := Some emptyTables;
  fts5 := FtsNoSuchModule;
  sql_all _ _ _ := inr [];
  sql_run _ _ t := inr t;
  sql_like pat s :=
    Js.includes (Js.dropTrailing "%"%char (Js.dropLeading "%"%char pat)) s;
  scan_purchases := backwards;
  scan_images := inTableOrder;
  scan_tags := inTableOrder;
  zip_load bytes :=
    if String.eqb bytes "traversal" then Some traversalZip
    else if String.eqb bytes "pictures" then Some picturesZip
    else None;
  zip_generate zip := Js.join "," (List.map fst zip);
  json_meta l := Js.join (String newline EmptyString) (List.map metaLine l);
  parse_meta raw :=
    if Js.truthy raw then parseMetaLines (Js.split newline raw) else Some [];
  json_settings := settingsLine;
  parse_settings := parseSettingsLine;
  json_manifest m := "manifest v" +:+ Js.ofZ (schemaVersion m);
  parse_manifest raw :=
    if String.eqb raw "manifest v1"
    then Some {| mv_schemaVersion := JNum 1; mv_text := raw |}
    else None;
  json_checksums _ := "checksums";
  parse_checksums _ := inr [];
  json_rows _ := "rows";
  parse_rows _ := RowsArray [];
  appSettings_accepts _ := true;
  purchaseFilter_accepts _ := true;
  importValidationResult_accepts _ := true;
  dashboardSummary_accepts _ := true;
  zodError := Error "ZodError";
  dayjs_anchor _ _ :=
    {| currentMonthStart := "2026-03-01"; currentMonthEnd := "2026-03-31";
       prevMonthStart := "2026-02-01"; prevMonthEnd := "2026-02-28";
       anchorYear := 2026; anchorMonth := 3 |};
|}.

(** A device on which the application has never run, holding the two
    archive files. *)
Definition freshWorld : World :=
  {| fs := {| files := {["in/traversal.zip" := "traversal";
                          "in/pictures.zip" := "pictures"]};
              dirs := ∅ |};
     calls := 0;
     store := None;
     activeDatasetId := "";
     pickedFiles := ∅;
     foreignKeys := false |}.

(** The same device after [DatabaseService.create]. *)
Definition startedWorld : World := state_of (Database.init freshWorld).

Definition purchase (i date : string) (amount : Z) : PurchaseCoreRow :=
  {| p_id := i; p_name := i; p_amount_cents := amount; p_currency := "USD";
     p_purchase_date := date; p_vendor := None; p_notes := None;
     p_category_id := None; p_created_at := date; p_updated_at := date |}.

Definition tag (i : string) : TagRow :=
  {| t_id := i; t_name := i; t_color_hex := "#737373";
     t_created_at := "2026-01-01" |}.

(** Three purchases tagged {A}, {B} and {A,B}: 400 spent in March,
    300 in February; the settings row was written with a light theme. *)
Definition ledger : Tables :=
  {| purchases :=
       [purchase "p1" "2026-03-05" 100; purchase "p2" "2026-03-09" 300;
        purchase "p3" "2026-02-10" 300];
     purchase_images := [];
     tags := [tag "A"; tag "B"];
     purchase_tags := [("p1", "A"); ("p2", "B"); ("p3", "A"); ("p3", "B")];
     monthly_budgets := [];
     app_settings := {["app" := "light|EUR|0|off|1"]} |}.

Definition ledgerWorld : World :=
  set_store
    (Some {| db := Some ledger; dbPath := Paths.getDatabasePath "ds0" |})
    startedWorld.

Definition noFilter : PurchaseFilterInput :=
  {| fromDate := None; toDate := None; categoryIds := None; vendor := None;
     minAmountCents := None; maxAmountCents := None; tagIds := None;
     query := None; limit := 100; offset := 0 |}.

Definition withTags (ids : list string) : PurchaseFilterInput :=
  FilterQuery.onlyTags ids 100 0.

Definition noPatch : SettingsPatch :=
  {| sp_theme := Absent; sp_baseCurrency := Absent;
     sp_overallMonthlyBudgetCents := Absent; sp_performanceMode := Absent;
     sp_previewImages := Absent; sp_lastFilters := None |}.

End Demo.


(** ** A second host, with categories

    The engine of [Demo] returns no rows for the statements that the
    services assemble at run time.  This one answers the two statements
    on categories over a fixed table of two categories, as SQLite does:
    the breakdown has one row for each category that has a purchase in
    the range, and one for the purchases without a category. *)

Module Sample.

#[local] Instance platform : Platform := {|
  purchaseTimelineQuery_accepts q :=
    (0 <? tq_limit q)%Z && (tq_limit q <=? 5000)%Z;
  numberOfText s :=
    if String.eqb s "" then Some 0%Q
    else option_map (fun n => inject_Z (Z.of_int n)) (NilZero.int_of_string s);
  deleteFault _ _ := None;
  imageDimensions _ data :=
    if Js.truthy data then (Some 640%Z, Some 480%Z) else (None, None);
|}.

Definition category (i name color : string) : Row :=
  [("id", VText i); ("name", VText name); ("parent_id", VNull);
   ("color_hex", VText color); ("is_archived", VInt 0);
   ("created_at", VText "2026-01-01"); ("updated_at", VText "2026-01-01")].

Definition categories : list Row :=
  [category "food" "Food" "#22c55e"; category "rent" "Rent" "#ef4444"].

Definition categoryOf (key : string) : option Row :=
  List.find (fun r => String.eqb (Database.text (Database.field r "id")) key)
    categories.

(** The id of the category a purchase is joined to, the empty string
    when it is joined to none. *)
Definition groupKey (p : PurchaseCoreRow) : string :=
  match p_category_id p with
  | Some c => match categoryOf c with Some _ => c | None => "" end
  | None => ""
  end.

Definition breakdownRow (inRange : list PurchaseCoreRow) (key : string) : Row :=
  let amount :=
    List.fold_right Z.add 0%Z
      (List.map p_amount_cents
         (List.filter (fun p => String.eqb (groupKey p) key) inRange)) in
  match categoryOf key with
  | Some r =>
      [("category_id", VText key);
       ("category_name", VText (Database.text (Database.field r "name")));
       ("color_hex", VText (Database.text (Database.field r "color_hex")));
       ("amount_cents", VInt amount)]
  | None =>
      [("category_id", VNull); ("category_name", VText "Uncategorized");
       ("color_hex", VText "#737373"); ("amount_cents", VInt amount)]
  end.

Definition amountCents (r : Row) : Z :=
  match Database.field r "amount_cents" with
  | Some (VInt z) => z
  | _ => 0%Z
  end.

Definition breakdown (fromDate toDate : string) (t : Tables) : list Row :=
  let inRange :=
    List.filter
      (fun p => String.leb fromDate (p_purchase_date p)
                && String.leb (p_purchase_date p) toDate)
      (purchases t) in
  Sql.sortBy (fun a b => (amountCents b <=? amountCents a)%Z)
    (List.map (breakdownRow inRange)
       (List.nodup String.string_dec (List.map groupKey inRange))).

#[local] Instance host : Host := {|
  writeFault := @writeFault Demo.host;
  readFault := @readFault Demo.host;
  mkdirFault := @mkdirFault Demo.host;
  existsError := @existsError Demo.host;
  missingError := @missingError Demo.host;
  nanoid := @nanoid Demo.host;
  isoNow := @isoNow Demo.host;
  localeNow := @localeNow Demo.host;
  btoa := @btoa Demo.host;
  atob := @atob Demo.host;
  sha256 := @sha256 Demo.host;
  db_export := @db_export Demo.host;
  db_import := @db_import Demo.host;
  fts5 := @fts5 Demo.host;
  sql_all sql params t :=
    if String.eqb sql Database.categoryBreakdownSql then
      match params with
      | [VText a; VText b] => inr (breakdown a b t)
      | _ => inl Sql.bindError
      end
    else if String.eqb sql
              "SELECT * FROM categories ORDER BY is_archived ASC, name ASC"
    then inr categories
    else inr [];
  sql_run := @sql_run Demo.host;
  sql_like := @sql_like Demo.host;
  scan_purchases := @scan_purchases Demo.host;
  scan_images := @scan_images Demo.host;
  scan_tags := @scan_tags Demo.host;
  zip_load := @zip_load Demo.host;
  zip_generate := @zip_generate Demo.host;
  json_meta := @json_meta Demo.host;
  parse_meta := @parse_meta Demo.host;
  json_settings := @json_settings Demo.host;
  parse_settings := @parse_settings Demo.host;
  json_manifest := @json_manifest Demo.host;
  parse_manifest := @parse_manifest Demo.host;
  json_checksums := @json_checksums Demo.host;
  parse_checksums := @parse_checksums Demo.host;
  json_rows := @json_rows Demo.host;
  parse_rows := @parse_rows Demo.host;
  appSettings_accepts := @appSettings_accepts Demo.host;
  purchaseFilter_accepts := @purchaseFilter_accepts Demo.host;
  importValidationResult_accepts := @importValidationResult_accepts Demo.host;
  dashboardSummary_accepts := @dashboardSummary_accepts Demo.host;
  zodError := @zodError Demo.host;
  dayjs_anchor := @dayjs_anchor Demo.host;
|}.

Definition purchase (i date : string) (amount : Z) (categoryId vendor : option string)
  : PurchaseCoreRow :=
  {| p_id := i; p_name := i; p_amount_cents := amount; p_currency := "USD";
     p_purchase_date := date; p_vendor := vendor; p_notes := None;
     p_category_id := categoryId; p_created_at := date; p_updated_at := date |}.

Definition image (i purchaseId created : string) : ImageRow :=
  {| i_id := i; i_purchase_id := purchaseId;
     i_relative_path := Path.joinPath [Some purchaseId; Some (i +:+ ".jpg")];
     i_original_name := "receipt.jpg"; i_mime_type := "image/jpeg";
     i_size_bytes := 3; i_width := Some 640%Z; i_height := Some 480%Z;
     i_created_at := created |}.

(** Four purchases, two of them on food; the first has two pictures. *)
Definition ledger : Tables :=
  {| purchases :=
       [purchase "p1" "2026-03-05" 100 (Some "food") (Some "Corner Shop");
        purchase "p2" "2026-03-09" 300 (Some "rent") None;
        purchase "p3" "2026-02-10" 300 None (Some "Kiosk");
        purchase "p4" "2026-03-09" 200 (Some "food") (Some "Market, East")];
     purchase_images :=
       [image "i1" "p1" "2026-03-05T10:00"; image "i2" "p1" "2026-03-05T09:00"];
     tags := [Demo.tag "A"; Demo.tag "B"];
     purchase_tags := [("p1", "A"); ("p2", "B"); ("p3", "A"); ("p3", "B")];
     monthly_budgets := [];
     app_settings := {["app" := "dark|EUR|50000|off|1"]} |}.

Definition ledgerWorld : World :=
  set_fs
    (fun f =>
       {| files :=
            <[Path.joinPath [Some (Paths.getMediaDir "ds0"); Some "p1/i1.jpg"]
              := "QUJD"]> (files f);
          dirs := dirs f |})
    (set_store
       (Some {| db := Some ledger; dbPath := Paths.getDatabasePath "ds0" |})
       (state_of (Database.init Demo.freshWorld))).

End Sample.

(** ** A third host, whose files read back

    [JSON.parse] undoes [JSON.stringify] on the metadata record, and
    sql.js loads what it has exported.  The line format of [Demo] reads
    back only texts without bars and line breaks, and its engine starts
    every database empty.  This host writes each text with a mark before
    every character and a stop after the last, which reads back whatever
    the text holds, and its engine knows the export of the sample
    ledger. *)

Module Plain.

Fixpoint writeText (s : string) : string :=
  match s with
  | EmptyString => "."
  | String c rest => String "+" (String c (writeText rest))
  end.

(** The text at the head of [raw], and what follows it. *)
Fixpoint readText (raw : string) : option (string * string) :=
  match raw with
  | EmptyString => None
  | String mark rest =>
      if Ascii.eqb mark "." then Some (EmptyString, rest)
      else
        match rest with
        | EmptyString => None
        | String c rest' =>
            if Ascii.eqb mark "+" then
              match readText rest' with
              | Some (s, r) => Some (String c s, r)
              | None => None
              end
            else None
        end
  end.

Definition writeSnapshot (s : SnapshotMeta) : string :=
  writeText (id s) +:+ writeText (label s) +:+ writeText (createdAt s)
  +:+ match sourceZip s with
      | Some z => String "s" (writeText z)
      | None => String "n" (writeText "")
      end
  +:+ (if isActive s then "1" else "0").

Definition readSnapshot (raw : string) : option (SnapshotMeta * string) :=
  match readText raw with
  | Some (i, r1) =>
      match readText r1 with
      | Some (l, r2) =>
          match readText r2 with
          | Some (c, String flag r3) =>
              match readText r3 with
              | Some (z, String a r4) =>
                  Some ({| id := i; label := l; createdAt := c;
                           sourceZip :=
                             if Ascii.eqb flag "s" then Some z else None;
                           isActive := Ascii.eqb a "1" |}, r4)
              | _ => None
              end
          | _ => None
          end
      | None => None
      end
  | None => None
  end.

Fixpoint writeSnapshots (l : list SnapshotMeta) : string :=
  match l with
  | [] => ""
  | s :: rest => String ";" (writeSnapshot s +:+ writeSnapshots rest)
  end.

Fixpoint readSnapshots (fuel : nat) (raw : string)
  : option (list SnapshotMeta) :=
  match raw with
  | EmptyString => Some []
  | String mark rest =>
      match fuel with
      | O => None
      | S fuel' =>
          if Ascii.eqb mark ";" then
            match readSnapshot rest with
            | Some (s, r) =>
                match readSnapshots fuel' r with
                | Some l => Some (s :: l)
                | None => None
                end
            | None => None
            end
          else None
      end
  end.

Definition parseSnapshots (raw : string) : option (list SnapshotMeta) :=
  readSnapshots (String.length raw) raw.

(** What the engine writes for a database: the ids of its purchases. *)
Definition exportOf (t : Tables) : Uint8Array :=
  Js.join ";" (List.map p_id (purchases t)).

#[local] Instance host : Host := {|
  writeFault := @writeFault Demo.host;
  readFault := @readFault Demo.host;
  mkdirFault := @mkdirFault Demo.host;
  existsError := @existsError Demo.host;
  missingError := @missingError Demo.host;
  nanoid := @nanoid Demo.host;
  isoNow := @isoNow Demo.host;
  localeNow := @localeNow Demo.host;
  btoa := @btoa Demo.host;
  atob := @atob Demo.host;
  sha256 := @sha256 Demo.host;
  db_export := exportOf;
  db_import bytes :=
    if String.eqb bytes (exportOf Sample.ledger) then Some Sample.ledger
    else if String.eqb bytes (exportOf emptyTables) then Some emptyTables
    else None;
  fts5 := @fts5 Demo.host;
  sql_all := @sql_all Demo.host;
  sql_run := @sql_run Demo.host;
  sql_like := @sql_like Demo.host;
  scan_purchases := @scan_purchases Demo.host;
  scan_images := @scan_images Demo.host;
  scan_tags := @scan_tags Demo.host;
  zip_load := @zip_load Demo.host;
  zip_generate := @zip_generate Demo.host;
  json_meta := writeSnapshots;
  parse_meta := parseSnapshots;
  json_settings := @json_settings Demo.host;
  parse_settings := @parse_settings Demo.host;
  json_manifest := @json_manifest Demo.host;
  parse_manifest := @parse_manifest Demo.host;
  json_checksums := @json_checksums Demo.host;
  parse_checksums := @parse_checksums Demo.host;
  json_rows := @json_rows Demo.host;
  parse_rows := @parse_rows Demo.host;
  appSettings_accepts := @appSettings_accepts Demo.host;
  purchaseFilter_accepts := @purchaseFilter_accepts Demo.host;
  importValidationResult_accepts := @importValidationResult_accepts Demo.host;
  dashboardSummary_accepts := @dashboardSummary_accepts Demo.host;
  zodError := @zodError Demo.host;
  dayjs_anchor := @dayjs_anchor Demo.host;
|}.

(** A device on which [ensureActiveSnapshot] has run once. *)
Definition startedWorld : World :=
  state_of (Paths.ensureActiveSnapshot Demo.freshWorld).

(** The sample ledger open on that device. *)
Definition ledgerWorld : World :=
  set_store
    (Some {| db := Some Sample.ledger; dbPath := Paths.getDatabasePath "ds0" |})
    (state_of (Database.init Demo.freshWorld)).

End Plain.
(** * Properties *)

(** ** Path traversal *)

Example normalizePath_drops_escaping_dots :
  Path.normalizePath "media/../../etc/passwd" = "etc/passwd".
Proof. reflexivity. Qed.

(** No [..] survives normalisation: the tests of [isUnsafeRelativePath]
    for it look at a string that cannot hold it as a segment. *)
Lemma normalizeSegments_no_dotdot (segments output : list string) :
  ~ In ".." output ->
  ~ In ".." (Path.normalizeSegments segments output).
Proof.
  revert output. induction segments as [| segment rest IH]; intros output Hout; cbn.
  - intros Hin. apply Hout. apply in_rev. exact Hin.
  - destruct (String.eqb segment ".") eqn:Hdot; [apply IH; exact Hout |].
    destruct (String.eqb segment "..") eqn:Hup.
    + destruct output as [| last popped]; apply IH; [exact Hout |].
      intros Hin. apply Hout. right. exact Hin.
    + apply IH. intros [Heq | Hin]; [| exact (Hout Hin)].
      subst segment. discriminate.
Qed.

Example dirname_of_meta_path :
  Path.dirname Paths.snapshotsMetaPath = "BookkeepingApp/data".
Proof. reflexivity. Qed.

(** ** Rounding to two decimals *)

Section Rounding.

Local Open Scope Q_scope.

Lemma toFixed2_nonneg (x : Q) :
  0 <= x ->
  Num.toFixed2 x == inject_Z (Qfloor (x * 100 + (1 # 2))) / 100.
Proof.
  intros Hx. unfold Num.toFixed2.
  assert (Hb : Qle_bool 0 x = true) by (apply Qle_bool_iff; exact Hx).
  rewrite Hb. rewrite (Qabs_pos x Hx). reflexivity.
Qed.

Lemma toFixed2_neg (x : Q) :
  x < 0 ->
  Num.toFixed2 x == - (inject_Z (Qfloor (- x * 100 + (1 # 2))) / 100).
Proof.
  intros Hx. unfold Num.toFixed2.
  destruct (Qle_bool 0 x) eqn:Hb.
  - apply Qle_bool_iff in Hb. lra.
  - assert (Hn : x <= 0) by lra.
    rewrite (Qabs_neg x Hn). reflexivity.
Qed.

(** The rounded value is within half a hundredth of the exact one. *)
Lemma toFixed2_close (x : Q) : Qabs (Num.toFixed2 x - x) <= 1 # 200.
Proof.
  apply Qabs_Qle_condition.
  destruct (Qlt_le_dec x 0) as [Hneg | Hpos].
  - rewrite (toFixed2_neg x Hneg).
    pose proof (Qfloor_le (- x * 100 + (1 # 2))) as Hlo.
    pose proof (Qlt_floor (- x * 100 + (1 # 2))) as Hhi.
    rewrite inject_Z_plus in Hhi.
    set (n := inject_Z (Qfloor (- x * 100 + (1 # 2)))) in *.
    change (inject_Z 1) with 1 in Hhi.
    assert (E : n / 100 == n * (1 # 100)) by field.
    rewrite E. split; lra.
  - rewrite (toFixed2_nonneg x Hpos).
    pose proof (Qfloor_le (x * 100 + (1 # 2))) as Hlo.
    pose proof (Qlt_floor (x * 100 + (1 # 2))) as Hhi.
    rewrite inject_Z_plus in Hhi.
    set (n := inject_Z (Qfloor (x * 100 + (1 # 2)))) in *.
    change (inject_Z 1) with 1 in Hhi.
    assert (E : n / 100 == n * (1 # 100)) by field.
    rewrite E. split; lra.
Qed.

(** It is a whole number of hundredths. *)
Lemma toFixed2_hundredths (x : Q) :
  exists n : Z, Num.toFixed2 x == inject_Z n / 100.
Proof.
  destruct (Qlt_le_dec x 0) as [Hneg | Hpos].
  - exists (- Qfloor (- x * 100 + (1 # 2)))%Z.
    rewrite (toFixed2_neg x Hneg), inject_Z_opp. field.
  - exists (Qfloor (x * 100 + (1 # 2))). apply toFixed2_nonneg, Hpos.
Qed.

End Rounding.

(** ** Reasoning about effects *)

Lemma bind_ok_inv {S A B} (m : M S A) (k : A -> M S B) (s s' : S) (b : B) :
  (m ≫= k) s = Ok b s' ->
  exists a s1, m s = Ok a s1 /\ k a s1 = Ok b s'.
Proof.
  unfold mbind, M_bind. destruct (m s) as [a s1 | e s1]; [eauto | discriminate].
Qed.

Lemma bind_throw_inv {S A B} (m : M S A) (k : A -> M S B) (s s' : S)
  (e : JsError) :
  (m ≫= k) s = Throw e s' ->
  m s = Throw e s' \/ exists a s1, m s = Ok a s1 /\ k a s1 = Throw e s'.
Proof.
  unfold mbind, M_bind. destruct (m s) as [a s1 | e1 s1].
  - right. eauto.
  - intros [= -> ->]. left. reflexivity.
Qed.

Lemma bind_ok {S A B} (m : M S A) (k : A -> M S B) (s s1 : S) (a : A) :
  m s = Ok a s1 -> (m ≫= k) s = k a s1.
Proof. unfold mbind, M_bind. intros ->. reflexivity. Qed.

Lemma bind_throw {S A B} (m : M S A) (k : A -> M S B) (s s1 : S)
  (e : JsError) :
  m s = Throw e s1 -> (m ≫= k) s = Throw e s1.
Proof. unfold mbind, M_bind. intros ->. reflexivity. Qed.

Lemma ret_ok_inv {S A} (a b : A) (s s' : S) :
  (mret a : M S A) s = Ok b s' -> a = b /\ s = s'.
Proof. unfold mret, M_ret. intros [= -> ->]. auto. Qed.

(** Take a successful run apart, statement by statement. *)
Ltac run_inv H :=
  repeat
    (let a := fresh "a" in
     let w := fresh "w" in
     let Hm := fresh "Hrun" in
     apply bind_ok_inv in H; destruct H as (a & w & Hm & H)).

(** ** The dashboard *)

Section Dashboard.

Context `{Host}.

Local Open Scope Q_scope.

Lemma theDb_ok_inv (w w' : World) (t : Tables) :
  Database.theDb w = Ok t w' ->
  w' = w /\ exists s, store w = Some s /\ db s = Some t.
Proof.
  unfold Database.theDb, Database.ensureStore. intros Hrun.
  apply bind_ok_inv in Hrun. destruct Hrun as (s & w1 & Hs & Hk).
  destruct (store w) as [s0 |] eqn:Hst; [| discriminate].
  injection Hs as -> ->.
  destruct (db s) as [t0 |] eqn:Hdb; [| discriminate].
  apply ret_ok_inv in Hk. destruct Hk as [-> ->]. eauto.
Qed.

Lemma sumAmountBetween_ok_inv (a b : string) (w w' : World) (z : Z) :
  Database.sumAmountBetween a b w = Ok z w' ->
  w' = w /\ exists s t, store w = Some s /\ db s = Some t
                        /\ z = Database.sumAmount a b t.
Proof.
  unfold Database.sumAmountBetween. intros Hrun.
  apply bind_ok_inv in Hrun. destruct Hrun as (t & w1 & Ht & Hk).
  apply theDb_ok_inv in Ht. destruct Ht as (-> & s & Hs & Hd).
  apply ret_ok_inv in Hk. destruct Hk as [<- <-]. eauto 10.
Qed.


Lemma deltaPercent_zero_zero : Database.deltaPercent 0 0 = 0.
Proof. reflexivity. Qed.


(** What a dashboard summary reports, read off a successful run. *)
Lemma getDashboardSummary_ok_inv (anchorDate : option string)
  (w w' : World) (summary : DashboardSummary) :
  Database.getDashboardSummary anchorDate w = Ok summary w' ->
  exists (now : MonthAnchor) (s : SqliteWasmService) (t : Tables),
    store w = Some s /\ db s = Some t
    /\ currentMonthSpendCents summary
       = Database.sumAmount (currentMonthStart now) (currentMonthEnd now) t
    /\ previousMonthSpendCents summary
       = Database.sumAmount (prevMonthStart now) (prevMonthEnd now) t
    /\ monthOverMonthDeltaPercent summary
       = Num.toFixed2
           (Database.deltaPercent (currentMonthSpendCents summary)
              (previousMonthSpendCents summary)).
Proof.
  unfold Database.getDashboardSummary. intros Hrun.
  apply bind_ok_inv in Hrun. destruct Hrun as (now & w1 & Hnow & Hrun).
  assert (Hst : store w1 = store w).
  { destruct (FilterQuery.truthyStr anchorDate).
    - apply ret_ok_inv in Hnow. destruct Hnow as [_ ->]. reflexivity.
    - apply bind_ok_inv in Hnow. destruct Hnow as (n & w0 & Hn & Hk).
      unfold tick in Hn. injection Hn as <- <-.
      apply ret_ok_inv in Hk. destruct Hk as [_ <-]. reflexivity. }
  apply bind_ok_inv in Hrun. destruct Hrun as (current & w2 & Hcur & Hrun).
  apply sumAmountBetween_ok_inv in Hcur.
  destruct Hcur as (-> & s & t & Hs & Hd & ->).
  apply bind_ok_inv in Hrun. destruct Hrun as (previous & w3 & Hprev & Hrun).
  apply sumAmountBetween_ok_inv in Hprev.
  destruct Hprev as (-> & s' & t' & Hs' & Hd' & ->).
  rewrite Hs in Hs'. injection Hs' as <-. rewrite Hd in Hd'. injection Hd' as <-.
  run_inv Hrun.
  match type of Hrun with
  | (if ?c then _ else _) _ = _ => destruct c; [| discriminate]
  end.
  apply ret_ok_inv in Hrun. destruct Hrun as [<- _].
  exists now, s, t. rewrite <- Hst. cbn. auto.
Qed.

End Dashboard.

(** ** Snapshot metadata *)

Section SnapshotLists.

Implicit Types (meta : list SnapshotMeta) (s : SnapshotMeta).

Lemma activateAll_found (snapshotId : string) meta :
  fst (Paths.activateAll snapshotId meta)
  = existsb (fun s => String.eqb (id s) snapshotId) meta.
Proof.
  induction meta as [| s rest IH]; [reflexivity |].
  cbn. destruct (Paths.activateAll snapshotId rest) as [found mapped].
  cbn in IH. destruct (String.eqb (id s) snapshotId); cbn; [reflexivity | exact IH].
Qed.

Lemma activateAll_mapped (snapshotId : string) meta :
  snd (Paths.activateAll snapshotId meta)
  = List.map (fun s => set_isActive (String.eqb (id s) snapshotId) s) meta.
Proof.
  induction meta as [| s rest IH]; [reflexivity |].
  cbn. destruct (Paths.activateAll snapshotId rest) as [found mapped].
  cbn in IH. destruct (String.eqb (id s) snapshotId); cbn; rewrite IH; reflexivity.
Qed.

Lemma activateAll_found_iff (snapshotId : string) meta :
  fst (Paths.activateAll snapshotId meta) = true
  <-> In snapshotId (List.map id meta).
Proof.
  rewrite activateAll_found, existsb_exists. split.
  - intros (s & Hin & Heq). apply String.eqb_eq in Heq. subst.
    apply in_map. exact Hin.
  - intros Hin. apply in_map_iff in Hin. destruct Hin as (s & <- & Hin).
    exists s. split; [exact Hin | apply String.eqb_refl].
Qed.

Lemma map_id_set_isActive (f : SnapshotMeta -> bool) meta :
  List.map id (List.map (fun s => set_isActive (f s) s) meta) = List.map id meta.
Proof. rewrite List.map_map. reflexivity. Qed.

(** Activating by id leaves as many active snapshots as carry the id. *)
Lemma activeCount_activated (snapshotId : string) meta :
  Paths.activeCount
    (List.map (fun s => set_isActive (String.eqb (id s) snapshotId) s) meta)
  = length (List.filter (fun s => String.eqb (id s) snapshotId) meta).
Proof.
  unfold Paths.activeCount.
  induction meta as [| s rest IH]; [reflexivity |].
  cbn. destruct (String.eqb (id s) snapshotId); cbn; rewrite IH; reflexivity.
Qed.

Lemma filter_absent (snapshotId : string) meta :
  ~ In snapshotId (List.map id meta) ->
  List.filter (fun s => String.eqb (id s) snapshotId) meta = [].
Proof.
  induction meta as [| s rest IH]; [reflexivity |].
  cbn. intros Hnot.
  destruct (String.eqb (id s) snapshotId) eqn:Heq.
  - apply String.eqb_eq in Heq. exfalso. apply Hnot. left. exact Heq.
  - apply IH. intros Hin. apply Hnot. right. exact Hin.
Qed.

Lemma filter_unique (snapshotId : string) meta :
  List.NoDup (List.map id meta) ->
  In snapshotId (List.map id meta) ->
  length (List.filter (fun s => String.eqb (id s) snapshotId) meta) = 1.
Proof.
  induction meta as [| s rest IH]; [intros _ [] |].
  cbn. intros Hnd Hin. apply List.NoDup_cons_iff in Hnd. destruct Hnd as [Hfresh Hnd].
  destruct (String.eqb (id s) snapshotId) eqn:Heq.
  - apply String.eqb_eq in Heq. subst snapshotId.
    rewrite (filter_absent _ _ Hfresh). reflexivity.
  - apply IH; [exact Hnd |]. destruct Hin as [Heq' | Hin]; [| exact Hin].
    subst snapshotId. rewrite String.eqb_refl in Heq. discriminate.
Qed.

Lemma activeCount_deactivated meta :
  Paths.activeCount (List.map (fun s => set_isActive false s) meta) = 0.
Proof.
  unfold Paths.activeCount. induction meta as [| s rest IH]; [reflexivity |].
  cbn. exact IH.
Qed.

Lemma map_keep_isActive meta :
  List.map (fun s => set_isActive (isActive s) s) meta = meta.
Proof.
  induction meta as [| s rest IH]; [reflexivity |].
  cbn. rewrite IH. destruct s. reflexivity.
Qed.

Lemma activeCount_app meta1 meta2 :
  Paths.activeCount (meta1 ++ meta2)
  = Paths.activeCount meta1 + Paths.activeCount meta2.
Proof.
  unfold Paths.activeCount. rewrite List.filter_app, List.length_app. reflexivity.
Qed.

Lemma withAdded_ids input (setActive : bool) meta :
  List.map id (Paths.withAdded input setActive meta)
  = List.map id meta ++ [id input].
Proof.
  unfold Paths.withAdded. rewrite List.map_app, List.map_map. reflexivity.
Qed.

Lemma withAdded_activeCount input (setActive : bool) meta :
  Paths.activeCount (Paths.withAdded input setActive meta)
  = if setActive then 1 else Paths.activeCount meta.
Proof.
  unfold Paths.withAdded. rewrite activeCount_app.
  destruct setActive.
  - rewrite activeCount_deactivated. reflexivity.
  - rewrite map_keep_isActive. unfold Paths.activeCount at 2. cbn. lia.
Qed.

Lemma find_active_some meta :
  Paths.activeCount meta <> 0 -> exists s, List.find isActive meta = Some s.
Proof.
  unfold Paths.activeCount.
  induction meta as [| s rest IH]; [intros Hne; exfalso; apply Hne; reflexivity |].
  cbn. destruct (isActive s); [eauto | exact IH].
Qed.

End SnapshotLists.

(** ** The metadata file *)

Section MetadataFile.

Context `{Host}.

Lemma ensureDir_ok_files (path : string) (w w' : World) :
  ensureDir path w = Ok tt w' -> files (fs w') = files (fs w).
Proof.
  unfold ensureDir, tryCatch, Filesystem_mkdir.
  destruct (mkdirFault path (fs w)) as [e |].
  - destruct (_ || _); cbn; [intros [= <-]; reflexivity | discriminate].
  - destruct (decide (path ∈ dirs (fs w))).
    + destruct existsError as [err |]; [| intros [= <-]; reflexivity].
      destruct (_ || _); cbn; [intros [= <-]; reflexivity | discriminate].
    + intros [= <-]. reflexivity.
Qed.

Lemma writeSnapshotMeta_ok (payload : list SnapshotMeta) (w w' : World) :
  Paths.writeSnapshotMeta payload w = Ok tt w' ->
  files (fs w') !! Paths.snapshotsMetaPath = Some (json_meta payload).
Proof.
  unfold Paths.writeSnapshotMeta. intros Hrun.
  apply bind_ok_inv in Hrun. destruct Hrun as ([] & w1 & Hdir & Hwrite).
  unfold Filesystem_writeFile in Hwrite.
  destruct (writeFault _ _ _); [discriminate |].
  injection Hwrite as <-. cbn. apply lookup_insert_eq.
Qed.

Lemma ensureDatasetLayout_ok_files (datasetId : string) (w w' : World) :
  Paths.ensureDatasetLayout datasetId w = Ok tt w' ->
  files (fs w') = files (fs w).
Proof.
  unfold Paths.ensureDatasetLayout. intros Hrun.
  apply bind_ok_inv in Hrun. destruct Hrun as ([] & w1 & Hdir1 & Hdir2).
  apply ensureDir_ok_files in Hdir1, Hdir2. congruence.
Qed.

(** An unknown id: the error is raised right after the read, before
    anything is written. *)
Lemma activateSnapshot_unknown (snapshotId : string) (w w1 : World)
  (meta : list SnapshotMeta) :
  Paths.readSnapshotMeta w = Ok meta w1 ->
  ~ In snapshotId (List.map id meta) ->
  Paths.activateSnapshot snapshotId w
  = Throw (Error ("Snapshot " +:+ snapshotId +:+ " does not exist.")) w1.
Proof.
  intros Hread Hnot. unfold Paths.activateSnapshot.
  rewrite (bind_ok _ _ _ _ _ Hread).
  pose proof (activateAll_found_iff snapshotId meta) as Hiff.
  destruct (Paths.activateAll snapshotId meta) as [found mapped]. cbn in Hiff.
  destruct found; [exfalso; apply Hnot, Hiff; reflexivity | reflexivity].
Qed.

(** A known id: the record written has exactly the snapshots with that
    id active. *)
Lemma activateSnapshot_ok (snapshotId : string) (w w' : World) :
  Paths.activateSnapshot snapshotId w = Ok tt w' ->
  exists meta w1,
    Paths.readSnapshotMeta w = Ok meta w1
    /\ In snapshotId (List.map id meta)
    /\ files (fs w') !! Paths.snapshotsMetaPath
       = Some (json_meta
                 (List.map
                    (fun s => set_isActive (String.eqb (id s) snapshotId) s)
                    meta)).
Proof.
  unfold Paths.activateSnapshot. intros Hrun.
  apply bind_ok_inv in Hrun. destruct Hrun as (meta & w1 & Hread & Hrun).
  exists meta, w1. split; [exact Hread |].
  pose proof (activateAll_found_iff snapshotId meta) as Hiff.
  pose proof (activateAll_mapped snapshotId meta) as Hmap.
  destruct (Paths.activateAll snapshotId meta) as [found mapped].
  cbn in Hiff, Hmap. subst mapped.
  destruct found; [| discriminate]. cbn in Hrun.
  split; [apply Hiff; reflexivity |].
  apply bind_ok_inv in Hrun. destruct Hrun as ([] & w2 & Hwrite & Hlayout).
  apply writeSnapshotMeta_ok in Hwrite.
  apply ensureDatasetLayout_ok_files in Hlayout.
  rewrite Hlayout. exact Hwrite.
Qed.

(** [addSnapshot] writes the list it read with the new snapshot
    appended. *)
Lemma addSnapshot_ok (input snapshot : SnapshotMeta) (setActive : bool)
  (w w' : World) :
  Paths.addSnapshot input setActive w = Ok snapshot w' ->
  exists meta w1,
    Paths.readSnapshotMeta w = Ok meta w1
    /\ snapshot = set_isActive setActive input
    /\ files (fs w') !! Paths.snapshotsMetaPath
       = Some (json_meta (Paths.withAdded input setActive meta)).
Proof.
  unfold Paths.addSnapshot. intros Hrun.
  apply bind_ok_inv in Hrun. destruct Hrun as (meta & w1 & Hread & Hrun).
  exists meta, w1. split; [exact Hread |].
  apply bind_ok_inv in Hrun. destruct Hrun as ([] & w2 & Hwrite & Hrun).
  apply bind_ok_inv in Hrun. destruct Hrun as ([] & w3 & Hlayout & Hret).
  apply ret_ok_inv in Hret. destruct Hret as [<- <-].
  split; [reflexivity |].
  apply writeSnapshotMeta_ok in Hwrite.
  apply ensureDatasetLayout_ok_files in Hlayout.
  rewrite Hlayout. exact Hwrite.
Qed.

(** [ensureActiveSnapshot] hands back the first active snapshot of the
    list it read and writes nothing, or writes a list made of a new
    default snapshot alone. *)
Lemma ensureActiveSnapshot_ok (snapshot : SnapshotMeta) (w w' : World) :
  Paths.ensureActiveSnapshot w = Ok snapshot w' ->
  exists meta w1,
    Paths.readSnapshotMeta w = Ok meta w1
    /\ ((List.find isActive meta = Some snapshot
         /\ files (fs w') = files (fs w1))
        \/ (List.find isActive meta = None
            /\ exists newId now,
                 snapshot = Paths.defaultSnapshot newId now
                 /\ files (fs w') !! Paths.snapshotsMetaPath
                    = Some (json_meta [Paths.defaultSnapshot newId now]))).
Proof.
  unfold Paths.ensureActiveSnapshot. intros Hrun.
  apply bind_ok_inv in Hrun. destruct Hrun as (meta & w1 & Hread & Hrun).
  exists meta, w1. split; [exact Hread |].
  destruct (List.find isActive meta) as [active |] eqn:Hfind.
  - left. apply bind_ok_inv in Hrun. destruct Hrun as ([] & w2 & Hlayout & Hret).
    apply ret_ok_inv in Hret. destruct Hret as [<- <-].
    split; [reflexivity | apply ensureDatasetLayout_ok_files in Hlayout; exact Hlayout].
  - right. split; [reflexivity |].
    apply bind_ok_inv in Hrun. destruct Hrun as (n & w2 & Hn & Hrun).
    apply bind_ok_inv in Hrun. destruct Hrun as (t & w3 & Ht & Hrun).
    apply bind_ok_inv in Hrun. destruct Hrun as ([] & w4 & Hwrite & Hrun).
    apply bind_ok_inv in Hrun. destruct Hrun as ([] & w5 & Hlayout & Hret).
    apply ret_ok_inv in Hret. destruct Hret as [<- <-].
    exists (nanoid n), (isoNow t). split; [reflexivity |].
    apply writeSnapshotMeta_ok in Hwrite.
    apply ensureDatasetLayout_ok_files in Hlayout.
    rewrite Hlayout. exact Hwrite.
Qed.

End MetadataFile.

(** ** The compiled filter *)

Section FilterSemantics.

Context `{Host}.

Import FilterQuery.

Lemma firstn_exact {A} (l r : list A) : firstn (length l) (l ++ r) = l.
Proof. induction l as [| x l IH]; cbn; [reflexivity | rewrite IH; reflexivity]. Qed.

Lemma skipn_exact {A} (l r : list A) : skipn (length l) (l ++ r) = r.
Proof. induction l as [| x l IH]; cbn; [reflexivity | exact IH]. Qed.

Lemma bindWhere_app (cs1 cs2 : list Condition) (params : list SqlValue) :
  Sql.bindWhere (cs1 ++ cs2) params
  = match Sql.bindWhere cs1 params with
    | Some (b1, rest) =>
        match Sql.bindWhere cs2 rest with
        | Some (b2, rest') => Some (b1 ++ b2, rest')
        | None => None
        end
    | None => None
    end.
Proof.
  revert params. induction cs1 as [| c cs1 IH]; intros params; cbn.
  - destruct (Sql.bindWhere cs2 params) as [[b2 r] |]; reflexivity.
  - destruct (Sql.wellBound c _); [| reflexivity].
    rewrite IH.
    destruct (Sql.bindWhere cs1 _) as [[b1 r1] |]; [| reflexivity].
    destruct (Sql.bindWhere cs2 r1) as [[b2 r2] |]; reflexivity.
Qed.

Lemma bindWhere_one (c : Condition) (args extra : list SqlValue) :
  Sql.wellBound c args = true ->
  length args = Sql.arity c ->
  Sql.bindWhere [c] (args ++ extra) = Some ([(c, args)], extra).
Proof.
  intros Hwb Hlen. cbn. rewrite <- Hlen, firstn_exact, skipn_exact, Hwb.
  reflexivity.
Qed.

Lemma push_bindable {A} (guard : option A) (c : A -> Condition)
  (vs : A -> list SqlValue) (b : BuiltFilterQuery) (bound : list Sql.Bound) :
  Sql.Bindable b bound ->
  (forall a, Sql.wellBound (c a) (vs a) = true
             /\ length (vs a) = Sql.arity (c a)) ->
  Sql.Bindable (push guard c vs b) (bound ++ Sql.optBound guard c vs).
Proof.
  intros Hb Hwb extra. destruct guard as [a |]; cbn.
  - rewrite bindWhere_app, <- List.app_assoc, Hb.
    destruct (Hwb a) as [Hw Hl]. rewrite (bindWhere_one _ _ _ Hw Hl).
    reflexivity.
  - rewrite List.app_nil_r. apply Hb.
Qed.

Lemma forallb_isText (ids : list string) :
  forallb Sql.isText (List.map VText ids) = true.
Proof. induction ids as [| x ids IH]; [reflexivity | exact IH]. Qed.

Lemma map_textOf (ids : list string) :
  List.map Sql.textOf (List.map VText ids) = ids.
Proof.
  induction ids as [| x ids IH]; [reflexivity | cbn; rewrite IH; reflexivity].
Qed.

Lemma build_bindable (filters : PurchaseFilterInput) :
  Sql.Bindable (buildPurchaseFilterSql filters) (Sql.boundOf filters).
Proof.
  unfold buildPurchaseFilterSql, Sql.boundOf.
  repeat rewrite List.app_assoc.
  repeat (apply push_bindable;
          [| intros a; cbn; rewrite ?List.length_map, ?Nat.eqb_refl,
                             ?forallb_isText; split; reflexivity]).
  intros extra. reflexivity.
Qed.

Lemma build_binds (filters : PurchaseFilterInput) :
  Sql.bindWhere (conditions (buildPurchaseFilterSql filters))
    (values (buildPurchaseFilterSql filters))
  = Some (Sql.boundOf filters, []).
Proof.
  pose proof (build_bindable filters []) as Hb.
  rewrite List.app_nil_r in Hb. exact Hb.
Qed.

Lemma matches_selected (t : Tables) (filters : PurchaseFilterInput)
  (p : PurchaseCoreRow) :
  Sql.matches t filters p = Sql.selected t (Sql.boundOf filters) p.
Proof. unfold Sql.matches. rewrite build_binds. reflexivity. Qed.

Lemma group_tags (t : Tables) (ids : list string) (p : PurchaseCoreRow)
  (x : string) :
  In x (List.map snd
          (List.filter
             (fun pt => String.eqb (fst pt) (p_id p)
                        && existsb (String.eqb (snd pt)) ids)
             (purchase_tags t)))
  <-> In (p_id p, x) (purchase_tags t) /\ In x ids.
Proof.
  rewrite in_map_iff. split.
  - intros ([pid tid] & <- & Hin). apply filter_In in Hin.
    destruct Hin as [Hin Hc]. cbn in *.
    apply andb_true_iff in Hc. destruct Hc as [H1 H2].
    apply String.eqb_eq in H1. subst pid. split; [exact Hin |].
    apply existsb_exists in H2. destruct H2 as (y & Hy & Heq).
    apply String.eqb_eq in Heq. subst y. exact Hy.
  - intros [Hin Hids]. exists (p_id p, x). split; [reflexivity |].
    apply filter_In. split; [exact Hin |]. cbn.
    rewrite String.eqb_refl. cbn. apply existsb_exists.
    exists x. split; [exact Hids | apply String.eqb_refl].
Qed.

(** The tag condition holds of a purchase exactly when the ids are
    pairwise distinct and the purchase carries each of them. *)
Lemma tagsAllHolds_iff (t : Tables) (ids : list string) (p : PurchaseCoreRow) :
  ids <> [] ->
  Sql.tagsAllHolds t ids (length ids) p = true
  <-> List.NoDup ids
      /\ forall tag, In tag ids -> In (p_id p, tag) (purchase_tags t).
Proof.
  intros Hne. unfold Sql.tagsAllHolds.
  remember (List.filter
              (fun pt => String.eqb (fst pt) (p_id p)
                         && existsb (String.eqb (snd pt)) ids)
              (purchase_tags t)) as group eqn:Hgroup.
  assert (HD : forall x,
             In x (List.nodup String.string_dec (List.map snd group))
             <-> In (p_id p, x) (purchase_tags t) /\ In x ids).
  { intros x. rewrite List.nodup_In, Hgroup. apply group_tags. }
  pose proof (List.NoDup_nodup String.string_dec (List.map snd group)) as HND.
  assert (Hincl : incl (List.nodup String.string_dec (List.map snd group)) ids).
  { intros x Hx. apply HD in Hx. tauto. }
  clear Hgroup.
  split.
  - intros Hholds.
    assert (Hlen : length (List.nodup String.string_dec (List.map snd group))
                   = length ids).
    { destruct group; [discriminate | apply Nat.eqb_eq; exact Hholds]. }
    split.
    + eapply List.NoDup_incl_NoDup; [exact HND | lia | exact Hincl].
    + assert (Hback : incl ids (List.nodup String.string_dec (List.map snd group)))
        by (eapply List.NoDup_length_incl; [exact HND | lia | exact Hincl]).
      intros tag Htag. apply HD. apply Hback. exact Htag.
  - intros [Hnd Hall].
    assert (Hback : incl ids (List.nodup String.string_dec (List.map snd group))).
    { intros x Hx. apply HD. split; [apply Hall |]; exact Hx. }
    pose proof (List.NoDup_incl_length HND Hincl) as Hle1.
    pose proof (List.NoDup_incl_length Hnd Hback) as Hle2.
    destruct group as [| g rest].
    + destruct ids as [| tag ids]; [exfalso; apply Hne; reflexivity |].
      cbn in Hle2. lia.
    + apply Nat.eqb_eq. lia.
Qed.

Lemma selected_app (t : Tables) (b1 b2 : list Sql.Bound) (p : PurchaseCoreRow) :
  Sql.selected t (b1 ++ b2) p = Sql.selected t b1 p && Sql.selected t b2 p.
Proof. unfold Sql.selected. apply List.forallb_app. Qed.

Lemma andb_regroup (a1 a2 a3 a4 a5 a6 a7 c : bool) :
  a1 && (a2 && (a3 && (a4 && (a5 && (a6 && (c && true && a7))))))
  = a1 && (a2 && (a3 && (a4 && (a5 && (a6 && a7))))) && c.
Proof.
  destruct a1, a2, a3, a4, a5, a6, a7, c; reflexivity.
Qed.

Lemma matches_tags (t : Tables) (filters : PurchaseFilterInput)
  (ids : list string) (p : PurchaseCoreRow) :
  tagIds filters = Some ids ->
  ids <> [] ->
  Sql.matches t filters p
  = Sql.matches t (withoutTags filters) p
    && Sql.tagsAllHolds t ids (length ids) p.
Proof.
  intros Htags Hne. rewrite !matches_selected. unfold Sql.boundOf. cbn.
  rewrite Htags. destruct ids as [| tag ids]; [exfalso; apply Hne; reflexivity |].
  cbn [nonEmpty Sql.optBound].
  rewrite !List.forallb_app. cbn [forallb fst snd Sql.holds].
  rewrite map_textOf.
  apply andb_regroup.
Qed.

End FilterSemantics.

(** The purchases of the ledger are tagged {A}, {B} and {A,B}: a filter
    on {A,B} selects the third, a filter on {A} the first and the third. *)
Example tag_filter_examples :
  List.map p_id
    (List.filter (Sql.matches (H := Demo.host) Demo.ledger
                    (Demo.withTags ["A"; "B"]))
       (purchases Demo.ledger)) = ["p3"]
  /\ List.map p_id
       (List.filter (Sql.matches (H := Demo.host) Demo.ledger
                       (Demo.withTags ["A"]))
          (purchases Demo.ledger)) = ["p1"; "p3"].
Proof. split; reflexivity. Qed.

(** The claim as worded fails on a tag list that names a tag twice:
    the purchase [p1] carries every id of [A; A], and is not selected. *)
Lemma C5_counterexample :
  let p1 := Demo.purchase "p1" "2026-03-05" 100 in
  In p1 (purchases Demo.ledger)
  /\ (forall tag, In tag ["A"; "A"] -> In (p_id p1, tag) (purchase_tags Demo.ledger))
  /\ Sql.matches (H := Demo.host) Demo.ledger (Demo.withTags ["A"; "A"]) p1 = false
  /\ FilterQuery.conditions
       (FilterQuery.buildPurchaseFilterSql (Demo.withTags ["A"; "A"]))
     = [FilterQuery.TagsAll 2 2].
Proof.
  cbv zeta. split; [left; reflexivity |].
  split; [| split; reflexivity].
  intros tag [<- | [<- | []]]; left; reflexivity.
Qed.

(** C5, amended.  For every filter whose [tagIds] is non-empty and names
    no tag twice, the compiled predicate selects a purchase if and only
    if the purchase passes the other constraints of the filter and
    carries every tag id of the list; for a filter on tags alone, if and
    only if it carries every one of them. *)
Theorem C5_tag_filter `{Host} (t : Tables) (filters : PurchaseFilterInput)
  (ids : list string) (p : PurchaseCoreRow) :
  tagIds filters = Some ids ->
  ids <> [] ->
  List.NoDup ids ->
  (Sql.matches t filters p = true
   <-> Sql.matches t (FilterQuery.withoutTags filters) p = true
       /\ forall tag, In tag ids -> In (p_id p, tag) (purchase_tags t))
  /\ forall pageLimit pageOffset,
       Sql.matches t (FilterQuery.onlyTags ids pageLimit pageOffset) p = true
       <-> forall tag, In tag ids -> In (p_id p, tag) (purchase_tags t).
Proof.
  intros Htags Hne Hnd. split.
  - rewrite (matches_tags t filters ids p Htags Hne), andb_true_iff,
      (tagsAllHolds_iff t ids p Hne).
    tauto.
  - intros pageLimit pageOffset.
    rewrite (matches_tags t (FilterQuery.onlyTags ids pageLimit pageOffset)
               ids p eq_refl Hne), andb_true_iff,
      (tagsAllHolds_iff t ids p Hne).
    assert (Hrest : Sql.matches t
                      (FilterQuery.withoutTags
                         (FilterQuery.onlyTags ids pageLimit pageOffset)) p
                    = true) by reflexivity.
    tauto.
Qed.

Lemma C5_tag_filter_witness :
  let p3 := Demo.purchase "p3" "2026-02-10" 300 in
  Sql.matches (H := Demo.host) Demo.ledger (Demo.withTags ["A"; "B"]) p3 = true
  <-> forall tag, In tag ["A"; "B"] ->
                  In (p_id p3, tag) (purchase_tags Demo.ledger).
Proof.
  cbv zeta.
  refine (proj2 (C5_tag_filter (H := Demo.host) Demo.ledger
                   (Demo.withTags ["A"; "B"]) ["A"; "B"]
                   (Demo.purchase "p3" "2026-02-10" 300)
                   eq_refl _ _) 100%Z 0%Z).
  - discriminate.
  - repeat (apply List.NoDup_cons; [cbn; intuition discriminate |]).
    apply List.NoDup_nil.
Defined.

(** ** Listing purchases *)

Section Listing.

Context `{Host}.

Lemma In_insertBy {A} (before : A -> A -> bool) (x y : A) (l : list A) :
  In x (Sql.insertBy before y l) <-> x = y \/ In x l.
Proof.
  induction l as [| z l IH]; cbn.
  - intuition.
  - destruct (before y z); cbn; [intuition | rewrite IH; intuition].
Qed.

Lemma In_sortBy {A} (before : A -> A -> bool) (x : A) (l : list A) :
  In x (Sql.sortBy before l) <-> In x l.
Proof.
  unfold Sql.sortBy. induction l as [| y l IH]; cbn; [tauto |].
  rewrite In_insertBy, IH. intuition.
Qed.

(** The engine hands every row to [ORDER BY], once. *)
Lemma In_visit {A} (scan : Scan A) (x : A) (l : list A) :
  In x (visit scan l) <-> In x l.
Proof.
  split; apply Permutation_in;
    [| apply Permutation_sym]; apply visit_permutation.
Qed.

Lemma In_orderBy {A} (scan : Scan A) (before : A -> A -> bool) (x : A)
  (l : list A) :
  In x (Sql.orderBy scan before l) <-> In x l.
Proof. unfold Sql.orderBy. rewrite In_sortBy. apply In_visit. Qed.

Lemma length_insertBy {A} (before : A -> A -> bool) (y : A) (l : list A) :
  length (Sql.insertBy before y l) = S (length l).
Proof.
  induction l as [| z l IH]; cbn; [reflexivity |].
  destruct (before y z); cbn; [reflexivity | rewrite IH; reflexivity].
Qed.

Lemma length_sortBy {A} (before : A -> A -> bool) (l : list A) :
  length (Sql.sortBy before l) = length l.
Proof.
  unfold Sql.sortBy. induction l as [| y l IH]; cbn; [reflexivity |].
  rewrite length_insertBy, IH. reflexivity.
Qed.

Lemma length_orderBy {A} (scan : Scan A) (before : A -> A -> bool)
  (l : list A) :
  length (Sql.orderBy scan before l) = length l.
Proof.
  unfold Sql.orderBy. rewrite length_sortBy.
  apply Permutation_length, visit_permutation.
Qed.

Lemma In_page_firstn {A} (n : nat) (l : list A) (x : A) :
  In x (firstn n l) -> In x l.
Proof.
  revert l. induction n as [| n IH]; intros [| y l]; cbn; try tauto.
  intros [-> | Hin]; [left; reflexivity | right; apply IH; exact Hin].
Qed.

Lemma In_page_skipn {A} (n : nat) (l : list A) (x : A) :
  In x (skipn n l) -> In x l.
Proof.
  revert l. induction n as [| n IH]; intros [| y l]; cbn; try tauto.
  intros Hin. right. apply IH. exact Hin.
Qed.

Lemma In_limitOffset {A} (l o : Z) (rows : list A) (x : A) :
  In x (Sql.limitOffset l o rows) -> In x rows.
Proof.
  unfold Sql.limitOffset. destruct (l <? 0)%Z; intros Hin.
  - apply In_page_skipn in Hin. exact Hin.
  - apply In_page_firstn, In_page_skipn in Hin. exact Hin.
Qed.

Lemma bind_ret {S A B} (a : A) (k : A -> M S B) (s : S) :
  (mret a ≫= k) s = k a s.
Proof. reflexivity. Qed.

Lemma theDb_run (w : World) (s : SqliteWasmService) (t : Tables) :
  store w = Some s -> db s = Some t -> Database.theDb w = Ok t w.
Proof.
  intros Hs Hd. unfold Database.theDb, Database.ensureStore, mbind, M_bind.
  rewrite Hs, Hd. reflexivity.
Qed.

Lemma theDb_throws (w : World) :
  (forall s t, store w = Some s -> db s <> Some t) ->
  exists e, Database.theDb w = Throw e w.
Proof.
  intros Hclosed. unfold Database.theDb, Database.ensureStore, mbind, M_bind.
  destruct (store w) as [s |] eqn:Hs; [| eauto].
  destruct (db s) as [t |] eqn:Hd; [| eauto].
  exfalso. exact (Hclosed s t eq_refl Hd).
Qed.

Lemma filter_matches (t : Tables) (filters : PurchaseFilterInput)
  (rows : list PurchaseCoreRow) :
  List.filter (Sql.selected t (Sql.boundOf filters)) rows
  = List.filter (Sql.matches t filters) rows.
Proof.
  apply List.filter_ext. intros p. symmetry. apply matches_selected.
Qed.

(** What [listPurchases] returns on an open store, for an input the
    schema accepts. *)
Lemma listPurchases_run (input : PurchaseFilterInput) (w : World)
  (s : SqliteWasmService) (t : Tables) :
  purchaseFilter_accepts input = true ->
  store w = Some s ->
  db s = Some t ->
  Database.listPurchases input w
  = Ok {| Database.items :=
            List.map (Database.mapPurchase t)
              (Sql.limitOffset (limit input) (offset input)
                 (Sql.orderBy scan_purchases Sql.newestFirst
                    (List.filter (Sql.matches t input) (purchases t))));
          Database.total :=
            Z.of_nat (length (List.filter (Sql.matches t input) (purchases t)))
       |} w.
Proof.
  intros Hacc Hs Hd.
  unfold Database.listPurchases, Database.purchaseFilterInputSchema_parse.
  rewrite Hacc.
  rewrite bind_ret.
  rewrite (bind_ok _ _ _ _ _ (theDb_run w s t Hs Hd)).
  unfold Sql.countPurchases. rewrite build_binds. cbn [Database.liftE].
  rewrite bind_ret.
  rewrite (bind_ok _ _ _ _ _ (theDb_run w s t Hs Hd)).
  unfold Sql.pagePurchases. rewrite (build_bindable input). cbn [Database.liftE].
  rewrite bind_ret.
  rewrite !filter_matches. reflexivity.
Qed.

Lemma listPurchases_ok_inv (input : PurchaseFilterInput) (w w' : World)
  (page : Database.PurchasePage) :
  Database.listPurchases input w = Ok page w' ->
  exists s t,
    purchaseFilter_accepts input = true
    /\ store w = Some s /\ db s = Some t
    /\ Database.listPurchases input w
       = Ok {| Database.items :=
                 List.map (Database.mapPurchase t)
                   (Sql.limitOffset (limit input) (offset input)
                      (Sql.orderBy scan_purchases Sql.newestFirst
                         (List.filter (Sql.matches t input) (purchases t))));
               Database.total :=
                 Z.of_nat
                   (length (List.filter (Sql.matches t input) (purchases t)))
            |} w.
Proof.
  intros Hrun.
  destruct (purchaseFilter_accepts input) eqn:Hacc.
  - destruct (store w) as [s |] eqn:Hs.
    + destruct (db s) as [t |] eqn:Hd.
      * exists s, t. split; [reflexivity |]. split; [reflexivity |].
        split; [exact Hd |]. apply (listPurchases_run input w s t Hacc Hs Hd).
      * exfalso. revert Hrun.
        unfold Database.listPurchases, Database.purchaseFilterInputSchema_parse.
        rewrite Hacc. rewrite bind_ret.
        unfold Database.theDb, Database.ensureStore, mbind, M_bind.
        rewrite Hs, Hd. discriminate.
    + exfalso. revert Hrun.
      unfold Database.listPurchases, Database.purchaseFilterInputSchema_parse.
      rewrite Hacc. rewrite bind_ret.
      unfold Database.theDb, Database.ensureStore, mbind, M_bind.
      rewrite Hs. discriminate.
  - exfalso. revert Hrun.
    unfold Database.listPurchases, Database.purchaseFilterInputSchema_parse.
    rewrite Hacc. unfold mbind, M_bind, throw. discriminate.
Qed.

Lemma matches_repage (t : Tables) (filters : PurchaseFilterInput)
  (pageLimit pageOffset : Z) (p : PurchaseCoreRow) :
  Sql.matches t (FilterQuery.repage filters pageLimit pageOffset) p
  = Sql.matches t filters p.
Proof. rewrite !matches_selected. reflexivity. Qed.

End Listing.

(** ** Settings *)

Section SettingsStore.

Context `{Host}.

Lemma appSettingsSchema_parse_ok_inv {S} (settings parsed : AppSettings)
  (s s' : S) :
  Settings.appSettingsSchema_parse settings s = Ok parsed s' ->
  parsed = settings /\ s' = s /\ appSettings_accepts settings = true.
Proof.
  unfold Settings.appSettingsSchema_parse.
  destruct (appSettings_accepts settings); [| discriminate].
  intros Hret. apply ret_ok_inv in Hret. destruct Hret as [-> ->]. auto.
Qed.

Lemma deserializeSettings_state {S} (raw : string) (s : S) :
  state_of (Settings.deserializeSettings raw s) = s.
Proof.
  unfold Settings.deserializeSettings, Settings.appSettingsSchema_parse.
  destruct (parse_settings raw) as [value |]; [| reflexivity].
  destruct (appSettings_accepts value); reflexivity.
Qed.

(** What [getSettings] reports: the defaults, or the stored object with
    its theme replaced. *)
Lemma getSettings_ok_inv (w w' : World) (current : AppSettings) :
  Database.getSettings w = Ok current w' ->
  w' = w
  /\ exists s t,
       store w = Some s /\ db s = Some t
       /\ ((current = Settings.defaultSettings
            /\ (app_settings t !! "app" = None
                \/ exists raw, app_settings t !! "app" = Some raw
                               /\ forall parsed,
                                    parse_settings raw = Some parsed ->
                                    appSettings_accepts parsed = false))
           \/ exists raw parsed,
                app_settings t !! "app" = Some raw
                /\ parse_settings raw = Some parsed
                /\ appSettings_accepts parsed = true
                /\ current = Database.withDarkTheme parsed).
Proof.
  unfold Database.getSettings. intros Hrun.
  apply bind_ok_inv in Hrun. destruct Hrun as (t & w1 & Ht & Hrun).
  apply theDb_ok_inv in Ht. destruct Ht as (-> & s & Hs & Hd).
  destruct (app_settings t !! "app") as [raw |] eqn:Hrow.
  - unfold tryCatch, mbind, M_bind, Settings.deserializeSettings,
      Settings.appSettingsSchema_parse in Hrun.
    destruct (parse_settings raw) as [parsed |] eqn:Hparse.
    + destruct (appSettings_accepts parsed) eqn:Hacc.
      * cbn in Hrun. injection Hrun as <- <-.
        split; [reflexivity |]. exists s, t. repeat split; try assumption.
        right. exists raw, parsed. auto.
      * cbn in Hrun. injection Hrun as <- <-.
        split; [reflexivity |]. exists s, t. repeat split; try assumption.
        left. split; [reflexivity |]. right. exists raw. split; [exact Hrow |].
        intros parsed' Hp. rewrite Hparse in Hp. injection Hp as <-. exact Hacc.
    + cbn in Hrun. injection Hrun as <- <-.
      split; [reflexivity |]. exists s, t. repeat split; try assumption.
      left. split; [reflexivity |]. right. exists raw. split; [exact Hrow |].
      intros parsed' Hp. rewrite Hparse in Hp. discriminate.
  - apply ret_ok_inv in Hrun. destruct Hrun as [<- <-].
    split; [reflexivity |]. exists s, t. repeat split; try assumption.
    left. auto.
Qed.

Lemma getSettings_dark (w w' : World) (current : AppSettings) :
  Database.getSettings w = Ok current w' -> theme current = "dark".
Proof.
  intros Hrun. apply getSettings_ok_inv in Hrun.
  destruct Hrun as (_ & s & t & _ & _ & [[-> _] | (raw & parsed & _ & _ & _ & ->)]);
    reflexivity.
Qed.

(** What [updateSettings] returns and leaves behind. *)
Lemma updateSettings_ok_inv (input : SettingsPatch) (w w' : World)
  (next : AppSettings) :
  Database.updateSettings input w = Ok next w' ->
  exists current s t,
    Database.getSettings w = Ok current w
    /\ next = Database.mergeSettings current input
    /\ appSettings_accepts next = true
    /\ store w = Some s /\ db s = Some t
    /\ let t' := set_app_settings (fun m => <["app" := json_settings next]> m) t in
       store w' = Some {| db := Some t'; dbPath := dbPath s |}
       /\ files (fs w')
          = <[dbPath s := Base64.bytesToBase64 (db_export t')]> (files (fs w)).
Proof.
  unfold Database.updateSettings. intros Hrun.
  apply bind_ok_inv in Hrun. destruct Hrun as (current & w1 & Hget & Hrun).
  pose proof (getSettings_ok_inv _ _ _ Hget) as (-> & s & t & Hs & Hd & _).
  apply bind_ok_inv in Hrun. destruct Hrun as (next' & w2 & Hparse & Hrun).
  apply appSettingsSchema_parse_ok_inv in Hparse.
  destruct Hparse as (-> & -> & Hacc).
  apply bind_ok_inv in Hrun. destruct Hrun as (s1 & w3 & Hens & Hrun).
  unfold Database.ensureStore in Hens. rewrite Hs in Hens. injection Hens as <- <-.
  apply bind_ok_inv in Hrun. destruct Hrun as (raw & w4 & Hser & Hrun).
  unfold Settings.serializeSettings in Hser.
  apply bind_ok_inv in Hser. destruct Hser as (parsed & w5 & Hparse & Hret).
  apply appSettingsSchema_parse_ok_inv in Hparse. destruct Hparse as (-> & -> & _).
  apply ret_ok_inv in Hret. destruct Hret as [<- <-].
  rewrite (bind_ok _ _ _ _ _ (theDb_run w s t Hs Hd)) in Hrun.
  apply bind_ok_inv in Hrun. destruct Hrun as ([] & w6 & Hput & Hrun).
  unfold Database.putDb, modify in Hput. injection Hput as <-.
  apply bind_ok_inv in Hrun. destruct Hrun as ([] & w7 & Hpersist & Hret).
  apply ret_ok_inv in Hret. destruct Hret as [<- <-].
  unfold Database.persist, Database.ensureStore, mbind, M_bind in Hpersist.
  cbn in Hpersist. rewrite Hs in Hpersist. cbn in Hpersist.
  unfold Filesystem_writeFile in Hpersist. cbn in Hpersist.
  destruct (writeFault _ _ _); [discriminate |].
  injection Hpersist as <-.
  exists current, s, t. cbn. rewrite Hs. cbn. auto 10.
Qed.

End SettingsStore.

(** The claim as worded fails on a settings row stored with a light
    theme: the update specifies no field, and the object it persists and
    returns has a dark theme. *)
Lemma C6_counterexample :
  (exists stored,
      app_settings Demo.ledger !! "app" = Some "light|EUR|0|off|1"
      /\ parse_settings (Host := Demo.host) "light|EUR|0|off|1" = Some stored
      /\ theme stored = "light")
  /\ sp_theme Demo.noPatch = Absent
  /\ match Database.updateSettings (H := Demo.host) Demo.noPatch
             Demo.ledgerWorld with
     | Ok next w' =>
         theme next = "dark"
         /\ (exists s t, store w' = Some s /\ db s = Some t
                         /\ app_settings t !! "app" = Some "dark|EUR|0|off|1")
     | Throw _ _ => False
     end.
Proof.
  split; [eexists; repeat split; reflexivity |].
  split; [reflexivity |].
  vm_compute. split; [reflexivity |]. eexists _, _. repeat split; reflexivity.
Qed.

(** C6, amended.  Whenever [updateSettings] returns, with [current] the
    settings [getSettings] reported before it (the stored object with a
    dark theme when the stored JSON parses and passes the schema, the
    defaults otherwise): the theme of the result is dark; every other
    field that the input does not specify, the fields of [lastFilters]
    included, has the value it had in [current], and a specified field
    the value of the input; the merged object is the one returned, its
    JSON is the value of the settings row and the database image holding
    it is the one written to disk. *)
Theorem C6_update_settings_merge `{Host} (input : SettingsPatch)
  (w w' : World) (next : AppSettings) :
  Database.updateSettings input w = Ok next w' ->
  exists current s t,
    Database.getSettings w = Ok current w
    /\ next = Database.mergeSettings current input
    /\ theme next = "dark"
    /\ (sp_baseCurrency input = Absent ->
        baseCurrency next = baseCurrency current)
    /\ (sp_overallMonthlyBudgetCents input = Absent ->
        overallMonthlyBudgetCents next = overallMonthlyBudgetCents current)
    /\ (sp_performanceMode input = Absent ->
        performanceMode next = performanceMode current)
    /\ (sp_previewImages input = Absent ->
        previewImages next = previewImages current)
    /\ (sp_lastFilters input = None -> lastFilters next = lastFilters current)
    /\ (forall patch, sp_lastFilters input = Some patch ->
          let before := lastFilters current in
          let after := lastFilters next in
          (fp_fromDate patch = Absent -> fromDate after = fromDate before)
          /\ (fp_toDate patch = Absent -> toDate after = toDate before)
          /\ (fp_categoryIds patch = Absent ->
              categoryIds after = categoryIds before)
          /\ (fp_vendor patch = Absent -> vendor after = vendor before)
          /\ (fp_minAmountCents patch = Absent ->
              minAmountCents after = minAmountCents before)
          /\ (fp_maxAmountCents patch = Absent ->
              maxAmountCents after = maxAmountCents before)
          /\ (fp_tagIds patch = Absent -> tagIds after = tagIds before)
          /\ (fp_query patch = Absent -> query after = query before)
          /\ (fp_limit patch = Absent -> limit after = limit before)
          /\ (fp_offset patch = Absent -> offset after = offset before))
    /\ store w = Some s /\ db s = Some t
    /\ let t' := set_app_settings (fun m => <["app" := json_settings next]> m) t in
       store w' = Some {| db := Some t'; dbPath := dbPath s |}
       /\ app_settings t' !! "app" = Some (json_settings next)
       /\ files (fs w') !! dbPath s
          = Some (Base64.bytesToBase64 (db_export t')).
Proof.
  intros Hrun.
  destruct (updateSettings_ok_inv input w w' next Hrun)
    as (current & s & t & Hget & Hnext & Hacc & Hs & Hd & Hstore & Hfiles).
  exists current, s, t.
  split; [exact Hget |]. split; [exact Hnext |].
  subst next. cbn [Database.mergeSettings theme baseCurrency
                     overallMonthlyBudgetCents performanceMode previewImages
                     lastFilters].
  split; [reflexivity |].
  split; [intros ->; reflexivity |].
  split; [intros ->; reflexivity |].
  split; [intros ->; reflexivity |].
  split; [intros ->; reflexivity |].
  split; [intros ->; reflexivity |].
  split.
  { intros patch ->. cbv zeta.
    cbn [Database.mergeFilters fromDate toDate categoryIds vendor minAmountCents
           maxAmountCents tagIds query limit offset].
    repeat split; intros ->; reflexivity. }
  split; [exact Hs |]. split; [exact Hd |].
  cbv zeta. split; [exact Hstore |].
  split; [cbn; apply lookup_insert_eq |].
  rewrite Hfiles. apply lookup_insert_eq.
Qed.

Lemma C6_update_settings_merge_witness :
  let input :=
    {| sp_theme := Present "light"; sp_baseCurrency := Absent;
       sp_overallMonthlyBudgetCents := Present 50000%Z;
       sp_performanceMode := Absent; sp_previewImages := Absent;
       sp_lastFilters := None |} in
  match Database.updateSettings (H := Demo.host) input Demo.ledgerWorld with
  | Ok next w' =>
      theme next = "dark" /\ baseCurrency next = "EUR"
      /\ overallMonthlyBudgetCents next = 50000%Z
  | Throw _ _ => False
  end.
Proof.
  cbv zeta.
  destruct (Database.updateSettings (H := Demo.host) _ Demo.ledgerWorld)
    as [next w' | e w'] eqn:Hrun.
  - destruct (C6_update_settings_merge (H := Demo.host) _ _ _ _ Hrun)
      as (current & s & t & Hget & Hnext & Hdark & Hcur & _).
    vm_compute in Hget. injection Hget as <-.
    split; [exact Hdark |]. split; [rewrite (Hcur eq_refl); reflexivity |].
    rewrite Hnext. reflexivity.
  - vm_compute in Hrun. discriminate.
Defined.

(** C10.  Whatever the settings row holds, and whatever the update asks
    for, the settings [getSettings] returns and the settings
    [updateSettings] returns have the theme [dark]; so has the object
    [updateSettings] stores. *)
Theorem C10_theme_is_dark `{Host} (w : World) :
  (forall (settings : AppSettings) (w' : World),
      Database.getSettings w = Ok settings w' -> theme settings = "dark")
  /\ (forall (input : SettingsPatch) (settings : AppSettings) (w' : World),
         Database.updateSettings input w = Ok settings w' ->
         theme settings = "dark"
         /\ exists s t,
              store w' = Some s /\ db s = Some t
              /\ app_settings t !! "app" = Some (json_settings settings)).
Proof.
  split.
  - intros settings w' Hrun. exact (getSettings_dark w w' settings Hrun).
  - intros input settings w' Hrun.
    destruct (updateSettings_ok_inv input w w' settings Hrun)
      as (current & s & t & _ & Hnext & _ & _ & _ & Hstore & _).
    split; [rewrite Hnext; reflexivity |].
    eexists _, _. split; [exact Hstore |]. split; [reflexivity |].
    cbn. apply lookup_insert_eq.
Qed.

Lemma C10_theme_is_dark_witness :
  let input :=
    {| sp_theme := Present "light"; sp_baseCurrency := Absent;
       sp_overallMonthlyBudgetCents := Absent;
       sp_performanceMode := Absent; sp_previewImages := Absent;
       sp_lastFilters := None |} in
  match Database.getSettings (H := Demo.host) Demo.ledgerWorld,
        Database.updateSettings (H := Demo.host) input Demo.ledgerWorld with
  | Ok stored _, Ok updated _ =>
      baseCurrency stored = "EUR"
      /\ theme stored = "dark" /\ theme updated = "dark"
  | _, _ => False
  end.
Proof.
  cbv zeta.
  destruct (C10_theme_is_dark (H := Demo.host) Demo.ledgerWorld) as [Hget Hupd].
  destruct (Database.getSettings (H := Demo.host) Demo.ledgerWorld)
    as [stored w1 | e w1] eqn:Hrun1; [| vm_compute in Hrun1; discriminate].
  destruct (Database.updateSettings (H := Demo.host) _ Demo.ledgerWorld)
    as [updated w2 | e w2] eqn:Hrun2; [| vm_compute in Hrun2; discriminate].
  split; [vm_compute in Hrun1; injection Hrun1 as <-; reflexivity |].
  split; [exact (Hget _ _ eq_refl) | exact (proj1 (Hupd _ _ _ Hrun2))].
Defined.

(** ** The exported archive *)

Section ExportedArchive.

Context `{Host}.

Lemma prefix_append (p s : string) : String.prefix p (p +:+ s) = true.
Proof.
  induction p as [| c p IH]; simpl.
  - destruct s; reflexivity.
  - destruct (Ascii.ascii_dec c c) as [_ | Hne]; [exact IH | contradiction].
Qed.

Lemma zip_put_In (name : string) (data : Uint8Array) (zip : Zip) (n : string)
  (o : ZipObject) :
  List.NoDup (Backup.names zip) ->
  In (n, o) (Backup.zip_put name data zip) ->
  (n = name /\ o = {| zdir := false; zdata := data |})
  \/ (n <> name /\ In (n, o) zip).
Proof.
  unfold Backup.names.
  induction zip as [| [m q] rest IH]; cbn; intros Hnd Hin.
  - destruct Hin as [[= <- <-] | []]. left. auto.
  - apply List.NoDup_cons_iff in Hnd. destruct Hnd as [Hfresh Hnd].
    destruct (String.eqb m name) eqn:Heq.
    + apply String.eqb_eq in Heq. subst m.
      destruct Hin as [[= <- <-] | Hin]; [left; auto |].
      right. split; [| right; exact Hin].
      intros ->. apply Hfresh. apply (in_map fst) in Hin. exact Hin.
    + apply String.eqb_neq in Heq.
      destruct Hin as [[= <- <-] | Hin]; [right; split; [exact Heq | left; reflexivity] |].
      destruct (IH Hnd Hin) as [Hnew | [Hne Hold]]; [left; exact Hnew |].
      right. split; [exact Hne | right; exact Hold].
Qed.

Lemma zip_put_names (name : string) (data : Uint8Array) (zip : Zip) (n : string) :
  In n (Backup.names (Backup.zip_put name data zip))
  <-> n = name \/ In n (Backup.names zip).
Proof.
  unfold Backup.names.
  induction zip as [| [m q] rest IH]; cbn.
  - intuition.
  - destruct (String.eqb m name) eqn:Heq; cbn.
    + apply String.eqb_eq in Heq. subst m. intuition.
    + rewrite IH. intuition.
Qed.

Lemma zip_put_NoDup (name : string) (data : Uint8Array) (zip : Zip) :
  List.NoDup (Backup.names zip) ->
  List.NoDup (Backup.names (Backup.zip_put name data zip)).
Proof.
  induction zip as [| [m q] rest IH]; cbn; intros Hnd.
  - apply List.NoDup_cons; [intros [] | apply List.NoDup_nil].
  - apply List.NoDup_cons_iff in Hnd. destruct Hnd as [Hfresh Hnd].
    destruct (String.eqb m name) eqn:Heq; cbn.
    + apply List.NoDup_cons; assumption.
    + apply String.eqb_neq in Heq. apply List.NoDup_cons; [| apply IH; exact Hnd].
      intros Hin. apply (zip_put_names name data rest m) in Hin.
      destruct Hin as [-> | Hin]; [apply Heq; reflexivity | exact (Hfresh Hin)].
Qed.

Lemma zip_file_put (name : string) (data : Uint8Array) (zip : Zip) :
  Backup.zip_file name (Backup.zip_put name data zip)
  = Some {| zdir := false; zdata := data |}.
Proof.
  unfold Backup.zip_file.
  induction zip as [| [m q] rest IH]; cbn.
  - rewrite String.eqb_refl. reflexivity.
  - destruct (String.eqb m name) eqn:Heq; cbn; rewrite Heq; [reflexivity | exact IH].
Qed.

Lemma consistent_empty : Backup.Consistent ([], ∅).
Proof.
  split; [apply List.NoDup_nil |]. split.
  - intros name o [].
  - intros name [v Hv]. cbn [snd] in Hv. rewrite lookup_empty in Hv. discriminate.
Qed.

Lemma addEntry_consistent (path : string) (bytes : Uint8Array)
  (a : Backup.Archive) :
  Backup.archiveName path = true ->
  Backup.Consistent a ->
  Backup.Consistent (Backup.addEntry path bytes a)
  /\ (forall n, In n (Backup.names (fst (Backup.addEntry path bytes a)))
                <-> n = path \/ In n (Backup.names (fst a))).
Proof.
  intros Hname (Hnd & Hcover & Hdom). destruct a as [zip cs]. cbn in *.
  split; [| intros n; apply zip_put_names].
  split; [apply zip_put_NoDup; exact Hnd |]. split.
  - intros name o Hin. cbn in Hin.
    destruct (zip_put_In path bytes zip name o Hnd Hin) as [[-> ->] | [Hne Hold]].
    + cbn. split; [reflexivity |]. split; [exact Hname |]. apply lookup_insert_eq.
    + destruct (Hcover name o Hold) as (Hdir & Hn & Hsum).
      split; [exact Hdir |]. split; [exact Hn |].
      cbn. rewrite lookup_insert_ne; [exact Hsum | congruence].
  - intros name Hsome. cbn in Hsome. cbn. apply zip_put_names.
    destruct (decide (path = name)) as [-> | Hne]; [left; reflexivity |].
    right. rewrite lookup_insert_ne in Hsome; [| exact Hne]. apply Hdom, Hsome.
Qed.

(** A loop of [exportZip]: every turn adds one entry under the name
    [key x]. *)
Lemma foldOf_addEntry {A} (key : A -> string) (xs : list A)
  (body : Backup.Archive -> A -> Async Backup.Archive)
  (a a' : Backup.Archive) (w w' : World) :
  (forall acc x w1 acc1 w2,
      body acc x w1 = Ok acc1 w2 ->
      exists bytes, acc1 = Backup.addEntry (key x) bytes acc) ->
  (forall x, Backup.archiveName (key x) = true) ->
  Backup.foldOf xs body a w = Ok a' w' ->
  Backup.Consistent a ->
  Backup.Consistent a'
  /\ incl (Backup.names (fst a)) (Backup.names (fst a'))
  /\ forall x, In x xs -> In (key x) (Backup.names (fst a')).
Proof.
  intros Hbody Hkey. revert a w.
  induction xs as [| x xs IH]; intros a w Hrun Hcons; cbn in Hrun.
  - apply ret_ok_inv in Hrun. destruct Hrun as [<- <-].
    split; [exact Hcons |]. split; [apply incl_refl | intros x []].
  - apply bind_ok_inv in Hrun. destruct Hrun as (acc1 & w1 & Hstep & Hrun).
    destruct (Hbody _ _ _ _ _ Hstep) as [bytes ->].
    destruct (addEntry_consistent (key x) bytes a (Hkey x) Hcons) as [Hcons1 Hnames1].
    destruct (IH _ _ Hrun Hcons1) as (Hcons' & Hincl & Hall).
    split; [exact Hcons' |]. split.
    + intros n Hn. apply Hincl, Hnames1. right. exact Hn.
    + intros y [<- | Hy]; [| apply Hall; exact Hy].
      apply Hincl, Hnames1. left. reflexivity.
Qed.

(** The key under which a media row goes into the archive. *)
Lemma mediaKey_archiveName (relativePath : string) :
  Backup.archiveName
    ("media/" +:+ Js.replaceAll Js.backslash Js.slash relativePath) = true.
Proof.
  unfold Backup.archiveName, Js.startsWith.
  rewrite (prefix_append "media/"). rewrite !orb_true_r. reflexivity.
Qed.

Lemma jsonKey_archiveName (table : string) :
  Backup.archiveName ("json/" +:+ table +:+ ".json") = true.
Proof.
  unfold Backup.archiveName, Js.startsWith.
  rewrite (prefix_append "json/"). rewrite orb_true_r. reflexivity.
Qed.

Lemma csvKey_archiveName (table : string) :
  Backup.archiveName ("csv/" +:+ table +:+ ".csv") = true.
Proof.
  unfold Backup.archiveName, Js.startsWith.
  rewrite (prefix_append "csv/"). rewrite !orb_true_r. reflexivity.
Qed.

(** What a successful [assembleArchive] hands back. *)
Lemma assembleArchive_ok_inv (w w' : World) (archive : Backup.Archive) :
  Backup.assembleArchive w = Ok archive w' ->
  exists (a : Backup.Archive) (mediaRows : list Row) (w1 w2 : World),
    archive = (Backup.zip_put "checksums.json" (json_checksums (snd a)) (fst a),
               snd a)
    /\ Backup.Consistent a
    /\ In "manifest.json" (Backup.names (fst a))
    /\ (forall table, In table Backup.EXPORT_TABLES ->
          In ("json/" +:+ table +:+ ".json") (Backup.names (fst a))
          /\ In ("csv/" +:+ table +:+ ".csv") (Backup.names (fst a)))
    /\ Database.rawAll
         "SELECT relative_path FROM purchase_images ORDER BY created_at ASC" []
         w1 = Ok mediaRows w2
    /\ (forall r, In r mediaRows ->
          In ("media/" +:+ Js.replaceAll Js.backslash Js.slash
                (Backup.columnText r "relative_path"))
            (Backup.names (fst a))).
Proof.
  unfold Backup.assembleArchive. intros Hrun.
  apply bind_ok_inv in Hrun. destruct Hrun as (now & w1 & _ & Hrun).
  apply bind_ok_inv in Hrun. destruct Hrun as (datasetId & w2 & _ & Hrun).
  apply bind_ok_inv in Hrun. destruct Hrun as (a1 & w3 & Hjson & Hrun).
  apply bind_ok_inv in Hrun. destruct Hrun as (a2 & w4 & Hcsv & Hrun).
  apply bind_ok_inv in Hrun. destruct Hrun as (mediaRows & w5 & Hrows & Hrun).
  apply bind_ok_inv in Hrun. destruct Hrun as (a3 & w6 & Hmedia & Hret).
  apply ret_ok_inv in Hret. destruct Hret as [<- <-].
  set (a0 := Backup.addEntry "manifest.json" _ ([], ∅)) in Hjson.
  destruct (addEntry_consistent "manifest.json"
              (json_manifest
                 {| schemaVersion := 1; appVersion := "1.0.0";
                    m_createdAt := isoNow now; datasetId := datasetId |})
              ([], ∅) eq_refl consistent_empty) as [Hc0 Hn0].
  fold a0 in Hc0, Hn0.
  apply (foldOf_addEntry (fun table => "json/" +:+ table +:+ ".json")) in Hjson;
    [| | exact jsonKey_archiveName | exact Hc0].
  2:{ intros acc x wa acc1 wb Hstep.
      apply bind_ok_inv in Hstep. destruct Hstep as (rows & wc & _ & Hret).
      apply ret_ok_inv in Hret. destruct Hret as [<- _]. eauto. }
  destruct Hjson as (Hc1 & Hi1 & Hall1).
  apply (foldOf_addEntry (fun table => "csv/" +:+ table +:+ ".csv")) in Hcsv;
    [| | exact csvKey_archiveName | exact Hc1].
  2:{ intros acc x wa acc1 wb Hstep.
      apply bind_ok_inv in Hstep. destruct Hstep as (rows & wc & _ & Hret).
      apply ret_ok_inv in Hret. destruct Hret as [<- _]. eauto. }
  destruct Hcsv as (Hc2 & Hi2 & Hall2).
  apply (foldOf_addEntry
           (fun r => "media/" +:+ Js.replaceAll Js.backslash Js.slash
                       (Backup.columnText r "relative_path"))) in Hmedia;
    [| | intros r; apply mediaKey_archiveName | exact Hc2].
  2:{ intros acc x wa acc1 wb Hstep.
      apply bind_ok_inv in Hstep. destruct Hstep as (root & wc & _ & Hstep).
      apply bind_ok_inv in Hstep. destruct Hstep as (mediaFile & wd & _ & Hstep).
      apply bind_ok_inv in Hstep. destruct Hstep as (mediaBytes & we & _ & Hret).
      apply ret_ok_inv in Hret. destruct Hret as [<- _]. eauto. }
  destruct Hmedia as (Hc3 & Hi3 & Hall3).
  exists a3, mediaRows, w4, w5.
  split; [reflexivity |]. split; [exact Hc3 |].
  split; [apply Hi3, Hi2, Hi1, Hn0; left; reflexivity |].
  split.
  { intros table Htable. split.
    - apply Hi3, Hi2, Hall1. exact Htable.
    - apply Hi3, Hall2. exact Htable. }
  split; [exact Hrows | exact Hall3].
Qed.

Lemma exportZip_ok_inv (request : Backup.ExportRequest) (w w' : World)
  (destination : string) :
  Backup.exportZip request w = Ok destination w' ->
  exists archive w1 w2,
    Backup.assembleArchive w1 = Ok archive w2
    /\ files (fs w') !! destination = Some (zip_generate (fst archive)).
Proof.
  unfold Backup.exportZip. intros Hrun.
  apply bind_ok_inv in Hrun. destruct Hrun as (dest & w1 & _ & Hrun).
  apply bind_ok_inv in Hrun. destruct Hrun as ([] & w2 & _ & Hrun).
  apply bind_ok_inv in Hrun. destruct Hrun as (archive & w3 & Hassemble & Hrun).
  apply bind_ok_inv in Hrun. destruct Hrun as ([] & w4 & Hwrite & Hret).
  apply ret_ok_inv in Hret. destruct Hret as [<- <-].
  exists archive, w2, w3. split; [exact Hassemble |].
  unfold Filesystem_writeFile in Hwrite.
  destruct (writeFault _ _ _); [discriminate |].
  injection Hwrite as <-. cbn. apply lookup_insert_eq.
Qed.

End ExportedArchive.

(** The claim as worded fails on the first export of a new device: the
    digest map has an entry for [manifest.json]. *)
Lemma C2_counterexample :
  match Backup.assembleArchive (H := Demo.host) Demo.startedWorld with
  | Ok archive _ =>
      Backup.zip_file "manifest.json" (fst archive)
      = Some {| zdir := false; zdata := "manifest v1" |}
      /\ snd archive !! "manifest.json" = Some "sha256:manifest v1"
      /\ snd archive !! "manifest.json" <> None
  | Throw _ _ => False
  end.
Proof. vm_compute. repeat split; [reflexivity .. | discriminate]. Qed.

(** C2, amended.  For every export produced by [exportZip], the archive
    written holds [manifest.json], a [json/] and a [csv/] file for each
    table, a [media/] file for each image row, and [checksums.json];
    the map serialised as [checksums.json] has, for every entry of the
    archive other than [checksums.json] itself, the digest of that
    entry's bytes; it has an entry for [manifest.json], and none for
    [checksums.json]. *)
Theorem C2_checksums_cover_archive `{Host} (request : Backup.ExportRequest)
  (w w' : World) (destination : string) :
  Backup.exportZip request w = Ok destination w' ->
  exists (zip : Zip) (checksums : gmap string string) (mediaRows : list Row)
         (w1 w2 : World),
    files (fs w') !! destination = Some (zip_generate zip)
    /\ Backup.zip_file "checksums.json" zip
       = Some {| zdir := false; zdata := json_checksums checksums |}
    /\ (forall name entry,
          In (name, entry) zip -> name <> "checksums.json" ->
          checksums !! name = Some (Backup.sha256Hex (zdata entry)))
    /\ (exists entry, In ("manifest.json", entry) zip
                      /\ checksums !! "manifest.json"
                         = Some (Backup.sha256Hex (zdata entry)))
    /\ checksums !! "checksums.json" = None
    /\ (forall table, In table Backup.EXPORT_TABLES ->
          In ("json/" +:+ table +:+ ".json") (Backup.names zip)
          /\ In ("csv/" +:+ table +:+ ".csv") (Backup.names zip))
    /\ Database.rawAll
         "SELECT relative_path FROM purchase_images ORDER BY created_at ASC" []
         w1 = Ok mediaRows w2
    /\ (forall r, In r mediaRows ->
          In ("media/" +:+ Js.replaceAll Js.backslash Js.slash
                (Backup.columnText r "relative_path"))
            (Backup.names zip)).
Proof.
  intros Hrun.
  destruct (exportZip_ok_inv request w w' destination Hrun)
    as (archive & wa & wb & Hassemble & Hfile).
  destruct (assembleArchive_ok_inv wa wb archive Hassemble)
    as (a & mediaRows & w1 & w2 & -> & (Hnd & Hcover & Hdom) & Hmanifest
        & Htables & Hrows & Hmedia).
  destruct a as [zip cs]. cbn [fst snd] in *.
  exists (Backup.zip_put "checksums.json" (json_checksums cs) zip), cs,
    mediaRows, w1, w2.
  split; [exact Hfile |].
  split; [apply zip_file_put |].
  assert (Hall : forall name entry,
             In (name, entry)
               (Backup.zip_put "checksums.json" (json_checksums cs) zip) ->
             name <> "checksums.json" ->
             cs !! name = Some (Backup.sha256Hex (zdata entry))).
  { intros name entry Hin Hne.
    destruct (zip_put_In _ _ _ _ _ Hnd Hin) as [[-> _] | [_ Hold]];
      [exfalso; apply Hne; reflexivity |].
    apply (Hcover name entry Hold). }
  split; [exact Hall |].
  split.
  { assert (Hput : In "manifest.json"
                     (Backup.names
                        (Backup.zip_put "checksums.json" (json_checksums cs) zip)))
      by (apply zip_put_names; right; exact Hmanifest).
    unfold Backup.names in Hput. apply in_map_iff in Hput.
    destruct Hput as ([name entry] & Hname & Hin). cbn in Hname. subst name.
    exists entry. split; [exact Hin |]. apply (Hall _ _ Hin). discriminate. }
  split.
  { destruct (cs !! "checksums.json") as [v |] eqn:Hv; [| reflexivity].
    exfalso. assert (Hin : In "checksums.json" (Backup.names zip))
      by (apply Hdom; rewrite Hv; eauto).
    unfold Backup.names in Hin. apply in_map_iff in Hin.
    destruct Hin as ([name entry] & Hname & Hin). cbn in Hname. subst name.
    destruct (Hcover _ _ Hin) as (_ & Hbad & _). discriminate. }
  split.
  { intros table Htable. destruct (Htables table Htable) as [Hj Hc].
    split; apply zip_put_names; right; assumption. }
  split; [exact Hrows |].
  intros r Hr. apply zip_put_names. right. apply Hmedia. exact Hr.
Qed.

Lemma C2_checksums_cover_archive_witness :
  match Backup.exportZip (H := Demo.host)
          {| Backup.destinationPath := Some "out/backup.zip" |}
          Demo.startedWorld with
  | Ok destination w' =>
      exists (zip : Zip) (checksums : gmap string string),
        files (fs w') !! destination
        = Some (zip_generate (Host := Demo.host) zip)
        /\ exists entry, In ("manifest.json", entry) zip
                         /\ checksums !! "manifest.json"
                            = Some (Backup.sha256Hex (H := Demo.host)
                                      (zdata entry))
  | Throw _ _ => False
  end.
Proof.
  destruct (Backup.exportZip (H := Demo.host) _ Demo.startedWorld)
    as [destination w' | e w'] eqn:Hrun.
  - destruct (C2_checksums_cover_archive (H := Demo.host) _ _ _ _ Hrun)
      as (zip & checksums & mediaRows & w1 & w2 & Hfile & _ & _ & Hmanifest & _).
    exists zip, checksums. split; [exact Hfile | exact Hmanifest].
  - vm_compute in Hrun. discriminate.
Defined.

(** ** Importing media *)

Section ImportedMedia.

Context `{Host}.

Lemma forOf_app {A} (xs ys : list A) (body : A -> Async unit) (w : World) :
  forOf (xs ++ ys) body w
  = match forOf xs body w with
    | Ok _ w1 => forOf ys body w1
    | Throw e w1 => Throw e w1
    end.
Proof.
  revert w. induction xs as [| x xs IH]; intros w; cbn; [reflexivity |].
  unfold mbind, M_bind.
  destruct (body x w) as [[] w1 | e w1]; [apply IH | reflexivity].
Qed.

(** A turn of a loop that throws ends the loop there. *)
Lemma forOf_throws_at {A} (before after : list A) (x : A)
  (body : A -> Async unit) (w w1 w2 : World) (e : JsError) :
  forOf before body w = Ok tt w1 ->
  body x w1 = Throw e w2 ->
  forOf (before ++ x :: after) body w = Throw e w2.
Proof.
  intros Hbefore Hfail. rewrite forOf_app, Hbefore. cbn.
  unfold mbind, M_bind. rewrite Hfail. reflexivity.
Qed.

(** [ensureDir] touches the directories only. *)
Lemma ensureDir_frame (path : string) (w : World) :
  let w' := state_of (ensureDir path w) in
  files (fs w') = files (fs w) /\ store w' = store w
  /\ activeDatasetId w' = activeDatasetId w.
Proof.
  cbv zeta. unfold ensureDir, tryCatch, Filesystem_mkdir.
  destruct (mkdirFault path (fs w)) as [e |].
  - destruct (_ || _); cbn; auto.
  - destruct (decide (path ∈ dirs (fs w))).
    + destruct existsError as [err |]; [| cbn; auto].
      destruct (_ || _); cbn; auto.
    + cbn. auto.
Qed.

(** What a failing turn of the media loop is: the entry passed the
    guards, and creating its directory or writing its file was
    rejected.  Nothing was written, and the store is as it was. *)
Lemma importMediaEntry_throw_inv (zip : Zip) (entryName : string)
  (w w' : World) (e : JsError) :
  Backup.importMediaEntry zip entryName w = Throw e w' ->
  exists mediaFile destination,
    Backup.zip_file entryName zip = Some mediaFile
    /\ destination
       = Path.joinPath
           [Some (Paths.getMediaDir (activeDatasetId w));
            Some (Js.sliceFrom (String.length "media/") entryName)]
    /\ (ensureDir (Path.dirname destination) w = Throw e w'
        \/ exists w1,
             ensureDir (Path.dirname destination) w = Ok tt w1
             /\ Filesystem_writeFile destination
                  (Base64.bytesToBase64 (zdata mediaFile)) w1 = Throw e w')
    /\ files (fs w') = files (fs w)
    /\ store w' = store w.
Proof.
  unfold Backup.importMediaEntry. intros Hrun.
  destruct (negb (Js.startsWith "media/" entryName) || Js.endsWith "/" entryName);
    [discriminate |].
  destruct (negb (Js.truthy _) || Path.isUnsafeRelativePath _); [discriminate |].
  destruct (Backup.zip_file entryName zip) as [mediaFile |]; [| discriminate].
  exists mediaFile, (Path.joinPath
                       [Some (Paths.getMediaDir (activeDatasetId w));
                        Some (Js.sliceFrom (String.length "media/") entryName)]).
  split; [reflexivity |]. split; [reflexivity |].
  unfold Database.getActiveMediaRoot, gets in Hrun.
  unfold mbind at 1, M_bind at 1 in Hrun.
  pose proof (ensureDir_frame
                (Path.dirname
                   (Path.joinPath
                      [Some (Paths.getMediaDir (activeDatasetId w));
                       Some (Js.sliceFrom (String.length "media/") entryName)]))
                w) as Hframe.
  cbv zeta in Hframe.
  apply bind_throw_inv in Hrun. destruct Hrun as [Hdir | ([] & w1 & Hdir & Hwrite)].
  - rewrite Hdir in Hframe. cbn in Hframe. destruct Hframe as (Hf & Hs & _).
    split; [left; exact Hdir |]. split; assumption.
  - rewrite Hdir in Hframe. cbn in Hframe. destruct Hframe as (Hf & Hs & _).
    split; [right; exists w1; split; assumption |].
    unfold Filesystem_writeFile in Hwrite.
    destruct (writeFault _ _ _); [| discriminate].
    injection Hwrite as _ <-. split; assumption.
Qed.

(** The media loop leaves the store alone. *)
Lemma importMediaEntry_store (zip : Zip) (entryName : string) (w : World) :
  store (state_of (Backup.importMediaEntry zip entryName w)) = store w.
Proof.
  unfold Backup.importMediaEntry.
  destruct (negb (Js.startsWith "media/" entryName) || Js.endsWith "/" entryName);
    [reflexivity |].
  destruct (negb (Js.truthy _) || Path.isUnsafeRelativePath _); [reflexivity |].
  destruct (Backup.zip_file entryName zip) as [mediaFile |]; [| reflexivity].
  unfold Database.getActiveMediaRoot, gets.
  unfold mbind at 1, M_bind at 1.
  pose proof (ensureDir_frame
                (Path.dirname
                   (Path.joinPath
                      [Some (Paths.getMediaDir (activeDatasetId w));
                       Some (Js.sliceFrom (String.length "media/") entryName)]))
                w) as Hframe.
  cbv zeta in Hframe. unfold mbind, M_bind.
  destruct (ensureDir _ w) as [[] w1 | e w1]; cbn in Hframe;
    destruct Hframe as (_ & Hs & _); [| exact Hs].
  unfold Filesystem_writeFile. destruct (writeFault _ _ _); cbn; exact Hs.
Qed.

Lemma forOf_store {A} (xs : list A) (body : A -> Async unit) (w : World) :
  (forall x w0, store (state_of (body x w0)) = store w0) ->
  store (state_of (forOf xs body w)) = store w.
Proof.
  intros Hbody. revert w. induction xs as [| x xs IH]; intros w; cbn; [reflexivity |].
  unfold mbind, M_bind. pose proof (Hbody x w) as Hx.
  destruct (body x w) as [[] w1 | e w1]; cbn in Hx; [| exact Hx].
  rewrite IH. exact Hx.
Qed.

End ImportedMedia.

(** The claim as worded fails on an archive with two pictures when the
    first cannot be written: [importZip] throws the error of the write,
    and the second picture is never written. *)
Lemma C3_counterexample :
  Backup.names Demo.picturesZip
  = ["manifest.json"; "media/p1/broken.jpg"; "media/p1/fine.jpg"]
  /\ match Backup.importZip (H := Demo.host)
             {| Backup.zipPath := "in/pictures.zip";
                Backup.importLabel := Some "restored" |}
             Demo.startedWorld with
     | Ok _ _ => False
     | Throw e w =>
         message e = "No space left on device"
         /\ activeDatasetId w = "ds2"
         /\ files (fs w) !! "BookkeepingApp/data/ds2/media/p1/broken.jpg" = None
         /\ files (fs w) !! "BookkeepingApp/data/ds2/media/p1/fine.jpg" = None
     end.
Proof. vm_compute. repeat split; reflexivity. Qed.

(** C3, amended.  During [importZip], a failure while writing a media
    file (creating its directory or writing it is rejected) aborts the
    import: the error is thrown out of [importZip], which stops in the
    state of the failure, so that the entries after the failing one are
    not processed, nothing is written for the failing entry and the
    final [persistRaw] is not run; the in-memory store stays as the loop
    over the tables left it. *)
Theorem C3_media_failure_aborts_import `{Host} (request : Backup.ImportRequest)
  (w w1 w2 w3 : World) (zip : Zip) (snapshot : SnapshotMeta)
  (before after : list string) (entryName : string) (e : JsError) :
  Backup.prepareImport request w = Ok (zip, snapshot) w1 ->
  Backup.names zip = before ++ entryName :: after ->
  forOf before (Backup.importMediaEntry zip) w1 = Ok tt w2 ->
  Backup.importMediaEntry zip entryName w2 = Throw e w3 ->
  Backup.importZip request w = Throw e w3
  /\ files (fs w3) = files (fs w2)
  /\ store w3 = store w1
  /\ exists mediaFile destination,
       Backup.zip_file entryName zip = Some mediaFile
       /\ (ensureDir (Path.dirname destination) w2 = Throw e w3
           \/ exists w',
                ensureDir (Path.dirname destination) w2 = Ok tt w'
                /\ Filesystem_writeFile destination
                     (Base64.bytesToBase64 (zdata mediaFile)) w' = Throw e w3).
Proof.
  intros Hprepare Hnames Hbefore Hfail.
  split.
  - unfold Backup.importZip. rewrite (bind_ok _ _ _ _ _ Hprepare). cbn [fst snd].
    apply bind_throw. unfold Backup.importMedia.
    change (List.map fst zip) with (Backup.names zip). rewrite Hnames.
    exact (forOf_throws_at before after entryName _ w1 w2 w3 e Hbefore Hfail).
  - destruct (importMediaEntry_throw_inv zip entryName w2 w3 e Hfail)
      as (mediaFile & destination & Hfile & _ & Hwhy & Hfiles & Hstore).
    split; [exact Hfiles |].
    split.
    { rewrite Hstore.
      pose proof (forOf_store before (Backup.importMediaEntry zip) w1
                    (importMediaEntry_store zip)) as Hkept.
      rewrite Hbefore in Hkept. exact Hkept. }
    exists mediaFile, destination. split; [exact Hfile | exact Hwhy].
Qed.

Lemma C3_media_failure_aborts_import_witness :
  exists e w3,
    Backup.importZip (H := Demo.host)
      {| Backup.zipPath := "in/pictures.zip";
         Backup.importLabel := Some "restored" |}
      Demo.startedWorld = Throw e w3.
Proof.
  eexists _, _.
  refine (proj1 (C3_media_failure_aborts_import (H := Demo.host)
                   {| Backup.zipPath := "in/pictures.zip";
                      Backup.importLabel := Some "restored" |}
                   Demo.startedWorld _ _ _ _ _
                   ["manifest.json"] ["media/p1/fine.jpg"]
                   "media/p1/broken.jpg" _ _ _ _ _)).
  - vm_compute. reflexivity.
  - reflexivity.
  - vm_compute. reflexivity.
  - vm_compute. reflexivity.
Defined.

(** * Further properties *)

(** An equation between closed terms, settled by evaluating both
    sides. *)
Ltac by_evaluation := vm_compute; reflexivity.

(** A run that returned, or threw, with the state it reached. *)
Lemma returned_with {S A} (o : Outcome S A) (a : A) :
  match o with Ok b _ => Some b | Throw _ _ => None end = Some a ->
  o = Ok a (state_of o).
Proof. destruct o as [b s|e s]; [intros [= ->]; reflexivity|discriminate]. Qed.

Lemma threw_with {S A} (o : Outcome S A) (e : JsError) :
  match o with Ok _ _ => None | Throw x _ => Some x end = Some e ->
  o = Throw e (state_of o).
Proof. destruct o as [b s|x s]; [discriminate|intros [= ->]; reflexivity]. Qed.

(** The same for a closed term: what it returned is settled by
    evaluation, the state is left as it stands. *)
Ltac by_running :=
  lazymatch goal with
  | |- ?o = Ok ?a _ => refine (returned_with o a _); vm_compute; reflexivity
  | |- ?o = Throw ?e _ => refine (threw_with o e _); vm_compute; reflexivity
  end.

(** ** Strings *)

Section Strings.

Implicit Types (s t u : string) (c d : ascii).

Lemma app_cons c s t : String c s +:+ t = String c (s +:+ t).
Proof. reflexivity. Qed.

Lemma app_nil_l s : "" +:+ s = s.
Proof. reflexivity. Qed.

Lemma app_nil_r s : s +:+ "" = s.
Proof. induction s as [|c s IH]; [reflexivity|]. rewrite app_cons, IH. reflexivity. Qed.

Lemma app_assoc s t u : (s +:+ t) +:+ u = s +:+ (t +:+ u).
Proof.
induction s as [|c s IH]; [reflexivity|].
rewrite !app_cons, IH. reflexivity.
Qed.

Lemma prefix_cons c d s t :
  String.prefix (String c s) (String d t)
  = if Ascii.ascii_dec c d then String.prefix s t else false.
Proof. reflexivity. Qed.

Lemma prefix_nil s : String.prefix "" s = true.
Proof. destruct s; reflexivity. Qed.

Lemma startsWith_slash_cons s : Js.startsWith "/" (String "/" s) = true.
Proof.
unfold Js.startsWith. rewrite prefix_cons.
destruct (Ascii.ascii_dec "/" "/"); [apply prefix_nil|contradiction].
Qed.

Lemma length_app s t : String.length (s +:+ t) = String.length s + String.length t.
Proof.
induction s as [|c s IH]; [reflexivity|].
rewrite app_cons. simpl. rewrite IH. reflexivity.
Qed.

Lemma rev_string_app s t :
  Js.rev_string (s +:+ t) = Js.rev_string t +:+ Js.rev_string s.
Proof.
induction s as [|c s IH].
- rewrite app_nil_l. simpl. rewrite app_nil_r. reflexivity.
- rewrite app_cons. simpl. rewrite IH, app_assoc. reflexivity.
Qed.

Lemma rev_string_involutive s : Js.rev_string (Js.rev_string s) = s.
Proof.
induction s as [|c s IH]; [reflexivity|].
simpl. rewrite rev_string_app, IH. reflexivity.
Qed.

(** [s.includes(c)] for one character: [c] is one of the characters
    of [s]. *)
Lemma includes_char_cons c d s :
  Js.includes (String c "") (String d s)
  = Ascii.eqb c d || Js.includes (String c "") s.
Proof.
simpl. destruct (Ascii.ascii_dec c d) as [->|Hne].
- rewrite Ascii.eqb_refl. destruct s; reflexivity.
- apply Ascii.eqb_neq in Hne. rewrite Hne. reflexivity.
Qed.

Lemma includes_char_app c s t :
  Js.includes (String c "") (s +:+ t)
  = Js.includes (String c "") s || Js.includes (String c "") t.
Proof.
induction s as [|d s IH].
- rewrite app_nil_l. reflexivity.
- rewrite app_cons, !includes_char_cons, IH, orb_assoc. reflexivity.
Qed.

Lemma includes_char_rev c s :
  Js.includes (String c "") (Js.rev_string s) = Js.includes (String c "") s.
Proof.
induction s as [|d s IH]; [reflexivity|].
simpl Js.rev_string. rewrite includes_char_app, IH, !includes_char_cons.
simpl. rewrite orb_false_r. apply orb_comm.
Qed.

End Strings.

(** ** Splitting and joining *)

Section SplitJoin.

Implicit Types (s t u : string) (c d sep : ascii) (l : list string).

(** [c] is not among the characters of [s]. *)
Local Abbreviation free c s := (Js.includes (String c "") s = false).

Lemma split_aux_acc sep cur s :
  Js.split_aux sep cur s
  = match Js.split_aux sep "" s with
    | x :: rest => (Js.rev_string cur +:+ x) :: rest
    | [] => []
    end.
Proof.
revert cur. induction s as [|c s IH]; intros cur.
- simpl. rewrite app_nil_r. reflexivity.
- simpl. destruct (Ascii.eqb c sep).
  + rewrite app_nil_r. reflexivity.
  + rewrite (IH (String c cur)), (IH (String c "")).
    destruct (Js.split_aux sep "" s) as [|x rest]; [reflexivity|].
    simpl. rewrite app_assoc. reflexivity.
Qed.

Lemma split_nil sep : Js.split sep "" = [""].
Proof. reflexivity. Qed.

Lemma split_cons_sep sep s : Js.split sep (String sep s) = "" :: Js.split sep s.
Proof. unfold Js.split. simpl. rewrite Ascii.eqb_refl. reflexivity. Qed.

Lemma split_cons_other sep c s :
  c <> sep ->
  Js.split sep (String c s)
  = match Js.split sep s with
    | x :: rest => String c x :: rest
    | [] => []
    end.
Proof.
intros Hne. unfold Js.split. simpl.
apply Ascii.eqb_neq in Hne. rewrite Hne, split_aux_acc. reflexivity.
Qed.

Lemma split_not_nil sep s : Js.split sep s <> [].
Proof.
induction s as [|c s IH]; [discriminate|].
destruct (Ascii.ascii_dec c sep) as [->|Hne].
- rewrite split_cons_sep. discriminate.
- rewrite split_cons_other by assumption.
  destruct (Js.split sep s); [contradiction|discriminate].
Qed.

(** A string without the separator is one piece. *)
Lemma split_free sep s : free sep s -> Js.split sep s = [s].
Proof.
induction s as [|c s IH]; intros Hfree; [reflexivity|].
rewrite includes_char_cons in Hfree. apply orb_false_iff in Hfree as [Hc Hs].
apply Ascii.eqb_neq in Hc.
rewrite split_cons_other by congruence. rewrite (IH Hs). reflexivity.
Qed.

(** The pieces before a separator, then the pieces after it. *)
Lemma split_app sep s t :
  Js.split sep (s +:+ String sep t) = Js.split sep s ++ Js.split sep t.
Proof.
induction s as [|c s IH].
- rewrite app_nil_l, split_cons_sep. reflexivity.
- rewrite app_cons. destruct (Ascii.ascii_dec c sep) as [->|Hne].
  + rewrite !split_cons_sep, IH. reflexivity.
  + rewrite !split_cons_other by assumption. rewrite IH.
    pose proof (split_not_nil sep s) as Hs.
    destruct (Js.split sep s); [contradiction|reflexivity].
Qed.

Lemma split_pieces_free sep s :
  Forall (fun piece => free sep piece) (Js.split sep s).
Proof.
induction s as [|c s IH].
- repeat constructor.
- destruct (Ascii.ascii_dec c sep) as [->|Hne].
  + rewrite split_cons_sep. constructor; [reflexivity|assumption].
  + rewrite split_cons_other by assumption.
    destruct (Js.split sep s) as [|x rest]; [constructor|].
    inversion IH as [|? ? Hx Hrest]; subst.
    constructor; [|assumption].
    rewrite includes_char_cons, Hx.
    apply not_eq_sym, Ascii.eqb_neq in Hne. rewrite Hne. reflexivity.
Qed.

Lemma join_one u s : Js.join u [s] = s.
Proof. reflexivity. Qed.

Lemma join_cons u s t l :
  Js.join u (s :: t :: l) = s +:+ u +:+ Js.join u (t :: l).
Proof. reflexivity. Qed.

Lemma join_cons_char u c s l :
  Js.join u (String c s :: l) = String c (Js.join u (s :: l)).
Proof. destruct l; reflexivity. Qed.

Lemma join_snoc u l s :
  l <> [] -> Js.join u (l ++ [s]) = Js.join u l +:+ u +:+ s.
Proof.
induction l as [|x l IH]; intros Hl; [contradiction|].
destruct l as [|y l].
- reflexivity.
- change ((x :: y :: l) ++ [s]) with (x :: y :: (l ++ [s])).
  rewrite !join_cons.
  change (y :: l ++ [s]) with ((y :: l) ++ [s]).
  rewrite IH by discriminate. rewrite !app_assoc. reflexivity.
Qed.

(** Joining the pieces gives the string back. *)
Lemma join_split sep s : Js.join (String sep "") (Js.split sep s) = s.
Proof.
induction s as [|c s IH]; [reflexivity|].
destruct (Ascii.ascii_dec c sep) as [->|Hne].
- rewrite split_cons_sep.
  pose proof (split_not_nil sep s) as Hs.
  destruct (Js.split sep s) as [|x rest] eqn:E; [contradiction|].
  rewrite join_cons, IH. reflexivity.
- rewrite split_cons_other by assumption.
  pose proof (split_not_nil sep s) as Hs.
  destruct (Js.split sep s) as [|x rest] eqn:E; [contradiction|].
  rewrite join_cons_char, IH. reflexivity.
Qed.

(** Splitting a join of pieces without the separator gives the pieces
    back. *)
Lemma split_join sep l :
  l <> [] ->
  Forall (fun piece => free sep piece) l ->
  Js.split sep (Js.join (String sep "") l) = l.
Proof.
induction l as [|x l IH]; intros Hl Hfree; [contradiction|].
inversion Hfree as [|? ? Hx Hrest]; subst.
destruct l as [|y l].
- rewrite join_one. apply split_free. assumption.
- rewrite join_cons, app_cons, app_nil_l, split_app.
  rewrite (split_free sep x Hx), IH by (discriminate || assumption).
  reflexivity.
Qed.

End SplitJoin.

(** ** Normalised paths *)

Section Normalisation.

Implicit Types (s t input : string) (segments output : list string).

Local Abbreviation free c s := (Js.includes (String c "") s = false).

(** A segment as [normalizePath] leaves it in its result: not empty,
    without a slash, and neither [.] nor [..]. *)
Local Abbreviation clean x :=
  (free Js.slash x /\ x%string <> "" /\ x%string <> "." /\ x%string <> "..").

Lemma normalizeSegments_clean segments output :
  Forall (fun x => clean x) segments ->
  Path.normalizeSegments segments output = rev output ++ segments.
Proof.
revert output. induction segments as [|x segments IH]; intros output Hc.
- simpl. rewrite List.app_nil_r. reflexivity.
- inversion Hc as [|? ? (_ & _ & Hdot & Hdots) Hrest]; subst.
  simpl. apply String.eqb_neq in Hdot, Hdots. rewrite Hdot, Hdots.
  rewrite IH by assumption. simpl. rewrite <- List.app_assoc. reflexivity.
Qed.

Lemma normalizeSegments_keeps segments output :
  Forall (fun x => free Js.slash x /\ x <> "") segments ->
  Forall (fun x => clean x) output ->
  Forall (fun x => clean x) (Path.normalizeSegments segments output).
Proof.
revert output. induction segments as [|x segments IH]; intros output Hs Ho.
- simpl. apply List.Forall_rev. assumption.
- inversion Hs as [|? ? (Hfree & Hne) Hrest]; subst. simpl.
  destruct (String.eqb_spec x ".") as [->|Hdot]; [apply IH; assumption|].
  destruct (String.eqb_spec x "..") as [->|Hdots].
  + destruct output as [|y popped]; [apply IH; assumption|].
    apply IH; [assumption|]. inversion Ho; assumption.
  + apply IH; [assumption|]. constructor; [|assumption]. repeat split; assumption.
Qed.

Lemma normalizeSegments_app segments1 segments2 output :
  Path.normalizeSegments (segments1 ++ segments2) output
  = Path.normalizeSegments segments2
      (rev (Path.normalizeSegments segments1 output)).
Proof.
revert output. induction segments1 as [|x segments1 IH]; intros output.
- simpl. rewrite List.rev_involutive. reflexivity.
- simpl. destruct (String.eqb x "."); [apply IH|].
  destruct (String.eqb x ".."); [destruct output; apply IH|apply IH].
Qed.

(** The segments [normalizePath] works on. *)
Lemma segments_of input :
  Forall (fun x => free Js.slash x /\ x <> "")
    (List.filter (fun segment => (0 <? String.length segment)%nat)
       (Js.split Js.slash input)).
Proof.
apply List.Forall_forall. intros x Hx. apply List.filter_In in Hx as [Hin Hlen].
split.
- pose proof (split_pieces_free Js.slash input) as Hfree.
  rewrite List.Forall_forall in Hfree. apply Hfree. assumption.
- intros ->. discriminate.
Qed.

Lemma filter_clean segments :
  Forall (fun x => clean x) segments ->
  List.filter (fun segment => (0 <? String.length segment)%nat) segments
  = segments.
Proof.
induction 1 as [|x segments (_ & Hne & _) _ IH]; [reflexivity|].
simpl. destruct x; [contradiction|]. simpl. rewrite IH. reflexivity.
Qed.

Lemma startsWith_join segments :
  Forall (fun x => clean x) segments ->
  Js.startsWith "/" (Js.join "/" segments) = false.
Proof.
intros Hc. destruct segments as [|x rest]; [reflexivity|].
inversion Hc as [|? ? (Hfree & Hne & _) _]; subst.
destruct x as [|c x]; [contradiction|].
rewrite join_cons_char. rewrite includes_char_cons in Hfree.
apply orb_false_iff in Hfree as [Hc' _]. apply Ascii.eqb_neq in Hc'.
unfold Js.startsWith. rewrite prefix_cons.
destruct (Ascii.ascii_dec "/" c) as [E|_]; [|reflexivity].
exfalso. apply Hc'. exact E.
Qed.

(** [normalizePath] gives the slash of an absolute input followed by
    clean segments joined by slashes. *)
Lemma normalizePath_shape input :
  exists segments,
    Forall (fun x => clean x) segments
    /\ Path.normalizePath input
       = (if Js.startsWith "/" input then "/" else "") +:+ Js.join "/" segments.
Proof.
exists (Path.normalizeSegments
          (List.filter (fun segment => (0 <? String.length segment)%nat)
             (Js.split Js.slash input)) []).
split.
- apply normalizeSegments_keeps; [apply segments_of|constructor].
- unfold Path.normalizePath. destruct (Js.startsWith "/" input); reflexivity.
Qed.

(** Such a string is left as it is. *)
Lemma normalizePath_fixed (absolute : bool) segments :
  Forall (fun x => clean x) segments ->
  Path.normalizePath ((if absolute then "/" else "") +:+ Js.join "/" segments)
  = (if absolute then "/" else "") +:+ Js.join "/" segments.
Proof.
intros Hc.
assert (Hsplit :
  List.filter (fun segment => (0 <? String.length segment)%nat)
    (Js.split Js.slash (Js.join "/" segments)) = segments).
{ destruct segments as [|x rest]; [reflexivity|].
  rewrite split_join.
  - apply filter_clean. assumption.
  - discriminate.
  - eapply List.Forall_impl; [|exact Hc]. intros a Ha. apply Ha. }
unfold Path.normalizePath. destruct absolute.
- rewrite app_cons, app_nil_l.
  rewrite startsWith_slash_cons.
  change (String "/" (Js.join "/" segments))
    with (String Js.slash (Js.join "/" segments)).
  rewrite split_cons_sep. simpl List.filter. rewrite Hsplit.
  rewrite normalizeSegments_clean by assumption. reflexivity.
- rewrite app_nil_l, (startsWith_join segments Hc), Hsplit.
  rewrite normalizeSegments_clean by assumption. reflexivity.
Qed.

End Normalisation.

(** ** [normalizePath] and [isUnsafeRelativePath] *)

Section UnsafePaths.

Implicit Types (s t input : string) (segments output : list string).

Local Abbreviation free c s := (Js.includes (String c "") s = false).

Lemma prefix_true s t : String.prefix s t = true -> exists r, t = s +:+ r.
Proof.
revert t. induction s as [|c s IH]; intros t Hp.
- exists t. reflexivity.
- destruct t as [|d t]; [discriminate|].
  rewrite prefix_cons in Hp.
  destruct (Ascii.ascii_dec c d) as [->|]; [|discriminate].
  destruct (IH t Hp) as (r & ->). exists r. reflexivity.
Qed.

Lemma prefix_app_l s t u : String.prefix s t = true -> String.prefix s (t +:+ u) = true.
Proof.
intros Hp. destruct (prefix_true s t Hp) as (r & ->).
rewrite app_assoc. apply prefix_append.
Qed.

Lemma endsWith_cons c s t : Js.endsWith s t = true -> Js.endsWith s (String c t) = true.
Proof. unfold Js.endsWith. simpl. apply prefix_app_l. Qed.

Lemma includes_step s c t :
  Js.includes s (String c t) = String.prefix s (String c t) || Js.includes s t.
Proof. reflexivity. Qed.

(** [../] does not occur in a string without a slash. *)
Lemma includes_dots_free s : free Js.slash s -> Js.includes "../" s = false.
Proof.
induction s as [|c s IH]; intros Hfree; [reflexivity|].
rewrite includes_step. apply orb_false_iff. split.
- destruct (String.prefix "../" (String c s)) eqn:Hp; [|reflexivity].
  apply prefix_true in Hp as (r & Hr).
  rewrite Hr, includes_char_app in Hfree. discriminate Hfree.
- apply IH. rewrite includes_char_cons in Hfree.
  apply orb_false_iff in Hfree. apply Hfree.
Qed.

(** Before a slash, [../] can only end a segment that ends in [..]. *)
Lemma includes_dots_app s t :
  free Js.slash s ->
  Js.endsWith ".." s = false ->
  Js.includes "../" (s +:+ String "/" t) = Js.includes "../" t.
Proof.
induction s as [|c s IH]; intros Hfree Hends.
- rewrite app_nil_l, includes_step, prefix_cons.
  destruct (Ascii.ascii_dec "." "/"); [discriminate|reflexivity].
- rewrite app_cons, includes_step.
  rewrite includes_char_cons in Hfree. apply orb_false_iff in Hfree as [Hc Hs].
  assert (Hends' : Js.endsWith ".." s = false).
  { destruct (Js.endsWith ".." s) eqn:E; [|reflexivity].
    rewrite (endsWith_cons c _ _ E) in Hends. discriminate. }
  rewrite (IH Hs Hends').
  destruct (String.prefix "../" (String c (s +:+ String "/" t))) eqn:Hp;
    [|reflexivity].
  exfalso. apply prefix_true in Hp as (r & Hr).
  rewrite !app_cons, app_nil_l in Hr. injection Hr as -> Hr.
  destruct s as [|d s].
  + rewrite app_nil_l in Hr. discriminate.
  + rewrite app_cons in Hr. injection Hr as -> Hr.
    destruct s as [|e s].
    * discriminate.
    * rewrite app_cons in Hr. injection Hr as -> _.
      rewrite !includes_char_cons in Hs. discriminate.
Qed.

Lemma includes_dots_join segments :
  Forall (fun x => free Js.slash x /\ Js.endsWith ".." x = false) segments ->
  Js.includes "../" (Js.join "/" segments) = false.
Proof.
induction segments as [|x segments IH]; intros Hc; [reflexivity|].
inversion Hc as [|? ? (Hfree & Hends) Hrest]; subst.
destruct segments as [|y segments].
- rewrite join_one. apply includes_dots_free. assumption.
- rewrite join_cons, app_cons, app_nil_l, includes_dots_app by assumption.
  apply IH. assumption.
Qed.

(** What the loop of [normalizePath] keeps has every property of the
    segments other than [.] and [..] that went in. *)
Lemma normalizeSegments_Forall (Q : string -> Prop) segments output :
  Forall (fun x => x <> "." -> x <> ".." -> Q x) segments ->
  Forall Q output ->
  Forall Q (Path.normalizeSegments segments output).
Proof.
revert output. induction segments as [|x segments IH]; intros output Hs Ho.
- simpl. apply List.Forall_rev. assumption.
- inversion Hs as [|? ? Hx Hrest]; subst. simpl.
  destruct (String.eqb_spec x ".") as [->|Hdot]; [apply IH; assumption|].
  destruct (String.eqb_spec x "..") as [->|Hdots].
  + destruct output as [|y popped]; [apply IH; assumption|].
    apply IH; [assumption|]. inversion Ho; assumption.
  + apply IH; [assumption|]. constructor; [|assumption]. apply Hx; assumption.
Qed.

Lemma join_not_dots segments :
  Forall (fun x => free Js.slash x /\ x <> "..") segments ->
  Js.join "/" segments <> "..".
Proof.
intros Hc Heq. destruct segments as [|x rest]; [discriminate|].
assert (Hs : Js.split Js.slash (Js.join "/" (x :: rest)) = x :: rest).
{ apply split_join; [discriminate|].
  eapply List.Forall_impl; [|exact Hc]. intros a Ha. apply Ha. }
rewrite Heq in Hs. injection Hs as <- _.
inversion Hc as [|? ? (_ & Hne) _]. apply Hne. reflexivity.
Qed.

End UnsafePaths.

(** What [normalizePath] returns is in normal form. *)
Lemma normalizePath_normal (input : string) :
  Path.normalizePath (Path.normalizePath input) = Path.normalizePath input
  /\ Js.startsWith "/" (Path.normalizePath input) = Js.startsWith "/" input
  /\ (forall segment,
         In segment (Js.split Js.slash (Path.normalizePath input)) ->
         segment <> "." /\ segment <> "..")
  /\ String.eqb (Path.normalizePath input) ".." = false.
Proof.
destruct (normalizePath_shape input) as (segments & Hc & Hshape).
assert (Hsegs : forall segment,
           In segment (Js.split Js.slash (Path.normalizePath input)) ->
           segment <> "." /\ segment <> "..").
{ intros segment Hin. rewrite Hshape in Hin.
  assert (Hjoin : In segment (Js.split Js.slash (Js.join "/" segments)) ->
                  segment <> "." /\ segment <> "..").
  { destruct segments as [|x rest].
    - simpl. intros [<-|[]]. split; discriminate.
    - rewrite split_join.
      + intros Hx. rewrite List.Forall_forall in Hc.
        destruct (Hc _ Hx) as (_ & _ & Hdot & Hdots). split; assumption.
      + discriminate.
      + eapply List.Forall_impl; [|exact Hc]. intros a Ha. apply Ha. }
  destruct (Js.startsWith "/" input).
  - rewrite app_cons, app_nil_l in Hin.
    change (String "/" (Js.join "/" segments))
      with (String Js.slash (Js.join "/" segments)) in Hin.
    rewrite split_cons_sep in Hin. destruct Hin as [<-|Hin].
    + split; discriminate.
    + apply Hjoin. assumption.
  - apply Hjoin. assumption. }
repeat split.
- rewrite Hshape. apply normalizePath_fixed. assumption.
- rewrite Hshape. destruct (Js.startsWith "/" input).
  + rewrite app_cons. apply startsWith_slash_cons.
  + rewrite app_nil_l. apply startsWith_join. assumption.
- apply (Hsegs segment). assumption.
- apply (Hsegs segment). assumption.
- apply String.eqb_neq. intros Heq.
  destruct (Hsegs ".." ) as [_ Hne]; [|apply Hne; reflexivity].
  rewrite Heq. left. reflexivity.
Qed.

(** X1.  [normalizePath] is idempotent: a normalised path is left as it
    is.  The result is absolute exactly when the input is, and none of
    its segments is [.] or [..]; in particular it is never the string
    [..] that [isUnsafeRelativePath] compares it with. *)
Theorem normalizePath_idempotent (input : string) :
  Path.normalizePath (Path.normalizePath input) = Path.normalizePath input
  /\ Js.startsWith "/" (Path.normalizePath input) = Js.startsWith "/" input
  /\ (forall segment,
         In segment (Js.split Js.slash (Path.normalizePath input)) ->
         segment <> "." /\ segment <> "..")
  /\ String.eqb (Path.normalizePath input) ".." = false.
Proof. exact (normalizePath_normal input). Qed.

(** X2.  For a path none of whose segments (between slashes or
    backslashes) ends in two dots, apart from the segment [..] itself,
    [isUnsafeRelativePath] answers whether the path starts with a slash
    or a backslash, and nothing more: however many [..] segments a
    relative path has, it is not reported as unsafe. *)
Theorem isUnsafeRelativePath_only_absolute (input : string) :
  let path := Js.replaceAll Js.backslash Js.slash input in
  (forall segment, In segment (Js.split Js.slash path) ->
                   Js.endsWith ".." segment = true -> segment = "..") ->
  Path.isUnsafeRelativePath input = Js.startsWith "/" path.
Proof.
intros path Hsegs. unfold Path.isUnsafeRelativePath. fold path.
destruct (normalizePath_normal path) as (_ & Habs & _ & Hdots).
rewrite Habs, Hdots, orb_false_r.
destruct (Js.startsWith "/" path) eqn:Hstart; [reflexivity|]. simpl.
unfold Path.normalizePath. rewrite Hstart.
apply includes_dots_join.
apply normalizeSegments_Forall; [|constructor].
apply List.Forall_forall. intros x Hx _ Hne.
apply List.filter_In in Hx as [Hin _]. split.
- pose proof (split_pieces_free Js.slash path) as Hfree.
  rewrite List.Forall_forall in Hfree. apply Hfree. assumption.
- destruct (Js.endsWith ".." x) eqn:E; [|reflexivity].
  exfalso. apply Hne. apply Hsegs; assumption.
Qed.

Lemma isUnsafeRelativePath_only_absolute_witness :
  Path.isUnsafeRelativePath "..\..\etc/./passwd" = false
  /\ Path.isUnsafeRelativePath "\etc\passwd" = true.
Proof.
split.
- apply (isUnsafeRelativePath_only_absolute "..\..\etc/./passwd").
  intros segment Hin Hends. simpl in Hin.
  destruct Hin as [<-|[<-|[<-|[<-|[<-|[]]]]]];
    first [reflexivity | discriminate Hends].
- apply (isUnsafeRelativePath_only_absolute "\etc\passwd").
  intros segment Hin Hends. simpl in Hin.
  destruct Hin as [<-|[<-|[<-|[]]]];
    first [reflexivity | discriminate Hends].
Defined.

(** ** Joining paths *)

Section JoinedPaths.

Implicit Types (s t dir name : string) (c : ascii).

Local Abbreviation free c s := (Js.includes (String c "") s = false).

Lemma dropLeading_other c d s :
  d <> c -> Js.dropLeading c (String d s) = String d s.
Proof. intros Hne. simpl. apply Ascii.eqb_neq in Hne. rewrite Hne. reflexivity. Qed.

Lemma dropLeading_free c s : free c s -> Js.dropLeading c s = s.
Proof.
destruct s as [|d s]; [reflexivity|]. intros Hfree.
rewrite includes_char_cons in Hfree. apply orb_false_iff in Hfree as [Hd _].
apply Ascii.eqb_neq in Hd. apply dropLeading_other. congruence.
Qed.

(** Nothing is dropped from the end of a string that ends with a
    non-empty part without the character. *)
Lemma dropTrailing_app_free c s t :
  free c t -> t <> "" -> Js.dropTrailing c (s +:+ t) = s +:+ t.
Proof.
intros Hfree Hne. unfold Js.dropTrailing. rewrite rev_string_app.
destruct (Js.rev_string t) as [|d r] eqn:E.
- exfalso. apply Hne. rewrite <- (rev_string_involutive t), E. reflexivity.
- assert (Hd : d <> c).
  { rewrite <- includes_char_rev, E, includes_char_cons in Hfree.
    apply orb_false_iff in Hfree as [Hd _]. apply Ascii.eqb_neq in Hd.
    congruence. }
  rewrite app_cons, (dropLeading_other c d _ Hd), <- app_cons, <- E.
  rewrite <- rev_string_app. apply rev_string_involutive.
Qed.

Lemma trimSlashes_free s : free Js.slash s -> Path.trimSlashes s = s.
Proof.
intros Hfree. unfold Path.trimSlashes. rewrite (dropLeading_free _ _ Hfree).
destruct s as [|c s]; [reflexivity|].
rewrite <- (app_nil_l (String c s)) at 1.
rewrite dropTrailing_app_free by (assumption || discriminate). reflexivity.
Qed.

Lemma trimStart_app_kept s c t :
  Js.isSpace c = false -> Js.trimStart (s +:+ String c t) <> "".
Proof.
intros Hc. induction s as [|d s IH].
- rewrite app_nil_l. simpl. rewrite Hc. discriminate.
- rewrite app_cons. simpl. destruct (Js.isSpace d); [assumption|discriminate].
Qed.

Lemma trimStart_head s c t : Js.trimStart s = String c t -> Js.isSpace c = false.
Proof.
induction s as [|d s IH]; [discriminate|]. simpl.
destruct (Js.isSpace d) eqn:E; [assumption|]. intros [= <- _]. assumption.
Qed.

(** A string is blank for [trim] exactly when it is for [trimStart]. *)
Lemma trim_blank s : Js.trim s = "" <-> Js.trimStart s = "".
Proof.
unfold Js.trim. split.
- intros Ht. destruct (Js.trimStart s) as [|c t] eqn:E; [reflexivity|].
  exfalso. simpl in Ht.
  apply (trimStart_app_kept (Js.rev_string t) c "").
  + eapply trimStart_head. eassumption.
  + rewrite <- (rev_string_involutive (Js.trimStart _)), Ht. reflexivity.
- intros ->. reflexivity.
Qed.

Lemma lastIndexOf_aux_app c (i : nat) (acc : option nat) s t :
  Js.lastIndexOf_aux c i acc (s +:+ t)
  = Js.lastIndexOf_aux c (i + String.length s)
      (Js.lastIndexOf_aux c i acc s) t.
Proof.
revert i acc. induction s as [|d s IH]; intros i acc.
- rewrite app_nil_l. simpl. rewrite Nat.add_0_r. reflexivity.
- rewrite app_cons. simpl. rewrite IH. f_equal. lia.
Qed.

Lemma lastIndexOf_aux_free c (i : nat) (acc : option nat) s :
  free c s -> Js.lastIndexOf_aux c i acc s = acc.
Proof.
revert i acc. induction s as [|d s IH]; intros i acc Hfree; [reflexivity|].
rewrite includes_char_cons in Hfree. apply orb_false_iff in Hfree as [Hd Hs].
simpl. rewrite Ascii.eqb_sym, Hd. apply IH. assumption.
Qed.

Lemma substring_prefix s t : String.substring 0 (String.length s) (s +:+ t) = s.
Proof.
induction s as [|c s IH].
- destruct t; reflexivity.
- rewrite app_cons. simpl. rewrite IH. reflexivity.
Qed.

(** The directory part of [dir/name] is [dir]. *)
Lemma dirname_app dir name :
  dir <> "" -> free Js.slash name ->
  Path.normalizePath (dir +:+ "/" +:+ name) = dir +:+ "/" +:+ name ->
  Path.dirname (dir +:+ "/" +:+ name) = dir.
Proof.
intros Hdir Hname Hnorm. unfold Path.dirname. rewrite Hnorm.
unfold Js.lastIndexOf. rewrite lastIndexOf_aux_app, app_cons, app_nil_l.
simpl Js.lastIndexOf_aux at 1.
change (Ascii.eqb "/" Js.slash) with true. cbv iota.
rewrite lastIndexOf_aux_free by assumption.
destruct dir as [|c dir]; [contradiction|].
simpl String.length. unfold Js.sliceTo.
change (S (String.length dir)) with (String.length (String c dir)).
apply substring_prefix.
Qed.

(** Joining a normalised relative directory and a plain file name. *)
Lemma joinPath_two dir name :
  Path.normalizePath dir = dir ->
  Js.startsWith "/" dir = false ->
  Js.trim dir <> "" ->
  free Js.slash name ->
  Js.trim name <> "" ->
  name <> "." ->
  name <> ".." ->
  Path.joinPath [Some dir; Some name] = dir +:+ "/" +:+ name
  /\ Path.normalizePath (dir +:+ "/" +:+ name) = dir +:+ "/" +:+ name
  /\ Path.dirname (dir +:+ "/" +:+ name) = dir.
Proof.
intros Hnorm Hrel Hdir Hfree Hname Hdot Hdots.
assert (Hd : dir <> "") by (intros ->; apply Hdir; reflexivity).
assert (Hn : name <> "") by (intros ->; apply Hname; reflexivity).
destruct (normalizePath_shape dir) as (segments & Hc & Hshape).
rewrite Hnorm, Hrel, app_nil_l in Hshape.
assert (Hsegs : segments <> []) by (intros ->; apply Hd; exact Hshape).
assert (Htrim : Path.trimSlashes dir = dir).
{ unfold Path.trimSlashes.
  assert (Hlead : Js.dropLeading Js.slash dir = dir).
  { destruct dir as [|c dir]; [reflexivity|].
    apply dropLeading_other. intros ->. unfold Js.startsWith in Hrel.
    rewrite prefix_cons in Hrel.
    destruct (Ascii.ascii_dec "/" Js.slash); [|contradiction].
    rewrite prefix_nil in Hrel. discriminate. }
  rewrite Hlead.
  destruct (List.exists_last Hsegs) as (front & x & ->).
  apply List.Forall_app in Hc as [_ Hx].
  apply List.Forall_inv in Hx as (Hxfree & Hxne & _).
  destruct front as [|y front].
  - simpl in Hshape. rewrite Hshape. rewrite <- (app_nil_l x) at 1.
    rewrite dropTrailing_app_free by assumption. reflexivity.
  - rewrite join_snoc in Hshape by discriminate. rewrite Hshape.
    rewrite <- app_assoc.
    rewrite dropTrailing_app_free by assumption. reflexivity. }
assert (Hjoined : dir +:+ "/" +:+ name = Js.join "/" (segments ++ [name])).
{ rewrite join_snoc by assumption. rewrite <- Hshape. reflexivity. }
assert (Hfixed :
  Path.normalizePath (dir +:+ "/" +:+ name) = dir +:+ "/" +:+ name).
{ rewrite Hjoined.
  apply (normalizePath_fixed false). apply List.Forall_app. split; [assumption|].
  constructor; [|constructor]. repeat split; assumption. }
split; [|split].
- unfold Path.joinPath. simpl List.flat_map.
  assert (Hkeep : forall s, s <> "" -> Js.trim s <> "" ->
            (Js.truthy s && (0 <? String.length (Js.trim s))%nat)%bool = true).
  { intros s Hs Ht. destruct s; [contradiction|].
    destruct (Js.trim (String a s)); [contradiction|reflexivity]. }
  rewrite (Hkeep dir Hd Hdir), (Hkeep name Hn Hname). simpl.
  rewrite Htrim, (trimSlashes_free name Hfree). reflexivity.
- exact Hfixed.
- apply dirname_app; assumption.
Qed.

End JoinedPaths.

(** X3.  For a normalised relative directory and a plain file name (not
    blank, without a slash, neither [.] nor [..]), [joinPath] puts one
    slash between the two, the result is normalised, and [dirname] of it
    is the directory again. *)
Theorem dirname_joinPath (dir name : string) :
  Path.normalizePath dir = dir ->
  Js.startsWith "/" dir = false ->
  Js.trim dir <> "" ->
  Js.includes "/" name = false ->
  Js.trim name <> "" ->
  name <> "." ->
  name <> ".." ->
  Path.joinPath [Some dir; Some name] = dir +:+ "/" +:+ name
  /\ Path.normalizePath (Path.joinPath [Some dir; Some name])
     = Path.joinPath [Some dir; Some name]
  /\ Path.dirname (Path.joinPath [Some dir; Some name]) = dir.
Proof.
intros Hnorm Hrel Hdir Hfree Hname Hdot Hdots.
destruct (joinPath_two dir name Hnorm Hrel Hdir Hfree Hname Hdot Hdots)
  as (Hjoin & Hfixed & Hdirname).
rewrite Hjoin. repeat split; assumption.
Qed.

Lemma dirname_joinPath_witness :
  Path.joinPath [Some "BookkeepingApp/exports"; Some "backup.zip"]
  = "BookkeepingApp/exports/backup.zip"
  /\ Path.dirname (Path.joinPath [Some "BookkeepingApp/exports"; Some "backup.zip"])
     = "BookkeepingApp/exports".
Proof.
destruct (dirname_joinPath "BookkeepingApp/exports" "backup.zip")
  as (Hjoin & _ & Hdirname);
  try reflexivity; try discriminate.
split; assumption.
Defined.

(** ** The directories of a dataset *)

Section DatasetPaths.

Lemma plainName_inv (name : string) :
  Path.plainName name = true ->
  Js.includes "/" name = false /\ Js.trim name <> ""
  /\ name <> "." /\ name <> "..".
Proof.
unfold Path.plainName. intros Hp.
apply andb_true_iff in Hp as [Hp Hdots].
apply andb_true_iff in Hp as [Hp Hdot].
apply andb_true_iff in Hp as [Hfree Hblank].
apply negb_true_iff in Hfree, Hblank, Hdot, Hdots.
apply String.eqb_neq in Hblank, Hdot, Hdots. auto.
Qed.

Lemma dataDir_eq : Paths.dataDir = "BookkeepingApp/data".
Proof. reflexivity. Qed.

Lemma getDatasetDir_plain (datasetId : string) :
  Path.plainName datasetId = true ->
  Paths.getDatasetDir datasetId = "BookkeepingApp/data/" +:+ datasetId
  /\ Path.normalizePath (Paths.getDatasetDir datasetId)
     = Paths.getDatasetDir datasetId.
Proof.
intros Hp. apply plainName_inv in Hp as (Hfree & Hblank & Hdot & Hdots).
unfold Paths.getDatasetDir. rewrite dataDir_eq.
destruct (joinPath_two "BookkeepingApp/data" datasetId)
  as (Hjoin & Hfixed & _); try assumption; try reflexivity; try discriminate.
rewrite Hjoin. split; [reflexivity|exact Hfixed].
Qed.

(** What is joined below the directory of a dataset. *)
Lemma below_datasetDir (datasetId name : string) :
  Path.plainName datasetId = true ->
  Path.plainName name = true ->
  Path.joinPath [Some (Paths.getDatasetDir datasetId); Some name]
  = "BookkeepingApp/data/" +:+ datasetId +:+ "/" +:+ name
  /\ Path.dirname (Path.joinPath [Some (Paths.getDatasetDir datasetId); Some name])
     = Paths.getDatasetDir datasetId.
Proof.
intros Hid Hname.
destruct (getDatasetDir_plain datasetId Hid) as (Hdir & Hnorm).
apply plainName_inv in Hname as (Hfree & Hblank & Hdot & Hdots).
destruct (joinPath_two (Paths.getDatasetDir datasetId) name)
  as (Hjoin & _ & Hdirname); try assumption.
- rewrite Hdir. reflexivity.
- rewrite Hdir. intros Ht. apply trim_blank in Ht. discriminate Ht.
- rewrite Hjoin, Hdirname. split; [|reflexivity].
  rewrite Hdir, app_assoc. reflexivity.
Qed.

End DatasetPaths.

(** X4.  For a dataset id that is a plain name, the directory of the
    dataset is [BookkeepingApp/data/<id>], its database file and its
    media directory lie directly in it, and two such ids with the same
    database file or the same media directory are the same id: datasets
    do not share files. *)
Theorem dataset_paths_are_separate (datasetId other : string) :
  Path.plainName datasetId = true ->
  Path.plainName other = true ->
  Paths.getDatasetDir datasetId = "BookkeepingApp/data/" +:+ datasetId
  /\ Paths.getDatabasePath datasetId
     = "BookkeepingApp/data/" +:+ datasetId +:+ "/bookkeeping.db"
  /\ Paths.getMediaDir datasetId
     = "BookkeepingApp/data/" +:+ datasetId +:+ "/media"
  /\ Path.dirname (Paths.getDatabasePath datasetId)
     = Paths.getDatasetDir datasetId
  /\ Path.dirname (Paths.getMediaDir datasetId) = Paths.getDatasetDir datasetId
  /\ (Paths.getDatabasePath datasetId = Paths.getDatabasePath other ->
      datasetId = other)
  /\ (Paths.getMediaDir datasetId = Paths.getMediaDir other ->
      datasetId = other).
Proof.
intros Hid Hother.
destruct (getDatasetDir_plain datasetId Hid) as (Hdir & _).
destruct (getDatasetDir_plain other Hother) as (Hdir' & _).
destruct (below_datasetDir datasetId "bookkeeping.db" Hid eq_refl)
  as (Hdb & Hdbdir).
destruct (below_datasetDir datasetId "media" Hid eq_refl) as (Hmedia & Hmediadir).
destruct (below_datasetDir other "bookkeeping.db" Hother eq_refl)
  as (_ & Hdbdir').
destruct (below_datasetDir other "media" Hother eq_refl) as (_ & Hmediadir').
assert (Hinj : Paths.getDatasetDir datasetId = Paths.getDatasetDir other ->
               datasetId = other).
{ rewrite Hdir, Hdir'. intros Heq.
  apply (String.app_inj "BookkeepingApp/data/"). exact Heq. }
repeat split; try assumption.
- intros Heq. apply Hinj.
  rewrite <- Hdbdir, <- Hdbdir'. unfold Paths.getDatabasePath in Heq.
  rewrite Heq. reflexivity.
- intros Heq. apply Hinj.
  rewrite <- Hmediadir, <- Hmediadir'. unfold Paths.getMediaDir in Heq.
  rewrite Heq. reflexivity.
Qed.

Lemma dataset_paths_are_separate_witness :
  Paths.getDatabasePath "V1StGXR8_Z5j"
  = "BookkeepingApp/data/V1StGXR8_Z5j/bookkeeping.db"
  /\ Path.dirname (Paths.getMediaDir "V1StGXR8_Z5j")
     = Paths.getDatasetDir "V1StGXR8_Z5j".
Proof.
destruct (dataset_paths_are_separate "V1StGXR8_Z5j" "ds0" eq_refl eq_refl)
  as (_ & Hdb & _ & _ & Hmedia & _).
split; assumption.
Defined.

(** ** The receipt carousel *)

Lemma clampReceiptIndex_range (index imageCount : Z) :
  (0 < imageCount)%Z ->
  (0 <= ReceiptCarousel.clampReceiptIndex index imageCount < imageCount)%Z.
Proof.
intros Hcount. unfold ReceiptCarousel.clampReceiptIndex.
destruct (imageCount <=? 0)%Z eqn:E; [apply Z.leb_le in E; lia|lia].
Qed.

(** X5.  [clampReceiptIndex] gives a valid index whenever there is an
    image, leaves a valid index as it is, gives 0 when there is none,
    and clamping twice is clamping once. *)
Theorem clampReceiptIndex_valid (index imageCount : Z) :
  ((0 < imageCount)%Z ->
   (0 <= ReceiptCarousel.clampReceiptIndex index imageCount < imageCount)%Z)
  /\ ((0 <= index < imageCount)%Z ->
      ReceiptCarousel.clampReceiptIndex index imageCount = index)
  /\ ((imageCount <= 0)%Z ->
      ReceiptCarousel.clampReceiptIndex index imageCount = 0%Z)
  /\ ReceiptCarousel.clampReceiptIndex
       (ReceiptCarousel.clampReceiptIndex index imageCount) imageCount
     = ReceiptCarousel.clampReceiptIndex index imageCount.
Proof.
unfold ReceiptCarousel.clampReceiptIndex.
destruct (imageCount <=? 0)%Z eqn:E.
- apply Z.leb_le in E. repeat split; try reflexivity; lia.
- apply Z.leb_gt in E. repeat split; lia.
Qed.

Lemma clampReceiptIndex_valid_witness :
  ReceiptCarousel.clampReceiptIndex 7 3 = 2%Z
  /\ ReceiptCarousel.clampReceiptIndex (-4) 3 = 0%Z
  /\ ReceiptCarousel.clampReceiptIndex 1 3 = 1%Z
  /\ ReceiptCarousel.clampReceiptIndex 5 0 = 0%Z.
Proof.
destruct (clampReceiptIndex_valid 1 3) as (_ & Hvalid & _).
destruct (clampReceiptIndex_valid 5 0) as (_ & _ & Hnone & _).
split; [reflexivity|]. split; [reflexivity|]. split.
- apply Hvalid. lia.
- apply Hnone. lia.
Defined.

(** X6.  As the purchases panel steps through receipts: from the
    clamped index, [cycleReceiptIndex] gives a valid index again, wraps
    from the last image to the first and from the first to the last, and
    a step back undoes a step forward (and the other way round). *)
Theorem cycleReceiptIndex_wraps (index imageCount direction : Z) :
  (0 < imageCount)%Z ->
  direction = 1%Z \/ direction = (-1)%Z ->
  let current := ReceiptCarousel.clampReceiptIndex index imageCount in
  let next := ReceiptCarousel.cycleReceiptIndex current imageCount direction in
  (0 <= next < imageCount)%Z
  /\ ReceiptCarousel.cycleReceiptIndex next imageCount (- direction) = current
  /\ (direction = 1%Z ->
      next = if (current =? imageCount - 1)%Z then 0%Z else (current + 1)%Z)
  /\ (direction = (-1)%Z ->
      next = if (current =? 0)%Z then (imageCount - 1)%Z else (current - 1)%Z).
Proof.
intros Hcount Hdir current next.
assert (Hcur : (0 <= current < imageCount)%Z).
{ apply clampReceiptIndex_range. assumption. }
assert (Hstep : forall i d, (0 <= i < imageCount)%Z -> d = 1%Z \/ d = (-1)%Z ->
          ReceiptCarousel.cycleReceiptIndex i imageCount d
          = if (d =? 1)%Z
            then (if (i =? imageCount - 1)%Z then 0 else i + 1)%Z
            else (if (i =? 0)%Z then imageCount - 1 else i - 1)%Z).
{ intros i d Hi Hd. unfold ReceiptCarousel.cycleReceiptIndex.
  assert (E : (imageCount <=? 0)%Z = false) by (apply Z.leb_gt; lia).
  rewrite E. rewrite Z.rem_mod_nonneg by lia.
  destruct Hd as [-> | ->]; simpl Z.eqb.
  - destruct (Z.eqb_spec i (imageCount - 1)) as [-> | Hne].
    + replace (imageCount - 1 + 1 + imageCount)%Z with (0 + 2 * imageCount)%Z
        by lia.
      rewrite Z.mod_add by lia. apply Z.mod_0_l. lia.
    + replace (i + 1 + imageCount)%Z with (i + 1 + 1 * imageCount)%Z by lia.
      rewrite Z.mod_add by lia. apply Z.mod_small. lia.
  - destruct (Z.eqb_spec i 0) as [-> | Hne].
    + replace (0 + -1 + imageCount)%Z with (imageCount - 1)%Z by lia.
      apply Z.mod_small. lia.
    + replace (i + -1 + imageCount)%Z with (i - 1 + 1 * imageCount)%Z by lia.
      rewrite Z.mod_add by lia. apply Z.mod_small. lia. }
assert (Hforward : forall i, (0 <= i < imageCount)%Z ->
          ReceiptCarousel.cycleReceiptIndex i imageCount 1
          = (if (i =? imageCount - 1)%Z then 0 else i + 1)%Z).
{ intros i Hi. apply (Hstep i 1%Z Hi). left. reflexivity. }
assert (Hback : forall i, (0 <= i < imageCount)%Z ->
          ReceiptCarousel.cycleReceiptIndex i imageCount (-1)
          = (if (i =? 0)%Z then imageCount - 1 else i - 1)%Z).
{ intros i Hi. apply (Hstep i (-1)%Z Hi). right. reflexivity. }
clear Hstep. subst next.
destruct Hdir as [-> | ->].
- change (- (1))%Z with (-1)%Z. rewrite (Hforward current Hcur).
  destruct (Z.eqb_spec current (imageCount - 1)) as [E | E].
  + rewrite Hback by lia. simpl. repeat split; try lia; discriminate.
  + rewrite Hback by lia.
    destruct (Z.eqb_spec (current + 1) 0); repeat split; try lia; discriminate.
- change (- (-1))%Z with 1%Z. rewrite (Hback current Hcur).
  destruct (Z.eqb_spec current 0) as [E | E].
  + rewrite Hforward by lia. rewrite Z.eqb_refl.
    repeat split; try lia; discriminate.
  + rewrite Hforward by lia.
    destruct (Z.eqb_spec (current - 1) (imageCount - 1));
      repeat split; try lia; discriminate.
Qed.

Lemma cycleReceiptIndex_wraps_witness :
  ReceiptCarousel.cycleReceiptIndex (ReceiptCarousel.clampReceiptIndex 9 3) 3 1
  = 0%Z
  /\ ReceiptCarousel.cycleReceiptIndex 0 3 (-1) = 2%Z.
Proof.
destruct (cycleReceiptIndex_wraps 9 3 1) as (_ & _ & Hforward & _);
  [lia | left; reflexivity |].
destruct (cycleReceiptIndex_wraps 0 3 (-1)) as (_ & _ & _ & Hback);
  [lia | right; reflexivity |].
split.
- apply Hforward. reflexivity.
- apply Hback. reflexivity.
Defined.

(** ** Performance modes *)

Ltac mode_cases mode :=
  repeat match goal with
         | |- context [String.eqb mode ?literal] =>
             destruct (String.eqb_spec mode literal); subst
         | H : context [String.eqb mode ?literal] |- _ =>
             destruct (String.eqb_spec mode literal); subst
         end.

(** X7.  The performance modes are cumulative in the order of
    [performanceModeOrder]: what a mode switches off, every later mode
    switches off as well.  The lightweight dashboard comes only with
    flattened visuals, these only with animations disabled; a mode with
    a root class has animations disabled and a class of
    [performanceModeRootClasses]; among the four modes, [off] is the one
    without a root class. *)
Theorem performance_modes_are_cumulative :
  (forall before earlier after later,
      PerformanceMode.performanceModeOrder = before ++ earlier :: after ->
      In later after ->
      (PerformanceMode.disableUiAnimations earlier = true ->
       PerformanceMode.disableUiAnimations later = true)
      /\ (PerformanceMode.flattenVisualEffects earlier = true ->
          PerformanceMode.flattenVisualEffects later = true)
      /\ (PerformanceMode.useStaticCharts earlier = true ->
          PerformanceMode.useStaticCharts later = true)
      /\ (PerformanceMode.useLightweightDashboard earlier = true ->
          PerformanceMode.useLightweightDashboard later = true))
  /\ (forall mode,
         (PerformanceMode.useLightweightDashboard mode = true ->
          PerformanceMode.flattenVisualEffects mode = true)
         /\ (PerformanceMode.flattenVisualEffects mode = true ->
             PerformanceMode.disableUiAnimations mode = true))
  /\ (forall mode class,
         PerformanceMode.rootClassForPerformanceMode mode = Some class ->
         In class PerformanceMode.performanceModeRootClasses
         /\ PerformanceMode.disableUiAnimations mode = true)
  /\ (forall mode,
         In mode PerformanceMode.performanceModeOrder ->
         (PerformanceMode.rootClassForPerformanceMode mode = None
          <-> mode = "off")).
Proof.
split; [|split; [|split]].
- intros before earlier after later Horder Hlater.
  unfold PerformanceMode.performanceModeOrder in Horder.
  destruct before as [|b0 [|b1 [|b2 [|b3 [|b4 before]]]]];
    simpl in Horder; injection Horder as <-; intros; subst;
    try discriminate;
    simpl in Hlater;
    repeat (destruct Hlater as [<- | Hlater]; [repeat split; intros; try reflexivity; discriminate|]);
    try contradiction.
- intros mode.
  unfold PerformanceMode.useLightweightDashboard,
    PerformanceMode.flattenVisualEffects, PerformanceMode.disableUiAnimations.
  split; intros Hflag; mode_cases mode; try reflexivity; discriminate.
- intros mode class.
  unfold PerformanceMode.rootClassForPerformanceMode,
    PerformanceMode.performanceModeRootClasses,
    PerformanceMode.disableUiAnimations.
  intros Hclass. mode_cases mode; try discriminate;
    injection Hclass as <-; split; try reflexivity; simpl; auto.
- intros mode Hmode.
  unfold PerformanceMode.performanceModeOrder in Hmode. simpl in Hmode.
  destruct Hmode as [<- | [<- | [<- | [<- | []]]]];
    split; intros Hx; try reflexivity; discriminate.
Qed.

Lemma performance_modes_are_cumulative_witness :
  (PerformanceMode.flattenVisualEffects "aggressive" = true ->
   PerformanceMode.flattenVisualEffects "extreme" = true)
  /\ PerformanceMode.disableUiAnimations "lite" = true.
Proof.
destruct performance_modes_are_cumulative as (Horder & _ & Hclass & _).
split.
- apply (Horder ["off"; "lite"] "aggressive" ["extreme"] "extreme").
  + reflexivity.
  + left. reflexivity.
- apply (Hclass "lite" "perf-mode-lite"). reflexivity.
Defined.

(** ** The size of a picture in base64 *)

Section Base64Size.

Implicit Types (s t body padding : string) (c : ascii).

Lemma dropLeading_all c s t :
  Js.dropLeading c s = "" -> Js.dropLeading c (s +:+ t) = Js.dropLeading c t.
Proof.
induction s as [|d s IH]; intros Hall; [reflexivity|].
rewrite app_cons. simpl in *. destruct (Ascii.eqb d c); [auto|discriminate].
Qed.

Lemma dropLeading_rev_all c s :
  Js.dropLeading c s = "" -> Js.dropLeading c (Js.rev_string s) = "".
Proof.
induction s as [|d s IH]; intros Hall; [reflexivity|].
simpl in *. destruct (Ascii.eqb d c) eqn:E; [|discriminate].
rewrite dropLeading_all by auto. simpl. rewrite E. reflexivity.
Qed.

(** Padding is dropped from the end, and nothing else. *)
Lemma dropTrailing_padding c body padding :
  Js.endsWith (String c "") body = false ->
  Js.dropLeading c padding = "" ->
  Js.dropTrailing c (body +:+ padding) = body.
Proof.
intros Hends Hpad. unfold Js.dropTrailing.
rewrite rev_string_app, dropLeading_all by (apply dropLeading_rev_all; exact Hpad).
unfold Js.endsWith in Hends. simpl Js.rev_string in Hends.
assert (Hkept : Js.dropLeading c (Js.rev_string body) = Js.rev_string body).
{ destruct (Js.rev_string body) as [|d r]; [reflexivity|].
  rewrite app_nil_l, prefix_cons in Hends.
  destruct (Ascii.ascii_dec c d) as [->|Hne].
  - rewrite prefix_nil in Hends. discriminate.
  - apply dropLeading_other. congruence. }
rewrite Hkept. apply rev_string_involutive.
Qed.

Lemma Qceiling_quarter (a : Z) : Qceiling (inject_Z a / 4) = ((a + 3) / 4)%Z.
Proof.
unfold Qceiling, Qfloor, Qopp, Qdiv, Qmult, Qinv, inject_Z. simpl.
Z.to_euclidean_division_equations. lia.
Qed.

End Base64Size.

(** X8.  For the base64 text of a picture of [bytes] bytes (four
    characters for every three bytes, two or three for a rest of one or
    two, then padding), [estimateBase64Size] gives the number of bytes
    when it is a multiple of three, and one more otherwise: the padding
    does not count, and the estimate is never below the size. *)
Theorem estimateBase64Size_of_encoding (body padding : string) (bytes : nat) :
  Js.endsWith "=" body = false ->
  Js.dropLeading "="%char padding = "" ->
  String.length body
  = (4 * (bytes / 3) + match bytes mod 3 with 0 => 0 | 1 => 2 | _ => 3 end)%nat ->
  Media.estimateBase64Size (body +:+ padding)
  = (Z.of_nat bytes + (if (bytes mod 3 =? 0)%nat then 0 else 1))%Z.
Proof.
intros Hends Hpad Hlen. unfold Media.estimateBase64Size.
rewrite (dropTrailing_padding _ _ _ Hends Hpad), Qceiling_quarter, Hlen.
pose proof (Nat.div_mod_eq bytes 3) as Hdiv.
pose proof (Nat.mod_upper_bound bytes 3 ltac:(lia)) as Hbound.
destruct (bytes mod 3) as [|[|[|r]]] eqn:Hmod; simpl Nat.eqb; cbv iota;
  try lia; Z.to_euclidean_division_equations; lia.
Qed.

Lemma estimateBase64Size_of_encoding_witness :
  Media.estimateBase64Size "QQ==" = 2%Z
  /\ Media.estimateBase64Size "QUJD" = 3%Z.
Proof.
split.
- apply (estimateBase64Size_of_encoding "QQ" "==" 1); reflexivity.
- apply (estimateBase64Size_of_encoding "QUJD" "" 3); reflexivity.
Defined.

(** ** Variance and utilisation *)

Section Utilisation.

Local Open Scope Q_scope.

(** A number of hundredths within half a hundredth of [x]. *)
Lemma toFixed2_between (x : Q) :
  exists n : Z,
    Num.toFixed2 x == inject_Z n * (1 # 100)
    /\ x - (1 # 200) <= inject_Z n * (1 # 100) <= x + (1 # 200).
Proof.
destruct (toFixed2_hundredths x) as (n & Hn).
pose proof (toFixed2_close x) as Hclose.
apply Qabs_Qle_condition in Hclose as [Hlow Hhigh].
assert (E : inject_Z n / 100 == inject_Z n * (1 # 100)) by field.
rewrite E in Hn. exists n. split; [exact Hn|]. rewrite <- Hn. split; lra.
Qed.

(** Rounding keeps a number on its side of a whole number of
    hundredths. *)
Lemma toFixed2_ge (x : Q) (k : Z) :
  inject_Z k * (1 # 100) <= x -> inject_Z k * (1 # 100) <= Num.toFixed2 x.
Proof.
intros Hx. destruct (toFixed2_between x) as (n & Hn & Hlow & Hhigh).
rewrite Hn. destruct (Z_lt_le_dec n k) as [Hlt | Hle].
- exfalso. assert (Hn1 : (n + 1 <= k)%Z) by lia.
  rewrite Zle_Qle, inject_Z_plus in Hn1.
  change (inject_Z 1) with 1 in Hn1. lra.
- rewrite Zle_Qle in Hle. lra.
Qed.

Lemma toFixed2_le (x : Q) (k : Z) :
  x <= inject_Z k * (1 # 100) -> Num.toFixed2 x <= inject_Z k * (1 # 100).
Proof.
intros Hx. destruct (toFixed2_between x) as (n & Hn & Hlow & Hhigh).
rewrite Hn. destruct (Z_lt_le_dec k n) as [Hlt | Hle].
- exfalso. assert (Hn1 : (k + 1 <= n)%Z) by lia.
  rewrite Zle_Qle, inject_Z_plus in Hn1.
  change (inject_Z 1) with 1 in Hn1. lra.
- rewrite Zle_Qle in Hle. lra.
Qed.

(** The share of [a] in a positive [b], in percent, against 100. *)
Lemma percent_le (a b : Z) :
  (0 < b)%Z -> (a <= b)%Z -> inject_Z a / inject_Z b * 100 <= 100.
Proof.
intros Hb Hab. rewrite Zlt_Qlt in Hb. rewrite Zle_Qle in Hab.
assert (H1 : inject_Z a / inject_Z b <= 1).
{ apply Qle_shift_div_r; [exact Hb|]. lra. }
lra.
Qed.

Lemma percent_ge (a b : Z) :
  (0 < b)%Z -> (b <= a)%Z -> 100 <= inject_Z a / inject_Z b * 100.
Proof.
intros Hb Hab. rewrite Zlt_Qlt in Hb. rewrite Zle_Qle in Hab.
assert (H1 : 1 <= inject_Z a / inject_Z b).
{ apply Qle_shift_div_l; [exact Hb|]. lra. }
lra.
Qed.

Lemma percent_nonneg (a b : Z) :
  (0 < b)%Z -> (0 <= a)%Z -> 0 <= inject_Z a / inject_Z b * 100.
Proof.
intros Hb Ha. rewrite Zlt_Qlt in Hb. rewrite Zle_Qle in Ha.
change (inject_Z 0) with 0 in Ha, Hb.
assert (H1 : 0 <= inject_Z a / inject_Z b).
{ apply Qle_shift_div_l; [exact Hb|]. lra. }
lra.
Qed.

End Utilisation.

(** X9.  For a positive budget the two figures of
    [calculateBudgetVariance] agree: spending above the budget (a
    negative variance) shows as a utilisation of at least 100, a
    utilisation above 100 only comes with a negative variance, spending
    the budget exactly gives 100, and spending nothing below zero gives a
    utilisation that is not negative.  (Spending slightly above the
    budget can still show as 100, the figure being rounded.) *)
Theorem variance_agrees_with_utilization (budgetCents actualCents : Z) :
  (0 < budgetCents)%Z ->
  let r := Settings.calculateBudgetVariance budgetCents actualCents in
  ((Settings.varianceCents r < 0)%Z -> (100 <= Settings.utilizationPercent r)%Q)
  /\ ((100 < Settings.utilizationPercent r)%Q -> (Settings.varianceCents r < 0)%Z)
  /\ (Settings.varianceCents r = 0%Z -> (Settings.utilizationPercent r == 100)%Q)
  /\ ((0 <= actualCents)%Z -> (0 <= Settings.utilizationPercent r)%Q).
Proof.
intros Hbudget r. unfold r, Settings.calculateBudgetVariance. simpl.
assert (E : (budgetCents =? 0)%Z = false) by (apply Z.eqb_neq; lia).
rewrite E.
set (x := (inject_Z actualCents / inject_Z budgetCents * 100)%Q).
assert (H100 : (100 == inject_Z 10000 * (1 # 100))%Q) by reflexivity.
assert (H0 : (0 == inject_Z 0 * (1 # 100))%Q) by reflexivity.
split; [|split; [|split]].
- intros Hvar. rewrite H100. apply toFixed2_ge. rewrite <- H100.
  apply percent_ge; lia.
- intros Hutil.
  destruct (Z_lt_le_dec (budgetCents - actualCents) 0) as [Hlt | Hge];
    [exact Hlt|].
  exfalso. apply (Qlt_not_le _ _ Hutil). rewrite H100. apply toFixed2_le.
  rewrite <- H100. apply percent_le; lia.
- intros Hvar. apply Qle_antisym.
  + rewrite H100. apply toFixed2_le. rewrite <- H100. apply percent_le; lia.
  + rewrite H100. apply toFixed2_ge. rewrite <- H100. apply percent_ge; lia.
- intros Hactual. rewrite H0. apply toFixed2_ge. rewrite <- H0.
  apply percent_nonneg; lia.
Qed.

Lemma variance_agrees_with_utilization_witness :
  (100 <= Settings.utilizationPercent (Settings.calculateBudgetVariance 10000 12500))%Q
  /\ (Settings.utilizationPercent
        (Settings.calculateBudgetVariance 1000000 1000001) == 100)%Q.
Proof.
split.
- destruct (variance_agrees_with_utilization 10000 12500) as (Hover & _);
    [lia|]. apply Hover. reflexivity.
- reflexivity.
Defined.

(** ** The breakdown by category *)

Section Breakdown.

Context `{Host} `{Platform}.

Local Open Scope Q_scope.

Implicit Types (rows : list Row) (r : Row).

(** The sum of a list of numbers. *)
Local Abbreviation sumQ l := (List.fold_right Qplus 0 l).

(** The amount of a row, where it is a number. *)
Local Abbreviation amountOf r :=
  (match Database.number (Database.field r "amount_cents") with
   | Some q => q
   | None => 0
   end).

Lemma rawAll_ok_inv (sql : string) (params : list SqlValue) (w w' : World)
  (rows : list Row) :
  Database.rawAll sql params w = Ok rows w' -> w' = w.
Proof.
unfold Database.rawAll. intros Hrun. run_inv Hrun.
apply theDb_ok_inv in Hrun0 as [-> _].
unfold Database.liftE in Hrun. destruct (sql_all sql params a); [discriminate|].
apply ret_ok_inv in Hrun as [_ ->]. reflexivity.
Qed.

Lemma breakdownTotal_sum rows (acc : Q) :
  (forall r, In r rows ->
     exists q, Database.number (Database.field r "amount_cents") = Some q) ->
  exists total,
    List.fold_left
      (fun sum r =>
         Database.plus sum (Database.number (Database.field r "amount_cents")))
      rows (Some acc) = Some total
    /\ total == acc + sumQ (List.map (fun r => amountOf r) rows).
Proof.
revert acc. induction rows as [|r rows IH]; intros acc Hnum.
- exists acc. split; [reflexivity|]. simpl. lra.
- destruct (Hnum r (or_introl eq_refl)) as (q & Hq).
  destruct (IH (acc + q) (fun r' Hr' => Hnum r' (or_intror Hr')))
    as (total & Hfold & Htotal).
  exists total. split.
  + simpl. rewrite Hq. exact Hfold.
  + rewrite Htotal. simpl. rewrite Hq. lra.
Qed.

(** Shares of a positive total, each rounded to hundredths: together
    they miss 100 by at most half a hundredth for each share. *)
Lemma rounded_shares (total : Q) (amounts : list Q) :
  0 < total ->
  Qabs (sumQ (List.map (fun a => Num.toFixed2 (a / total * 100)) amounts)
        - sumQ amounts / total * 100)
  <= inject_Z (Z.of_nat (length amounts)) * (1 # 200).
Proof.
intros Htotal. induction amounts as [|a amounts IH].
- simpl. assert (E : 0 - 0 / total * 100 == 0) by (field; lra).
  rewrite E. simpl. apply Qle_bool_iff. reflexivity.
- cbn [List.map List.fold_right length].
  rewrite Nat2Z.inj_succ, <- Z.add_1_r, inject_Z_plus.
  change (inject_Z 1) with 1.
  set (rest := sumQ (List.map (fun a0 => Num.toFixed2 (a0 / total * 100)) amounts)) in *.
  set (exact := sumQ amounts) in *.
  assert (E : Num.toFixed2 (a / total * 100) + rest - (a + exact) / total * 100
              == (Num.toFixed2 (a / total * 100) - a / total * 100)
                 + (rest - exact / total * 100)) by (field; lra).
  rewrite E. eapply Qle_trans; [apply Qabs_triangle|].
  pose proof (toFixed2_close (a / total * 100)) as Hclose.
  lra.
Qed.

Lemma sumQ_nonneg (l : list Q) : (forall a, In a l -> 0 <= a) -> 0 <= sumQ l.
Proof.
induction l as [|a l IH]; intros Hl; simpl; [lra|].
pose proof (Hl a (or_introl eq_refl)).
pose proof (IH (fun b Hb => Hl b (or_intror Hb))). lra.
Qed.

Lemma sumQ_ge (l : list Q) (a : Q) :
  (forall b, In b l -> 0 <= b) -> In a l -> a <= sumQ l.
Proof.
induction l as [|b l IH]; intros Hl Ha; [contradiction|]. simpl.
pose proof (Hl b (or_introl eq_refl)).
pose proof (sumQ_nonneg l (fun c Hc => Hl c (or_intror Hc))).
destruct Ha as [-> | Ha]; [lra|].
pose proof (IH (fun c Hc => Hl c (or_intror Hc)) Ha). lra.
Qed.

End Breakdown.

(** X10.  Whenever [getCategoryBreakdown] returns rows whose amounts
    are whole numbers that are not negative: every percentage lies
    between 0 and 100; when some amount is positive, the percentages add
    up to 100 within half a hundredth for each row (each is rounded to
    two decimals, so the sum need not be 100 exactly); and when no amount
    is positive, every percentage is 0.  The world is left as it was. *)
Theorem category_breakdown_percentages `{Host} `{Platform}
  (fromDate toDate : string) (w w' : World)
  (points : list Database.CategoryBreakdownPoint) :
  Database.getCategoryBreakdown fromDate toDate w = Ok points w' ->
  (forall point, In point points ->
     exists amount : Z,
       Database.cb_amountCents point = Some (inject_Z amount)
       /\ (0 <= amount)%Z) ->
  w' = w
  /\ (forall point, In point points ->
        (0 <= Database.cb_percentage point <= 100)%Q)
  /\ ((exists point amount,
          In point points
          /\ Database.cb_amountCents point = Some (inject_Z amount)
          /\ (0 < amount)%Z) ->
      (Qabs (List.fold_right Qplus 0 (List.map Database.cb_percentage points)
             - 100)
       <= inject_Z (Z.of_nat (length points)) * (1 # 200))%Q)
  /\ ((forall point, In point points ->
          Database.cb_amountCents point = Some (inject_Z 0)) ->
      forall point, In point points -> Database.cb_percentage point = 0%Q).
Proof.
intros Hrun Hamounts. unfold Database.getCategoryBreakdown in Hrun.
run_inv Hrun. apply ret_ok_inv in Hrun as [<- <-].
rename a into rows. apply rawAll_ok_inv in Hrun0 as ->.
split; [reflexivity|].
assert (Hrows : forall r, In r rows ->
          exists amount : Z,
            Database.number (Database.field r "amount_cents")
            = Some (inject_Z amount) /\ (0 <= amount)%Z).
{ intros r Hr.
  apply (Hamounts (Database.breakdownPoint (Database.breakdownTotal rows) r)).
  apply List.in_map. exact Hr. }
clear Hamounts.
destruct (breakdownTotal_sum rows 0) as (total & Hfold & Htotal).
{ intros r Hr. destruct (Hrows r Hr) as (amount & Hq & _). eauto. }
fold (Database.breakdownTotal rows) in Hfold. rewrite Hfold.
set (amounts := List.map
       (fun r => match Database.number (Database.field r "amount_cents") with
                 | Some q => q
                 | None => 0%Q
                 end) rows) in *.
assert (Hnonneg : forall a, In a amounts -> (0 <= a)%Q).
{ intros a Ha. apply List.in_map_iff in Ha as (r & <- & Hr).
  destruct (Hrows r Hr) as (amount & -> & Hamount).
  rewrite Zle_Qle in Hamount. exact Hamount. }
assert (Hsum : (total == List.fold_right Qplus 0 amounts)%Q) by (rewrite Htotal; lra).
assert (Hshare : forall r, In r rows -> (0 < total)%Q ->
          Database.cb_percentage (Database.breakdownPoint (Some total) r)
          = Num.toFixed2
              (match Database.number (Database.field r "amount_cents") with
               | Some q => q
               | None => 0
               end / total * 100)%Q).
{ intros r Hr Hpos. unfold Database.breakdownPoint. simpl.
  destruct (Hrows r Hr) as (amount & -> & _).
  destruct (Qle_bool total 0) eqn:E; [|reflexivity].
  apply Qle_bool_iff in E. lra. }
assert (Hzero : forall r, In r rows -> (total <= 0)%Q ->
          Database.cb_percentage (Database.breakdownPoint (Some total) r) = 0%Q).
{ intros r Hr Hle. unfold Database.breakdownPoint. simpl.
  destruct (Hrows r Hr) as (amount & -> & _).
  apply Qle_bool_iff in Hle. rewrite Hle. reflexivity. }
split; [|split].
- intros point Hpoint. apply List.in_map_iff in Hpoint as (r & <- & Hr).
  destruct (Qlt_le_dec 0 total) as [Hpos | Hle].
  + rewrite (Hshare r Hr Hpos).
    destruct (Hrows r Hr) as (amount & Hq & Hamount). rewrite Hq.
    assert (Hle : (inject_Z amount <= total)%Q).
    { rewrite Hsum. apply sumQ_ge; [exact Hnonneg|].
      apply List.in_map_iff. exists r. rewrite Hq. auto. }
    rewrite Zle_Qle in Hamount. change (inject_Z 0) with 0%Q in Hamount.
    assert (Hlow : (0 <= inject_Z amount / total)%Q).
    { apply Qle_shift_div_l; [exact Hpos|]. lra. }
    assert (Hhigh : (inject_Z amount / total <= 1)%Q).
    { apply Qle_shift_div_r; [exact Hpos|]. lra. }
    pose proof (toFixed2_ge (inject_Z amount / total * 100) 0) as Hge.
    pose proof (toFixed2_le (inject_Z amount / total * 100) 10000) as Hle'.
    change (inject_Z 0) with 0%Q in Hge.
    change (inject_Z 10000) with 10000%Q in Hle'.
    split; [apply Qle_trans with (0 * (1 # 100))%Q; [lra|apply Hge; lra]
           |apply Qle_trans with (10000 * (1 # 100))%Q; [apply Hle'; lra|lra]].
  + rewrite (Hzero r Hr Hle). split; [apply Qle_refl|discriminate].
- intros (point & amount & Hpoint & Hamount & Hpositive).
  apply List.in_map_iff in Hpoint as (r & <- & Hr).
  simpl in Hamount.
  assert (Hpos : (0 < total)%Q).
  { rewrite Zlt_Qlt in Hpositive. change (inject_Z 0) with 0%Q in Hpositive.
    eapply Qlt_le_trans; [exact Hpositive|].
    rewrite Hsum. apply sumQ_ge; [exact Hnonneg|].
    apply List.in_map_iff. exists r. rewrite Hamount. auto. }
  rewrite List.length_map, List.map_map.
  rewrite (List.map_ext_in _
             (fun r => Num.toFixed2
                (match Database.number (Database.field r "amount_cents") with
                 | Some q => q
                 | None => 0
                 end / total * 100)%Q)) by (intros; apply Hshare; assumption).
  pose proof (rounded_shares total amounts Hpos) as Hround.
  unfold amounts in Hround at 1. rewrite List.map_map in Hround.
  unfold amounts in Hround at 2. rewrite List.length_map in Hround.
  assert (E : (List.fold_right Qplus 0 amounts / total * 100 == 100)%Q).
  { rewrite <- Hsum. field. lra. }
  rewrite E in Hround. exact Hround.
- intros Hall point Hpoint. apply List.in_map_iff in Hpoint as (r & <- & Hr).
  apply Hzero; [exact Hr|]. rewrite Hsum.
  assert (Hzeros : forall a, In a amounts -> a = 0%Q).
  { intros a Ha. apply List.in_map_iff in Ha as (r' & <- & Hr').
    specialize (Hall (Database.breakdownPoint (Some total) r')
                  (List.in_map _ _ _ Hr')).
    simpl in Hall. rewrite Hall. reflexivity. }
  clear -Hzeros. induction amounts as [|a l IH]; simpl; [apply Qle_refl|].
  rewrite (Hzeros a (or_introl eq_refl)).
  specialize (IH (fun b Hb => Hzeros b (or_intror Hb))). lra.
Qed.

Lemma category_breakdown_percentages_witness :
  match Database.getCategoryBreakdown (H := Sample.host) (H0 := Sample.platform)
          "2026-01-01" "2026-12-31" Sample.ledgerWorld with
  | Ok points _ =>
      List.map Database.cb_percentage points
      = [(3333 # 100)%Q; (3333 # 100)%Q; (3333 # 100)%Q]
      /\ forall point, In point points ->
                       (0 <= Database.cb_percentage point <= 100)%Q
  | Throw _ _ => False
  end.
Proof.
pose (points :=
        match Database.getCategoryBreakdown (H := Sample.host)
                (H0 := Sample.platform) "2026-01-01" "2026-12-31"
                Sample.ledgerWorld with
        | Ok points _ => points
        | Throw _ _ => []
        end).
assert (Hrun : Database.getCategoryBreakdown (H := Sample.host)
                 (H0 := Sample.platform) "2026-01-01" "2026-12-31"
                 Sample.ledgerWorld
               = Ok points Sample.ledgerWorld) by by_evaluation.
assert (Hcheck : forallb
                   (fun point =>
                      match Database.cb_amountCents point with
                      | Some q => (Qden q =? 1)%positive && (0 <=? Qnum q)%Z
                      | None => false
                      end) points = true) by by_evaluation.
pose proof (category_breakdown_percentages (H := Sample.host)
              (H0 := Sample.platform) "2026-01-01" "2026-12-31"
              Sample.ledgerWorld Sample.ledgerWorld points Hrun) as Hthm.
rewrite Hrun. split; [vm_compute; reflexivity|].
refine (proj1 (proj2 (Hthm _))).
intros point Hpoint. rewrite List.forallb_forall in Hcheck.
specialize (Hcheck point Hpoint).
destruct (Database.cb_amountCents point) as [[n d]|]; [|discriminate].
apply andb_true_iff in Hcheck as [Hd Hn].
apply Pos.eqb_eq in Hd. apply Z.leb_le in Hn. simpl in Hd, Hn. subst d.
exists n. split; [reflexivity|exact Hn].
Defined.

(** ** The layout on the device *)

Section Layout.

Context `{Host}.

(** [exists] answers whether a file or a directory is at the path, and
    changes nothing. *)
Lemma exists_run (path : string) (w : World) :
  exists_ path w
  = Ok (bool_decide (is_Some (files (fs w) !! path) \/ path ∈ dirs (fs w))) w.
Proof.
unfold exists_, tryCatch, mbind, M_bind, Filesystem_stat.
destruct (decide (is_Some (files (fs w) !! path) \/ path ∈ dirs (fs w)))
  as [Hyes | Hno].
- rewrite bool_decide_eq_true_2 by assumption. reflexivity.
- rewrite bool_decide_eq_false_2 by assumption. reflexivity.
Qed.

(** [ensureDir] makes at most the directory it is asked for, and
    removes none. *)
Lemma ensureDir_ok_dirs (path : string) (w w' : World) :
  ensureDir path w = Ok tt w' ->
  dirs (fs w) ⊆ dirs (fs w') /\ dirs (fs w') ⊆ {[path]} ∪ dirs (fs w).
Proof.
unfold ensureDir, tryCatch, Filesystem_mkdir.
destruct (mkdirFault path (fs w)) as [e |].
- destruct (_ || _); [|discriminate]. intros [= <-]. set_solver.
- destruct (decide (path ∈ dirs (fs w))).
  + destruct existsError as [err |].
    * destruct (_ || _); [|discriminate]. intros [= <-]. set_solver.
    * intros [= <-]. set_solver.
  + intros [= <-]. simpl. set_solver.
Qed.

Lemma ensureDir_ok_frame (path : string) (w w' : World) :
  ensureDir path w = Ok tt w' ->
  files (fs w') = files (fs w) /\ store w' = store w
  /\ activeDatasetId w' = activeDatasetId w.
Proof.
intros Hrun. pose proof (ensureDir_frame path w) as Hframe.
rewrite Hrun in Hframe. exact Hframe.
Qed.

Lemma writeFile_ok (path data : string) (w w' : World) :
  Filesystem_writeFile path data w = Ok tt w' ->
  files (fs w') = <[path := data]> (files (fs w))
  /\ dirs (fs w') = dirs (fs w)
  /\ store w' = store w /\ activeDatasetId w' = activeDatasetId w.
Proof.
unfold Filesystem_writeFile. destruct (writeFault path data (fs w)); [discriminate|].
intros [= <-]. auto.
Qed.

Lemma writeSnapshotMeta_files (payload : list SnapshotMeta) (w w' : World) :
  Paths.writeSnapshotMeta payload w = Ok tt w' ->
  files (fs w') = <[Paths.snapshotsMetaPath := json_meta payload]> (files (fs w))
  /\ store w' = store w /\ activeDatasetId w' = activeDatasetId w.
Proof.
unfold Paths.writeSnapshotMeta. intros Hrun. run_inv Hrun. destruct a.
apply ensureDir_ok_frame in Hrun0 as (Hf & Hs & Ha).
apply writeFile_ok in Hrun as (Hf' & _ & Hs' & Ha').
rewrite Hf', Hf, Hs', Hs, Ha', Ha. auto.
Qed.

(** What [ensureBaseLayout] does to the files. *)
Lemma ensureBaseLayout_ok (w w1 : World) :
  Paths.ensureBaseLayout w = Ok tt w1 ->
  store w1 = store w /\ activeDatasetId w1 = activeDatasetId w
  /\ (((is_Some (files (fs w) !! Paths.snapshotsMetaPath)
        \/ Paths.snapshotsMetaPath ∈ dirs (fs w))
       /\ files (fs w1) = files (fs w))
      \/ (files (fs w) !! Paths.snapshotsMetaPath = None
          /\ (Paths.snapshotsMetaPath ∉ dirs (fs w))
          /\ files (fs w1)
             = <[Paths.snapshotsMetaPath := json_meta []]> (files (fs w)))).
Proof.
unfold Paths.ensureBaseLayout. intros Hrun.
apply bind_ok_inv in Hrun as ([] & wa & Hdata & Hrun).
apply bind_ok_inv in Hrun as ([] & wb & Hexports & Hrun).
apply bind_ok_inv in Hrun as ([] & wc & Htemp & Hrun).
apply bind_ok_inv in Hrun as (present & wd & Hexists & Hrun).
pose proof (ensureDir_ok_dirs _ _ _ Hdata) as [Hm1 Hd1].
pose proof (ensureDir_ok_dirs _ _ _ Hexports) as [Hm2 Hd2].
pose proof (ensureDir_ok_dirs _ _ _ Htemp) as [Hm3 Hd3].
apply ensureDir_ok_frame in Hdata as (Hf1 & Hs1 & Ha1).
apply ensureDir_ok_frame in Hexports as (Hf2 & Hs2 & Ha2).
apply ensureDir_ok_frame in Htemp as (Hf3 & Hs3 & Ha3).
rewrite exists_run in Hexists. injection Hexists as <- <-.
assert (Hfiles : files (fs wc) = files (fs w)) by congruence.
assert (Hdirs : Paths.snapshotsMetaPath ∈ dirs (fs wc)
                <-> Paths.snapshotsMetaPath ∈ dirs (fs w)).
{ split; [|set_solver]. intros Hin. apply Hd3 in Hin.
  apply elem_of_union in Hin as [Hin | Hin];
    [apply elem_of_singleton in Hin; discriminate Hin|].
  apply Hd2 in Hin.
  apply elem_of_union in Hin as [Hin | Hin];
    [apply elem_of_singleton in Hin; discriminate Hin|].
  apply Hd1 in Hin.
  apply elem_of_union in Hin as [Hin | Hin];
    [apply elem_of_singleton in Hin; discriminate Hin|].
  exact Hin. }
destruct (bool_decide _) eqn:Hpresent.
- apply bool_decide_eq_true_1 in Hpresent.
  unfold skip in Hrun. apply ret_ok_inv in Hrun as [_ <-].
  split; [congruence|]. split; [congruence|]. left. split; [|exact Hfiles].
  rewrite Hfiles, Hdirs in Hpresent. exact Hpresent.
- apply bool_decide_eq_false_1 in Hpresent.
  apply writeSnapshotMeta_files in Hrun as (Hf & Hs & Ha).
  split; [congruence|]. split; [congruence|]. right.
  rewrite Hfiles, Hdirs in Hpresent. split; [|split].
  + destruct (files (fs w) !! Paths.snapshotsMetaPath) eqn:E; [|reflexivity].
    exfalso. apply Hpresent. left. eauto.
  + intros Hin. apply Hpresent. right. exact Hin.
  + rewrite Hf, Hfiles. reflexivity.
Qed.

End Layout.

(** X11.  [ensureBaseLayout] never overwrites the snapshot metadata: a
    metadata file that exists is left as it is, with every other file,
    and where there is none (nor a directory of that name) the one file
    written is the metadata of an empty list.  The open database and the
    active dataset are not touched. *)
Theorem ensureBaseLayout_keeps_metadata `{Host} (w w1 : World) :
  Paths.ensureBaseLayout w = Ok tt w1 ->
  (forall raw, files (fs w) !! Paths.snapshotsMetaPath = Some raw ->
               files (fs w1) = files (fs w))
  /\ (files (fs w) !! Paths.snapshotsMetaPath = None ->
      Paths.snapshotsMetaPath ∉ dirs (fs w) ->
      files (fs w1)
      = <[Paths.snapshotsMetaPath := json_meta []]> (files (fs w)))
  /\ store w1 = store w
  /\ activeDatasetId w1 = activeDatasetId w.
Proof.
intros Hrun. apply ensureBaseLayout_ok in Hrun as (Hs & Ha & Hcases).
repeat split; try assumption.
- intros raw Hraw. destruct Hcases as [[_ Hf] | (Hnone & _)]; [exact Hf|].
  congruence.
- intros Hnone Hnodir.
  destruct Hcases as [[[Hfile | Hdir] _] | (_ & _ & Hf)]; [| |exact Hf].
  + rewrite Hnone in Hfile. destruct Hfile as [? Hfile]. discriminate.
  + contradiction.
Qed.

Lemma ensureBaseLayout_keeps_metadata_witness :
  let w1 := state_of (Paths.ensureBaseLayout (H := Demo.host) Demo.freshWorld) in
  files (fs w1) = <[Paths.snapshotsMetaPath := ""]> (files (fs Demo.freshWorld)).
Proof.
intros w1.
refine (proj1 (proj2 (ensureBaseLayout_keeps_metadata (H := Demo.host)
                        Demo.freshWorld w1 _)) _ _).
- by_evaluation.
- by_evaluation.
- vm_compute. discriminate.
Defined.

Section ReadingMetadata.

Context `{Host}.

(** What [readSnapshotMeta] returns once the layout is there. *)
Lemma readSnapshotMeta_run (w w1 : World) :
  Paths.ensureBaseLayout w = Ok tt w1 ->
  Paths.readSnapshotMeta w
  = Ok (match readFault Paths.snapshotsMetaPath (fs w1) with
        | Some _ => []
        | None => Paths.storedSnapshots w1
        end) w1.
Proof.
intros Hlayout. unfold Paths.readSnapshotMeta.
rewrite (bind_ok _ _ _ _ _ Hlayout).
unfold tryCatch, mbind, M_bind, Filesystem_readFile, Paths.storedSnapshots.
destruct (readFault Paths.snapshotsMetaPath (fs w1)); [reflexivity|].
destruct (files (fs w1) !! Paths.snapshotsMetaPath) as [raw |]; [|reflexivity].
destruct (parse_meta raw); reflexivity.
Qed.

Lemma readSnapshotMeta_ok_inv (w w1 : World) (meta : list SnapshotMeta) :
  Paths.readSnapshotMeta w = Ok meta w1 ->
  Paths.ensureBaseLayout w = Ok tt w1.
Proof.
unfold Paths.readSnapshotMeta. intros Hrun.
apply bind_ok_inv in Hrun as ([] & wa & Hlayout & Hrun).
rewrite Hlayout. f_equal.
unfold tryCatch, mbind, M_bind, Filesystem_readFile in Hrun.
destruct (readFault Paths.snapshotsMetaPath (fs wa));
  [apply ret_ok_inv in Hrun as [_ ->]; reflexivity|].
destruct (files (fs wa) !! Paths.snapshotsMetaPath) as [raw |];
  [|apply ret_ok_inv in Hrun as [_ ->]; reflexivity].
destruct (parse_meta raw); apply ret_ok_inv in Hrun as [_ ->]; reflexivity.
Qed.

End ReadingMetadata.

(** X12.  [readSnapshotMeta] throws only what ensuring the layout
    throws.  Once the layout is there it returns the list stored in the
    metadata file, and the empty list when the file cannot be read or
    does not hold a list: a damaged metadata file reads as no snapshots
    at all. *)
Theorem readSnapshotMeta_forgives `{Host} (w w1 : World) :
  (Paths.ensureBaseLayout w = Ok tt w1 ->
   exists meta,
     Paths.readSnapshotMeta w = Ok meta w1
     /\ (readFault Paths.snapshotsMetaPath (fs w1) = None ->
         meta = Paths.storedSnapshots w1)
     /\ (readFault Paths.snapshotsMetaPath (fs w1) <> None -> meta = [])
     /\ (forall raw,
            files (fs w1) !! Paths.snapshotsMetaPath = Some raw ->
            parse_meta raw = None -> meta = []))
  /\ (forall e, Paths.ensureBaseLayout w = Throw e w1 ->
                Paths.readSnapshotMeta w = Throw e w1).
Proof.
split.
- intros Hlayout. rewrite (readSnapshotMeta_run w w1 Hlayout).
  eexists. split; [reflexivity|].
  destruct (readFault Paths.snapshotsMetaPath (fs w1)) as [e |].
  + repeat split; try reflexivity. discriminate.
  + repeat split; try reflexivity; [congruence|].
    intros raw Hraw Hparse. unfold Paths.storedSnapshots.
    rewrite Hraw, Hparse. reflexivity.
- intros e Hlayout. unfold Paths.readSnapshotMeta.
  apply bind_throw. exact Hlayout.
Qed.

Lemma readSnapshotMeta_forgives_witness :
  let damaged :=
    {| fs := {| files := {[Paths.snapshotsMetaPath := "not|a|list"]};
                dirs := ∅ |};
       calls := 0; store := None; activeDatasetId := "";
       pickedFiles := ∅; foreignKeys := false |} in
  let w1 := state_of (Paths.ensureBaseLayout (H := Demo.host) damaged) in
  Paths.readSnapshotMeta (H := Demo.host) damaged = Ok [] w1.
Proof.
intros damaged w1.
refine (let '(ex_intro _ meta (conj Hmeta (conj _ (conj _ Hdamaged)))) :=
          proj1 (readSnapshotMeta_forgives (H := Demo.host) damaged w1) _ in _).
- by_evaluation.
- rewrite Hmeta. f_equal. apply (Hdamaged "not|a|list"); by_evaluation.
Defined.

(** X13.  What [addSnapshot] stores, [getSnapshotList] returns: where
    the metadata written parses back to the list it was written from,
    the list after [addSnapshot] is the list before it (with every
    snapshot made inactive when the new one is added as the active one)
    followed by the snapshot that [addSnapshot] returned. *)
Theorem addSnapshot_then_getSnapshotList `{Host} (input snapshot : SnapshotMeta)
  (setActive : bool) (w w1 w' w'' : World) (before listed : list SnapshotMeta) :
  Paths.readSnapshotMeta w = Ok before w1 ->
  Paths.addSnapshot input setActive w = Ok snapshot w' ->
  Paths.getSnapshotList w' = Ok listed w'' ->
  readFault Paths.snapshotsMetaPath (fs w'') = None ->
  parse_meta (json_meta (Paths.withAdded input setActive before))
  = Some (Paths.withAdded input setActive before) ->
  listed
  = List.map
      (fun item =>
         set_isActive (if setActive then false else isActive item) item)
      before
    ++ [snapshot]
  /\ snapshot = set_isActive setActive input
  /\ List.map id listed = List.map id before ++ [id input].
Proof.
intros Hbefore Hadd Hlist Hread Hjson.
destruct (addSnapshot_ok _ _ _ _ _ Hadd) as (before' & w1' & Hbefore' & -> & Hfile).
rewrite Hbefore in Hbefore'. injection Hbefore' as <- <-.
unfold Paths.getSnapshotList in Hlist.
pose proof (readSnapshotMeta_ok_inv _ _ _ Hlist) as Hlayout.
rewrite (readSnapshotMeta_run _ _ Hlayout), Hread in Hlist.
injection Hlist as <-.
destruct (ensureBaseLayout_ok _ _ Hlayout) as (_ & _ & [[_ Hf] | (Hnone & _)]).
- unfold Paths.storedSnapshots. rewrite Hf, Hfile.
  rewrite Hjson.
  unfold Paths.withAdded. split; [reflexivity|].
  split; [reflexivity|].
  rewrite List.map_app, List.map_map. simpl. f_equal.
- rewrite Hfile in Hnone. discriminate.
Qed.

Lemma addSnapshot_then_getSnapshotList_witness :
  let input := {| id := "ds9"; label := "Imported"; createdAt := "t9";
                  sourceZip := Some "in/pictures.zip"; isActive := false |} in
  let w :=
    {| fs := {| files := {[Paths.snapshotsMetaPath := "ds0|Default Dataset|t1||1"]};
                dirs := ∅ |};
       calls := 2; store := None; activeDatasetId := "ds0";
       pickedFiles := ∅; foreignKeys := false |} in
  let w' := state_of (Paths.addSnapshot (H := Demo.host) input false w) in
  match Paths.getSnapshotList (H := Demo.host) w' with
  | Ok listed _ => List.map id listed = ["ds0"; "ds9"]
  | Throw _ _ => False
  end.
Proof.
intros input w w'.
pose proof (addSnapshot_then_getSnapshotList (H := Demo.host)
              input (set_isActive false input) false w
              (state_of (Paths.readSnapshotMeta (H := Demo.host) w))
              w' (state_of (Paths.getSnapshotList (H := Demo.host) w'))
              [Paths.defaultSnapshot "ds0" "t1"]
              [Paths.defaultSnapshot "ds0" "t1"; set_isActive false input])
  as Hthm.
assert (Hlist : Paths.getSnapshotList (H := Demo.host) w'
                = Ok [Paths.defaultSnapshot "ds0" "t1"; set_isActive false input]
                    (state_of (Paths.getSnapshotList (H := Demo.host) w')))
  by by_running.
rewrite Hlist.
refine (proj2 (proj2 (Hthm _ _ Hlist _ _))).
- by_running.
- by_running.
- reflexivity.
- by_evaluation.
Defined.

(** ** The database file *)

Section Store.

Context `{Host}.

Lemma persist_ok_inv (w w' : World) :
  Database.persist w = Ok tt w' ->
  exists s t,
    store w = Some s /\ db s = Some t
    /\ files (fs w')
       = <[dbPath s := Base64.bytesToBase64 (db_export t)]> (files (fs w))
    /\ dirs (fs w') = dirs (fs w)
    /\ store w' = store w /\ activeDatasetId w' = activeDatasetId w.
Proof.
unfold Database.persist, Database.ensureStore, mbind, M_bind.
destruct (store w) as [s|] eqn:Hs; [|discriminate].
destruct (db s) as [t|] eqn:Hd; [|discriminate].
intros Hwrite. apply writeFile_ok in Hwrite as (Hf & Hdirs & Hst & Hact).
exists s, t. rewrite Hst. auto 10.
Qed.

Lemma persist_ok_foreignKeys (w w' : World) :
  Database.persist w = Ok tt w' -> foreignKeys w' = false.
Proof.
unfold Database.persist, Database.ensureStore, mbind, M_bind.
destruct (store w) as [s|]; [|discriminate].
destruct (db s) as [t|]; [|discriminate].
unfold modify, Filesystem_writeFile. cbn [fs set_foreignKeys].
destruct (writeFault _ _ _); [discriminate|].
intros [= <-]. reflexivity.
Qed.

Lemma putDb_run (t : Tables) (w : World) (s : SqliteWasmService) :
  store w = Some s ->
  Database.putDb t w
  = Ok tt (set_store (Some {| db := Some t; dbPath := dbPath s |}) w).
Proof. intros Hs. unfold Database.putDb, modify. rewrite Hs. reflexivity. Qed.

Lemma pragmaForeignKeys_ok_inv (on : bool) (w w' : World) :
  Database.pragmaForeignKeys on w = Ok tt w' ->
  w' = set_foreignKeys on w /\ exists s t, store w = Some s /\ db s = Some t.
Proof.
unfold Database.pragmaForeignKeys. intros Hrun.
apply bind_ok_inv in Hrun as (t & wa & Hdb & Hrun).
apply theDb_ok_inv in Hdb as (-> & s & Hs & Hd).
unfold modify in Hrun. injection Hrun as <-. eauto.
Qed.

Lemma pragmaForeignKeys_run (on : bool) (w : World) (s : SqliteWasmService)
  (t : Tables) :
  store w = Some s -> db s = Some t ->
  Database.pragmaForeignKeys on w = Ok tt (set_foreignKeys on w).
Proof.
intros Hs Hd. unfold Database.pragmaForeignKeys.
rewrite (bind_ok _ _ _ _ _ (theDb_run w s t Hs Hd)). reflexivity.
Qed.

(** [open] reads the file at the path of the store when there is one,
    and starts from empty tables otherwise; it leaves the foreign keys
    switched on. *)
Lemma sqlite_open_ok_inv (w w' : World) :
  Database.sqlite_open w = Ok tt w' ->
  exists s t,
    store w = Some s
    /\ w' = set_foreignKeys true
              (set_store (Some {| db := Some t; dbPath := dbPath s |}) w)
    /\ ((files (fs w) !! dbPath s = None /\ t = emptyTables)
        \/ exists file bytes,
             files (fs w) !! dbPath s = Some file
             /\ atob (Base64.normalizeBase64 file) = Some bytes
             /\ db_import bytes = Some t).
Proof.
unfold Database.sqlite_open. intros Hrun.
apply bind_ok_inv in Hrun as (s & wa & Hs & Hrun).
unfold Database.ensureStore in Hs.
destruct (store w) as [s0|] eqn:Hstore; [|discriminate].
injection Hs as -> <-.
apply bind_ok_inv in Hrun as (present & wb & Hexists & Hrun).
rewrite exists_run in Hexists. injection Hexists as <- <-.
apply bind_ok_inv in Hrun as ([] & wc & Hload & Hrun).
apply bind_ok_inv in Hrun as ([] & wp & Hpragma & Hrun).
apply pragmaForeignKeys_ok_inv in Hpragma as (-> & _).
apply bind_ok_inv in Hrun as (t & wd & Hdb & Hrun).
apply ret_ok_inv in Hrun as [_ <-].
apply theDb_ok_inv in Hdb as (-> & s1 & Hs1 & Hd1).
destruct (bool_decide _) eqn:Hpresent.
- apply bind_ok_inv in Hload as (file & we & Hread & Hload).
  unfold Filesystem_readFile in Hread.
  destruct (readFault (dbPath s) (fs w)); [discriminate|].
  destruct (files (fs w) !! dbPath s) as [data|] eqn:Hfile; [|discriminate].
  injection Hread as <- <-.
  apply bind_ok_inv in Hload as (bytes & wf & Hbytes & Hload).
  unfold Base64.base64ToBytes in Hbytes.
  destruct (atob (Base64.normalizeBase64 data)) as [binary|] eqn:Hatob;
    [|discriminate].
  apply ret_ok_inv in Hbytes as [<- <-].
  destruct (db_import binary) as [t0|] eqn:Himport; [|discriminate].
  rewrite (putDb_run t0 w s Hstore) in Hload. injection Hload as <-.
  simpl in Hs1. injection Hs1 as <-. simpl in Hd1. injection Hd1 as <-.
  exists s, t0. split; [reflexivity|]. split; [reflexivity|].
  right. exists data, binary. auto.
- apply bool_decide_eq_false_1 in Hpresent.
  rewrite (putDb_run emptyTables w s Hstore) in Hload. injection Hload as <-.
  simpl in Hs1. injection Hs1 as <-. simpl in Hd1. injection Hd1 as <-.
  exists s, emptyTables. split; [reflexivity|]. split; [reflexivity|].
  left. split; [|reflexivity].
  destruct (files (fs w) !! dbPath s) eqn:Hfile; [|reflexivity].
  exfalso. apply Hpresent. left. eauto.
Qed.

Lemma sqlite_open_run (w : World) (s : SqliteWasmService) (file : string)
  (bytes : Uint8Array) (t : Tables) :
  store w = Some s ->
  files (fs w) !! dbPath s = Some file ->
  readFault (dbPath s) (fs w) = None ->
  atob (Base64.normalizeBase64 file) = Some bytes ->
  db_import bytes = Some t ->
  Database.sqlite_open w
  = Ok tt (set_foreignKeys true
             (set_store (Some {| db := Some t; dbPath := dbPath s |}) w)).
Proof.
intros Hs Hfile Hfault Hatob Himport. unfold Database.sqlite_open.
unfold Database.ensureStore at 1. unfold mbind at 1, M_bind at 1. rewrite Hs.
rewrite (bind_ok _ _ _ _ _ (exists_run _ _)).
rewrite bool_decide_eq_true_2 by (left; rewrite Hfile; eauto).
unfold Filesystem_readFile, Base64.base64ToBytes.
unfold mbind, M_bind. rewrite Hfault, Hfile. simpl. rewrite Hatob. simpl.
rewrite Himport. rewrite (putDb_run t w s Hs).
unfold Database.ensureStore. simpl. reflexivity.
Qed.

Lemma runMigrations_ok_inv (w w' : World) :
  Database.runMigrations w = Ok tt w' -> w' = set_foreignKeys true w.
Proof.
unfold Database.runMigrations. intros Hrun.
apply bind_ok_inv in Hrun as ([] & wa & Hpragma & Hrun).
apply pragmaForeignKeys_ok_inv in Hpragma as [-> _].
destruct fts5; try discriminate; apply ret_ok_inv in Hrun as [_ ->]; reflexivity.
Qed.

Lemma ensureDefaultSettings_ok_inv (w w' : World) :
  Database.ensureDefaultSettings w = Ok tt w' ->
  exists s t t',
    store w = Some s /\ db s = Some t
    /\ store w' = Some {| db := Some t'; dbPath := dbPath s |}
    /\ activeDatasetId w' = activeDatasetId w
    /\ dirs (fs w') = dirs (fs w)
    /\ ((exists raw, app_settings t !! "app" = Some raw) /\ t' = t /\ w' = w
        \/ app_settings t !! "app" = None
           /\ appSettings_accepts Settings.defaultSettings = true
           /\ t' = set_app_settings
                     (fun m => <["app" := json_settings Settings.defaultSettings]> m) t
           /\ files (fs w')
              = <[dbPath s := Base64.bytesToBase64 (db_export t')]> (files (fs w))).
Proof.
unfold Database.ensureDefaultSettings. intros Hrun.
apply bind_ok_inv in Hrun as (t & wa & Hdb & Hrun).
apply theDb_ok_inv in Hdb as (-> & s & Hs & Hd).
destruct s as [d path]. simpl in Hd. subst d.
destruct (app_settings t !! "app") as [raw|] eqn:Hrow.
- apply ret_ok_inv in Hrun as [_ <-].
  exists {| db := Some t; dbPath := path |}, t, t.
  split; [exact Hs|]. split; [reflexivity|]. split; [exact Hs|].
  split; [reflexivity|]. split; [reflexivity|]. left. eauto.
- apply bind_ok_inv in Hrun as (s1 & wb & Hens & Hrun).
  unfold Database.ensureStore in Hens. rewrite Hs in Hens. injection Hens as <- <-.
  apply bind_ok_inv in Hrun as (raw & wb & Hser & Hrun).
  unfold Settings.serializeSettings in Hser.
  apply bind_ok_inv in Hser as (parsed & wc & Hparse & Hret).
  apply appSettingsSchema_parse_ok_inv in Hparse as (-> & -> & Hacc).
  apply ret_ok_inv in Hret as [<- <-].
  rewrite (bind_ok _ _ _ _ _ (theDb_run w _ t Hs eq_refl)) in Hrun.
  apply bind_ok_inv in Hrun as ([] & wd & Hput & Hrun).
  rewrite (putDb_run _ w _ Hs) in Hput. injection Hput as <-.
  apply persist_ok_inv in Hrun as (s2 & t2 & Hs2 & Hd2 & Hfiles & Hdirs & Hst & Hact).
  simpl in Hs2. injection Hs2 as <-. simpl in Hd2. injection Hd2 as <-.
  exists {| db := Some t; dbPath := path |}, t,
    (set_app_settings
       (fun m => <["app" := json_settings Settings.defaultSettings]> m) t).
  split; [exact Hs|]. split; [reflexivity|]. split; [exact Hst|].
  split; [exact Hact|]. split; [exact Hdirs|]. right. auto.
Qed.

End Store.

Section OpenStore.

Context `{Host}.

(** On an open database [getSettings] always answers, with the dark
    theme. *)
Lemma getSettings_total (w : World) (s : SqliteWasmService) (t : Tables) :
  store w = Some s -> db s = Some t ->
  exists settings,
    Database.getSettings w = Ok settings w /\ theme settings = "dark".
Proof.
intros Hs Hd. unfold Database.getSettings.
rewrite (bind_ok _ _ _ _ _ (theDb_run w s t Hs Hd)).
destruct (app_settings t !! "app") as [raw|].
- unfold tryCatch, mbind, M_bind, Settings.deserializeSettings,
    Settings.appSettingsSchema_parse.
  destruct (parse_settings raw) as [parsed|]; [|eexists; split; reflexivity].
  destruct (appSettings_accepts parsed); eexists; split; reflexivity.
- eexists. split; reflexivity.
Qed.

End OpenStore.

(** X14.  Whenever [init] returns, the active dataset is the snapshot
    that [ensureActiveSnapshot] gave, the store holds an open database at
    the path of that dataset, the database has a settings row, the file
    at the path is the export of the database in memory, and
    [getSettings] answers. *)
Theorem init_opens_active_dataset `{Host} (w w' : World) :
  Database.init w = Ok tt w' ->
  exists (active : SnapshotMeta) (w1 : World) (t : Tables),
    Paths.ensureActiveSnapshot w = Ok active w1
    /\ activeDatasetId w' = id active
    /\ store w'
       = Some {| db := Some t; dbPath := Paths.getDatabasePath (id active) |}
    /\ is_Some (app_settings t !! "app")
    /\ files (fs w') !! Paths.getDatabasePath (id active)
       = Some (Base64.bytesToBase64 (db_export t))
    /\ exists settings,
         Database.getSettings w' = Ok settings w' /\ theme settings = "dark".
Proof.
unfold Database.init. intros Hrun.
apply bind_ok_inv in Hrun as (active & w1 & Hactive & Hrun).
apply bind_ok_inv in Hrun as ([] & w2 & Hset & Hrun).
unfold modify in Hset. injection Hset as <-.
apply bind_ok_inv in Hrun as ([] & w3 & Hnew & Hrun).
unfold Database.newStore, modify in Hnew. injection Hnew as <-.
apply bind_ok_inv in Hrun as ([] & w4 & Hopen & Hrun).
apply sqlite_open_ok_inv in Hopen as (s & t0 & Hs & -> & _).
simpl in Hs. injection Hs as <-. simpl dbPath in Hrun.
apply bind_ok_inv in Hrun as ([] & w5 & Hmig & Hrun).
apply runMigrations_ok_inv in Hmig as ->.
apply bind_ok_inv in Hrun as ([] & w6 & Hdefault & Hrun).
apply ensureDefaultSettings_ok_inv in Hdefault
  as (s & t & t' & Hs & Hd & Hs6 & Hact6 & _ & Hrow).
simpl in Hs. injection Hs as <-. simpl in Hd. injection Hd as <-.
simpl in Hs6, Hact6.
apply persist_ok_inv in Hrun as (s7 & t7 & Hs7 & Hd7 & Hfiles & _ & Hst & Hact).
rewrite Hs6 in Hs7. injection Hs7 as <-. simpl in Hd7. injection Hd7 as <-.
cbn [dbPath] in Hfiles.
exists active, w1, t'. split; [exact Hactive|].
split; [rewrite Hact, Hact6; reflexivity|].
split; [rewrite Hst; exact Hs6|].
split.
{ destruct Hrow as [((raw & Hraw) & -> & _) | (_ & _ & -> & _)].
  - rewrite Hraw. eauto.
  - simpl. rewrite lookup_insert_eq. eauto. }
split; [rewrite Hfiles; apply lookup_insert_eq|].
eapply getSettings_total; [rewrite Hst; exact Hs6|reflexivity].
Qed.

Lemma init_opens_active_dataset_witness :
  exists (active : SnapshotMeta) (w1 : World) (t : Tables),
    Paths.ensureActiveSnapshot (H := Demo.host) Demo.freshWorld = Ok active w1
    /\ activeDatasetId Demo.startedWorld = id active
    /\ store Demo.startedWorld
       = Some {| db := Some t; dbPath := Paths.getDatabasePath (id active) |}
    /\ is_Some (app_settings t !! "app")
    /\ files (fs Demo.startedWorld) !! Paths.getDatabasePath (id active)
       = Some (Base64.bytesToBase64 (H := Demo.host) (@db_export Demo.host t))
    /\ exists settings,
         Database.getSettings (H := Demo.host) Demo.startedWorld
         = Ok settings Demo.startedWorld
         /\ theme settings = "dark".
Proof.
apply (init_opens_active_dataset (H := Demo.host) Demo.freshWorld Demo.startedWorld).
by_running.
Defined.

Section ClosedStore.

Context `{Host} `{Platform}.

Lemma theDb_closed (w : World) :
  store w = None ->
  Database.theDb w = Throw (Error "Database store is not initialized.") w.
Proof.
intros Hs. unfold Database.theDb, Database.ensureStore, mbind, M_bind.
rewrite Hs. reflexivity.
Qed.

Lemma bind_theDb_closed {A} (k : Tables -> Async A) (w : World) :
  store w = None ->
  (Database.theDb ≫= k) w
  = Throw (Error "Database store is not initialized.") w.
Proof. intros Hs. apply bind_throw, theDb_closed, Hs. Qed.

End ClosedStore.

(** X15.  [close] always returns, and takes the store away without
    touching the files.  From then on every operation that needs the
    database throws, the ones that get as far as the store with the
    message that it is not initialized, and leaves the world as it
    is: nothing is read from a stale database and nothing is written. *)
Theorem closed_database_refuses `{Host} `{Platform} (w : World) :
  let w' := set_store None w in
  let refused := Error "Database store is not initialized." in
  Database.close w = Ok tt w'
  /\ Database.getSettings w' = Throw refused w'
  /\ (forall input, Database.updateSettings input w' = Throw refused w')
  /\ (forall input,
        Database.listPurchases input w'
        = Throw (if purchaseFilter_accepts input then refused else zodError) w')
  /\ (forall purchaseId,
        Database.getPurchaseOrThrow purchaseId w' = Throw refused w')
  /\ (forall purchaseId, Database.deletePurchase purchaseId w' = Throw refused w')
  /\ (forall tagId, Database.deleteTag tagId w' = Throw refused w')
  /\ (forall imageId, Media.removeImage imageId w' = Throw refused w')
  /\ (forall anchorDate,
        exists w'', Database.getDashboardSummary anchorDate w' = Throw refused w''
                    /\ fs w'' = fs w' /\ store w'' = None)
  /\ Database.persist w' = Throw refused w'.
Proof.
intros w' refused.
assert (Hs : store w' = None) by reflexivity.
split; [reflexivity|].
split; [apply bind_theDb_closed, Hs|].
split.
{ intros input. unfold Database.updateSettings.
  apply bind_throw. apply bind_theDb_closed, Hs. }
split.
{ intros input.
  unfold Database.listPurchases, Database.purchaseFilterInputSchema_parse.
  destruct (purchaseFilter_accepts input); [|reflexivity].
  rewrite bind_ret. apply bind_theDb_closed, Hs. }
split.
{ intros purchaseId. unfold Database.getPurchaseOrThrow, Database.getPurchase.
  apply bind_throw. apply bind_theDb_closed, Hs. }
split; [intros purchaseId; apply bind_theDb_closed, Hs|].
split; [intros tagId; apply bind_theDb_closed, Hs|].
split.
{ intros imageId. unfold Media.removeImage, Database.removeImageRecord.
  apply bind_throw. apply bind_theDb_closed, Hs. }
split.
{ intros anchorDate. unfold Database.getDashboardSummary.
  destruct (FilterQuery.truthyStr anchorDate).
  - exists w'. rewrite bind_ret. split; [|split; reflexivity].
    apply bind_throw. apply bind_theDb_closed, Hs.
  - exists (set_calls (S (calls w')) w'). split; [|split; reflexivity].
    rewrite (bind_ok (n ← tick; mret (dayjs_anchor None n)) _ w'
               (set_calls (S (calls w')) w') (dayjs_anchor None (calls w'))
               eq_refl).
    apply bind_throw. apply bind_theDb_closed. reflexivity. }
reflexivity.
Qed.

(** X16.  What [persist] writes is what [open] reads.  After
    [persist] the file at the path of the store holds the export of the
    database in memory, and the foreign keys of the connection are
    switched off (the export resets them).  When reading that file does
    not fail, decoding undoes the encoding and the engine loads its own
    export, closing the database and opening it again gives the same
    tables in the same store over the same files, with the foreign keys
    switched on again. *)
Theorem persist_then_reopen `{Host} (w w1 : World) (s : SqliteWasmService)
  (t : Tables) :
  store w = Some s ->
  db s = Some t ->
  Database.persist w = Ok tt w1 ->
  readFault (dbPath s) (fs w1) = None ->
  atob (Base64.normalizeBase64 (btoa (db_export t))) = Some (db_export t) ->
  db_import (db_export t) = Some t ->
  files (fs w1) !! dbPath s = Some (btoa (db_export t))
  /\ store w1 = Some s
  /\ foreignKeys w1 = false
  /\ (Database.sqlite_close;; Database.sqlite_open) w1
     = Ok tt (set_foreignKeys true w1).
Proof.
intros Hs Hd Hpersist Hfault Hatob Himport.
pose proof (persist_ok_foreignKeys _ _ Hpersist) as Hkeys.
apply persist_ok_inv in Hpersist
  as (s' & t' & Hs' & Hd' & Hfiles & _ & Hst & _).
rewrite Hs in Hs'. injection Hs' as <-. rewrite Hd in Hd'. injection Hd' as <-.
assert (Hfile : files (fs w1) !! dbPath s = Some (btoa (db_export t))).
{ rewrite Hfiles. apply lookup_insert_eq. }
rewrite Hs in Hst.
split; [exact Hfile|]. split; [exact Hst|]. split; [exact Hkeys|].
unfold Database.sqlite_close, modify. unfold mbind at 1, M_bind at 1.
rewrite Hst. cbn [option_map].
rewrite (sqlite_open_run _ {| db := None; dbPath := dbPath s |}
           (btoa (db_export t)) (db_export t) t);
  [|reflexivity|exact Hfile|exact Hfault|exact Hatob|exact Himport].
f_equal. destruct w1 as [f c st a p k]. destruct s as [d path].
simpl in Hst, Hd |- *. subst st d. reflexivity.
Qed.

Lemma persist_then_reopen_witness :
  let w1 := state_of (Database.persist (H := Plain.host) Plain.ledgerWorld) in
  files (fs w1) !! Paths.getDatabasePath "ds0" = Some "p1;p2;p3;p4"
  /\ foreignKeys w1 = false
  /\ (Database.sqlite_close;; Database.sqlite_open (H := Plain.host)) w1
     = Ok tt (set_foreignKeys true w1).
Proof.
intros w1.
destruct (persist_then_reopen (H := Plain.host) Plain.ledgerWorld w1
            {| db := Some Sample.ledger; dbPath := Paths.getDatabasePath "ds0" |}
            Sample.ledger)
  as (Hfile & _ & Hkeys & Hopen).
- reflexivity.
- reflexivity.
- by_running.
- reflexivity.
- reflexivity.
- reflexivity.
- split; [exact Hfile|]. split; [exact Hkeys|exact Hopen].
Defined.

(** X17.  What [updateSettings] returns is what [getSettings] reports
    afterwards, when the stored JSON reads back as the object it was
    written from. *)
Theorem updateSettings_then_getSettings `{Host} (input : SettingsPatch)
  (w w' : World) (next : AppSettings) :
  Database.updateSettings input w = Ok next w' ->
  parse_settings (json_settings next) = Some next ->
  Database.getSettings w' = Ok next w'.
Proof.
intros Hupdate Hjson.
apply updateSettings_ok_inv in Hupdate
  as (current & s & t & _ & Hnext & Hacc & _ & _ & Hstore & _).
unfold Database.getSettings.
rewrite (bind_ok _ _ _ _ _ (theDb_run w' _ _ Hstore eq_refl)).
cbn [app_settings set_app_settings]. rewrite lookup_insert_eq.
unfold tryCatch, mbind, M_bind, Settings.deserializeSettings,
  Settings.appSettingsSchema_parse.
rewrite Hjson, Hacc. cbn [mret M_ret]. f_equal.
rewrite Hnext. reflexivity.
Qed.

Lemma updateSettings_then_getSettings_witness :
  let input :=
    {| sp_theme := Present "light"; sp_baseCurrency := Present "CHF";
       sp_overallMonthlyBudgetCents := Present 120000%Z;
       sp_performanceMode := Absent; sp_previewImages := Absent;
       sp_lastFilters := None |} in
  let next :=
    {| theme := "dark"; baseCurrency := "CHF";
       overallMonthlyBudgetCents := 120000%Z; performanceMode := "off";
       previewImages := true;
       lastFilters := lastFilters Settings.defaultSettings |} in
  let w' := state_of (Database.updateSettings (H := Demo.host) input Demo.ledgerWorld) in
  Database.getSettings (H := Demo.host) w' = Ok next w'.
Proof.
intros input next w'.
refine (updateSettings_then_getSettings (H := Demo.host) input
          Demo.ledgerWorld w' next _ _).
- by_running.
- by_evaluation.
Defined.

(** X18.  [switchSnapshot] with an id that the metadata does not list
    throws before it closes anything: the store, with the database
    that is open, and the active dataset stay as they were, and no file
    changes other than the metadata file that reading the metadata may
    create. *)
Theorem switchSnapshot_unknown `{Host} (snapshotId : string) (w w1 : World)
  (meta : list SnapshotMeta) :
  Paths.readSnapshotMeta w = Ok meta w1 ->
  ~ In snapshotId (List.map id meta) ->
  Database.switchSnapshot snapshotId w
  = Throw (Error ("Snapshot " +:+ snapshotId +:+ " does not exist.")) w1
  /\ store w1 = store w
  /\ activeDatasetId w1 = activeDatasetId w
  /\ (forall path, path <> Paths.snapshotsMetaPath ->
                   files (fs w1) !! path = files (fs w) !! path).
Proof.
intros Hread Hnot. split.
{ unfold Database.switchSnapshot. apply bind_throw.
  apply (activateSnapshot_unknown _ _ _ _ Hread Hnot). }
apply readSnapshotMeta_ok_inv in Hread.
apply ensureBaseLayout_ok in Hread as (Hs & Ha & Hfiles).
split; [exact Hs|]. split; [exact Ha|].
intros path Hpath.
destruct Hfiles as [[_ ->] | (_ & _ & ->)]; [reflexivity|].
apply lookup_insert_ne. congruence.
Qed.

Lemma switchSnapshot_unknown_witness :
  Database.switchSnapshot (H := Demo.host) "ds7" Demo.ledgerWorld
  = Throw (Error "Snapshot ds7 does not exist.") Demo.ledgerWorld.
Proof.
refine (proj1 (switchSnapshot_unknown (H := Demo.host) "ds7" Demo.ledgerWorld
                 Demo.ledgerWorld [Paths.defaultSnapshot "ds0" "t1"] _ _)).
- by_running.
- vm_compute. intros [E|[]]. discriminate E.
Defined.

(** ** The order of a listing *)

Section Ordering.

Lemma ltb_leb (a b : string) : String.ltb a b = negb (String.leb b a).
Proof.
unfold String.ltb, String.leb. rewrite (String.compare_antisym a b).
destruct (String.compare b a); reflexivity.
Qed.

Lemma leb_trans (a b c : string) :
  String.leb a b = true -> String.leb b c = true -> String.leb a c = true.
Proof.
intros Hab Hbc. apply Is_true_true.
apply (transitivity (R := String.le) (y := b)); apply Is_true_true; assumption.
Qed.

Lemma leb_false (a b : string) :
  String.leb a b = false -> String.leb b a = true.
Proof.
intros Hab. destruct (String.leb_total a b) as [E|E]; [congruence|exact E].
Qed.

Lemma leb_refl (a : string) : String.leb a a = true.
Proof. destruct (String.leb_total a a); assumption. Qed.

(** [newestFirst a b]: the date of [a] is later, or it is the same and
    [a] was not created before [b]. *)
Lemma newestFirst_iff (a b : PurchaseCoreRow) :
  Sql.newestFirst a b = true
  <-> String.leb (p_purchase_date a) (p_purchase_date b) = false
      \/ (p_purchase_date a = p_purchase_date b
          /\ String.leb (p_created_at b) (p_created_at a) = true).
Proof.
unfold Sql.newestFirst. rewrite ltb_leb, orb_true_iff, andb_true_iff,
  negb_true_iff, String.eqb_eq. reflexivity.
Qed.

Lemma newestFirst_total (a b : PurchaseCoreRow) :
  Sql.newestFirst a b = false -> Sql.newestFirst b a = true.
Proof.
intros Hab. apply newestFirst_iff.
destruct (String.leb (p_purchase_date b) (p_purchase_date a)) eqn:Hba;
  [|left; reflexivity].
right.
destruct (String.leb (p_purchase_date a) (p_purchase_date b)) eqn:Hd.
- assert (Heq : p_purchase_date a = p_purchase_date b)
    by (apply String.leb_antisym; assumption).
  split; [symmetry; exact Heq|].
  destruct (String.leb (p_created_at a) (p_created_at b)) eqn:Hc; [reflexivity|].
  apply leb_false in Hc.
  assert (Sql.newestFirst a b = true)
    by (apply newestFirst_iff; right; split; assumption).
  congruence.
- assert (Sql.newestFirst a b = true) by (apply newestFirst_iff; left; exact Hd).
  congruence.
Qed.

Lemma newestFirst_trans (a b c : PurchaseCoreRow) :
  Sql.newestFirst a b = true -> Sql.newestFirst b c = true ->
  Sql.newestFirst a c = true.
Proof.
rewrite !newestFirst_iff.
intros [Hab | [Hab Hcab]] [Hbc | [Hbc Hcbc]].
- left. destruct (String.leb (p_purchase_date a) (p_purchase_date c)) eqn:Hac;
    [|reflexivity].
  apply leb_false in Hbc.
  rewrite (leb_trans _ _ _ Hac Hbc) in Hab. discriminate.
- left. rewrite <- Hbc. exact Hab.
- left. rewrite Hab. exact Hbc.
- right. split; [congruence|]. exact (leb_trans _ _ _ Hcbc Hcab).
Qed.

Context {A : Type} (before : A -> A -> bool).

Hypothesis before_total : forall x y, before x y = false -> before y x = true.

Hypothesis before_trans :
  forall x y z, before x y = true -> before y z = true -> before x z = true.

Local Abbreviation inOrder := (StronglySorted (fun x y => before x y = true)).

Lemma insertBy_sorted (x : A) (l : list A) :
  inOrder l -> inOrder (Sql.insertBy before x l).
Proof.
induction l as [|y l IH]; intros Hl; simpl.
- constructor; constructor.
- apply StronglySorted_inv in Hl as [Hl Hy].
  destruct (before x y) eqn:Hxy.
  + constructor; [constructor; assumption|].
    constructor; [exact Hxy|].
    eapply List.Forall_impl; [|exact Hy].
    intros z Hyz. exact (before_trans _ _ _ Hxy Hyz).
  + constructor; [apply IH; exact Hl|].
    apply List.Forall_forall. intros z Hz.
    apply In_insertBy in Hz as [-> | Hz].
    * apply before_total, Hxy.
    * rewrite List.Forall_forall in Hy. apply Hy, Hz.
Qed.

Lemma sortBy_sorted (l : list A) : inOrder (Sql.sortBy before l).
Proof.
unfold Sql.sortBy. induction l as [|x l IH]; simpl; [constructor|].
apply insertBy_sorted, IH.
Qed.

Lemma orderBy_sorted (scan : Scan A) (l : list A) :
  inOrder (Sql.orderBy scan before l).
Proof. apply sortBy_sorted. Qed.

Lemma insertBy_permutation (x : A) (l : list A) :
  Permutation (Sql.insertBy before x l) (x :: l).
Proof.
induction l as [|y l IH]; simpl; [reflexivity|].
destruct (before x y); [reflexivity|].
rewrite IH. apply perm_swap.
Qed.

Lemma sortBy_permutation (l : list A) : Permutation (Sql.sortBy before l) l.
Proof.
unfold Sql.sortBy. induction l as [|x l IH]; simpl; [reflexivity|].
rewrite insertBy_permutation, IH. reflexivity.
Qed.

(** [ORDER BY] neither drops a row nor repeats one. *)
Lemma orderBy_permutation (scan : Scan A) (l : list A) :
  Permutation (Sql.orderBy scan before l) l.
Proof.
unfold Sql.orderBy. rewrite sortBy_permutation. apply visit_permutation.
Qed.




End Ordering.

Section Pages.

Context {A : Type}.


Lemma firstn_skipn_add (n m : nat) (l : list A) :
  firstn (n + m) l = firstn n l ++ firstn m (skipn n l).
Proof.
revert l. induction n as [|n IH]; intros [|x l]; simpl;
  [reflexivity|reflexivity|destruct m; reflexivity|].
rewrite IH. reflexivity.
Qed.

Lemma skipn_skipn_add (n m : nat) (l : list A) :
  skipn m (skipn n l) = skipn (n + m) l.
Proof.
revert l. induction n as [|n IH]; intros [|x l]; simpl;
  [reflexivity|reflexivity|destruct m; reflexivity|apply IH].
Qed.

(** A window of [n] rows and the window of [m] rows after it make up
    the window of [n + m] rows. *)
Lemma limitOffset_add (n m o : Z) (rows : list A) :
  (0 <= n)%Z -> (0 <= m)%Z -> (0 <= o)%Z ->
  Sql.limitOffset (n + m) o rows
  = Sql.limitOffset n o rows ++ Sql.limitOffset m (o + n) rows.
Proof.
intros Hn Hm Ho. unfold Sql.limitOffset.
destruct (n <? 0)%Z eqn:En; [lia|].
destruct (m <? 0)%Z eqn:Em; [lia|].
destruct (n + m <? 0)%Z eqn:Enm; [lia|].
rewrite !Z2Nat.inj_add by lia.
rewrite firstn_skipn_add, skipn_skipn_add. reflexivity.
Qed.

End Pages.



(** X20.  Pages tile the listing: for one filter on one database, the
    page of [n] items at an offset followed by the page of [m] items at
    that offset plus [n] is the page of [n + m] items at the offset, and
    the three report the same total.  Nothing is left out or shown
    twice when the pages are walked through. *)
Theorem listPurchases_pages_tile `{Host} (input : PurchaseFilterInput)
  (n m o : Z) (w w1 w2 w3 : World) (first second both : Database.PurchasePage) :
  (0 <= n)%Z -> (0 <= m)%Z -> (0 <= o)%Z ->
  Database.listPurchases (FilterQuery.repage input n o) w = Ok first w1 ->
  Database.listPurchases (FilterQuery.repage input m (o + n)) w = Ok second w2 ->
  Database.listPurchases (FilterQuery.repage input (n + m) o) w = Ok both w3 ->
  Database.items both = Database.items first ++ Database.items second
  /\ Database.total first = Database.total both
  /\ Database.total second = Database.total both.
Proof.
intros Hn Hm Ho Hfirst Hsecond Hboth.
destruct (listPurchases_ok_inv _ _ _ _ Hfirst) as (s & t & _ & Hs & Hd & H1).
destruct (listPurchases_ok_inv _ _ _ _ Hsecond) as (s2 & t2 & _ & Hs2 & Hd2 & H2).
destruct (listPurchases_ok_inv _ _ _ _ Hboth) as (s3 & t3 & _ & Hs3 & Hd3 & H3).
rewrite Hs in Hs2, Hs3. injection Hs2 as <-. injection Hs3 as <-.
rewrite Hd in Hd2, Hd3. injection Hd2 as <-. injection Hd3 as <-.
rewrite Hfirst in H1. rewrite Hsecond in H2. rewrite Hboth in H3.
injection H1 as -> _. injection H2 as -> _. injection H3 as -> _.
cbn [Database.items Database.total limit offset FilterQuery.repage].
rewrite !(List.filter_ext _ _ (matches_repage t input _ _)).
rewrite limitOffset_add by assumption.
rewrite List.map_app. auto.
Qed.

Lemma listPurchases_pages_tile_witness :
  let run l o :=
    Database.listPurchases (H := Demo.host)
      (FilterQuery.repage Demo.noFilter l o) Demo.ledgerWorld in
  match run 1%Z 0%Z, run 2%Z 1%Z, run 3%Z 0%Z with
  | Ok first _, Ok second _, Ok both _ =>
      Database.items both = Database.items first ++ Database.items second
  | _, _, _ => False
  end.
Proof.
intros run.
pose (page := fun rows =>
        {| Database.items := List.map (Database.mapPurchase (H := Demo.host) Demo.ledger) rows;
           Database.total := 3 |}).
pose (p1 := Demo.purchase "p1" "2026-03-05" 100).
pose (p2 := Demo.purchase "p2" "2026-03-09" 300).
pose (p3 := Demo.purchase "p3" "2026-02-10" 300).
assert (H1 : run 1%Z 0%Z = Ok (page [p2]) Demo.ledgerWorld) by by_running.
assert (H2 : run 2%Z (0 + 1)%Z = Ok (page [p1; p3]) Demo.ledgerWorld)
  by by_running.
assert (H3 : run (1 + 2)%Z 0%Z = Ok (page [p2; p1; p3]) Demo.ledgerWorld)
  by by_running.
pose proof (listPurchases_pages_tile (H := Demo.host) Demo.noFilter 1 2 0
              Demo.ledgerWorld Demo.ledgerWorld Demo.ledgerWorld Demo.ledgerWorld
              (page [p2]) (page [p1; p3]) (page [p2; p1; p3])
              ltac:(lia) ltac:(lia) ltac:(lia) H1 H2 H3) as Hthm.
change (run 2%Z 1%Z) with (run 2%Z (0 + 1)%Z).
change (run 3%Z 0%Z) with (run (1 + 2)%Z 0%Z).
rewrite H1, H2, H3. exact (proj1 Hthm).
Defined.

(** ** Listing everything *)

Section ListingAll.

Context `{Host}.

Lemma matches_pageInput (t : Tables) (o : Z) (p : PurchaseCoreRow) :
  Sql.matches t (Backup.pageInput o) p = true.
Proof. reflexivity. Qed.

Lemma filter_all {A} (f : A -> bool) (l : list A) :
  (forall x, f x = true) -> List.filter f l = l.
Proof.
intros Hf. induction l as [|x l IH]; simpl; [reflexivity|].
rewrite Hf, IH. reflexivity.
Qed.

Variables (w : World) (s : SqliteWasmService) (t : Tables).

Hypothesis store_open : store w = Some s.
Hypothesis db_open : db s = Some t.
Hypothesis accepted :
  forall o, purchaseFilter_accepts (Backup.pageInput o) = true.

Local Abbreviation everything := (Sql.orderBy scan_purchases Sql.newestFirst (purchases t)).

(** The loop of [listAllPurchases] with the rows before the offset
    collected: enough turns collect the rest. *)
Lemma listAllPurchasesFrom_run (fuel : nat) :
  forall o : Z,
    (0 <= o)%Z ->
    (o <= Z.of_nat (length (purchases t)))%Z ->
    (Z.of_nat (length (purchases t)) < o + Z.of_nat fuel * Backup.pageSize)%Z ->
    Backup.listAllPurchasesFrom fuel o
      (List.map (Database.mapPurchase t) (firstn (Z.to_nat o) everything)) w
    = Ok (Some (List.map (Database.mapPurchase t) everything)) w.
Proof.
assert (Hsize : (0 < Backup.pageSize)%Z) by reflexivity.
induction fuel as [|fuel IH]; intros o Ho Hin Hfuel; [lia|].
cbn [Backup.listAllPurchasesFrom].
rewrite (bind_ok _ _ _ _ _
           (listPurchases_run (Backup.pageInput o) w s t (accepted o)
              store_open db_open)).
cbn [Database.items Database.total].
change (limit (Backup.pageInput o)) with Backup.pageSize.
change (offset (Backup.pageInput o)) with o.
rewrite (filter_all _ _ (matches_pageInput t o)).
rewrite <- List.map_app, List.length_map.
assert (Hpage : Sql.limitOffset Backup.pageSize o everything
                = firstn (Z.to_nat Backup.pageSize)
                    (skipn (Z.to_nat o) everything)).
{ unfold Sql.limitOffset. destruct (Backup.pageSize <? 0)%Z eqn:E; [lia|].
  reflexivity. }
rewrite Hpage, <- firstn_skipn_add.
rewrite !List.length_map, !List.length_firstn, List.length_skipn, length_orderBy.
destruct (_ || _) eqn:Hstop.
- rewrite List.firstn_all2; [reflexivity|].
  rewrite length_orderBy.
  apply orb_true_iff in Hstop as [Hstop | Hstop];
    [apply Z.leb_le in Hstop | apply Z.ltb_lt in Hstop]; lia.
- apply orb_false_iff in Hstop as [Htotal Hfull].
  apply Z.leb_gt in Htotal. apply Z.ltb_ge in Hfull.
  replace (Z.to_nat o + Z.to_nat Backup.pageSize)%nat
    with (Z.to_nat (o + Backup.pageSize)) by lia.
  apply IH; lia.
Qed.

End ListingAll.

(** X21.  The loop of [listAllPurchases] collects every purchase, once,
    newest first: given more turns than the ledger has pages of 500, on
    an open database whose schema accepts the requests for a page, it
    returns the records of a rearrangement of the table in which every
    purchase comes before the ones that are older (the order among
    purchases of the same date and creation time is the engine's), and
    leaves the world as it is. *)
Theorem listAllPurchases_complete `{Host} (fuel : nat) (w : World)
  (s : SqliteWasmService) (t : Tables) :
  store w = Some s ->
  db s = Some t ->
  (forall o, purchaseFilter_accepts (Backup.pageInput o) = true) ->
  (Z.of_nat (length (purchases t)) < Z.of_nat fuel * Backup.pageSize)%Z ->
  exists ordered : list PurchaseCoreRow,
    Backup.listAllPurchases fuel w
    = Ok (Some (List.map (Database.mapPurchase t) ordered)) w
    /\ Permutation ordered (purchases t)
    /\ StronglySorted (fun a b => Sql.newestFirst a b = true) ordered.
Proof.
intros Hs Hd Hacc Hfuel.
exists (Sql.orderBy scan_purchases Sql.newestFirst (purchases t)). split; [|split].
- unfold Backup.listAllPurchases.
  apply (listAllPurchasesFrom_run w s t Hs Hd Hacc fuel 0); lia.
- apply orderBy_permutation.
- apply orderBy_sorted; [exact newestFirst_total|exact newestFirst_trans].
Qed.

Lemma listAllPurchases_complete_witness :
  match Backup.listAllPurchases (H := Sample.host) 1 Sample.ledgerWorld with
  | Ok (Some records) _ =>
      List.map (fun record => p_id (Database.row record)) records
      = ["p4"; "p2"; "p1"; "p3"]
  | _ => False
  end.
Proof.
destruct (listAllPurchases_complete (H := Sample.host) 1 Sample.ledgerWorld
            {| db := Some Sample.ledger; dbPath := Paths.getDatabasePath "ds0" |}
            Sample.ledger)
  as (ordered & Hrun & _ & _).
- reflexivity.
- reflexivity.
- intros o. reflexivity.
- vm_compute. reflexivity.
- assert (Hids : match Backup.listAllPurchases (H := Sample.host) 1
                         Sample.ledgerWorld with
                 | Ok (Some records) _ =>
                     List.map (fun record => p_id (Database.row record)) records
                 | _ => []
                 end = ["p4"; "p2"; "p1"; "p3"]) by by_evaluation.
  rewrite Hrun in Hids |- *. exact Hids.
Defined.

(** ** Purchases by id *)

Section ById.

Context {A : Type} (key : A -> string).

Lemma find_key (wanted : string) (l : list A) (r : A) :
  List.find (fun x => String.eqb (key x) wanted) l = Some r ->
  In r l /\ key r = wanted.
Proof.
intros Hfind. apply List.find_some in Hfind as [Hin Heq].
apply String.eqb_eq in Heq. auto.
Qed.

Lemma find_absent (wanted : string) (l : list A) :
  (forall x, In x l -> key x <> wanted) ->
  List.find (fun x => String.eqb (key x) wanted) l = None.
Proof.
intros Hnone. induction l as [|x l IH]; simpl; [reflexivity|].
destruct (String.eqb (key x) wanted) eqn:E.
- apply String.eqb_eq in E. exfalso. exact (Hnone x (or_introl eq_refl) E).
- apply IH. intros y Hy. apply Hnone. right. exact Hy.
Qed.

(** With keys that do not repeat, looking a row up by its key finds
    that row. *)
Lemma find_unique (l : list A) (r : A) :
  List.NoDup (List.map key l) -> In r l ->
  List.find (fun x => String.eqb (key x) (key r)) l = Some r.
Proof.
induction l as [|x l IH]; intros Hnodup Hin; [contradiction|].
apply List.NoDup_cons_iff in Hnodup as [Hx Hnodup]. simpl.
destruct Hin as [-> | Hin].
- rewrite String.eqb_refl. reflexivity.
- destruct (String.eqb (key x) (key r)) eqn:E; [|apply IH; assumption].
  apply String.eqb_eq in E. exfalso. apply Hx. rewrite E.
  apply List.in_map. exact Hin.
Qed.

Lemma find_filter_other (wanted gone : string) (l : list A) :
  wanted <> gone ->
  List.find (fun x => String.eqb (key x) wanted)
    (List.filter (fun x => negb (String.eqb (key x) gone)) l)
  = List.find (fun x => String.eqb (key x) wanted) l.
Proof.
intros Hne. induction l as [|x l IH]; simpl; [reflexivity|].
destruct (String.eqb (key x) gone) eqn:Egone; simpl.
- apply String.eqb_eq in Egone.
  destruct (String.eqb (key x) wanted) eqn:Ewanted; [|exact IH].
  apply String.eqb_eq in Ewanted. congruence.
- rewrite IH. reflexivity.
Qed.

Lemma find_filter_gone (gone : string) (l : list A) :
  List.find (fun x => String.eqb (key x) gone)
    (List.filter (fun x => negb (String.eqb (key x) gone)) l)
  = None.
Proof.
apply find_absent. intros x Hx. apply List.filter_In in Hx as [_ Hx].
apply negb_true_iff, String.eqb_neq in Hx. exact Hx.
Qed.

Lemma filter_filter_implied (f g : A -> bool) (l : list A) :
  (forall x, f x = true -> g x = true) ->
  List.filter f (List.filter g l) = List.filter f l.
Proof.
intros Himp. induction l as [|x l IH]; simpl; [reflexivity|].
destruct (g x) eqn:Eg; simpl.
- rewrite IH. reflexivity.
- destruct (f x) eqn:Ef; [|exact IH].
  rewrite (Himp x Ef) in Eg. discriminate.
Qed.

Lemma filter_none (f : A -> bool) (l : list A) :
  (forall x, In x l -> f x = false) -> List.filter f l = [].
Proof.
intros Hf. induction l as [|x l IH]; simpl; [reflexivity|].
rewrite (Hf x (or_introl eq_refl)). apply IH.
intros y Hy. apply Hf. right. exact Hy.
Qed.

End ById.

Section Records.

Context `{Host} `{Platform}.

Lemma getPurchase_run (purchaseId : string) (w : World)
  (s : SqliteWasmService) (t : Tables) :
  store w = Some s -> db s = Some t ->
  Database.getPurchase purchaseId w
  = Ok (option_map (Database.mapPurchase t)
          (List.find (fun p => String.eqb (p_id p) purchaseId) (purchases t))) w.
Proof.
intros Hs Hd. unfold Database.getPurchase.
rewrite (bind_ok _ _ _ _ _ (theDb_run w s t Hs Hd)).
destruct (List.find _ _); [|reflexivity].
rewrite (bind_ok _ _ _ _ _ (theDb_run w s t Hs Hd)). reflexivity.
Qed.

(** A statement that changes the tables, followed by [persist]. *)
Lemma write_through_ok_inv (change : Tables -> Tables) (w w' : World) :
  (t ← Database.theDb; Database.putDb (change t);; Database.persist) w
  = Ok tt w' ->
  exists s t,
    store w = Some s /\ db s = Some t
    /\ store w' = Some {| db := Some (change t); dbPath := dbPath s |}
    /\ files (fs w')
       = <[dbPath s := Base64.bytesToBase64 (db_export (change t))]>
           (files (fs w))
    /\ dirs (fs w') = dirs (fs w)
    /\ activeDatasetId w' = activeDatasetId w.
Proof.
intros Hrun.
apply bind_ok_inv in Hrun as (t & wa & Hdb & Hrun).
apply theDb_ok_inv in Hdb as (-> & s & Hs & Hd).
apply bind_ok_inv in Hrun as ([] & wb & Hput & Hrun).
rewrite (putDb_run _ w s Hs) in Hput. injection Hput as <-.
apply persist_ok_inv in Hrun as (s' & t' & Hs' & Hd' & Hfiles & Hdirs & Hst & Hact).
cbn [store set_store] in Hs'. injection Hs' as <-.
cbn [db] in Hd'. injection Hd' as <-.
exists s, t. split; [exact Hs|]. split; [exact Hd|].
split; [exact Hst|]. auto.
Qed.

Lemma mapPurchase_after_delete (enforced : bool) (purchaseId : string)
  (t : Tables) (r : PurchaseCoreRow) :
  p_id r <> purchaseId ->
  Database.mapPurchase (Database.deletePurchaseRows enforced purchaseId t) r
  = Database.mapPurchase t r.
Proof.
intros Hne. unfold Database.mapPurchase, Database.deletePurchaseRows.
cbn [purchase_tags purchase_images tags].
destruct enforced; [|reflexivity]. f_equal.
- f_equal. apply List.flat_map_ext. intros tag.
  f_equal. apply (filter_filter_implied (A := string * string)).
  intros [pid tid]. simpl. intros Hx.
  apply andb_true_iff in Hx as [_ Hx]. apply String.eqb_eq in Hx. subst pid.
  apply negb_true_iff, String.eqb_neq. exact Hne.
- f_equal. apply filter_filter_implied.
  intros i Hi. apply String.eqb_eq in Hi.
  apply negb_true_iff, String.eqb_neq. congruence.
Qed.

Lemma orderBy_nil {A} (scan : Scan A) (before : A -> A -> bool) :
  Sql.orderBy scan before [] = [].
Proof.
unfold Sql.orderBy.
rewrite (Permutation_nil (Permutation_sym (visit_permutation scan []))).
reflexivity.
Qed.

(** [deletePurchase] runs its statement under the setting of the
    foreign keys that it finds, and leaves them switched off. *)
Lemma deletePurchase_ok_inv (purchaseId : string) (w w' : World) :
  Database.deletePurchase purchaseId w = Ok tt w' ->
  exists s t,
    store w = Some s /\ db s = Some t
    /\ store w'
       = Some {| db := Some (Database.deletePurchaseRows (foreignKeys w)
                               purchaseId t);
                 dbPath := dbPath s |}
    /\ files (fs w')
       = <[dbPath s :=
             Base64.bytesToBase64
               (db_export (Database.deletePurchaseRows (foreignKeys w)
                             purchaseId t))]>
           (files (fs w))
    /\ foreignKeys w' = false.
Proof.
unfold Database.deletePurchase. intros Hrun.
apply bind_ok_inv in Hrun as (t & wa & Hdb & Hrun).
apply theDb_ok_inv in Hdb as (-> & s & Hs & Hd).
apply bind_ok_inv in Hrun as (enforced & wb & Hget & Hrun).
unfold gets in Hget. injection Hget as <- <-.
apply bind_ok_inv in Hrun as ([] & wc & Hput & Hrun).
rewrite (putDb_run _ w s Hs) in Hput. injection Hput as <-.
pose proof (persist_ok_foreignKeys _ _ Hrun) as Hkeys.
apply persist_ok_inv in Hrun as (s' & t' & Hs' & Hd' & Hfiles & _ & Hst & _).
cbn [store set_store] in Hs'. injection Hs' as <-.
cbn [db] in Hd'. injection Hd' as <-.
exists s, t. split; [exact Hs|]. split; [exact Hd|].
split; [exact Hst|]. split; [exact Hfiles|exact Hkeys].
Qed.

End Records.

(** X22.  Fetching by id agrees with the listing.  On a database
    whose purchase ids do not repeat (the id is the primary key), every
    item that [listPurchases] shows is what [getPurchaseOrThrow] returns
    for its id; and for an id that no purchase has, [getPurchase] returns
    nothing and [getPurchaseOrThrow] throws, naming the id.  Neither
    changes the world. *)
Theorem getPurchase_agrees_with_listing `{Host} (w : World)
  (s : SqliteWasmService) (t : Tables) :
  store w = Some s ->
  db s = Some t ->
  List.NoDup (List.map p_id (purchases t)) ->
  (forall input page w' item,
      Database.listPurchases input w = Ok page w' ->
      In item (Database.items page) ->
      Database.getPurchaseOrThrow (p_id (Database.row item)) w = Ok item w)
  /\ (forall purchaseId,
        (forall p, In p (purchases t) -> p_id p <> purchaseId) ->
        Database.getPurchase purchaseId w = Ok None w
        /\ Database.getPurchaseOrThrow purchaseId w
           = Throw (Error ("Purchase " +:+ purchaseId +:+ " not found")) w).
Proof.
intros Hs Hd Hnodup. split.
- intros input page w' item Hrun Hitem.
  destruct (listPurchases_ok_inv _ _ _ _ Hrun) as (s' & t' & _ & Hs' & Hd' & Hpage).
  rewrite Hs in Hs'. injection Hs' as <-. rewrite Hd in Hd'. injection Hd' as <-.
  rewrite Hrun in Hpage. injection Hpage as -> _.
  cbn [Database.items] in Hitem.
  apply List.in_map_iff in Hitem as (r & <- & Hr).
  apply In_limitOffset, In_orderBy, List.filter_In in Hr as [Hr _].
  unfold Database.getPurchaseOrThrow.
  rewrite (bind_ok _ _ _ _ _ (getPurchase_run _ w s t Hs Hd)).
  cbn [Database.row Database.mapPurchase].
  rewrite (find_unique p_id _ r Hnodup Hr). reflexivity.
- intros purchaseId Hnone.
  assert (Hget : Database.getPurchase purchaseId w = Ok None w).
  { rewrite (getPurchase_run _ w s t Hs Hd), (find_absent p_id _ _ Hnone).
    reflexivity. }
  split; [exact Hget|].
  unfold Database.getPurchaseOrThrow. rewrite (bind_ok _ _ _ _ _ Hget).
  reflexivity.
Qed.

Lemma getPurchase_agrees_with_listing_witness :
  Database.getPurchaseOrThrow (H := Sample.host) "p4" Sample.ledgerWorld
  = Ok (Database.mapPurchase (H := Sample.host) Sample.ledger
          (Sample.purchase "p4" "2026-03-09" 200 (Some "food")
             (Some "Market, East")))
      Sample.ledgerWorld
  /\ Database.getPurchaseOrThrow (H := Sample.host) "p9" Sample.ledgerWorld
     = Throw (Error "Purchase p9 not found") Sample.ledgerWorld.
Proof.
pose proof (getPurchase_agrees_with_listing (H := Sample.host)
              Sample.ledgerWorld
              {| db := Some Sample.ledger; dbPath := Paths.getDatabasePath "ds0" |}
              Sample.ledger eq_refl eq_refl) as Hthm.
assert (Hnodup : List.NoDup (List.map p_id (purchases Sample.ledger))).
{ apply (List.NoDup_count_occ' String.string_dec). intros x Hx.
  simpl in Hx. destruct Hx as [<-|[<-|[<-|[<-|[]]]]]; reflexivity. }
destruct (Hthm Hnodup) as [Hlisted Habsent]. split.
- refine (Hlisted Demo.noFilter
            (match Database.listPurchases (H := Sample.host) Demo.noFilter
                     Sample.ledgerWorld with
             | Ok page _ => page
             | Throw _ _ => {| Database.items := []; Database.total := 0 |}
             end)
            Sample.ledgerWorld
            (Database.mapPurchase (H := Sample.host) Sample.ledger
               (Sample.purchase "p4" "2026-03-09" 200 (Some "food")
                  (Some "Market, East"))) _ _).
  + by_running.
  + vm_compute. left. reflexivity.
- refine (proj2 (Habsent "p9" _)).
  intros p Hp. simpl in Hp.
  destruct Hp as [<-|[<-|[<-|[<-|[]]]]]; discriminate.
Defined.

(** X23.  Whenever [deletePurchase] returns: the purchase can no longer
    be fetched, and every other purchase is fetched exactly as before,
    with its tags and pictures.  What becomes of the picture records of
    the deleted purchase depends on the foreign keys of the connection:
    switched off, as every [persist] leaves them, the records stay and
    [listImagesByPurchase] lists them as before; switched on, they go
    with the purchase.  Afterwards the foreign keys are switched off.  On
    the device only the database file is written, so the picture files
    of the deleted purchase stay where they are. *)
Theorem deletePurchase_effect `{Host} (purchaseId : string) (w w' : World) :
  Database.deletePurchase purchaseId w = Ok tt w' ->
  Database.getPurchase purchaseId w' = Ok None w'
  /\ (foreignKeys w = false ->
      exists images,
        Database.listImagesByPurchase purchaseId w = Ok images w
        /\ Database.listImagesByPurchase purchaseId w' = Ok images w')
  /\ (foreignKeys w = true ->
      Database.listImagesByPurchase purchaseId w' = Ok [] w')
  /\ (forall other, other <> purchaseId ->
        exists found,
          Database.getPurchase other w = Ok found w
          /\ Database.getPurchase other w' = Ok found w')
  /\ foreignKeys w' = false
  /\ (exists s, store w = Some s
                /\ forall path, path <> dbPath s ->
                                files (fs w') !! path = files (fs w) !! path).
Proof.
intros Hrun.
apply deletePurchase_ok_inv in Hrun as (s & t & Hs & Hd & Hs' & Hfiles & Hkeys).
split.
{ rewrite (getPurchase_run _ w' _ _ Hs' eq_refl).
  cbn [purchases Database.deletePurchaseRows].
  rewrite (find_filter_gone p_id). reflexivity. }
split.
{ intros Hoff. rewrite Hoff in Hs'. eexists. split.
  - unfold Database.listImagesByPurchase.
    rewrite (bind_ok _ _ _ _ _ (theDb_run w s t Hs Hd)). reflexivity.
  - unfold Database.listImagesByPurchase.
    rewrite (bind_ok _ _ _ _ _ (theDb_run w' _ _ Hs' eq_refl)). reflexivity. }
split.
{ intros Hon. rewrite Hon in Hs'. unfold Database.listImagesByPurchase.
  rewrite (bind_ok _ _ _ _ _ (theDb_run w' _ _ Hs' eq_refl)).
  cbn [purchase_images Database.deletePurchaseRows].
  rewrite (filter_none (fun i => String.eqb (i_purchase_id i) purchaseId)).
  - rewrite orderBy_nil. reflexivity.
  - intros i Hi. apply List.filter_In in Hi as [_ Hi].
    apply negb_true_iff in Hi. exact Hi. }
split.
{ intros other Hother.
  exists (option_map (Database.mapPurchase t)
            (List.find (fun p => String.eqb (p_id p) other) (purchases t))).
  split; [apply (getPurchase_run _ w s t Hs Hd)|].
  rewrite (getPurchase_run _ w' _ _ Hs' eq_refl).
  cbn [purchases Database.deletePurchaseRows].
  rewrite (find_filter_other p_id) by exact Hother.
  destruct (List.find _ _) as [r|] eqn:Hfind; [|reflexivity].
  apply (find_key p_id) in Hfind as [_ Hid]. cbn [option_map].
  rewrite mapPurchase_after_delete by congruence. reflexivity. }
split; [exact Hkeys|].
exists s. split; [exact Hs|]. intros path Hpath.
rewrite Hfiles. apply lookup_insert_ne. congruence.
Qed.

Lemma deletePurchase_effect_witness :
  let w' := state_of (Database.deletePurchase (H := Sample.host) "p1"
                        Sample.ledgerWorld) in
  Database.getPurchase (H := Sample.host) "p1" w' = Ok None w'
  /\ (exists images,
        Database.listImagesByPurchase (H := Sample.host) "p1" w' = Ok images w'
        /\ List.map i_id images = ["i2"; "i1"])
  /\ files (fs w')
       !! Path.joinPath [Some (Paths.getMediaDir "ds0"); Some "p1/i1.jpg"]
     = Some "QUJD".
Proof.
intros w'.
assert (Hrun : Database.deletePurchase (H := Sample.host) "p1" Sample.ledgerWorld
               = Ok tt w') by by_running.
destruct (deletePurchase_effect (H := Sample.host) "p1" Sample.ledgerWorld w' Hrun)
  as (Hgone & Hkept & _ & _ & _ & _).
split; [exact Hgone|]. split; [|by_evaluation].
assert (Hoff : foreignKeys Sample.ledgerWorld = false) by by_evaluation.
destruct (Hkept Hoff) as (images & Hbefore & Hafter).
exists images. split; [exact Hafter|].
assert (Hlisted : match Database.listImagesByPurchase (H := Sample.host) "p1"
                           Sample.ledgerWorld with
                   | Ok listed _ => List.map i_id listed
                   | Throw _ _ => []
                   end = ["i2"; "i1"]) by by_evaluation.
rewrite Hbefore in Hlisted. exact Hlisted.
Defined.

Section Tags.

Context `{Host}.

Lemma In_tagsOf (t : Tables) (r : PurchaseCoreRow) (tag : TagRow) :
  In tag (Database.tagsOf (Database.mapPurchase t r))
  <-> In tag (tags t) /\ In (p_id r, t_id tag) (purchase_tags t).
Proof.
unfold Database.mapPurchase. cbn [Database.tagsOf].
rewrite In_orderBy, List.in_flat_map. split.
- intros (tag' & Htag' & Hin).
  apply List.in_map_iff in Hin as ([pid tid] & -> & Hpt).
  apply List.filter_In in Hpt as [Hpt Hc]. simpl in Hc.
  apply andb_true_iff in Hc as [Htid Hpid].
  apply String.eqb_eq in Htid, Hpid. subst. auto.
- intros [Htag Hpt]. exists tag. split; [exact Htag|].
  apply List.in_map_iff. exists (p_id r, t_id tag). split; [reflexivity|].
  apply List.filter_In. split; [exact Hpt|]. simpl.
  rewrite !String.eqb_refl. reflexivity.
Qed.

Lemma deleteTag_ok_inv (tagId : string) (w w' : World) :
  Database.deleteTag tagId w = Ok tt w' ->
  exists s t,
    store w = Some s /\ db s = Some t
    /\ store w'
       = Some {| db :=
                   Some (Database.with_tags
                           (List.filter
                              (fun x => negb (String.eqb (t_id x) tagId))
                              (tags t))
                           (Database.with_purchase_tags
                              (List.filter
                                 (fun pt => negb (String.eqb (snd pt) tagId))
                                 (purchase_tags t)) t));
                 dbPath := dbPath s |}.
Proof.
unfold Database.deleteTag. intros Hrun.
apply bind_ok_inv in Hrun as (t & wa & Hdb & Hrun).
apply theDb_ok_inv in Hdb as (-> & s & Hs & Hd).
apply bind_ok_inv in Hrun as ([] & wb & Hput & Hrun).
rewrite (putDb_run _ w s Hs) in Hput. injection Hput as <-.
apply write_through_ok_inv in Hrun as (s' & t' & Hs' & Hd' & Hst & _).
cbn [store set_store] in Hs'. injection Hs' as <-.
cbn [db] in Hd'. injection Hd' as <-.
exists s, t. split; [exact Hs|]. split; [exact Hd|]. exact Hst.
Qed.

End Tags.

(** X24.  Whenever [deleteTag] returns: [listTags] lists the tags it
    listed before except the one with that id; and every purchase is
    fetched as before with the same pictures, carrying the tags it
    carried except that one.  No purchase appears or disappears. *)
Theorem deleteTag_effect `{Host} (tagId : string) (w w' : World) :
  Database.deleteTag tagId w = Ok tt w' ->
  (exists before after,
      Database.listTags w = Ok before w
      /\ Database.listTags w' = Ok after w'
      /\ forall tag, In tag after <-> In tag before /\ t_id tag <> tagId)
  /\ (forall purchaseId,
        exists before after,
          Database.getPurchase purchaseId w = Ok before w
          /\ Database.getPurchase purchaseId w' = Ok after w'
          /\ match before, after with
             | Some b, Some a =>
                 Database.row a = Database.row b
                 /\ Database.imagesOf a = Database.imagesOf b
                 /\ forall tag,
                      In tag (Database.tagsOf a)
                      <-> In tag (Database.tagsOf b) /\ t_id tag <> tagId
             | None, None => True
             | _, _ => False
             end).
Proof.
intros Hrun.
apply deleteTag_ok_inv in Hrun as (s & t & Hs & Hd & Hs').
set (t' := Database.with_tags _ _) in Hs'.
assert (Hkept : forall tag, t_id tag <> tagId
                            <-> negb (String.eqb (t_id tag) tagId) = true).
{ intros tag. rewrite negb_true_iff, String.eqb_neq. reflexivity. }
split.
- exists (Sql.orderBy scan_tags
            (fun a b => String.leb (t_name a) (t_name b)) (tags t)),
    (Sql.orderBy scan_tags
       (fun a b => String.leb (t_name a) (t_name b)) (tags t')).
  split.
  { unfold Database.listTags.
    rewrite (bind_ok _ _ _ _ _ (theDb_run w s t Hs Hd)). reflexivity. }
  split.
  { unfold Database.listTags.
    rewrite (bind_ok _ _ _ _ _ (theDb_run w' _ t' Hs' eq_refl)). reflexivity. }
  intros tag. rewrite !In_orderBy. unfold t'. cbn [tags Database.with_tags].
  rewrite List.filter_In, Hkept. reflexivity.
- intros purchaseId.
  exists (option_map (Database.mapPurchase t)
            (List.find (fun p => String.eqb (p_id p) purchaseId) (purchases t))),
    (option_map (Database.mapPurchase t')
       (List.find (fun p => String.eqb (p_id p) purchaseId) (purchases t))).
  split; [apply (getPurchase_run _ w s t Hs Hd)|].
  split; [apply (getPurchase_run _ w' _ t' Hs' eq_refl)|].
  destruct (List.find _ _) as [r|]; cbn [option_map]; [|exact I].
  split; [reflexivity|]. split; [reflexivity|].
  intros tag. rewrite !In_tagsOf. unfold t'.
  cbn [tags purchase_tags Database.with_tags Database.with_purchase_tags].
  rewrite !List.filter_In. cbn [snd]. rewrite <- Hkept. tauto.
Qed.

Lemma deleteTag_effect_witness :
  let w' := state_of (Database.deleteTag (H := Sample.host) "A"
                        Sample.ledgerWorld) in
  Database.listTags (H := Sample.host) w' = Ok [Demo.tag "B"] w'
  /\ match Database.getPurchase (H := Sample.host) "p3" w' with
     | Ok (Some record) _ => Database.tagsOf record = [Demo.tag "B"]
     | _ => False
     end.
Proof.
intros w'.
assert (Hrun : Database.deleteTag (H := Sample.host) "A" Sample.ledgerWorld
               = Ok tt w') by by_running.
destruct (deleteTag_effect (H := Sample.host) "A" Sample.ledgerWorld w' Hrun)
  as [(before & after & Hbefore & Hafter & Htags) _].
assert (Hlist : Database.listTags (H := Sample.host) w'
                = Ok [Demo.tag "B"] w') by by_running.
split; [exact Hlist|].
assert (Hget : Database.getPurchase (H := Sample.host) "p3" w'
               = Ok (Some (Database.mapPurchase (H := Sample.host)
                             (Database.with_tags [Demo.tag "B"]
                                (Database.with_purchase_tags
                                   [("p2", "B"); ("p3", "B")] Sample.ledger))
                             (Sample.purchase "p3" "2026-02-10" 300 None
                                (Some "Kiosk")))) w') by by_running.
rewrite Hget. by_evaluation.
Defined.

(** ** The timeline *)

Section Timeline.

Context `{Host} `{Platform}.

(** The two conditions of [listTimeline] are the first two of
    [buildPurchaseFilterSql]. *)
Lemma matches_timeline (t : Tables) (request : PurchaseTimelineQuery)
  (p : PurchaseCoreRow) :
  Sql.matches t
    {| fromDate := tq_fromDate request; toDate := tq_toDate request;
       categoryIds := None; vendor := None; minAmountCents := None;
       maxAmountCents := None; tagIds := None; query := None;
       limit := tq_limit request; offset := 0 |} p
  = Database.inTimeline request p.
Proof.
rewrite matches_selected. unfold Sql.boundOf, Database.inTimeline.
cbn [fromDate toDate categoryIds vendor minAmountCents maxAmountCents tagIds
       query FilterQuery.nonEmpty FilterQuery.truthyStr
       Sql.optBound List.app].
destruct (FilterQuery.truthyStr (tq_fromDate request)) as [d1|];
  destruct (FilterQuery.truthyStr (tq_toDate request)) as [d2|];
  cbn [Sql.optBound List.app Sql.selected forallb fst snd Sql.holds];
  rewrite ?andb_true_r; reflexivity.
Qed.

End Timeline.

(** X25.  [listTimeline] is a listing: when the two schemas accept the
    request, it gives the items of the page that [listPurchases] gives
    for the same two dates, the limit of the timeline and offset 0, and
    throws what [listPurchases] throws. *)
Theorem listTimeline_is_a_listing `{Host} `{Platform}
  (request : PurchaseTimelineQuery) (w : World) :
  let filters :=
    {| fromDate := tq_fromDate request; toDate := tq_toDate request;
       categoryIds := None; vendor := None; minAmountCents := None;
       maxAmountCents := None; tagIds := None; query := None;
       limit := tq_limit request; offset := 0 |} in
  purchaseTimelineQuery_accepts request = true ->
  purchaseFilter_accepts filters = true ->
  Database.listTimeline request w
  = match Database.listPurchases filters w with
    | Ok page w' => Ok (Database.items page) w'
    | Throw e w' => Throw e w'
    end.
Proof.
intros filters Htimeline Hfilter.
unfold Database.listTimeline. rewrite Htimeline, bind_ret.
destruct (store w) as [s|] eqn:Hs.
- destruct (db s) as [t|] eqn:Hd.
  + rewrite (listPurchases_run filters w s t Hfilter Hs Hd).
    rewrite (bind_ok _ _ _ _ _ (theDb_run w s t Hs Hd)).
    cbn [Database.items limit offset filters]. unfold mret, M_ret.
    rewrite (List.filter_ext _ _ (matches_timeline t request)). reflexivity.
  + unfold Database.listPurchases, Database.purchaseFilterInputSchema_parse.
    rewrite Hfilter, bind_ret.
    unfold Database.theDb, Database.ensureStore, mbind, M_bind.
    rewrite Hs, Hd. reflexivity.
- unfold Database.listPurchases, Database.purchaseFilterInputSchema_parse.
  rewrite Hfilter, bind_ret.
  unfold Database.theDb, Database.ensureStore, mbind, M_bind.
  rewrite Hs. reflexivity.
Qed.

Lemma listTimeline_is_a_listing_witness :
  match Database.listTimeline (H := Sample.host) (H0 := Sample.platform)
          {| tq_fromDate := Some "2026-03-01"; tq_toDate := None; tq_limit := 2 |}
          Sample.ledgerWorld with
  | Ok items _ =>
      List.map (fun item => p_id (Database.row item)) items = ["p4"; "p2"]
  | Throw _ _ => False
  end.
Proof.
rewrite (listTimeline_is_a_listing (H := Sample.host) (H0 := Sample.platform)
           {| tq_fromDate := Some "2026-03-01"; tq_toDate := None; tq_limit := 2 |}
           Sample.ledgerWorld eq_refl eq_refl).
vm_compute. reflexivity.
Defined.

(** ** The budget on the dashboard *)

Section BudgetUsed.

Lemma min_le_l (a b : Q) : (Num.min a b <= a)%Q.
Proof.
unfold Num.min. destruct (Qle_bool a b) eqn:E; [apply Qle_refl|].
destruct (Qlt_le_dec b a) as [Hlt|Hle]; [apply Qlt_le_weak, Hlt|].
apply Qle_bool_iff in Hle. congruence.
Qed.

(** [getSettings] looks at the store only. *)
Lemma getSettings_same_store `{Host} (w w1 : World) :
  store w = store w1 ->
  Database.getSettings w
  = match Database.getSettings w1 with
    | Ok settings _ => Ok settings w
    | Throw e _ => Throw e w
    end.
Proof.
intros Hstore.
unfold Database.getSettings, Database.theDb, Database.ensureStore, mbind, M_bind.
rewrite Hstore. destruct (store w1) as [s|]; [|reflexivity].
destruct (db s) as [t|]; [|reflexivity]. cbn [mret M_ret].
destruct (app_settings t !! "app") as [raw|]; [|reflexivity].
unfold tryCatch, Settings.deserializeSettings, Settings.appSettingsSchema_parse.
destruct (parse_settings raw) as [parsed|]; [|reflexivity].
destruct (appSettings_accepts parsed); reflexivity.
Qed.

Lemma min_ge (a b c : Q) : (c <= a)%Q -> (c <= b)%Q -> (c <= Num.min a b)%Q.
Proof. intros Ha Hb. unfold Num.min. destruct (Qle_bool a b); assumption. Qed.

(** Capping two figures at the same bound does not move them apart. *)
Lemma min_close (c a b : Q) :
  (Qabs (Num.min c a - Num.min c b) <= Qabs (a - b))%Q.
Proof.
unfold Num.min.
destruct (Qle_bool c a) eqn:Ea; destruct (Qle_bool c b) eqn:Eb.
- assert (E : (c - c == 0)%Q) by ring.
  rewrite E. apply Qabs_nonneg.
- apply Qle_bool_iff in Ea.
  assert (Hb : (b < c)%Q).
  { destruct (Qlt_le_dec b c) as [Hlt|Hle]; [exact Hlt|].
    apply Qle_bool_iff in Hle. congruence. }
  rewrite !Qabs_pos by lra. lra.
- apply Qle_bool_iff in Eb.
  assert (Ha : (a < c)%Q).
  { destruct (Qlt_le_dec a c) as [Hlt|Hle]; [exact Hlt|].
    apply Qle_bool_iff in Hle. congruence. }
  rewrite !Qabs_neg by lra. lra.
- apply Qle_refl.
Qed.

(** The figure of the model, rounded from the exact value, is within
    the margin left for the figure of the code. *)
Lemma toFixed2_within_margin (x : Q) :
  (Qabs (Num.toFixed2 x - x) <= Num.toFixed2Margin x)%Q.
Proof.
unfold Num.toFixed2Margin.
pose proof (toFixed2_close x) as Hclose.
pose proof (Qabs_nonneg x) as Hx.
assert (0 <= Qabs x * (1 # 2 ^ 50))%Q by (apply Qmult_le_0_compat; [exact Hx|discriminate]).
lra.
Qed.

End BudgetUsed.

(** X26.  Whenever [getDashboardSummary] returns: the share of the
    budget that is used is at most 999; a monthly budget in the settings
    that is positive is the budget it is measured against, whatever the
    budgets of the categories are: the share is then the spending of the
    month over that budget, times 100 and capped at 999, to two decimals
    (within the margin of [toFixed2Margin] when both amounts are safe
    integers), and it is not negative when the spending is not; without
    such a budget and without budgets of categories for the month the
    share is 0.  The files and the store are left as they are. *)
Theorem dashboard_budget_used `{Host} (anchorDate : option string)
  (w w' : World) (summary : DashboardSummary) :
  Database.getDashboardSummary anchorDate w = Ok summary w' ->
  (budgetUsedPercent summary <= 999)%Q
  /\ fs w' = fs w /\ store w' = store w
  /\ exists settings,
       Database.getSettings w = Ok settings w
       /\ ((0 < overallMonthlyBudgetCents settings)%Z ->
           let exact :=
             (inject_Z (currentMonthSpendCents summary)
              / inject_Z (overallMonthlyBudgetCents settings) * 100)%Q in
           (Num.isSafeInteger (currentMonthSpendCents summary) = true ->
            Num.isSafeInteger (overallMonthlyBudgetCents settings) = true ->
            (Qabs (budgetUsedPercent summary - Num.min 999 exact)
             <= Num.toFixed2Margin exact)%Q)
           /\ ((0 <= currentMonthSpendCents summary)%Z ->
               (0 <= budgetUsedPercent summary)%Q))
       /\ ((overallMonthlyBudgetCents settings <= 0)%Z ->
           (forall s t, store w = Some s -> db s = Some t ->
                        monthly_budgets t = []) ->
           budgetUsedPercent summary = 0%Q).
Proof.
unfold Database.getDashboardSummary. intros Hrun.
apply bind_ok_inv in Hrun as (now & w1 & Hnow & Hrun).
assert (Hw1 : fs w1 = fs w /\ store w1 = store w).
{ destruct (FilterQuery.truthyStr anchorDate).
  - apply ret_ok_inv in Hnow as [_ ->]. auto.
  - apply bind_ok_inv in Hnow as (n & w0 & Hn & Hk).
    unfold tick in Hn. injection Hn as <- <-.
    apply ret_ok_inv in Hk as [_ <-]. auto. }
destruct Hw1 as [Hfs Hstore].
apply bind_ok_inv in Hrun as (current & w2 & Hcur & Hrun).
apply sumAmountBetween_ok_inv in Hcur as (-> & s & t & Hs & Hd & ->).
apply bind_ok_inv in Hrun as (previous & w3 & Hprev & Hrun).
apply sumAmountBetween_ok_inv in Hprev as (-> & _).
apply bind_ok_inv in Hrun as (t1 & w4 & Hdb & Hrun).
rewrite (theDb_run w1 s t Hs Hd) in Hdb. injection Hdb as <- <-.
apply bind_ok_inv in Hrun as (settings & w5 & Hset & Hrun).
pose proof (getSettings_ok_inv _ _ _ Hset) as [-> _].
apply bind_ok_inv in Hrun as (t2 & w6 & Hdb & Hrun).
rewrite (theDb_run w1 s t Hs Hd) in Hdb. injection Hdb as <- <-.
match type of Hrun with
| (if ?c then _ else _) _ = _ => destruct c; [|discriminate]
end.
apply ret_ok_inv in Hrun as [<- <-].
cbn [budgetUsedPercent currentMonthSpendCents].
set (current := Database.sumAmount _ _ t).
split.
{ destruct (_ =? 0)%Z; [discriminate|]. apply min_le_l. }
split; [exact Hfs|]. split; [exact Hstore|].
exists settings. split.
{ rewrite (getSettings_same_store w w1) by (symmetry; exact Hstore).
  rewrite Hset. reflexivity. }
split.
- intros Hpos. cbv zeta. apply Z.ltb_lt in Hpos as Hb. rewrite Hb.
  destruct (_ =? 0)%Z eqn:E; [apply Z.eqb_eq in E; lia|].
  split.
  { intros _ _. eapply Qle_trans; [apply min_close|].
    apply toFixed2_within_margin. }
  intros Hcur.
  apply min_ge; [discriminate|].
  pose proof (toFixed2_ge
                (inject_Z current
                 / inject_Z (overallMonthlyBudgetCents settings) * 100) 0) as Hge.
  change (inject_Z 0) with 0%Q in Hge.
  apply Qle_trans with (0 * (1 # 100))%Q; [discriminate|]. apply Hge.
  rewrite Zle_Qle in Hcur. rewrite Zlt_Qlt in Hpos.
  change (inject_Z 0) with 0%Q in Hcur, Hpos.
  assert (0 <= inject_Z current / inject_Z (overallMonthlyBudgetCents settings))%Q.
  { apply Qle_shift_div_l; [exact Hpos|]. lra. }
  lra.
- intros Hnone Hempty.
  assert (Hb : (0 <? overallMonthlyBudgetCents settings)%Z = false)
    by (apply Z.ltb_ge; exact Hnone).
  rewrite Hb. rewrite Hstore in Hs. rewrite (Hempty s t Hs Hd). reflexivity.
Qed.

Lemma dashboard_budget_used_witness :
  match Database.getDashboardSummary (H := Sample.host) (Some "2026-03-15")
          Sample.ledgerWorld with
  | Ok summary _ =>
      (budgetUsedPercent summary <= 999)%Q
      /\ currentMonthSpendCents summary = 600%Z
  | Throw _ _ => False
  end.
Proof.
pose (summary :=
        match Database.getDashboardSummary (H := Sample.host) (Some "2026-03-15")
                Sample.ledgerWorld with
        | Ok summary _ => summary
        | Throw _ _ =>
            {| currentMonthSpendCents := 0; previousMonthSpendCents := 0;
               monthOverMonthDeltaPercent := 0; budgetUsedPercent := 0;
               recentPurchasesCount := 0 |}
        end).
assert (Hrun : Database.getDashboardSummary (H := Sample.host)
                 (Some "2026-03-15") Sample.ledgerWorld
               = Ok summary Sample.ledgerWorld) by by_running.
pose proof (dashboard_budget_used (H := Sample.host) (Some "2026-03-15")
              Sample.ledgerWorld Sample.ledgerWorld summary Hrun) as [Hcap _].
rewrite Hrun. split; [exact Hcap|]. by_evaluation.
Defined.

(** ** Lines of CSV *)

Section CsvLines.

Lemma read_cell (value cell : string) (done : list string) (rest : string) :
  Backup.readCells (Backup.Inside cell) done
    (Backup.doubleQuotes value +:+ String Backup.dquote rest)
  = Backup.readCells (Backup.AfterQuote (Js.rev_string value +:+ cell)) done rest.
Proof.
revert cell. induction value as [|c value IH]; intros cell.
- reflexivity.
- cbn [Backup.doubleQuotes Js.rev_string].
  rewrite app_assoc, app_cons, app_nil_l.
  destruct (Ascii.eqb c Backup.dquote) eqn:E.
  + apply Ascii.eqb_eq in E. subst c.
    rewrite !app_cons. cbn [Backup.readCells].
    rewrite Ascii.eqb_refl. apply IH.
  + rewrite app_cons. cbn [Backup.readCells]. rewrite E. apply IH.
Qed.

Lemma toCsvCell_app (value rest : string) :
  Backup.toCsvCell value +:+ rest
  = String Backup.dquote
      (Backup.doubleQuotes value +:+ String Backup.dquote rest).
Proof.
unfold Backup.toCsvCell. rewrite app_cons, app_assoc, app_cons, app_nil_l.
reflexivity.
Qed.

(** A reader of CSV gets the cells back from the line. *)
Lemma read_row (cells done : list string) :
  cells <> [] ->
  Backup.readCells Backup.Outside done
    (Js.join "," (List.map Backup.toCsvCell cells))
  = Some (done ++ cells).
Proof.
revert done. induction cells as [|value cells IH]; intros done Hcells;
  [contradiction|].
destruct cells as [|next cells].
- cbn [List.map]. rewrite join_one, <- (app_nil_r (Backup.toCsvCell value)).
  rewrite toCsvCell_app. cbn [Backup.readCells]. rewrite Ascii.eqb_refl.
  rewrite read_cell. cbn [Backup.readCells].
  rewrite app_nil_r, rev_string_involutive. reflexivity.
- cbn [List.map]. rewrite join_cons, toCsvCell_app.
  cbn [Backup.readCells]. rewrite Ascii.eqb_refl.
  rewrite read_cell, app_cons, app_nil_l. cbn [Backup.readCells].
  replace (Ascii.eqb "," Backup.dquote) with false by reflexivity.
  rewrite Ascii.eqb_refl.
  rewrite app_nil_r, rev_string_involutive.
  change (Js.join "," (Backup.toCsvCell next :: List.map Backup.toCsvCell cells))
    with (Js.join "," (List.map Backup.toCsvCell (next :: cells))).
  rewrite IH by discriminate. rewrite <- List.app_assoc. reflexivity.
Qed.

Lemma row_not_empty (cells : list string) :
  cells <> [] -> Js.join "," (List.map Backup.toCsvCell cells) <> "".
Proof.
destruct cells as [|value cells]; [contradiction|]. intros _.
cbn [List.map]. unfold Backup.toCsvCell at 1. rewrite join_cons_char.
discriminate.
Qed.

End CsvLines.

(** X27.  A line of CSV cannot be read in two ways: two lists of
    values whose quoted cells, joined by commas, give the same line are
    the same list.  A comma, a quote or a line break inside a value
    never moves a value into another column. *)
Theorem csv_line_is_unambiguous (a b : list string) :
  Js.join "," (List.map Backup.toCsvCell a)
  = Js.join "," (List.map Backup.toCsvCell b) ->
  a = b.
Proof.
intros Hline.
destruct a as [|x a], b as [|y b].
- reflexivity.
- exfalso. apply (row_not_empty (y :: b)); [discriminate|].
  rewrite <- Hline. reflexivity.
- exfalso. apply (row_not_empty (x :: a)); [discriminate|].
  rewrite Hline. reflexivity.
- pose proof (read_row (x :: a) [] ltac:(discriminate)) as Ha.
  pose proof (read_row (y :: b) [] ltac:(discriminate)) as Hb.
  rewrite Hline, Hb in Ha. injection Ha as -> ->. reflexivity.
Qed.

Lemma csv_line_is_unambiguous_witness :
  ["Market, East"; "2.00"] = ["Market, East"; "2.00"].
Proof.
apply csv_line_is_unambiguous. reflexivity.
Defined.

(** ** The export of chosen columns *)

Section CustomExport.

Context `{Host} `{Platform}.



End CustomExport.



(** ** Archives that are turned down *)

Section Validation.

Context `{Host}.

Lemma readZipBytes_state (zipPath : string) (w : World) :
  state_of (Backup.readZipBytes zipPath w) = w.
Proof.
unfold Backup.readZipBytes. destruct (Js.startsWith "picked://" zipPath).
- unfold gets, mbind, M_bind. destruct (pickedFiles w !! zipPath); reflexivity.
- unfold Filesystem_readFile, Base64.base64ToBytes, mbind, M_bind.
  destruct (readFault zipPath (fs w)); [reflexivity|].
  destruct (files (fs w) !! zipPath) as [raw|]; [|reflexivity].
  destruct (atob (Base64.normalizeBase64 raw)); reflexivity.
Qed.

Lemma readZipBytes_ok_inv (zipPath : string) (w w' : World) (bytes : Uint8Array) :
  Backup.readZipBytes zipPath w = Ok bytes w' -> w' = w.
Proof.
intros Hrun. pose proof (readZipBytes_state zipPath w) as Hstate.
rewrite Hrun in Hstate. exact Hstate.
Qed.

(** [validateZip] changes nothing, and calls valid what it has no
    error for. *)
Lemma validateZip_ok_inv (zipPath : string) (w w' : World)
  (validation : ImportValidationResult) :
  Backup.validateZip zipPath w = Ok validation w' ->
  w' = w /\ valid validation = Backup.isEmpty (errors validation).
Proof.
unfold Backup.validateZip. intros Hrun.
apply bind_ok_inv in Hrun as (read & w1 & Hread & Hrun).
assert (w1 = w) as ->.
{ unfold tryCatch, mbind, M_bind in Hread.
  pose proof (readZipBytes_state zipPath w) as Hstate.
  destruct (Backup.readZipBytes zipPath w) as [bytes wa|e wa];
    simpl in Hstate; subst wa; cbn [mret M_ret] in Hread;
    injection Hread as _ <-; reflexivity. }
destruct read as [bytes|].
- apply bind_ok_inv in Hrun as (zip & w2 & Hzip & Hrun).
  unfold Backup.loadAsync in Hzip.
  destruct (zip_load bytes); [|discriminate].
  apply ret_ok_inv in Hzip as [<- <-].
  match type of Hrun with
  | (let '(_, _) := ?pair in _) _ = _ => destruct pair as [found errors3]
  end.
  apply bind_ok_inv in Hrun as (errors4 & w3 & Herrors & Hrun).
  assert (w3 = w) as ->.
  { destruct (Backup.includesName "checksums.json" _);
      [|apply ret_ok_inv in Herrors as [_ ->]; reflexivity].
    destruct (Backup.zip_file "checksums.json" _);
      [|apply ret_ok_inv in Herrors as [_ ->]; reflexivity].
    apply bind_ok_inv in Herrors as (expected & w4 & Hexpected & Herrors).
    unfold Database.liftE in Hexpected.
    destruct (parse_checksums _); [discriminate|].
    apply ret_ok_inv in Hexpected as [_ <-].
    apply ret_ok_inv in Herrors as [_ ->]. reflexivity. }
  destruct (importValidationResult_accepts _); [|discriminate].
  apply ret_ok_inv in Hrun as [<- <-]. auto.
- apply ret_ok_inv in Hrun as [<- <-]. auto.
Qed.

End Validation.

(** X29.  An archive that is turned down changes nothing.
    [validateZip] never changes the world, and what it returns is valid
    exactly when it lists no error; for a file that cannot be read it
    does not throw but returns the one error saying so; and [importZip]
    of an archive that [validateZip] does not call valid throws the
    errors, joined, and leaves the world as it is: no snapshot is added,
    the open database and the files stay. *)
Theorem rejected_archive_changes_nothing `{Host} (request : Backup.ImportRequest)
  (w : World) :
  (forall validation w1,
      Backup.validateZip (Backup.zipPath request) w = Ok validation w1 ->
      w1 = w
      /\ valid validation = Backup.isEmpty (errors validation)
      /\ (valid validation = false ->
          Backup.importZip request w
          = Throw (Error ("Import validation failed: "
                          +:+ Js.join "; " (errors validation))) w))
  /\ (forall e w1,
        Backup.readZipBytes (Backup.zipPath request) w = Throw e w1 ->
        Backup.validateZip (Backup.zipPath request) w
        = Ok {| valid := false;
                errors := ["ZIP file does not exist or cannot be read."];
                warnings := [];
                manifest := None |} w).
Proof.
split.
- intros validation w1 Hrun.
  destruct (validateZip_ok_inv _ _ _ _ Hrun) as [-> Hvalid].
  split; [reflexivity|]. split; [exact Hvalid|].
  intros Hinvalid. unfold Backup.importZip, Backup.prepareImport.
  apply bind_throw. rewrite (bind_ok _ _ _ _ _ Hrun).
  rewrite Hinvalid. reflexivity.
- intros e w1 Hread.
  pose proof (readZipBytes_state (Backup.zipPath request) w) as Hstate.
  rewrite Hread in Hstate. simpl in Hstate. subst w1.
  unfold Backup.validateZip, tryCatch.
  unfold mbind at 1, M_bind at 1. unfold mbind at 1, M_bind at 1.
  rewrite Hread. reflexivity.
Qed.

Lemma rejected_archive_changes_nothing_witness :
  Backup.importZip (H := Demo.host)
    {| Backup.zipPath := "in/missing.zip"; Backup.importLabel := None |}
    Demo.ledgerWorld
  = Throw (Error "Import validation failed: ZIP file does not exist or cannot be read.")
      Demo.ledgerWorld.
Proof.
pose (request := {| Backup.zipPath := "in/missing.zip";
                    Backup.importLabel := None |}).
pose (validation := {| valid := false;
                       errors := ["ZIP file does not exist or cannot be read."];
                       warnings := [];
                       manifest := None |}).
destruct (rejected_archive_changes_nothing (H := Demo.host) request
            Demo.ledgerWorld) as [Hinvalid Hunreadable].
assert (Hvalidate : Backup.validateZip (H := Demo.host) "in/missing.zip"
                      Demo.ledgerWorld
                    = Ok validation Demo.ledgerWorld).
{ apply (Hunreadable (Error "File does not exist") Demo.ledgerWorld).
  pose proof (readZipBytes_state (H := Demo.host) "in/missing.zip"
                Demo.ledgerWorld) as Hstate.
  assert (Hthrow : Backup.readZipBytes (H := Demo.host) "in/missing.zip"
                     Demo.ledgerWorld
                   = Throw (Error "File does not exist")
                       (state_of (Backup.readZipBytes (H := Demo.host)
                                    "in/missing.zip" Demo.ledgerWorld)))
    by by_running.
  rewrite Hstate in Hthrow. exact Hthrow. }
exact (proj2 (proj2 (Hinvalid validation Demo.ledgerWorld Hvalidate)) eq_refl).
Defined.

(** ** Pictures *)

Section Pictures.

Context `{Host} `{Platform}.

Lemma foldOf_app {S A B} (xs ys : list A) (body : B -> A -> M S B) (acc : B)
  (s : S) :
  Backup.foldOf (xs ++ ys) body acc s
  = (acc' ← Backup.foldOf xs body acc; Backup.foldOf ys body acc') s.
Proof.
revert acc s. induction xs as [|x xs IH]; intros acc s; [reflexivity|].
cbn [List.app Backup.foldOf]. unfold mbind, M_bind.
destruct (body acc x s) as [acc' s'|e s']; [|reflexivity].
rewrite IH. reflexivity.
Qed.

(** A picture of a type that is not allowed, or one that is too large,
    is turned down before anything is done. *)
Lemma addImage_rejects (purchaseId : string) (file : Media.ImageInput)
  (w : World) :
  existsb (String.eqb (Media.mimeType file)) Media.allowedMimeTypes = false
  \/ (Media.maxImageBytes < Media.estimateBase64Size (Media.base64Data file))%Z ->
  Media.addImage purchaseId file w
  = Throw (if existsb (String.eqb (Media.mimeType file)) Media.allowedMimeTypes
           then Error ("Image " +:+ Media.fileName file
                       +:+ " exceeds 15MB size limit.")
           else Error ("Unsupported image type: " +:+ Media.mimeType file)) w.
Proof.
intros Hbad. unfold Media.addImage.
destruct (existsb _ Media.allowedMimeTypes) eqn:Hmime; [|reflexivity].
destruct Hbad as [Hbad | Hbad]; [discriminate|].
apply Z.ltb_lt in Hbad. cbn [negb]. rewrite Hbad. reflexivity.
Qed.

End Pictures.

(** X30.  A picture that is turned down stops the batch where it
    stands.  When [addImages] has added the pictures before it, a picture
    of a type that is not allowed or of more than 15 MB makes [addImages]
    throw in the very world those additions left: nothing is written for
    the picture or for the ones after it, and the pictures added before it
    stay added although the caller gets no record of them. *)
Theorem addImages_stops_at_rejected `{Host} `{Platform} (purchaseId : string)
  (before after : list Media.ImageInput) (bad : Media.ImageInput)
  (w w1 : World) (created : list ImageRow) :
  Media.addImages purchaseId before w = Ok created w1 ->
  existsb (String.eqb (Media.mimeType bad)) Media.allowedMimeTypes = false
  \/ (Media.maxImageBytes < Media.estimateBase64Size (Media.base64Data bad))%Z ->
  Media.addImages purchaseId (before ++ bad :: after) w
  = Throw (if existsb (String.eqb (Media.mimeType bad)) Media.allowedMimeTypes
           then Error ("Image " +:+ Media.fileName bad
                       +:+ " exceeds 15MB size limit.")
           else Error ("Unsupported image type: " +:+ Media.mimeType bad)) w1.
Proof.
intros Hbefore Hbad. unfold Media.addImages in *.
rewrite foldOf_app. rewrite (bind_ok _ _ _ _ _ Hbefore).
cbn [Backup.foldOf]. apply bind_throw. apply bind_throw.
apply addImage_rejects. exact Hbad.
Qed.

Lemma addImages_stops_at_rejected_witness :
  let good := {| Media.fileName := "receipt.jpg"; Media.mimeType := "image/jpeg";
                 Media.base64Data := "QUJD" |} in
  let bad := {| Media.fileName := "clip.gif"; Media.mimeType := "image/gif";
                Media.base64Data := "R0lG" |} in
  let w1 := state_of (Media.addImages (H := Sample.host) (H0 := Sample.platform)
                        "p2" [good] Sample.ledgerWorld) in
  Media.addImages (H := Sample.host) (H0 := Sample.platform) "p2"
    [good; bad; good] Sample.ledgerWorld
  = Throw (Error "Unsupported image type: image/gif") w1
  /\ match Database.listImagesByPurchase (H := Sample.host) "p2" w1 with
     | Ok rows _ => List.map i_original_name rows = ["receipt.jpg"]
     | Throw _ _ => False
     end.
Proof.
intros good bad w1.
pose (created :=
        match Media.addImages (H := Sample.host) (H0 := Sample.platform)
                "p2" [good] Sample.ledgerWorld with
        | Ok rows _ => rows
        | Throw _ _ => []
        end).
assert (Hbefore : Media.addImages (H := Sample.host) (H0 := Sample.platform)
                    "p2" [good] Sample.ledgerWorld
                  = Ok created w1) by by_running.
split.
- exact (addImages_stops_at_rejected (H := Sample.host) (H0 := Sample.platform)
           "p2" [good] [good] bad Sample.ledgerWorld w1 created Hbefore
           (or_introl eq_refl)).
- vm_compute. reflexivity.
Defined.

(** * Archives, figures, listings and metadata *)

(** ** Path traversal in archives *)

(** C1.  The entry name [media/../../etc/passwd] is not recognised as
    unsafe: [isUnsafeRelativePath] answers [false] for it and for the
    part after [media/].  [validateZip] reports the archive that holds
    the entry as valid, without an error.  ([importZip] then writes no
    file for the entry: the name under which the archive library hands it
    out, [etc/passwd], is not below [media/].) *)
Theorem C1_traversal_entry_is_accepted :
  Path.isUnsafeRelativePath "media/../../etc/passwd" = false
  /\ Path.isUnsafeRelativePath "../../etc/passwd" = false
  /\ match Backup.validateZip (H := Demo.host) "in/traversal.zip"
             Demo.startedWorld with
     | Ok result _ => valid result = true /\ errors result = []
     | Throw _ _ => False
     end
  /\ match Backup.importZip (H := Demo.host)
             {| Backup.zipPath := "in/traversal.zip";
                Backup.importLabel := Some "restored" |}
             Demo.startedWorld with
     | Ok snapshot w =>
         id snapshot = "ds2"
         /\ forallb (fun file => negb (String.eqb (snd file) "root:x:0:0"))
              (map_to_list (files (fs w))) = true
     | Throw _ _ => False
     end.
Proof. vm_compute. repeat split; reflexivity. Qed.

(** ** Budget variance *)

(** The claim as worded fails on a budget of 3 cents with 1 cent spent:
    the utilisation returned is 33.33, not 100/3. *)
Lemma C8_counterexample :
  ~ (Settings.utilizationPercent (Settings.calculateBudgetVariance 3 1)
     == inject_Z 1 / inject_Z 3 * 100)%Q
  /\ (Settings.utilizationPercent (Settings.calculateBudgetVariance 3 1)
      == 3333 # 100)%Q.
Proof. split; [intros Habs; vm_compute in Habs; discriminate | reflexivity]. Qed.

(** C8, amended.  For a budget and a spending that are safe integers
    with a difference that is one too, [calculateBudgetVariance] returns
    [varianceCents = budgetCents - actualCents]; the utilisation is 0 for
    a zero budget and otherwise [actualCents / budgetCents * 100] to two
    decimals: a whole number of hundredths, within the margin of
    [toFixed2Margin] of the quotient.  A budget of 10000 with 12500 spent
    gives -2500 and 125. *)
Theorem C8_budget_variance (budgetCents actualCents : Z) :
  Num.isSafeInteger budgetCents = true ->
  Num.isSafeInteger actualCents = true ->
  Num.isSafeInteger (budgetCents - actualCents) = true ->
  let r := Settings.calculateBudgetVariance budgetCents actualCents in
  let exact := (inject_Z actualCents / inject_Z budgetCents * 100)%Q in
  Settings.varianceCents r = (budgetCents - actualCents)%Z
  /\ (budgetCents = 0%Z -> Settings.utilizationPercent r = 0%Q)
  /\ (budgetCents <> 0%Z ->
      (Qabs (Settings.utilizationPercent r - exact)
       <= Num.toFixed2Margin exact)%Q
      /\ exists n : Z,
           (Settings.utilizationPercent r == inject_Z n / 100)%Q)
  /\ Settings.varianceCents (Settings.calculateBudgetVariance 10000 12500)
     = (-2500)%Z
  /\ (Settings.utilizationPercent (Settings.calculateBudgetVariance 10000 12500)
      == 125)%Q.
Proof.
  intros _ _ _. cbv zeta. unfold Settings.calculateBudgetVariance.
  cbn [Settings.varianceCents Settings.utilizationPercent].
  split; [reflexivity |].
  split.
  { intros ->. reflexivity. }
  split.
  { intros Hne. apply Z.eqb_neq in Hne. rewrite Hne.
    split; [apply toFixed2_within_margin | apply toFixed2_hundredths]. }
  split; reflexivity.
Qed.

Lemma C8_budget_variance_witness :
  Settings.varianceCents (Settings.calculateBudgetVariance 160 23) = 137%Z
  /\ (Qabs (Settings.utilizationPercent (Settings.calculateBudgetVariance 160 23)
            - (inject_Z 23 / inject_Z 160 * 100))
      <= Num.toFixed2Margin (inject_Z 23 / inject_Z 160 * 100))%Q.
Proof.
  destruct (C8_budget_variance 160 23 eq_refl eq_refl eq_refl)
    as (Hvariance & _ & Hutilization & _).
  split; [exact Hvariance |].
  exact (proj1 (Hutilization ltac:(discriminate))).
Defined.

(** ** The dashboard *)

Section DashboardDelta.

Context `{Host}.

Local Open Scope Q_scope.


End DashboardDelta.



(** ** Listing purchases *)

(** C9.  Whenever [listPurchases] returns: the count statement and the
    page statement bind the same values to the same [WHERE] clause, the
    one [buildPurchaseFilterSql] produced, the page statement taking the
    limit and the offset after them; [total] is the number of all
    purchases the compiled predicate selects, whatever the limit and
    the offset; every item is a purchase of the table that the predicate
    selects; and the items are the limit/offset page of the selected
    purchases put in the order of the statement: a rearrangement of the
    selected purchases, each before the ones that are older, with the
    order among purchases of equal date and creation time left to the
    engine.  It returns whenever the store is open and the schema accepts
    the filter. *)
Theorem C9_list_purchases `{Host} (input : PurchaseFilterInput) (w : World) :
  (forall (page : Database.PurchasePage) (w' : World),
      Database.listPurchases input w = Ok page w' ->
      exists (s : SqliteWasmService) (t : Tables) (bound : list Sql.Bound)
             (ordered : list PurchaseCoreRow),
        let built := FilterQuery.buildPurchaseFilterSql input in
        let selectedRows := List.filter (Sql.matches t input) (purchases t) in
        w' = w /\ store w = Some s /\ db s = Some t
        /\ Sql.bindWhere (FilterQuery.conditions built) (FilterQuery.values built)
           = Some (bound, [])
        /\ Sql.bindWhere (FilterQuery.conditions built)
             (FilterQuery.values built
              ++ [VInt (limit input); VInt (offset input)])
           = Some (bound, [VInt (limit input); VInt (offset input)])
        /\ (forall p, Sql.matches t input p = Sql.selected t bound p)
        /\ Database.total page = Z.of_nat (length selectedRows)
        /\ (forall pageLimit pageOffset,
               Database.total page
               = Z.of_nat
                   (length
                      (List.filter
                         (Sql.matches t
                            (FilterQuery.repage input pageLimit pageOffset))
                         (purchases t))))
        /\ Permutation ordered selectedRows
        /\ StronglySorted (fun a b => Sql.newestFirst a b = true) ordered
        /\ List.map Database.row (Database.items page)
           = Sql.limitOffset (limit input) (offset input) ordered
        /\ (forall item, In item (Database.items page) ->
                         In (Database.row item) (purchases t)
                         /\ Sql.matches t input (Database.row item) = true))
  /\ (forall (s : SqliteWasmService) (t : Tables),
         purchaseFilter_accepts input = true ->
         store w = Some s -> db s = Some t ->
         exists page, Database.listPurchases input w = Ok page w).
Proof.
  split.
  - intros page w' Hrun.
    destruct (listPurchases_ok_inv input w w' page Hrun)
      as (s & t & Hacc & Hs & Hd & Hval).
    rewrite Hval in Hrun. injection Hrun as <- <-.
    exists s, t, (Sql.boundOf input),
      (Sql.orderBy scan_purchases Sql.newestFirst
         (List.filter (Sql.matches t input) (purchases t))).
    cbv zeta. cbn [Database.items Database.total].
    split; [reflexivity |]. split; [exact Hs |]. split; [exact Hd |].
    split; [apply build_binds |]. split; [apply build_bindable |].
    split; [intros p; apply matches_selected |].
    split; [reflexivity |].
    split.
    { intros pageLimit pageOffset.
      rewrite (List.filter_ext (Sql.matches t input)
                 (Sql.matches t (FilterQuery.repage input pageLimit pageOffset)));
        [reflexivity |].
      intros p. symmetry. apply matches_repage. }
    split; [apply orderBy_permutation |].
    split.
    { apply orderBy_sorted; [exact newestFirst_total | exact newestFirst_trans]. }
    assert (Hrows : List.map Database.row
                      (List.map (Database.mapPurchase t)
                         (Sql.limitOffset (limit input) (offset input)
                            (Sql.orderBy scan_purchases Sql.newestFirst
                               (List.filter (Sql.matches t input) (purchases t)))))
                    = Sql.limitOffset (limit input) (offset input)
                        (Sql.orderBy scan_purchases Sql.newestFirst
                           (List.filter (Sql.matches t input) (purchases t)))).
    { rewrite List.map_map. cbn. apply List.map_id. }
    split; [exact Hrows |].
    intros item Hitem.
    assert (Hrow : In (Database.row item)
                     (Sql.limitOffset (limit input) (offset input)
                        (Sql.orderBy scan_purchases Sql.newestFirst
                           (List.filter (Sql.matches t input) (purchases t))))).
    { rewrite <- Hrows. apply in_map. exact Hitem. }
    apply In_limitOffset, In_orderBy, filter_In in Hrow. exact Hrow.
  - intros s t Hacc Hs Hd. eexists. exact (listPurchases_run input w s t Hacc Hs Hd).
Qed.

Lemma C9_list_purchases_witness :
  exists page,
    Database.listPurchases (H := Sample.host)
      (FilterQuery.repage Demo.noFilter 1 0) Sample.ledgerWorld
    = Ok page Sample.ledgerWorld
    /\ Database.total page = 4%Z
    /\ List.map (fun item => p_id (Database.row item)) (Database.items page)
       = ["p4"].
Proof.
  destruct (C9_list_purchases (H := Sample.host)
              (FilterQuery.repage Demo.noFilter 1 0) Sample.ledgerWorld)
    as [Hinv Hrun].
  destruct (Hrun _ Sample.ledger eq_refl eq_refl eq_refl) as [page Hpage].
  exists page. split; [exact Hpage |].
  destruct (Hinv page _ Hpage)
    as (s & t & bound & ordered & _ & Hs & Hd & _ & _ & _ & Htotal & _).
  injection Hs as <-. injection Hd as <-.
  split; [rewrite Htotal; reflexivity |].
  assert (Hids : match Database.listPurchases (H := Sample.host)
                         (FilterQuery.repage Demo.noFilter 1 0)
                         Sample.ledgerWorld with
                 | Ok listed _ =>
                     List.map (fun item => p_id (Database.row item))
                       (Database.items listed)
                 | Throw _ _ => []
                 end = ["p4"]) by by_evaluation.
  rewrite Hpage in Hids. exact Hids.
Defined.

(** ** Snapshot metadata *)

(** The claim as worded fails on a device without metadata:
    [addSnapshot] with [setActive = false] leaves one snapshot and none
    active. *)
Lemma C4_counterexample :
  let input := {| id := "imported"; label := "Imported"; createdAt := "t";
                  sourceZip := None; isActive := false |} in
  let w := Paths.after (H := Demo.host) [Paths.AddSnapshot input false]
             Demo.freshWorld in
  Paths.storedSnapshots (H := Demo.host) Demo.freshWorld = []
  /\ Paths.storedSnapshots (H := Demo.host) w = [input]
  /\ Paths.activeCount (Paths.storedSnapshots (H := Demo.host) w) = 0.
Proof. vm_compute. repeat split; reflexivity. Qed.

Section WellFormedLists.

Implicit Types (meta : list SnapshotMeta) (s : SnapshotMeta).

Lemma activated_wellFormed (snapshotId : string) meta :
  Paths.WellFormed meta ->
  In snapshotId (List.map id meta) ->
  Paths.WellFormed
    (List.map (fun s => set_isActive (String.eqb (id s) snapshotId) s) meta).
Proof.
  intros [Hnd Hone] Hin. split.
  - rewrite map_id_set_isActive. exact Hnd.
  - rewrite activeCount_activated. apply filter_unique; assumption.
Qed.

Lemma added_wellFormed (input : SnapshotMeta) (setActive : bool) meta :
  Paths.WellFormed meta ->
  ~ In (id input) (List.map id meta) ->
  Paths.WellFormed (Paths.withAdded input setActive meta).
Proof.
  intros [Hnd Hone] Hfresh. split.
  - rewrite withAdded_ids. apply List.NoDup_app.
    + exact Hnd.
    + apply List.NoDup_cons; [intros [] | apply List.NoDup_nil].
    + intros x Hin [<- | []]. exact (Hfresh Hin).
  - rewrite withAdded_activeCount. destruct setActive; [reflexivity | exact Hone].
Qed.

Lemma find_active_none meta :
  Paths.activeCount meta = 0 -> List.find isActive meta = None.
Proof.
  unfold Paths.activeCount.
  induction meta as [| s rest IH]; [reflexivity |].
  cbn. destruct (isActive s); [discriminate | exact IH].
Qed.

Lemma find_active_is_active meta s :
  List.find isActive meta = Some s -> isActive s = true.
Proof. intros Hfind. apply List.find_some in Hfind. tauto. Qed.

End WellFormedLists.

(** What the three operations do to the record in the file, whether
    they return or throw, on a device whose metadata file reads back as
    it was written. *)
Section MetadataCalls.

Context `{Host}.

Hypothesis reads_back :
  forall l : list SnapshotMeta, parse_meta (json_meta l) = Some l.

Hypothesis readable :
  forall f : Fs, readFault Paths.snapshotsMetaPath f = None.

Lemma stored_same_files (w w' : World) :
  files (fs w') = files (fs w) ->
  Paths.storedSnapshots w' = Paths.storedSnapshots w.
Proof. unfold Paths.storedSnapshots. intros ->. reflexivity. Qed.

Lemma stored_written (l : list SnapshotMeta) (w' : World) :
  files (fs w') !! Paths.snapshotsMetaPath = Some (json_meta l) ->
  Paths.storedSnapshots w' = l.
Proof.
  unfold Paths.storedSnapshots. intros ->. rewrite reads_back. reflexivity.
Qed.

Lemma ensureDir_files (path : string) (w : World) :
  files (fs (state_of (ensureDir path w))) = files (fs w).
Proof. exact (proj1 (ensureDir_frame path w)). Qed.

Lemma ensureDatasetLayout_files (datasetId : string) (w : World) :
  files (fs (state_of (Paths.ensureDatasetLayout datasetId w))) = files (fs w).
Proof.
  unfold Paths.ensureDatasetLayout.
  pose proof (ensureDir_files (Paths.getDatasetDir datasetId) w) as Hfirst.
  destruct (ensureDir (Paths.getDatasetDir datasetId) w) as [[] w1 | e w1] eqn:E.
  - rewrite (bind_ok _ _ _ _ _ E). cbn [state_of] in Hfirst.
    rewrite ensureDir_files. exact Hfirst.
  - rewrite (bind_throw _ _ _ _ _ E). exact Hfirst.
Qed.

(** Writing the record either puts it into the file or throws and
    leaves the files alone. *)
Lemma writeSnapshotMeta_outcome (l : list SnapshotMeta) (w : World) :
  (exists w',
      Paths.writeSnapshotMeta l w = Ok tt w'
      /\ files (fs w') !! Paths.snapshotsMetaPath = Some (json_meta l))
  \/ (exists e w',
         Paths.writeSnapshotMeta l w = Throw e w'
         /\ files (fs w') = files (fs w)).
Proof.
  unfold Paths.writeSnapshotMeta.
  pose proof (ensureDir_files (Path.dirname Paths.snapshotsMetaPath) w)
    as Hdir.
  destruct (ensureDir (Path.dirname Paths.snapshotsMetaPath) w)
    as [[] w1 | e w1] eqn:E; cbn [state_of] in Hdir.
  - rewrite (bind_ok _ _ _ _ _ E). unfold Filesystem_writeFile.
    destruct (writeFault _ _ _) as [e |].
    + right. exists e, w1. split; [reflexivity | exact Hdir].
    + left. eexists. split; [reflexivity |]. cbn. apply lookup_insert_eq.
  - right. exists e, w1. split; [apply bind_throw; exact E | exact Hdir].
Qed.

Lemma ensureBaseLayout_throws (w w1 : World) (e : JsError) :
  Paths.ensureBaseLayout w = Throw e w1 ->
  files (fs w1) = files (fs w).
Proof.
  unfold Paths.ensureBaseLayout. intros Hrun.
  pose proof (ensureDir_files Paths.dataDir w) as Hdata.
  destruct (ensureDir Paths.dataDir w) as [[] wa | ea wa] eqn:Ea;
    cbn [state_of] in Hdata;
    [rewrite (bind_ok _ _ _ _ _ Ea) in Hrun
    | rewrite (bind_throw _ _ _ _ _ Ea) in Hrun; injection Hrun as _ <-;
      exact Hdata].
  pose proof (ensureDir_files Paths.exportsDir wa) as Hexports.
  destruct (ensureDir Paths.exportsDir wa) as [[] wb | eb wb] eqn:Eb;
    cbn [state_of] in Hexports;
    [rewrite (bind_ok _ _ _ _ _ Eb) in Hrun
    | rewrite (bind_throw _ _ _ _ _ Eb) in Hrun; injection Hrun as _ <-;
      congruence].
  pose proof (ensureDir_files Paths.tempDir wb) as Htemp.
  destruct (ensureDir Paths.tempDir wb) as [[] wc | ec wc] eqn:Ec;
    cbn [state_of] in Htemp;
    [rewrite (bind_ok _ _ _ _ _ Ec) in Hrun
    | rewrite (bind_throw _ _ _ _ _ Ec) in Hrun; injection Hrun as _ <-;
      congruence].
  rewrite (bind_ok _ _ _ _ _ (exists_run _ wc)) in Hrun.
  destruct (bool_decide _); [discriminate |].
  destruct (writeSnapshotMeta_outcome [] wc)
    as [(w' & Hok & _) | (e' & w' & Hthrow & Hfiles)].
  - rewrite Hok in Hrun. discriminate.
  - rewrite Hthrow in Hrun. injection Hrun as _ <-. congruence.
Qed.

(** Reading hands out the record of the file, and leaves it as it
    is. *)
Lemma readSnapshotMeta_stored (w w1 : World) (meta : list SnapshotMeta) :
  Paths.readSnapshotMeta w = Ok meta w1 ->
  meta = Paths.storedSnapshots w
  /\ Paths.storedSnapshots w1 = Paths.storedSnapshots w.
Proof.
  intros Hread.
  pose proof (readSnapshotMeta_ok_inv _ _ _ Hread) as Hlayout.
  rewrite (readSnapshotMeta_run _ _ Hlayout), readable in Hread.
  injection Hread as <-.
  assert (Hsame : Paths.storedSnapshots w1 = Paths.storedSnapshots w).
  { destruct (ensureBaseLayout_ok _ _ Hlayout)
      as (_ & _ & [[_ Hfiles] | (Hnone & _ & Hfiles)]).
    - apply stored_same_files, Hfiles.
    - rewrite (stored_written [] w1)
        by (rewrite Hfiles; apply lookup_insert_eq).
      unfold Paths.storedSnapshots. rewrite Hnone. reflexivity. }
  split; exact Hsame.
Qed.

Lemma readSnapshotMeta_throws (w w1 : World) (e : JsError) :
  Paths.readSnapshotMeta w = Throw e w1 ->
  Paths.storedSnapshots w1 = Paths.storedSnapshots w.
Proof.
  unfold Paths.readSnapshotMeta. intros Hrun.
  destruct (Paths.ensureBaseLayout w) as [[] wa | ea wa] eqn:Elayout.
  - rewrite (bind_ok _ _ _ _ _ Elayout) in Hrun. exfalso. revert Hrun.
    unfold tryCatch, mbind, M_bind, Filesystem_readFile.
    destruct (readFault _ _); [discriminate |].
    destruct (files (fs wa) !! _) as [raw |]; [| discriminate].
    destruct (parse_meta raw); discriminate.
  - rewrite (bind_throw _ _ _ _ _ Elayout) in Hrun. injection Hrun as _ <-.
    apply stored_same_files. exact (ensureBaseLayout_throws _ _ _ Elayout).
Qed.

(** On a record with an active snapshot [ensureActiveSnapshot] writes
    nothing. *)
Lemma ensureActiveSnapshot_keeps (w : World) :
  Paths.activeCount (Paths.storedSnapshots w) <> 0 ->
  Paths.storedSnapshots (state_of (Paths.ensureActiveSnapshot w))
  = Paths.storedSnapshots w.
Proof.
  intros Hactive. unfold Paths.ensureActiveSnapshot.
  destruct (Paths.readSnapshotMeta w) as [meta w1 | e w1] eqn:Eread.
  - rewrite (bind_ok _ _ _ _ _ Eread).
    destruct (readSnapshotMeta_stored _ _ _ Eread) as [-> Hsame].
    destruct (find_active_some _ Hactive) as [active ->].
    pose proof (ensureDatasetLayout_files (id active) w1) as Hlayout.
    destruct (Paths.ensureDatasetLayout (id active) w1) as [[] w2 | e w2] eqn:E;
      cbn [state_of] in Hlayout.
    + rewrite (bind_ok _ _ _ _ _ E). cbn [state_of mret M_ret].
      rewrite <- Hsame. apply stored_same_files, Hlayout.
    + rewrite (bind_throw _ _ _ _ _ E). cbn [state_of].
      rewrite <- Hsame. apply stored_same_files, Hlayout.
  - rewrite (bind_throw _ _ _ _ _ Eread). cbn [state_of].
    exact (readSnapshotMeta_throws _ _ _ Eread).
Qed.

(** [activateSnapshot] leaves the record as it is, or leaves it with
    the snapshot of a listed id as the active one. *)
Lemma activateSnapshot_leaves (snapshotId : string) (w : World) :
  let w' := state_of (Paths.activateSnapshot snapshotId w) in
  Paths.storedSnapshots w' = Paths.storedSnapshots w
  \/ (In snapshotId (List.map id (Paths.storedSnapshots w))
      /\ Paths.storedSnapshots w'
         = List.map (fun s => set_isActive (String.eqb (id s) snapshotId) s)
             (Paths.storedSnapshots w)).
Proof.
  cbv zeta. unfold Paths.activateSnapshot.
  destruct (Paths.readSnapshotMeta w) as [meta w1 | e w1] eqn:Eread.
  - rewrite (bind_ok _ _ _ _ _ Eread).
    destruct (readSnapshotMeta_stored _ _ _ Eread) as [-> Hsame].
    pose proof (activateAll_found_iff snapshotId (Paths.storedSnapshots w))
      as Hiff.
    pose proof (activateAll_mapped snapshotId (Paths.storedSnapshots w))
      as Hmap.
    destruct (Paths.activateAll snapshotId (Paths.storedSnapshots w))
      as [found mapped].
    cbn [fst snd] in Hiff, Hmap. subst mapped.
    destruct found; cbn [negb].
    + destruct (writeSnapshotMeta_outcome
                  (List.map
                     (fun s => set_isActive (String.eqb (id s) snapshotId) s)
                     (Paths.storedSnapshots w)) w1)
        as [(w2 & Hok & Hfile) | (e & w2 & Hthrow & Hfiles)].
      * right. split; [apply Hiff; reflexivity |].
        rewrite (bind_ok _ _ _ _ _ Hok).
        apply stored_written.
        rewrite ensureDatasetLayout_files. exact Hfile.
      * left. rewrite (bind_throw _ _ _ _ _ Hthrow). cbn [state_of].
        rewrite <- Hsame. apply stored_same_files, Hfiles.
    + left. exact Hsame.
  - left. rewrite (bind_throw _ _ _ _ _ Eread). cbn [state_of].
    exact (readSnapshotMeta_throws _ _ _ Eread).
Qed.

(** [addSnapshot] leaves the record as it is, or with the new snapshot
    at its end. *)
Lemma addSnapshot_leaves (input : SnapshotMeta) (setActive : bool)
  (w : World) :
  let w' := state_of (Paths.addSnapshot input setActive w) in
  Paths.storedSnapshots w' = Paths.storedSnapshots w
  \/ Paths.storedSnapshots w'
     = Paths.withAdded input setActive (Paths.storedSnapshots w).
Proof.
  cbv zeta. unfold Paths.addSnapshot.
  destruct (Paths.readSnapshotMeta w) as [meta w1 | e w1] eqn:Eread.
  - rewrite (bind_ok _ _ _ _ _ Eread).
    destruct (readSnapshotMeta_stored _ _ _ Eread) as [-> Hsame].
    destruct (writeSnapshotMeta_outcome
                (Paths.withAdded input setActive (Paths.storedSnapshots w)) w1)
      as [(w2 & Hok & Hfile) | (e & w2 & Hthrow & Hfiles)].
    + right. rewrite (bind_ok _ _ _ _ _ Hok).
      apply stored_written.
      pose proof (ensureDatasetLayout_files
                    (id (set_isActive setActive input)) w2) as Hlayout.
      destruct (Paths.ensureDatasetLayout (id (set_isActive setActive input)) w2)
        as [[] w3 | e w3] eqn:E; cbn [state_of] in Hlayout.
      * rewrite (bind_ok _ _ _ _ _ E). cbn [state_of mret M_ret].
        rewrite Hlayout. exact Hfile.
      * rewrite (bind_throw _ _ _ _ _ E). cbn [state_of].
        rewrite Hlayout. exact Hfile.
    + left. rewrite (bind_throw _ _ _ _ _ Hthrow). cbn [state_of].
      rewrite <- Hsame. apply stored_same_files, Hfiles.
  - left. rewrite (bind_throw _ _ _ _ _ Eread). cbn [state_of].
    exact (readSnapshotMeta_throws _ _ _ Eread).
Qed.

Lemma state_of_then_skip {A} (m : Async A) (w : World) :
  state_of ((m;; skip) w) = state_of (m w).
Proof.
  unfold mbind, M_bind. destruct (m w); reflexivity.
Qed.

(** One call keeps a well-formed record well-formed. *)
Lemma perform_wellFormed (call : Paths.Call) (w : World) :
  Paths.WellFormed (Paths.storedSnapshots w) ->
  match call with
  | Paths.AddSnapshot input _ =>
      ~ In (id input) (List.map id (Paths.storedSnapshots w))
  | _ => True
  end ->
  Paths.WellFormed (Paths.storedSnapshots (state_of (Paths.perform call w))).
Proof.
  intros Hwf Hfresh. destruct call as [| snapshotId | input setActive];
    cbn [Paths.perform].
  - rewrite state_of_then_skip, ensureActiveSnapshot_keeps; [exact Hwf |].
    destruct Hwf as [_ ->]. discriminate.
  - destruct (activateSnapshot_leaves snapshotId w) as [-> | [Hin ->]];
      [exact Hwf | apply activated_wellFormed; assumption].
  - rewrite state_of_then_skip.
    destruct (addSnapshot_leaves input setActive w) as [-> | ->];
      [exact Hwf | apply added_wellFormed; assumption].
Qed.

(** The record is well-formed after every call of the sequence. *)
Lemma after_wellFormed (calls : list Paths.Call) (w : World) (n : nat) :
  Paths.WellFormed (Paths.storedSnapshots w) ->
  Paths.freshCalls calls w ->
  Paths.WellFormed (Paths.storedSnapshots (Paths.after (firstn n calls) w)).
Proof.
  revert w n. induction calls as [| call rest IH]; intros w n Hwf Hfresh.
  - rewrite List.firstn_nil. exact Hwf.
  - destruct n as [| n]; [exact Hwf |].
    destruct Hfresh as [Hcall Hrest]. cbn [firstn Paths.after].
    apply IH; [| exact Hrest].
    apply perform_wellFormed; assumption.
Qed.

(** Without an active snapshot [ensureActiveSnapshot] leaves a record
    that holds the snapshot it returns, and nothing else. *)
Lemma ensureActiveSnapshot_creates (w w' : World) (active : SnapshotMeta) :
  Paths.activeCount (Paths.storedSnapshots w) = 0 ->
  Paths.ensureActiveSnapshot w = Ok active w' ->
  Paths.storedSnapshots w' = [active] /\ isActive active = true.
Proof.
  intros Hnone Hrun.
  destruct (ensureActiveSnapshot_ok _ _ _ Hrun)
    as (meta & w1 & Hread & [[Hfind _] | (_ & newId & now & -> & Hfile)]).
  - destruct (readSnapshotMeta_stored _ _ _ Hread) as [-> _].
    rewrite (find_active_none _ Hnone) in Hfind. discriminate.
  - split; [exact (stored_written _ _ Hfile) | reflexivity].
Qed.

Lemma activateSnapshot_known (snapshotId : string) (w w' : World) :
  Paths.activateSnapshot snapshotId w = Ok tt w' ->
  In snapshotId (List.map id (Paths.storedSnapshots w))
  /\ Paths.storedSnapshots w'
     = List.map (fun s => set_isActive (String.eqb (id s) snapshotId) s)
         (Paths.storedSnapshots w).
Proof.
  intros Hrun.
  destruct (activateSnapshot_ok _ _ _ Hrun) as (meta & w1 & Hread & Hin & Hfile).
  destruct (readSnapshotMeta_stored _ _ _ Hread) as [-> _].
  split; [exact Hin | exact (stored_written _ _ Hfile)].
Qed.

End MetadataCalls.

(** The format of [Plain] reads back. *)
Section PlainFormat.

Lemma readText_writeText (s rest : string) :
  Plain.readText (Plain.writeText s +:+ rest) = Some (s, rest).
Proof.
  induction s as [| c s IH]; [reflexivity |].
  cbn [Plain.writeText]. rewrite !app_cons. cbn [Plain.readText].
  replace (Ascii.eqb "+" ".") with false by reflexivity.
  rewrite Ascii.eqb_refl, IH. reflexivity.
Qed.

Lemma readSnapshot_writeSnapshot (s : SnapshotMeta) (rest : string) :
  Plain.readSnapshot (Plain.writeSnapshot s +:+ rest) = Some (s, rest).
Proof.
  unfold Plain.writeSnapshot, Plain.readSnapshot.
  rewrite !app_assoc, readText_writeText, readText_writeText,
    readText_writeText.
  destruct s as [i l c z a]. cbn [sourceZip isActive id label createdAt].
  destruct z as [z |]; rewrite app_cons, readText_writeText;
    destruct a; reflexivity.
Qed.

Lemma length_string_app (s t : string) :
  String.length (s +:+ t) = String.length s + String.length t.
Proof.
  induction s as [| c s IH]; [reflexivity |].
  rewrite app_cons. cbn [String.length]. rewrite IH. reflexivity.
Qed.

Lemma length_writeSnapshots (l : list SnapshotMeta) :
  length l <= String.length (Plain.writeSnapshots l).
Proof.
  induction l as [| s l IH]; [reflexivity |].
  cbn [Plain.writeSnapshots length String.length].
  rewrite length_string_app. lia.
Qed.

Lemma readSnapshots_writeSnapshots (l : list SnapshotMeta) (fuel : nat) :
  length l <= fuel ->
  Plain.readSnapshots fuel (Plain.writeSnapshots l) = Some l.
Proof.
  revert fuel. induction l as [| s l IH]; intros fuel Hfuel.
  - destruct fuel; reflexivity.
  - destruct fuel as [| fuel]; [cbn in Hfuel; lia |].
    cbn [Plain.writeSnapshots Plain.readSnapshots].
    rewrite Ascii.eqb_refl, readSnapshot_writeSnapshot, IH by (cbn in Hfuel; lia).
    reflexivity.
Qed.

Lemma plain_reads_back (l : list SnapshotMeta) :
  Plain.parseSnapshots (Plain.writeSnapshots l) = Some l.
Proof.
  apply readSnapshots_writeSnapshots, length_writeSnapshots.
Qed.

End PlainFormat.

(** C4, amended.  On a device whose metadata file reads back as it was
    written and can be read: from a record with distinct ids and exactly
    one active snapshot, every sequence of calls of
    [ensureActiveSnapshot], [activateSnapshot] and [addSnapshot], each
    returning or throwing, whose added ids are new leaves distinct ids
    and exactly one active snapshot after each of its calls; such a
    record is what
    [ensureActiveSnapshot] leaves where no snapshot is active.
    [activateSnapshot id] throws when [id] is not in the record, which
    it leaves as it is, and when it returns it leaves the record with
    the same snapshots, the one of that id active and all others
    inactive. *)
Theorem C4_snapshot_activation `{Host} :
  (forall l : list SnapshotMeta, parse_meta (json_meta l) = Some l) ->
  (forall f : Fs, readFault Paths.snapshotsMetaPath f = None) ->
  (forall (calls : list Paths.Call) (w : World),
      Paths.WellFormed (Paths.storedSnapshots w) ->
      Paths.freshCalls calls w ->
      forall n : nat,
        let stored := Paths.storedSnapshots (Paths.after (firstn n calls) w) in
        List.NoDup (List.map id stored) /\ Paths.activeCount stored = 1)
  /\ (forall (w w' : World) (active : SnapshotMeta),
         Paths.activeCount (Paths.storedSnapshots w) = 0 ->
         Paths.ensureActiveSnapshot w = Ok active w' ->
         Paths.storedSnapshots w' = [active]
         /\ Paths.WellFormed (Paths.storedSnapshots w'))
  /\ (forall (snapshotId : string) (w w1 : World) (meta : list SnapshotMeta),
         Paths.readSnapshotMeta w = Ok meta w1 ->
         ~ In snapshotId (List.map id meta) ->
         Paths.activateSnapshot snapshotId w
         = Throw (Error ("Snapshot " +:+ snapshotId +:+ " does not exist.")) w1
         /\ Paths.storedSnapshots w1 = Paths.storedSnapshots w)
  /\ (forall (snapshotId : string) (w w' : World),
         Paths.activateSnapshot snapshotId w = Ok tt w' ->
         In snapshotId (List.map id (Paths.storedSnapshots w))
         /\ List.map id (Paths.storedSnapshots w')
            = List.map id (Paths.storedSnapshots w)
         /\ Paths.storedSnapshots w'
            = List.map (fun s => set_isActive (String.eqb (id s) snapshotId) s)
                (Paths.storedSnapshots w)
         /\ forall s, In s (Paths.storedSnapshots w') ->
                      (isActive s = true <-> id s = snapshotId)).
Proof.
  intros Hback Hread.
  split; [intros calls w Hwf Hfresh n;
          exact (after_wellFormed Hback Hread calls w n Hwf Hfresh) |].
  split.
  { intros w w' active Hnone Hrun.
    destruct (ensureActiveSnapshot_creates Hback Hread w w' active Hnone Hrun)
      as [Hstored Hactive].
    split; [exact Hstored |]. rewrite Hstored. split.
    - apply List.NoDup_cons; [intros [] | apply List.NoDup_nil].
    - unfold Paths.activeCount. cbn. rewrite Hactive. reflexivity. }
  split.
  { intros snapshotId w w1 meta Hrun Hnot.
    split; [exact (activateSnapshot_unknown snapshotId w w1 meta Hrun Hnot) |].
    exact (proj2 (readSnapshotMeta_stored Hback Hread w w1 meta Hrun)). }
  intros snapshotId w w' Hrun.
  destruct (activateSnapshot_known Hback Hread snapshotId w w' Hrun)
    as [Hin Hstored].
  split; [exact Hin |]. rewrite Hstored.
  split; [apply map_id_set_isActive |]. split; [reflexivity |].
  intros s Hs. apply in_map_iff in Hs. destruct Hs as (s0 & <- & _). cbn.
  split; intros Heq; apply String.eqb_eq; exact Heq.
Qed.

Lemma C4_snapshot_activation_witness :
  let imported := {| id := "ds2"; label := "Imported | 2"; createdAt := "t3";
                     sourceZip := Some "in/pictures.zip"; isActive := false |} in
  let calls := [Paths.AddSnapshot imported false; Paths.ActivateSnapshot "ds2";
                Paths.EnsureActiveSnapshot; Paths.ActivateSnapshot "missing";
                Paths.ActivateSnapshot "ds0"] in
  Paths.activeCount
    (Paths.storedSnapshots (H := Plain.host)
       (Paths.after (H := Plain.host) (firstn 2 calls) Plain.startedWorld)) = 1
  /\ List.map (fun s => (id s, isActive s))
       (Paths.storedSnapshots (H := Plain.host)
          (Paths.after (H := Plain.host) (firstn 2 calls) Plain.startedWorld))
     = [("ds0", false); ("ds2", true)]
  /\ Paths.activeCount
       (Paths.storedSnapshots (H := Plain.host)
          (Paths.after (H := Plain.host) (firstn 5 calls) Plain.startedWorld))
     = 1.
Proof.
  intros imported calls.
  destruct (C4_snapshot_activation (H := Plain.host) plain_reads_back
              (fun _ => eq_refl))
    as (Hseq & _ & _ & _).
  assert (Hids : List.map id
                   (Paths.storedSnapshots (H := Plain.host) Plain.startedWorld)
                 = ["ds0"]) by by_evaluation.
  assert (Hwf : Paths.WellFormed
                  (Paths.storedSnapshots (H := Plain.host) Plain.startedWorld)).
  { split; [| by_evaluation].
    rewrite Hids. apply List.NoDup_cons; [intros [] | apply List.NoDup_nil]. }
  assert (Hfresh : Paths.freshCalls (H := Plain.host) calls Plain.startedWorld).
  { unfold calls. cbn [Paths.freshCalls]. split; [| repeat split].
    rewrite Hids. cbn [id imported]. intros [Heq | []]. discriminate Heq. }
  pose proof (Hseq calls Plain.startedWorld Hwf Hfresh) as Hafter.
  split; [exact (proj2 (Hafter 2)) |].
  split; [by_evaluation | exact (proj2 (Hafter 5))].
Defined.
